(* ===== verification/_CoqProject ===== *)
-Q . S2P
Prelude.v
Text.v
PyFloat.v
PyVal.v
Wire.v
Features.v
Predictor.v
BtScorer.v
Backtest.v
Prog.v
Db.v
Persist.v
Tasks.v
Extractor.v
Analytics.v
EaShim.v
Json.v
Reports.v
TradeStore.v
StoreSpec.v
Dashboard.v
DashReport.v
DashTrades.v
Calendar.v
DashCalendar.v
DashPages.v
BtReport.v
BtService.v
Backfill.v
TxnLog.v
Session.v
Services.v
Lifecycle.v
Scripts.v
Risk.v
Portal.v
Config.v
Relay.v
Portfolio.v
Journal.v
