(* ===== verification/Prelude.v ===== *)
(** * ExecRelay, a verification development

    ExecRelay relays trading signals (TradingView alerts) to MetaTrader 5.  The
    Go ingress validates a webhook and publishes a protobuf [Signal] on NATS;
    the Go bridge forwards it to an executor attached to a terminal, which
    answers with a fill; Python services store what passed on NATS
    (apps/persist), watch exposure (apps/risk), serve customers
    (apps/portal-api), file timeouts, purge old rows and run queued tasks
    (apps/tasks), summarise and report (apps/analytics, apps/reports), extract
    features (apps/ml-feature-extractor), filter signals with a model
    (apps/ml-predictor) and compare filtered with unfiltered trading
    (apps/backtester).  The services share one PostgreSQL schema.  The Python
    executor is scripts/ea_shim.py; it keeps its own SQLite store
    (scripts/_tradestore.py), which the operator reads and controls through
    scripts/trade_dashboard.py.  This library models the Python part.

    ** Files

    Foundations:
    - [Prelude]: results, lookups, tactics and hint databases, the common orders of
      two threads' events.
    - [Text]: [str] as its UTF-8 bytes, decoding, length and slicing in code
      points.
    - [PyFloat]: the class [Arith] of float operations, with binary64 and exact
      rational instances.
    - [PyVal]: dynamically typed values, [dict.get], truthiness, [int], [float].
    - [Json]: [json.dumps] and [json.loads].
    - [Prog]: coroutines as trees of atomic statements, run alone under a
      schedule of failures or interleaved with others.
    - [Db]: the shared tables of infra/migrations as lists of rows.
    - [Calendar]: Gregorian dates, their ISO texts and the order of those.

    Components, with the source each translates function by function:
    - [Wire]: [_varint], [parse_signal] of apps/persist/app.py and [_pb_varint]
      .. [encode_signal_proto], [decode_signal_proto] of apps/portal-api/app.py.
    - [Features]: apps/backtester/feature_builder.py.
    - [Predictor]: apps/ml-predictor/xgb_predictor.py and app.py.
    - [Backtest]: apps/backtester/backtest_ml.py and the metrics of
      [run_backtest] in apps/backtester/app.py; [BtScorer]:
      apps/backtester/xgb_predictor.py; [BtReport]: the CSV loaders, the summary
      and the command line of backtest_ml.py and apps/backtester/report_export.py;
      [BtService]: [run_backtest] and [http_handler] of apps/backtester/app.py.
    - [Persist]: the handlers, writers, readiness and health endpoint of
      apps/persist/app.py.
    - [EaShim]: scripts/ea_shim.py from sizing to the position monitor;
      [Session]: its start-up check, websocket session and reconnecting main loop,
      next to the thread of the monitor, on one terminal.
    - [TradeStore]: scripts/_tradestore.py, the SQLite store of the executor.
    - [Risk]: apps/risk/app.py.
    - [Portal], [Portfolio], [Journal]: apps/portal-api/app.py: accounts,
      licenses and signals; correlation, groups, exposure, metrics, export and
      middleware; the journal export.
    - [Tasks], [Analytics], [Reports], [Extractor]: the app.py of apps/tasks,
      apps/analytics, apps/reports and apps/ml-feature-extractor.
    - [Dashboard], [DashReport], [DashTrades]: scripts/trade_dashboard.py: the
      POST handler and its controls; the reports over the store; deals, closed
      positions and CSV exports.  [DashCalendar]: the monthly calendar.
      [DashPages]: the terminal connection, the views, the digest text, the weekly
      workbook and the GET handler.
    - [Backfill]: the lines of scripts/_txnlog.py, their readers, and the backfill
      of scripts/_tradestore.py; [TxnLog]: rotation, retention and set-up of the
      log files.
    - [Services]: the JSON log lines of three services, the life of the persist
      worker, the monitoring endpoint of the risk service.
    - [Lifecycle]: [main] of apps/risk, apps/ml-feature-extractor and
      apps/backtester, the [lifespan] of apps/portal-api, apps/analytics and
      apps/reports, the start of apps/ml-predictor.
    - [Config]: what each process reads from its environment, the refusals of
      portal, persist and tasks in production, the settings executor and dashboard
      share, the addresses and the container health checks, and [_post_to_ingress].
    - [Scripts]: scripts/generate-dev-certs.py and scripts/e2e_demo_matrix.py.

    Specifications over several components:
    - [StoreSpec]: an abstract book of finite maps (orders, trades, snapshots,
      signals, settings) and the trade store as its implementation.
    - [Relay]: an abstract ledger of signals, the services over the shared database
      as its implementation, and the story of one signal from delivery to the
      portal's trace page.

    ** Correspondence

    A pure function is a function.  A function that may raise returns [result]
    (or [option] where only the fact matters).  A handler of a service is a
    [prog] over the database: one [Stmt] per SQL call, which takes effect
    atomically or fails and raises, as asyncpg outside a transaction does; an ack, a
    send on a connection and a write of a log are such statements too; [Act] is an
    effect that cannot fail (a counter).  The executor is a state monad over
    the terminal's state and the trace of what was listed and sent; the
    [MetaTrader5] functions are the fields of the record [Broker] and the trade
    store's those of [Store], so its theorems hold for every terminal and store;
    [TradeStore.store_at] is the store that exists, and the theorem
    [TradeStore.close_stays_in_signal] is about the two together.
    The dashboard's state holds the store as one component; its handlers run the
    store's programs there ([Prog.zoom]).  The world of a session is the terminal,
    the trade store, the text of the transaction log and the messages sent, so one
    theorem follows a signal through all of them; the thread of the monitor shares
    the terminal with it call by call ([Session.shared], [interleaved]).  [try]/[finally] are
    [Prog.try_] and [Prog.finally]; what the peer of a connection does is a list of
    inputs.  Reports and analytics read the tables
    the other services write, and the portal's exposure routes the risk
    service's, so their theorems compare the components directly.
    Float code is written against [Arith]: theorems for every [Arith] hold of
    binary64, those on [Q] state the formula without rounding.  JSON decoding,
    password hashing, tokens, UUID parsing, the XGBoost booster and ISO dates
    are arguments of the definitions that call them.

    ** What the theorems show

    - Storage: at most one accepted row per license and fingerprint under every
      interleaving and failure; exactly one ack per message, or the exception of the
      ack itself; the exact effect of an undisturbed delivery; and the two ways data
      is lost or misfiled (a failure after the fingerprint was claimed, instance keys
      shared by tenants).
    - Composition: any interleaving of persist worker, scheduled tasks, report
      service, portal routes and clock, failing anywhere, is a run of a ledger in
      which a signal only moves forward, and a stored row stays until retention
      finds it too old; a delivered signal is shown by the portal with its own fill, or with one timeout once it is
      overdue.
    - Wire: both decoders invert the encoder, the strict one refines the lenient
      one and accepts only well-formed messages, both terminate.
    - Execution: every request of the dispatcher is what its command allows, on its
      symbol and side, and it and every request of the monitor is authorized by an
      earlier listing of the terminal; sizing returns the largest multiple of the
      step within the budget (in exact arithmetic); a fill reported is a fill confirmed; a
      refusal sends nothing; exactly what a close withdraws or moves, and that
      it is of the same signal by the store.
    - Session: signals are answered once and in order, whatever fails; a process
      on a terminal without a demo account sends nothing, and on any other both its
      threads touch only what is their own; what bridge, log and store are told of a
      fill, and where the store keeps an earlier value; the import from the log undoes the sizing.
    - Trade store: every sequence of recording calls, failing anywhere, ends in
      the tables of the abstract book after a subsequence of the calls; a ticket resolves to all legs of its signal; trace ids are
      kept; migrations are idempotent and lose nothing, and which stores they leave
      behind; the symbol map reads back;
      the dry-run switch fails safe.
    - Learning and backtest: features of a bar never read later candles; a
      vector has the names the model expects; the moving average and RSI bounds; the
      Option-1 decision table; a failed prediction changes nothing; every signal
      and trade of a comparison is accounted for; a filter that passes all
      signals reproduces the unfiltered branch; the drawdown is the largest fall;
      the backtester's copy of the predictor is the predictor; signal and trade
      files read back; the HTML report has fixed markup whatever the trades; an
      export succeeds exactly when every trade has a price.
    - Backtester service: a request body arrives whole, replies are framed, the
      gauge of running backtests does not drift under interleaving and lost
      connections, and no result is ever recorded (the driver refuses the date texts).
    - Portal: no route writes to another tenant's rows; the two-secret rotation;
      what a replay does; a CSV export reads back as the user's own fills.
    - Risk: position keys stay unique; one ack per fill, unless the ack fails; which breaches are
      missed; the portal's two views of exposure are the total checked here.
    - Tasks (liveness): every overdue signal is answered and every pending task
      completes after enough undisturbed iterations, whatever else fails or
      arrives; retention removes only old rows; what a half-finished poll leaves
      behind.
    - Reporting: stored reports are unique and permanent under interleaving; the
      daily report equals the analytics of the day; percentiles are ordered; an
      export holds the user's data, all of it and no other.
    - Dashboard: live trading is armed only by an admitted, confirmed request,
      whatever fails, and is logged, or its failed log write reported; a test signal
      is sent only on purpose and out of dry-run; answers and logs depend on the
      webhook secret only through the reply of ingress; an edit changes one alias; the light is green exactly when every link is up;
      deals are grouped as a filter per position would, conserving profit; the
      drawdown of positive equities is the largest fall; digest and scorecard agree; the CSV reads back;
      GET requests change nothing and tell nothing past the gates; the terminal is
      tried at most once per back-off; a calendar page is complete; the workbook
      adds up.
    - Logs: what is logged is read back, finite floats included, also through the
      dashboard's cache; the import stores what the dashboard computes and may be run
      again; a rotation drops a record only when the file cannot be opened again or
      written, and the library's own handler would drop every one; the
      services' log lines are one JSON document each.
    - Configuration: production starts only with its own database, broker, signing
      key and origins where a service checks them; one environment gives executor
      and dashboard one identity; a health check asks the server its environment
      starts; the dashboard admits its own port under loopback names only.
    - Scripts: both ways of making a certificate ask for the same names, for
      addresses and host names; the expectations of the demo matrix are those of
      the Option-1 table, and its verdict is a comparison of multisets.
    - Start and end: what a worker without its database does to the messages; a
      service told to stop has released what it opened; the consumers end in an
      unbound variable when NATS cannot be reached; the portal serves without NATS
      and never without its database, analytics and reports also without; the predictor says whether its model loaded.

    ** Bounds and fuel

    The decoding loops of [Wire] take the input length as fuel; every iteration
    consumes a byte, and [Wire.decoders_terminate] shows they never
    run out.  [Dashboard.redact_chars] takes the length of the text, enough by
    [Dashboard.redact_fuel].  [Json.loads] takes twice the length, which
    [Json.value_fuel_enough] shows to be enough.  [prog] trees are inductive, so handlers terminate.  Wire integers
    are unbounded as in Python; [Persist.bigint] is the 64-bit bound of the
    column.  [JOURNAL_MAX_ROWS] and the other limits are the source's.

    ** Not modelled

    Prometheus exposition, console output, sockets, argument parsing, password
    hashing and token signing (I/O and libraries); the dashboard's page, one text of
    HTML and JavaScript, which is an opaque answer of [DashPages.do_GET]; the script
    that packages the tools, which only passes arguments to PyInstaller; the Go
    services, the web front end, terminal scripts and migrations (other languages).
    What is left of the Python files is imports, comments, metric declarations and
    response schemas. *)

From stdpp Require Export base tactics list strings gmap pretty numbers.
From Stdlib Require Export Lia.
From Stdlib Require Import Strings.Byte Ascii.

Declare Scope py_scope.
Delimit Scope py_scope with py.

(** ** Automation shared by the files *)

Create HintDb py discriminated.
Create Rewrite HintDb py.

(** Case analysis on the scrutinee of the first [match] or [if] met, in the
    goal or in a hypothesis, keeping its equation. *)
Ltac case_scrutinee :=
  match goal with
  | |- context [match ?x with _ => _ end] => destruct x eqn:?
  end.

Ltac case_scrutinee_in H :=
  match type of H with
  | context [match ?x with _ => _ end] => destruct x eqn:?
  end.

(** Split a conjunction of boolean tests held in hypotheses. *)
Ltac bool_hyps :=
  repeat match goal with
  | H : (_ && _) = true |- _ => apply andb_true_iff in H; destruct H
  | H : (_ || _) = false |- _ => apply orb_false_iff in H; destruct H
  | H : negb _ = true |- _ => apply negb_true_iff in H
  | H : negb _ = false |- _ => apply negb_false_iff in H
  end.

(** ** Results: a Python call returns a value or raises *)

Inductive result (E A : Type) : Type :=
| Ok (a : A)
| Err (e : E).

Arguments Ok {E A} a.
Arguments Err {E A} e.

#[export] Instance result_inhabited {E A} `{Inhabited E} : Inhabited (result E A) :=
  populate (Err inhabitant).

Definition rbind {E A B} (r : result E A) (k : A -> result E B) : result E B :=
  match r with Ok a => k a | Err e => Err e end.

Notation "'let!' x ':=' r 'in' k" := (rbind r (fun x => k))
  (at level 10, x pattern, r at level 100, k at level 200) : py_scope.
Open Scope py_scope.

(** Raise [e] when an optional value is missing ([except IndexError]). *)
Definition or_raise {E A} (o : option A) (e : E) : result E A :=
  match o with Some a => Ok a | None => Err e end.

Definition is_ok {E A} (r : result E A) : bool :=
  match r with Ok _ => true | Err _ => false end.

Lemma rbind_Ok {E A B} (r : result E A) (k : A -> result E B) b :
  rbind r k = Ok b -> exists a, r = Ok a /\ k a = Ok b.
Proof. destruct r as [a|e]; simpl; [eauto | discriminate]. Qed.

Lemma or_raise_Ok {E A} (o : option A) (e : E) a : or_raise o e = Ok a -> o = Some a.
Proof. destruct o; simpl; congruence. Qed.

(** Invert a chain of [let!] known to succeed. *)
Ltac inv_ok :=
  repeat match goal with
  | H : rbind _ _ = Ok _ |- _ =>
      apply rbind_Ok in H; let a := fresh "a" in destruct H as (a & ? & H)
  | H : or_raise _ _ = Ok _ |- _ => apply or_raise_Ok in H
  | H : Ok _ = Ok _ |- _ => injection H as H
  | H : Err _ = Ok _ |- _ => discriminate H
  end.

(** ** Bytes *)

Abbreviation byte := Init.Byte.byte.
Definition bytes := list byte.

(** Python's [b & m] and friends act on the integer value of the byte. *)
Definition byte_val (b : byte) : N := Byte.to_N b.

(** [bytes([n])]: the callers keep [n] in [0, 256). *)
Definition byte_of (n : N) : byte := default Byte.x00 (Byte.of_N n).

Definition blen (d : bytes) : N := N.of_nat (length d).

(** [d[lo:hi]] for [0 <= lo <= hi]: bounds past the end are clipped. *)
Definition slice (d : bytes) (lo hi : N) : bytes :=
  take (N.to_nat (N.min hi (blen d) - N.min lo (blen d)))
       (drop (N.to_nat (N.min lo (blen d))) d).

Lemma byte_val_of n : (n < 256)%N -> byte_val (byte_of n) = n.
Proof.
  intros H. unfold byte_val, byte_of. destruct (Byte.of_N n) as [b|] eqn:E; simpl.
  - by apply Byte.to_of_N.
  - apply Byte.of_N_None_iff in E. lia.
Qed.

Lemma blen_app d1 d2 : blen (d1 ++ d2) = (blen d1 + blen d2)%N.
Proof. unfold blen. rewrite length_app. lia. Qed.

Lemma blen_cons b d : blen (b :: d) = (1 + blen d)%N.
Proof. unfold blen. simpl. lia. Qed.

Lemma blen_nil : blen [] = 0%N.
Proof. done. Qed.

Lemma drop_blen_app d1 d2 : drop (N.to_nat (blen d1)) (d1 ++ d2) = d2.
Proof. unfold blen. rewrite Nat2N.id. apply drop_app_length. Qed.

Lemma slice_middle d1 d2 d3 :
  slice (d1 ++ d2 ++ d3) (blen d1) (blen d1 + blen d2) = d2.
Proof.
  unfold slice. rewrite !blen_app.
  replace (N.min _ _) with (blen d1 + blen d2)%N by lia.
  replace (N.min _ _) with (blen d1) by lia.
  rewrite drop_blen_app.
  replace (N.to_nat _) with (length d2) by (unfold blen; lia).
  apply take_app_length.
Qed.

Lemma slice_length_le d lo hi : (hi <= blen d)%N -> (lo <= hi)%N -> blen (slice d lo hi) = (hi - lo)%N.
Proof.
  intros H1 H2. unfold slice.
  rewrite (N.min_l hi) by done. rewrite (N.min_l lo) by lia.
  unfold blen in *. rewrite length_take, length_drop. lia.
Qed.

(** The bit length bounds the number. *)
Lemma size_nat_bound n : (n < 2 ^ N.of_nat (N.size_nat n))%N.
Proof.
  destruct n as [|p]; [simpl; lia|]. simpl.
  induction p as [p IH|p IH|]; cbn [Pos.size_nat];
    rewrite ?Nat2N.inj_succ, ?N.pow_succ_r'; [lia|lia|done].
Qed.

(** Two elements with one key are one where keys are unique. *)
Lemma unique_key {X K} (f : X -> K) l x y : NoDup (map f l) -> x ∈ l -> y ∈ l -> f x = f y -> x = y.
Proof.
  induction l as [|z l IH]; intros H; [by intros []%not_elem_of_nil|]. cbn [map] in H.
  apply list.NoDup_cons in H as [Hz H]. rewrite !elem_of_cons. intros [->|Hx] [->|Hy] E; try done; [| |auto].
  - destruct Hz. rewrite E. by apply list_elem_of_fmap_2.
  - destruct Hz. rewrite <-E. by apply list_elem_of_fmap_2.
Qed.

(** ** Two threads *)

(** The events of two threads in one common order, each thread's in its own. *)
Inductive interleaved {X} : list X -> list X -> list X -> Prop :=
| interleaved_nil : interleaved [] [] []
| interleaved_l x l r all : interleaved l r all -> interleaved (x :: l) r (x :: all)
| interleaved_r x l r all : interleaved l r all -> interleaved l (x :: r) (x :: all).

(** What comes before an event in the common order includes what came before it in
    its thread. *)
Lemma interleaved_split {X} (l r pre post : list X) x : interleaved l r (pre ++ x :: post) ->
  (exists pre' post', l = pre' ++ x :: post' /\ pre' ⊆ pre) \/
  (exists pre' post', r = pre' ++ x :: post' /\ pre' ⊆ pre).
Proof.
  revert l r. induction pre as [|y pre IH]; intros l r H; inversion H as [|? l' ? ? H'|? ? r' ? H']; subst.
  - left. by exists [], l'.
  - right. by exists [], r'.
  - destruct (IH _ _ H') as [(p & q & -> & Hs)|(p & q & -> & Hs)].
    + left. exists (y :: p), q. split; [done|set_solver].
    + right. exists p, q. split; [done|set_solver].
  - destruct (IH _ _ H') as [(p & q & -> & Hs)|(p & q & -> & Hs)].
    + left. exists p, q. split; [done|set_solver].
    + right. exists (y :: p), q. split; [done|set_solver].
Qed.
