(* ===== verification/Text.v ===== *)
(** * Text: Python strings and UTF-8

    A Python [str] without lone surrogates corresponds one to one to its UTF-8
    encoding, so a [str] is modelled by the Rocq [string] that holds that
    encoding: [s.encode("utf-8")] is the identity on bytes, and
    [raw.decode("utf-8")] succeeds exactly when the bytes are well-formed
    UTF-8.  [len] and slicing count code points, not bytes.  Case mapping and
    stripping act on ASCII, which is all the callers compare against. *)

From S2P Require Import Prelude.
From Stdlib Require Import Strings.Byte Ascii.
Open Scope N_scope.

(** ** Byte strings and strings *)

Definition encode_utf8 (s : string) : bytes := String.list_byte_of_string s.
Definition string_of_bytes (d : bytes) : string := String.string_of_list_byte d.

Lemma string_of_encode s : string_of_bytes (encode_utf8 s) = s.
Proof. apply String.string_of_list_byte_of_string. Qed.

Lemma encode_string_of d : encode_utf8 (string_of_bytes d) = d.
Proof. apply String.list_byte_of_string_of_list_byte. Qed.

#[export] Hint Rewrite string_of_encode encode_string_of : py.

(** ** UTF-8 decoding, one maximal subpart at a time *)

Definition in_range (lo hi b : N) : bool := (lo <=? b) && (b <=? hi).
Definition is_cont (b : N) : bool := in_range 0x80 0xBF b.

(** Allowed range of the second byte of a multi-byte sequence and the number
    of continuation bytes, by lead byte (no overlong forms, no surrogates,
    nothing past U+10FFFF). *)
Definition lead_spec (b : N) : option (N * N * nat) :=
  if in_range 0xC2 0xDF b then Some (0x80, 0xBF, 1%nat)
  else if b =? 0xE0 then Some (0xA0, 0xBF, 2%nat)
  else if b =? 0xED then Some (0x80, 0x9F, 2%nat)
  else if in_range 0xE1 0xEF b then Some (0x80, 0xBF, 2%nat)
  else if b =? 0xF0 then Some (0x90, 0xBF, 3%nat)
  else if b =? 0xF4 then Some (0x80, 0x8F, 3%nat)
  else if in_range 0xF1 0xF3 b then Some (0x80, 0xBF, 3%nat)
  else None.

(** How many of the [k] continuation bytes are present and valid. *)
Fixpoint conts (k : nat) (d : bytes) : nat :=
  match k, d with
  | S k', b :: d' => if is_cont (byte_val b) then S (conts k' d') else O
  | _, _ => O
  end.

(** First decoding step of a non-empty input: whether a whole code point was
    read, and how many bytes after the first one the step consumes. *)
Definition utf8_step (b : byte) (d : bytes) : bool * nat :=
  if byte_val b <? 0x80 then (true, O)
  else match lead_spec (byte_val b) with
  | None => (false, O)
  | Some (lo, hi, k) =>
      match d with
      | [] => (false, O)
      | b1 :: d' =>
          if in_range lo hi (byte_val b1) then
            let c := conts (k - 1)%nat d' in
            (Nat.eqb c (k - 1)%nat, S c)
          else (false, O)
      end
  end.

Fixpoint utf8_valid_loop (fuel : nat) (d : bytes) : bool :=
  match fuel, d with
  | _, [] => true
  | O, _ => false
  | S f, b :: d' =>
      let '(ok, k) := utf8_step b d' in ok && utf8_valid_loop f (drop k d')
  end.

Definition utf8_valid (d : bytes) : bool := utf8_valid_loop (length d) d.

(** [raw.decode("utf-8")]: [None] stands for [UnicodeDecodeError]. *)
Definition decode_utf8 (d : bytes) : option string :=
  if utf8_valid d then Some (string_of_bytes d) else None.

(** U+FFFD in UTF-8. *)
Definition replacement : bytes := [Byte.xef; Byte.xbf; Byte.xbd].

(** [raw.decode("utf-8", errors="replace")]. *)
Fixpoint decode_replace_loop (fuel : nat) (d : bytes) : bytes :=
  match fuel, d with
  | _, [] => []
  | O, _ => []
  | S f, b :: d' =>
      let '(ok, k) := utf8_step b d' in
      (if ok then b :: take k d' else replacement) ++ decode_replace_loop f (drop k d')
  end.

Definition decode_utf8_replace (d : bytes) : string :=
  string_of_bytes (decode_replace_loop (length d) d).

(** Strings that are the UTF-8 encoding of a code-point sequence. *)
Definition wf_str (s : string) : bool := utf8_valid (encode_utf8 s).

Lemma decode_encode s : wf_str s = true -> decode_utf8 (encode_utf8 s) = Some s.
Proof. unfold wf_str, decode_utf8. intros ->. by rewrite string_of_encode. Qed.

Lemma decode_utf8_Some d s : decode_utf8 d = Some s -> d = encode_utf8 s /\ wf_str s = true.
Proof.
  unfold decode_utf8, wf_str. destruct (utf8_valid d) eqn:E; [|done].
  intros [= <-]. by rewrite encode_string_of.
Qed.

Lemma decode_replace_valid_loop fuel d :
  utf8_valid_loop fuel d = true -> decode_replace_loop fuel d = d.
Proof.
  revert d. induction fuel as [|f IH]; intros [|b d]; simpl; try done.
  destruct (utf8_step b d) as [ok k]. intros H. bool_hyps. subst ok.
  rewrite IH by done. simpl. by rewrite take_drop.
Qed.

(** On well-formed input the lenient decoder is the strict one. *)
Lemma decode_replace_strict d s : decode_utf8 d = Some s -> decode_utf8_replace d = s.
Proof.
  unfold decode_utf8, decode_utf8_replace. destruct (utf8_valid d) eqn:E; [|done].
  intros [= <-]. f_equal. by apply decode_replace_valid_loop.
Qed.

(** ** Concatenation of valid encodings *)

Lemma valid_loop_mono f g d : (f <= g)%nat -> utf8_valid_loop f d = true -> utf8_valid_loop g d = true.
Proof.
  revert g d. induction f as [|f IH]; intros g [|b d] Hle; simpl; try done; [by destruct g|by destruct g|].
  destruct g as [|g]; [lia|]. simpl. destruct (utf8_step b d) as [ok k]. intros H. bool_hyps.
  subst ok. simpl. apply IH; [lia|done].
Qed.

Lemma conts_app k d e : conts k d = k -> conts k (d ++ e) = k /\ (k <= length d)%nat.
Proof.
  revert d. induction k as [|k IH]; intros d H; simpl in *; [destruct (d ++ e); split; simpl; lia|].
  destruct d as [|b d]; [done|]. simpl. destruct (is_cont (byte_val b)); [|done].
  injection H as H. destruct (IH d H) as [H1 H2]. rewrite H1. split; [done|lia].
Qed.

Lemma utf8_step_app b d e k :
  utf8_step b d = (true, k) -> utf8_step b (d ++ e) = (true, k) /\ (k <= length d)%nat.
Proof.
  unfold utf8_step. destruct (byte_val b <? 0x80); [intros [= <-]; split; [done|lia]|].
  destruct (lead_spec (byte_val b)) as [[[lo hi] n]|]; [|done].
  destruct d as [|b1 d]; [done|]. cbn [app]. destruct (in_range lo hi (byte_val b1)); [|done].
  intros [= Hc <-]. apply Nat.eqb_eq in Hc. destruct (conts_app _ _ e Hc) as [H1 H2].
  rewrite H1, Hc, Nat.eqb_refl. split; [done|simpl; lia].
Qed.

Lemma valid_loop_app f g d e :
  utf8_valid_loop f d = true -> utf8_valid_loop g e = true -> utf8_valid_loop (f + g) (d ++ e) = true.
Proof.
  revert d. induction f as [|f IH]; intros [|b d] Hd He; try done.
  - apply (valid_loop_mono g); [lia|done].
  - simpl in *. destruct (utf8_step b d) as [ok k] eqn:E. bool_hyps. subst ok.
    destruct (utf8_step_app b d e k E) as [-> Hk]. simpl. rewrite drop_app_le by done. by apply IH.
Qed.

Lemma encode_app s t : encode_utf8 (s +:+ t) = encode_utf8 s ++ encode_utf8 t.
Proof.
  unfold encode_utf8, String.list_byte_of_string. rewrite <-List.map_app. f_equal.
  induction s as [|a s IH]; [done|]. simpl. by rewrite IH.
Qed.

Lemma wf_str_app s t : wf_str s = true -> wf_str t = true -> wf_str (s +:+ t) = true.
Proof.
  unfold wf_str, utf8_valid. intros Hs Ht. rewrite encode_app, length_app. by apply valid_loop_app.
Qed.

(** ** Code points *)

Definition is_ascii_byte (b : byte) : bool := byte_val b <? 0x80.
Definition is_start (b : byte) : bool := negb (is_cont (byte_val b)).

(** [len(s)]. *)
Definition str_len (s : string) : nat :=
  length (List.filter is_start (encode_utf8 s)).

(** Keep the first [n] code points. *)
Fixpoint take_points (n : nat) (d : bytes) : bytes :=
  match d with
  | [] => []
  | b :: d' =>
      if is_start b then
        match n with O => [] | S n' => b :: take_points n' d' end
      else b :: take_points n d'
  end.

(** [s[:n]]. *)
Definition str_take (n : nat) (s : string) : string :=
  string_of_bytes (take_points n (encode_utf8 s)).

Lemma take_points_len n d :
  (length (List.filter is_start (take_points n d)) <= n)%nat.
Proof.
  revert n. induction d as [|b d IH]; intros n; simpl; [lia|].
  destruct (is_start b) eqn:E.
  - destruct n as [|n]; simpl; [lia|]. rewrite E. simpl. specialize (IH n). lia.
  - simpl. rewrite E. apply IH.
Qed.

Lemma str_take_len n s : (str_len (str_take n s) <= n)%nat.
Proof. unfold str_len, str_take. rewrite encode_string_of. apply take_points_len. Qed.

Lemma take_points_prefix n d : exists r, d = take_points n d ++ r.
Proof.
  revert n. induction d as [|b d IH]; intros n; simpl; [by exists []|].
  destruct (is_start b); [destruct n as [|n]; [by eexists|]|];
    [destruct (IH n) as [r Hr] | destruct (IH n) as [r Hr]]; exists r; simpl; by f_equal.
Qed.

Lemma take_points_all n d :
  (length (List.filter is_start d) <= n)%nat -> take_points n d = d.
Proof.
  revert n. induction d as [|b d IH]; intros n; simpl; [done|].
  destruct (is_start b) eqn:E; simpl.
  - destruct n as [|n]; [lia|]. intros H. f_equal. apply IH. lia.
  - intros H. f_equal. by apply IH.
Qed.

Lemma str_take_all n s : (str_len s <= n)%nat -> str_take n s = s.
Proof.
  unfold str_len, str_take. intros H. by rewrite take_points_all, string_of_encode.
Qed.
