(* ===== verification/PyFloat.v ===== *)
(** * PyFloat: the arithmetic of Python floats as an interface

    Prices, volumes and indicator values are Python floats.  The components
    are written once, against the operations they use ([Arith]); two instances
    are given.

    - [Arith64]: IEEE 754 binary64, built on the Standard Library's
      executable [SpecFloat] (53-bit precision, exponent bound 1024, round to
      nearest even).  This is what CPython runs, NaN, infinities and rounding
      included; theorems stated for every [Arith] hold of it.
    - [ArithQ]: exact rationals.  Theorems that need algebra (an incremental
      sum equals the sum it maintains, a bound by a budget) are stated there:
      they say the formula is right, rounding aside.

    Division is partial: Python raises [ZeroDivisionError] on a zero divisor.
    [py_sum] is the built-in [sum] of Python 3.12, with its compensated
    summation. *)

From S2P Require Import Prelude.
From Stdlib Require Import ZArith QArith Qround Qabs SpecFloat Lqa.
Open Scope Z_scope.

Class Arith (F : Type) := {
  (** The literal [m * 10^e]. *)
  f_dec : Z -> Z -> F;
  f_add : F -> F -> F;
  f_sub : F -> F -> F;
  f_mul : F -> F -> F;
  (** The quotient, meaningful for a non-zero divisor only. *)
  f_quot : F -> F -> F;
  f_abs : F -> F;
  f_ltb : F -> F -> bool;
  f_leb : F -> F -> bool;
  f_eqb : F -> F -> bool;
  (** [math.floor]; [None] when it raises (infinity, NaN). *)
  f_floor : F -> option Z;
  (** [round(x, nd)]. *)
  f_round : nat -> F -> F;
  (** [float("inf")] and its opposite, [float("nan")], where they exist. *)
  f_inf : bool -> option F;
  f_nan : option F }.

(** [x ** 0.5], for the code that takes square roots. *)
Class ArithSqrt (F : Type) := { f_sqrt : F -> F }.

Declare Scope pyf_scope.
Delimit Scope pyf_scope with pyf.
Infix "+" := f_add : pyf_scope.
Infix "-" := f_sub : pyf_scope.
Infix "*" := f_mul : pyf_scope.
Infix "<?" := f_ltb : pyf_scope.
Infix "<=?" := f_leb : pyf_scope.
Infix "=?" := f_eqb : pyf_scope.

Section PythonOps.
Context {F : Type} {A : Arith F}.
Open Scope pyf_scope.

Definition f_int (z : Z) : F := f_dec z 0.
Definition f_zero : F := f_int 0.
Definition f_one : F := f_int 1.

(** [a / b], [None] for [ZeroDivisionError]. *)
Definition f_div (a b : F) : option F :=
  if b =? f_zero then None else Some (f_quot a b).

(** Truthiness of a float: everything but zero (NaN included). *)
Definition f_truthy (a : F) : bool := negb (a =? f_zero).

(** [max(a, b)] keeps its first argument unless the second is larger, and
    symmetrically for [min]. *)
Definition py_max (a b : F) : F := if a <? b then b else a.
Definition py_min (a b : F) : F := if b <? a then b else a.

(** [int(x)] truncates towards zero. *)
Definition f_trunc (a : F) : option Z :=
  if a <? f_zero then Z.opp <$> f_floor (f_zero - a) else f_floor a.

Definition f_finite (a : F) : bool := (a - a) =? f_zero.

(** [sum(xs)]: running total and compensation. *)
Fixpoint sum_loop (total c : F) (xs : list F) : F :=
  match xs with
  | [] => if f_truthy c && f_finite c then total + c else total
  | x :: xs' =>
      let t := total + x in
      let c' := if f_abs x <=? f_abs total then c + ((total - t) + x)
                else c + ((x - t) + total) in
      sum_loop t c' xs'
  end.

Definition py_sum (xs : list F) : F :=
  match xs with
  | [] => f_zero
  | x :: xs' => sum_loop (f_zero + x) f_zero xs'
  end.

End PythonOps.

(** ** Exact rationals *)

(** Nearest integer to [n / d], ties to even. *)
Definition round_half_even (n : Z) (d : positive) : Z :=
  let q := n / Zpos d in
  let r := n mod Zpos d in
  match (2 * r) ?= Zpos d with
  | Lt => q
  | Gt => q + 1
  | Eq => if Z.even q then q else q + 1
  end.

Definition q_pow10 (e : Z) : Q :=
  match e with
  | Z0 => 1%Q
  | Zpos p => inject_Z (10 ^ Zpos p)
  | Zneg p => (1 # (Z.to_pos (10 ^ Zpos p)))%Q
  end.

Definition q_round (nd : nat) (x : Q) : Q :=
  let p := Z.to_pos (10 ^ Z.of_nat nd) in
  (round_half_even (Qnum x * Zpos p) (Qden x) # p)%Q.

Definition q_ltb (a b : Q) : bool := Qnum a * QDen b <? Qnum b * QDen a.

#[export] Instance ArithQ : Arith Q := {|
  f_dec m e := (inject_Z m * q_pow10 e)%Q;
  f_add := Qplus;
  f_sub := Qminus;
  f_mul := Qmult;
  f_quot := Qdiv;
  f_abs := Qabs;
  f_ltb := q_ltb;
  f_leb := Qle_bool;
  f_eqb := Qeq_bool;
  f_floor x := Some (Qfloor x);
  f_round := q_round;
  f_inf _ := None;
  f_nan := None |}.

(** ** Binary64 *)

Definition prec64 : Z := 53.
Definition emax64 : Z := 1024.

(** The double nearest to [(-1)^s * p / q]. *)
Definition b64_of_frac (s : bool) (p q : positive) : spec_float :=
  let '(m, e, l) := SFdiv_core_binary prec64 emax64 (Zpos p) 0 (Zpos q) 0 in
  binary_round_aux prec64 emax64 s m e l.

Definition b64_of_Zfrac (n : Z) (q : positive) : spec_float :=
  match n with
  | Z0 => S754_zero false
  | Zpos p => b64_of_frac false p q
  | Zneg p => b64_of_frac true p q
  end.

Definition b64_dec (m e : Z) : spec_float :=
  match e with
  | Zneg p => b64_of_Zfrac m (Z.to_pos (10 ^ Zpos p))
  | _ => b64_of_Zfrac (m * 10 ^ e) 1
  end.

Definition b64_floor (x : spec_float) : option Z :=
  match x with
  | S754_zero _ => Some 0
  | S754_finite s m e =>
      let n := if s then Zneg m else Zpos m in
      Some (match e with
            | Zneg k => n / 2 ^ Zpos k
            | _ => n * 2 ^ e
            end)
  | _ => None
  end.

Definition b64_round (nd : nat) (x : spec_float) : spec_float :=
  match x with
  | S754_finite s m e =>
      let p := 10 ^ Z.of_nat nd in
      let n := match e with
               | Zneg k => round_half_even (Zpos m * p) (Z.to_pos (2 ^ Zpos k))
               | _ => Zpos m * 2 ^ e * p
               end in
      match n with
      | Zpos n' => b64_of_frac s n' (Z.to_pos p)
      | _ => S754_zero s
      end
  | _ => x
  end.

#[export] Instance Arith64 : Arith spec_float := {|
  f_dec := b64_dec;
  f_add := SFadd prec64 emax64;
  f_sub := SFsub prec64 emax64;
  f_mul := SFmul prec64 emax64;
  f_quot := SFdiv prec64 emax64;
  f_abs := SFabs;
  f_ltb := SFltb;
  f_leb := SFleb;
  f_eqb := SFeqb;
  f_floor := b64_floor;
  f_round := b64_round;
  f_inf s := Some (S754_infinity s);
  f_nan := Some S754_nan |}.

#[export] Instance ArithSqrt64 : ArithSqrt spec_float := {|
  f_sqrt := SFsqrt prec64 emax64 |}.

(** Doubles behave as in CPython: [0.1 + 0.2 != 0.3], [round(2.675, 2) == 2.67]
    and compensated summation. *)
Example b64_add_inexact :
  (f_add (f_dec 1 (-1)) (f_dec 2 (-1)) =? f_dec 3 (-1))%pyf = false.
Proof. vm_compute. reflexivity. Qed.

Example b64_round_2675 : f_round 2 (b64_dec 2675 (-3)) = b64_dec 267 (-2).
Proof. vm_compute. reflexivity. Qed.

Example b64_sum_compensated :
  py_sum [b64_dec 1 (-1); b64_dec 2 (-1); b64_dec 3 (-1); b64_dec 4 (-1)] = b64_dec 1 0.
Proof. vm_compute. reflexivity. Qed.

(** ** Reading boolean tests of exact arithmetic *)

Lemma q_ltb_lt (a b : Q) : q_ltb a b = true <-> (a < b)%Q.
Proof. unfold q_ltb, Qlt. apply Z.ltb_lt. Qed.

Lemma q_ltb_ge (a b : Q) : q_ltb a b = false <-> (b <= a)%Q.
Proof. unfold q_ltb, Qle. rewrite Z.ltb_ge. done. Qed.

Lemma q_leb_le (a b : Q) : Qle_bool a b = true <-> (a <= b)%Q.
Proof. apply Qle_bool_iff. Qed.

Lemma q_leb_gt (a b : Q) : Qle_bool a b = false <-> (b < a)%Q.
Proof.
  destruct (Qle_bool a b) eqn:E.
  - apply Qle_bool_iff in E. split; [done|]. intros H. exfalso. lra.
  - split; [|done]. intros _. apply Qnot_le_lt. intros H.
    apply Qle_bool_iff in H. congruence.
Qed.

Lemma q_eqb_neq (a b : Q) : Qeq_bool a b = false <-> ~ (a == b)%Q.
Proof.
  split; [apply Qeq_bool_neq|]. intros H. destruct (Qeq_bool a b) eqn:E; [|done].
  by apply Qeq_bool_iff in E.
Qed.

(** Turn the tests of the rational instance into propositions. *)
Ltac q_tests :=
  repeat match goal with
  | H : q_ltb _ _ = true |- _ => apply q_ltb_lt in H
  | H : q_ltb _ _ = false |- _ => apply q_ltb_ge in H
  | H : Qle_bool _ _ = true |- _ => apply q_leb_le in H
  | H : Qle_bool _ _ = false |- _ => apply q_leb_gt in H
  | H : Qeq_bool _ _ = true |- _ => apply Qeq_bool_iff in H
  | H : Qeq_bool _ _ = false |- _ => apply q_eqb_neq in H
  end.

(** Plain left-to-right sum. *)
Definition q_sum (xs : list Q) : Q := fold_right Qplus 0%Q xs.

Lemma q_sum_app a b : (q_sum (a ++ b) == q_sum a + q_sum b)%Q.
Proof. induction a as [|x a IH]; simpl; [lra|]. unfold q_sum in *. simpl. rewrite IH. lra. Qed.

Lemma sum_loop_q total c xs :
  (c == 0)%Q -> (sum_loop total c xs == total + q_sum xs)%Q.
Proof.
  revert total c. induction xs as [|x xs IH]; intros total c Hc; simpl.
  - destruct (_ && _); lra.
  - rewrite IH; [lra|]. destruct (Qle_bool _ _); simpl; lra.
Qed.

Lemma f_int_q z : (f_int z == inject_Z z)%Q.
Proof. unfold f_int. simpl. ring. Qed.

Lemma f_zero_q : (f_zero == 0)%Q.
Proof. reflexivity. Qed.

Lemma f_one_q : (f_one == 1)%Q.
Proof. reflexivity. Qed.

(** In exact arithmetic the compensation vanishes. *)
Lemma py_sum_q xs : (py_sum xs == q_sum xs)%Q.
Proof.
  destruct xs as [|x xs]; [apply f_zero_q|]. cbn [py_sum].
  rewrite sum_loop_q by apply f_zero_q. cbn [f_add ArithQ q_sum fold_right].
  rewrite f_zero_q. unfold q_sum. ring.
Qed.

Lemma f_div_q (a b : Q) r : f_div a b = Some r -> ~ (b == 0)%Q /\ (r == a / b)%Q.
Proof.
  unfold f_div. cbn [f_eqb ArithQ f_quot]. destruct (Qeq_bool b _) eqn:E; [done|].
  intros [= <-]. q_tests. split; [|done]. intros H. apply E. rewrite H. by rewrite f_zero_q.
Qed.

Lemma q_floor_spec (x : Q) : (inject_Z (Qfloor x) <= x)%Q /\ (x < inject_Z (Qfloor x + 1))%Q.
Proof. split; [apply Qfloor_le | apply Qlt_floor]. Qed.

(** ** Rounding *)

(** The rounded value is within half a unit, and even on a tie. *)
Lemma round_half_even_spec n d :
  let k := round_half_even n d in
  2 * n - Zpos d <= 2 * k * Zpos d <= 2 * n + Zpos d /\
  ((2 * k * Zpos d = 2 * n - Zpos d \/ 2 * k * Zpos d = 2 * n + Zpos d) -> Z.even k = true).
Proof.
  cbn zeta. unfold round_half_even.
  pose proof (Z.div_mod n (Zpos d)) as E. pose proof (Z.mod_pos_bound n (Zpos d)) as B.
  set (q := n / Zpos d) in *. set (r := n mod Zpos d) in *.
  destruct (Z.compare_spec (2 * r) (Zpos d)) as [H|H|H].
  - destruct (Z.even q) eqn:Ev; (split; [nia|]); [done|]. intros _.
    rewrite Z.even_add, Ev. done.
  - split; [nia|]. intros [?|?]; exfalso; nia.
  - split; [nia|]. intros [?|?]; exfalso; nia.
Qed.

Lemma round_half_even_mono n1 d1 n2 d2 :
  n1 * Zpos d2 <= n2 * Zpos d1 -> round_half_even n1 d1 <= round_half_even n2 d2.
Proof.
  intros H. pose proof (round_half_even_spec n1 d1) as [B1 T1]. pose proof (round_half_even_spec n2 d2) as [B2 T2].
  cbn zeta in *. set (k1 := round_half_even n1 d1) in *. set (k2 := round_half_even n2 d2) in *.
  destruct (Z.le_gt_cases k1 k2) as [?|Hgt]; [done|exfalso].
  assert (2 * k1 * Zpos d1 * Zpos d2 <= (2 * n1 + Zpos d1) * Zpos d2) as U1 by nia.
  assert ((2 * n2 - Zpos d2) * Zpos d1 <= 2 * k2 * Zpos d2 * Zpos d1) as U2 by nia.
  assert (0 < Zpos d1 * Zpos d2) as P by lia.
  assert (k1 = k2 + 1) as Ek by nia.
  assert (2 * k1 * Zpos d1 = 2 * n1 + Zpos d1) as E1 by nia.
  assert (2 * k2 * Zpos d2 = 2 * n2 - Zpos d2) as E2 by nia.
  specialize (T1 (or_intror E1)). specialize (T2 (or_introl E2)).
  rewrite Ek, Z.even_add, T2 in T1. done.
Qed.

Lemma q_round_mono nd (x y : Q) : (x <= y)%Q -> (q_round nd x <= q_round nd y)%Q.
Proof.
  intros H. unfold q_round, Qle in *. simpl.
  apply Z.mul_le_mono_nonneg_r; [lia|]. apply round_half_even_mono.
  rewrite <- !Z.mul_assoc, (Z.mul_comm (Zpos _) (QDen y)), (Z.mul_comm (Zpos _) (QDen x)), !Z.mul_assoc.
  apply Z.mul_le_mono_nonneg_r; [lia|done].
Qed.

(** An integer is a fixed point. *)
Lemma q_round_int nd z : (q_round nd (inject_Z z) == inject_Z z)%Q.
Proof.
  unfold q_round. simpl.
  set (p := Z.to_pos (10 ^ Z.of_nat nd)). pose proof (round_half_even_spec (z * Zpos p) 1) as [B _]. cbn zeta in B.
  unfold Qeq. simpl. nia.
Qed.
