(* ===== verification/PyVal.v ===== *)
(** * PyVal: dynamically typed Python values

    The values a parsed JSON document or a params dict holds, with the
    built-in conversions the services apply to them: truthiness, [dict.get],
    [int(v)], [float(v)].  A dict keeps insertion order; assigning an existing
    key keeps its place. *)

From S2P Require Import Prelude Text PyFloat.
From Stdlib Require Import ZArith Ascii.
Open Scope Z_scope.

(** ** Characters *)

Abbreviation chars := (list Ascii.ascii).

Definition chars_of (s : string) : chars := String.list_ascii_of_string s.
Definition string_of_chars (l : chars) : string := String.string_of_list_ascii l.

(** ASCII whitespace, as [str.strip] removes it. *)
Definition is_space (c : ascii) : bool :=
  let n := nat_of_ascii c in (Nat.leb 9 n && Nat.leb n 13) || Nat.eqb n 32 ||
                             (Nat.leb 28 n && Nat.leb n 31).

Fixpoint lstrip (l : chars) : chars :=
  match l with
  | c :: l' => if is_space c then lstrip l' else l
  | [] => []
  end.

Definition strip_chars (l : chars) : chars := rev (lstrip (rev (lstrip l))).
Definition strip (s : string) : string := string_of_chars (strip_chars (chars_of s)).

Definition is_upper (c : ascii) : bool := let n := nat_of_ascii c in Nat.leb 65 n && Nat.leb n 90.
Definition is_lower (c : ascii) : bool := let n := nat_of_ascii c in Nat.leb 97 n && Nat.leb n 122.
Definition lower_char (c : ascii) : ascii := if is_upper c then ascii_of_nat (nat_of_ascii c + 32) else c.
Definition upper_char (c : ascii) : ascii := if is_lower c then ascii_of_nat (nat_of_ascii c - 32) else c.
Definition lower (s : string) : string := string_of_chars (map lower_char (chars_of s)).
Definition upper (s : string) : string := string_of_chars (map upper_char (chars_of s)).

(** [s.startswith(p)]. *)
Definition startswith (s p : string) : bool := String.prefix p s.

(** [p in s]. *)
Fixpoint contains_chars (p s : chars) : bool :=
  bool_decide (p = take (length p) s) ||
  match s with [] => false | _ :: s' => contains_chars p s' end.
Definition contains (s p : string) : bool := contains_chars (chars_of p) (chars_of s).

(** [s.split(sep)] for a one-character separator. *)
Fixpoint split_chars (sep : ascii) (l : chars) (cur : chars) : list chars :=
  match l with
  | [] => [rev cur]
  | c :: l' => if bool_decide (c = sep) then rev cur :: split_chars sep l' []
               else split_chars sep l' (c :: cur)
  end.
Definition split (sep : ascii) (s : string) : list string :=
  map string_of_chars (split_chars sep (chars_of s) []).

(** [sep.join(l)]. *)
Definition join (sep : string) (l : list string) : string := String.concat sep l.

Lemma string_of_chars_of s : string_of_chars (chars_of s) = s.
Proof. unfold string_of_chars, chars_of. apply String.string_of_list_ascii_of_string. Qed.

Lemma chars_of_string_of l : chars_of (string_of_chars l) = l.
Proof. unfold string_of_chars, chars_of. apply String.list_ascii_of_string_of_list_ascii. Qed.

Lemma chars_of_app s t : chars_of (s +:+ t) = chars_of s ++ chars_of t.
Proof. unfold chars_of. induction s as [|a s IH]; [done|]. simpl. by rewrite IH. Qed.

(** ** Stripping and case *)

Lemma upper_char_space c : is_space (upper_char c) = is_space c.
Proof. destruct c as [[] [] [] [] [] [] [] []]; reflexivity. Qed.

Lemma upper_char_idem c : upper_char (upper_char c) = upper_char c.
Proof. destruct c as [[] [] [] [] [] [] [] []]; reflexivity. Qed.

Lemma lstrip_map f l : (forall c, is_space (f c) = is_space c) -> lstrip (map f l) = map f (lstrip l).
Proof. intros H. induction l as [|c l IH]; [done|]. simpl. rewrite H. by destruct (is_space c). Qed.

Lemma lstrip_suffix l : exists p, l = p ++ lstrip l.
Proof.
  induction l as [|c l IH]; [by exists []|]. simpl. destruct (is_space c); [|by exists []].
  destruct IH as [p E]. exists (c :: p). simpl. by rewrite <-E.
Qed.

Lemma lstrip_head l : match lstrip l with [] => True | c :: _ => is_space c = false end.
Proof. induction l as [|c l IH]; [done|]. simpl. by destruct (is_space c) eqn:E. Qed.

Lemma lstrip_fixed l : match l with [] => True | c :: _ => is_space c = false end -> lstrip l = l.
Proof. destruct l as [|c l]; [done|]. simpl. by intros ->. Qed.

Lemma strip_chars_idem l : strip_chars (strip_chars l) = strip_chars l.
Proof.
  unfold strip_chars. set (a := lstrip l). set (b := lstrip (rev a)).
  assert (lstrip (rev b) = rev b) as ->.
  { apply lstrip_fixed. destruct (lstrip_suffix (rev a)) as [p E]. fold b in E.
    pose proof (lstrip_head l) as Ha. fold a in Ha. apply (f_equal (@rev _)) in E. rewrite rev_involutive, rev_app_distr in E.
    rewrite E in Ha. by destruct (rev b). }
  rewrite rev_involutive. f_equal. apply lstrip_fixed, lstrip_head.
Qed.

Lemma strip_idem s : strip (strip s) = strip s.
Proof. unfold strip. by rewrite chars_of_string_of, strip_chars_idem. Qed.

Lemma strip_upper s : strip (upper s) = upper (strip s).
Proof.
  unfold strip, upper. rewrite !chars_of_string_of. f_equal. unfold strip_chars.
  by rewrite lstrip_map, <-map_rev, lstrip_map, <-map_rev by apply upper_char_space.
Qed.

Lemma upper_idem s : upper (upper s) = upper s.
Proof. unfold upper. rewrite chars_of_string_of, map_map. f_equal. apply map_ext, upper_char_idem. Qed.

Lemma upper_empty s : upper s = ""%string <-> s = ""%string.
Proof. by destruct s. Qed.

(** ** Numbers in text *)

Definition digit_of (c : ascii) : option Z :=
  let n := nat_of_ascii c in
  if Nat.leb 48 n && Nat.leb n 57 then Some (Z.of_nat (n - 48)) else None.

(** A run of decimal digits, single underscores allowed between digits: the
    value and count of the digits and the rest.  [prev] says whether a digit
    was just read. *)
Fixpoint read_digits (l : chars) (acc : Z) (n : nat) (prev : bool) : option (Z * nat * chars) :=
  match l with
  | c :: l' =>
      match digit_of c with
      | Some d => read_digits l' (acc * 10 + d) (S n) true
      | None =>
          if bool_decide (c = "_"%char) && prev then
            match l' with
            | c' :: _ => match digit_of c' with
                         | Some _ => read_digits l' acc n false
                         | None => None end
            | [] => None
            end
          else if prev then Some (acc, n, l) else None
      end
  | [] => if prev then Some (acc, n, []) else None
  end.

Definition read_sign (l : chars) : bool * chars :=
  match l with
  | "-"%char :: l' => (true, l')
  | "+"%char :: l' => (false, l')
  | _ => (false, l)
  end.

(** [int(s)] of a string in base ten; [None] is [ValueError]. *)
Definition parse_int (s : string) : option Z :=
  let '(neg, l) := read_sign (strip_chars (chars_of s)) in
  match read_digits l 0 O false with
  | Some (z, _, []) => Some (if neg then - z else z)
  | _ => None
  end.

(** An optional exponent part; the whole rest must be consumed. *)
Definition read_exponent (l : chars) : option Z :=
  match l with
  | [] => Some 0
  | c :: l' =>
      if bool_decide (c = "e"%char) || bool_decide (c = "E"%char) then
        let '(neg, l'') := read_sign l' in
        match read_digits l'' 0 O false with
        | Some (z, _, []) => Some (if neg then - z else z)
        | _ => None
        end
      else None
  end.

(** Mantissa and decimal exponent of a float literal without sign. *)
Definition read_decimal (l : chars) : option (Z * Z) :=
  let frac m n l :=
    match l with
    | "."%char :: l' =>
        match read_digits l' m O false with
        | Some (m', k, l'') => e ← read_exponent l''; Some (m', e - Z.of_nat k)
        | None =>
            (* "1." is a number, "." is not *)
            if Nat.eqb n 0 then None else e ← read_exponent l'; Some (m, e)
        end
    | _ => if Nat.eqb n 0 then None else e ← read_exponent l; Some (m, e)
    end in
  match read_digits l 0 O false with
  | Some (m, n, l') => frac m n l'
  | None => frac 0 O l
  end.

Section WithArith.
Context {F : Type} {A : Arith F}.

(** [float(s)] of a string; [None] is [ValueError]. *)
Definition parse_float (s : string) : option F :=
  let '(neg, l) := read_sign (strip_chars (chars_of s)) in
  let w := lower (string_of_chars l) in
  if bool_decide (w = "inf"%string) || bool_decide (w = "infinity"%string) then f_inf neg
  else if bool_decide (w = "nan"%string) then f_nan
  else '(m, e) ← read_decimal l; Some (f_dec (if neg then - m else m) e).

(** ** Values *)

#[local] Set Warnings "-register-all".

Inductive pyval :=
| PNone
| PBool (b : bool)
| PInt (z : Z)
| PFloat (f : F)
| PStr (s : string)
| PList (l : list pyval)
| PDict (d : list (string * pyval)).

Definition pydict := list (string * pyval).

Fixpoint dict_get (d : pydict) (k : string) : option pyval :=
  match d with
  | [] => None
  | (k', v) :: d' => if bool_decide (k' = k) then Some v else dict_get d' k
  end.

(** [d.get(k)] and [d.get(k, default)]. *)
Definition get (d : pydict) (k : string) : pyval := default PNone (dict_get d k).
Definition get_or (d : pydict) (k : string) (v : pyval) : pyval := default v (dict_get d k).

(** [d[k] = v]. *)
Fixpoint dict_set (d : pydict) (k : string) (v : pyval) : pydict :=
  match d with
  | [] => [(k, v)]
  | (k', v') :: d' => if bool_decide (k' = k) then (k, v) :: d' else (k', v') :: dict_set d' k v
  end.

(** [bool(v)]. *)
Definition truthy (v : pyval) : bool :=
  match v with
  | PNone => false
  | PBool b => b
  | PInt z => negb (z =? 0)
  | PFloat f => f_truthy f
  | PStr s => negb (bool_decide (s = ""%string))
  | PList l => match l with [] => false | _ => true end
  | PDict d => match d with [] => false | _ => true end
  end.

(** [a or b]. *)
Definition py_or (a b : pyval) : pyval := if truthy a then a else b.

(** [int(v)] and [float(v)]; [None] is [TypeError], [ValueError] or
    [OverflowError]. *)
Definition to_int (v : pyval) : option Z :=
  match v with
  | PBool b => Some (if b then 1 else 0)
  | PInt z => Some z
  | PFloat f => f_trunc f
  | PStr s => parse_int s
  | _ => None
  end.

Definition to_float (v : pyval) : option F :=
  match v with
  | PBool b => Some (f_int (if b then 1 else 0))
  | PInt z => Some (f_int z)
  | PFloat f => Some f
  | PStr s => parse_float s
  | _ => None
  end.

Lemma dict_get_set_eq d k v : dict_get (dict_set d k v) k = Some v.
Proof.
  induction d as [|[k' v'] d IH]; simpl; [by rewrite bool_decide_true|].
  case_bool_decide; simpl; [by rewrite bool_decide_true|]. by rewrite bool_decide_false.
Qed.

Lemma dict_get_set_ne d k k' v : k <> k' -> dict_get (dict_set d k v) k' = dict_get d k'.
Proof.
  intros Hne. induction d as [|[k2 v2] d IH]; simpl; [by rewrite bool_decide_false|].
  case_bool_decide; simpl; subst; [by rewrite !bool_decide_false|].
  by rewrite IH.
Qed.

End WithArith.

Arguments pyval F : clear implicits.
Arguments pydict F : clear implicits.

Example parse_float_ex : parse_float " -12.5e1 " = Some (b64_dec (-125) 0).
Proof. vm_compute. reflexivity. Qed.
Example parse_float_bad : @parse_float _ Arith64 "1.2.3" = None.
Proof. vm_compute. reflexivity. Qed.
Example parse_int_ex : parse_int " 1_000 " = Some 1000.
Proof. vm_compute. reflexivity. Qed.
