(* ===== verification/Wire.v ===== *)
(** * Wire: the protobuf wire format of the Signal message

    Two services carry their own hand-written codec for the same message:
    the portal API encodes and decodes stored signals when it replays them
    (apps/portal-api/app.py, [_pb_varint] .. [decode_signal_proto]), and the
    persist worker parses strictly what arrives on NATS
    (apps/persist/app.py, [_varint], [parse_signal]).  Integers on the wire
    are Python's unbounded non-negative integers, modelled by [N]; positions
    are byte offsets.  The loops carry fuel, bounded by the input length:
    every iteration consumes at least one byte. *)

From S2P Require Import Prelude Text.
From Stdlib Require Import Strings.Byte.
Open Scope N_scope.

(** ** The message *)

(** One nested SignalParam, as the dict the parsers build: a key is present
    once its field was seen. *)
Record param := mk_param { p_key : option string; p_value : option string }.

(** The dict [sig]: [None] is an absent key; ["params"] is always present. *)
Record signal := mk_signal {
  trace_id : option string;
  license_id : option string;
  instance_id : option string;
  command : option string;
  raw_command : option string;
  symbol : option string;
  ingress_region : option string;
  received_unix_nano : option N;
  body_sha256 : option string;
  params : list param }.

Definition empty_param : param := mk_param None None.

(** [{"params": []}]. *)
Definition empty_signal : signal :=
  mk_signal None None None None None None None None None [].

(** [sig[string_fields[num]] = v]; [None] when [num] is not a key of
    [string_fields]. *)
Definition set_string_field (num : N) (v : string) (s : signal) : option signal :=
  let '(mk_signal t l i c r y g u h ps) := s in
  match num with
  | 1 => Some (mk_signal (Some v) l i c r y g u h ps)
  | 2 => Some (mk_signal t (Some v) i c r y g u h ps)
  | 3 => Some (mk_signal t l (Some v) c r y g u h ps)
  | 4 => Some (mk_signal t l i (Some v) r y g u h ps)
  | 5 => Some (mk_signal t l i c (Some v) y g u h ps)
  | 6 => Some (mk_signal t l i c r (Some v) g u h ps)
  | 7 => Some (mk_signal t l i c r y (Some v) u h ps)
  | 9 => Some (mk_signal t l i c r y g u (Some v) ps)
  | _ => None
  end.

Definition set_received (v : N) (s : signal) : signal :=
  let '(mk_signal t l i c r y g _ h ps) := s in mk_signal t l i c r y g (Some v) h ps.

Definition add_param (p : param) (s : signal) : signal :=
  let '(mk_signal t l i c r y g u h ps) := s in mk_signal t l i c r y g u h (ps ++ [p]).

Definition set_param (fn : N) (v : string) (p : param) : param :=
  if fn =? 1 then mk_param (Some v) (p_value p)
  else if fn =? 2 then mk_param (p_key p) (Some v)
  else p.

(** ** Variable-length integers *)

(** Both services' [_varint]: [None] is the [IndexError] of reading past the
    end.  [rest] is what is left of [data] at [pos]. *)
Fixpoint varint_loop (rest : bytes) (pos result shift : N) : option (N * N) :=
  match rest with
  | [] => None
  | b :: rest' =>
      let result' := N.lor result (N.shiftl (N.land (byte_val b) 0x7F) shift) in
      if N.land (byte_val b) 0x80 =? 0 then Some (result', pos + 1)
      else varint_loop rest' (pos + 1) result' (shift + 7)
  end.

Definition _varint (data : bytes) (pos : N) : option (N * N) :=
  varint_loop (drop (N.to_nat pos) data) pos 0 0.

(** The portal's [_pb_varint]. *)
Fixpoint pb_varint_loop (fuel : nat) (n : N) : bytes :=
  match fuel with
  | O => []
  | S f =>
      let b := N.land n 0x7F in
      let n' := N.shiftr n 7 in
      if n' =? 0 then [byte_of b]
      else byte_of (N.lor b 0x80) :: pb_varint_loop f n'
  end.

Definition _pb_varint (n : N) : bytes := pb_varint_loop (S (N.size_nat n)) n.

(** ** Encoder (portal API) *)

Definition _pb_str_field (field_num : N) (s : string) : bytes :=
  let enc := encode_utf8 s in
  let tag := _pb_varint (N.lor (N.shiftl field_num 3) 2) in
  tag ++ _pb_varint (blen enc) ++ enc.

Definition _pb_int64_field (field_num n : N) : bytes :=
  _pb_varint (N.lor (N.shiftl field_num 3) 0) ++ _pb_varint n.

Definition _pb_bytes_field (field_num : N) (data : bytes) : bytes :=
  let tag := _pb_varint (N.lor (N.shiftl field_num 3) 2) in
  tag ++ _pb_varint (blen data) ++ data.

(** Truthiness of [sig.get(k)]: an absent key, an empty string and a zero are
    all falsy. *)
Definition truthy_str (o : option string) : option string :=
  match o with Some EmptyString => None | _ => o end.
Definition truthy_int (o : option N) : option N :=
  match o with Some 0 => None | _ => o end.

Definition str_field_if (num : N) (o : option string) : bytes :=
  match truthy_str o with Some v => _pb_str_field num v | None => [] end.

Definition encode_param (p : param) : bytes :=
  _pb_bytes_field 10
    (_pb_str_field 1 (default ""%string (p_key p)) ++
     _pb_str_field 2 (default ""%string (p_value p))).

Definition encode_signal_proto (sig : signal) : bytes :=
  str_field_if 1 (trace_id sig) ++
  str_field_if 2 (license_id sig) ++
  str_field_if 3 (instance_id sig) ++
  str_field_if 4 (command sig) ++
  str_field_if 5 (raw_command sig) ++
  str_field_if 6 (symbol sig) ++
  str_field_if 7 (ingress_region sig) ++
  match truthy_int (received_unix_nano sig) with
  | Some v => _pb_int64_field 8 v | None => [] end ++
  str_field_if 9 (body_sha256 sig) ++
  concat (map encode_param (params sig)).

(** ** Strict parser (persist worker) *)

Inductive proto_error :=
| EmptyPayload
| TruncatedAt (pos : N)
| TruncatedVarint (field : N)
| TruncatedLength (field : N)
| OverrunsPayload (field length : N)
| NotUtf8 (field : N)
| NestedTruncatedTag
| NestedTruncatedLength
| NestedOverruns
| NestedNotUtf8
| NestedWireType (wt : N)
| UnknownWireType (wt : N)
| MissingRequired (fields : list string)
| OutOfFuel.

Fixpoint param_loop (fuel : nat) (raw : bytes) (p : N) (prm : param)
  : result proto_error param :=
  if p <? blen raw then
    match fuel with
    | O => Err OutOfFuel
    | S f =>
        let! (t, p) := or_raise (_varint raw p) NestedTruncatedTag in
        let fn := N.shiftr t 3 in
        let wt := N.land t 7 in
        if wt =? 2 then
          let! (ln, p) := or_raise (_varint raw p) NestedTruncatedLength in
          if blen raw <? p + ln then Err NestedOverruns
          else
            let! v := or_raise (decode_utf8 (slice raw p (p + ln))) NestedNotUtf8 in
            param_loop f raw (p + ln) (set_param fn v prm)
        else Err (NestedWireType wt)
    end
  else Ok prm.

Definition parse_param (raw : bytes) : result proto_error param :=
  param_loop (length raw) raw 0 empty_param.

(** A length-delimited field: strings, the nested parameter, anything else is
    skipped. *)
Definition parse_delimited (field_num : N) (raw : bytes) (sig : signal)
  : result proto_error signal :=
  match set_string_field field_num "" sig with
  | Some _ =>
      let! v := or_raise (decode_utf8 raw) (NotUtf8 field_num) in
      Ok (default sig (set_string_field field_num v sig))
  | None =>
      if field_num =? 10 then let! p := parse_param raw in Ok (add_param p sig)
      else Ok sig
  end.

Fixpoint parse_loop (fuel : nat) (data : bytes) (pos : N) (sig : signal)
  : result proto_error signal :=
  if pos <? blen data then
    match fuel with
    | O => Err OutOfFuel
    | S f =>
        let! (tag, pos) := or_raise (_varint data pos) (TruncatedAt pos) in
        let field_num := N.shiftr tag 3 in
        let wire_type := N.land tag 7 in
        if wire_type =? 0 then
          let! (val, pos) := or_raise (_varint data pos) (TruncatedVarint field_num) in
          parse_loop f data pos (if field_num =? 8 then set_received val sig else sig)
        else if wire_type =? 2 then
          let! (length, pos) := or_raise (_varint data pos) (TruncatedLength field_num) in
          if blen data <? pos + length then Err (OverrunsPayload field_num length)
          else
            let! sig := parse_delimited field_num (slice data pos (pos + length)) sig in
            parse_loop f data (pos + length) sig
        else Err (UnknownWireType wire_type)
    end
  else Ok sig.

(** [_REQUIRED_SIGNAL_FIELDS] that are absent or empty. *)
Definition missing_fields (s : signal) : list string :=
  let need (name : string) (o : option string) : list string :=
    match truthy_str o with Some _ => [] | None => [name] end in
  need "trace_id" (trace_id s) ++ need "license_id" (license_id s) ++
  need "command" (command s) ++ need "symbol" (symbol s).

Definition parse_signal (data : bytes) : result proto_error signal :=
  match data with
  | [] => Err EmptyPayload
  | _ =>
      let! sig := parse_loop (length data) data 0 empty_signal in
      match missing_fields sig with
      | [] => Ok sig
      | fields => Err (MissingRequired fields)
      end
  end.

(** ** Lenient decoder (portal API) *)

Inductive decode_exn :=
| IndexError
| NoFuel.

(** Overlong lengths are clipped by the slice; a wire type other than 2 in a
    parameter is skipped tag by tag. *)
Fixpoint decode_param_loop (fuel : nat) (raw : bytes) (p : N) (prm : param)
  : result decode_exn param :=
  if p <? blen raw then
    match fuel with
    | O => Err NoFuel
    | S f =>
        let! (t, p) := or_raise (_varint raw p) IndexError in
        let fn := N.shiftr t 3 in
        let wt := N.land t 7 in
        if wt =? 2 then
          let! (ln, p) := or_raise (_varint raw p) IndexError in
          let v := decode_utf8_replace (slice raw p (p + ln)) in
          decode_param_loop f raw (p + ln) (set_param fn v prm)
        else decode_param_loop f raw p prm
    end
  else Ok prm.

Definition decode_delimited (field_num : N) (raw : bytes) (sig : signal)
  : result decode_exn signal :=
  match set_string_field field_num (decode_utf8_replace raw) sig with
  | Some sig' => Ok sig'
  | None =>
      if field_num =? 10 then
        let! p := decode_param_loop (length raw) raw 0 empty_param in Ok (add_param p sig)
      else Ok sig
  end.

Fixpoint decode_loop (fuel : nat) (data : bytes) (pos : N) (sig : signal)
  : result decode_exn signal :=
  if pos <? blen data then
    match fuel with
    | O => Err NoFuel
    | S f =>
        let! (tag, pos) := or_raise (_varint data pos) IndexError in
        let field_num := N.shiftr tag 3 in
        let wire_type := N.land tag 7 in
        if wire_type =? 0 then
          let! (val, pos) := or_raise (_varint data pos) IndexError in
          decode_loop f data pos (if field_num =? 8 then set_received val sig else sig)
        else if wire_type =? 2 then
          let! (length, pos) := or_raise (_varint data pos) IndexError in
          let! sig := decode_delimited field_num (slice data pos (pos + length)) sig in
          decode_loop f data (pos + length) sig
        else Ok sig
    end
  else Ok sig.

Definition decode_signal_proto (data : bytes) : result decode_exn signal :=
  decode_loop (length data) data 0 empty_signal.

(** ** Varints *)

Lemma land_127_lt n : N.land n 0x7F < 128.
Proof. change 0x7F with (N.ones 7). rewrite N.land_ones. apply N.mod_lt. lia. Qed.

(** What a continuation byte and a final byte carry. *)
Lemma cont_byte x : x < 128 ->
  N.land (byte_val (byte_of (N.lor x 0x80))) 0x7F = x /\
  N.land (byte_val (byte_of (N.lor x 0x80))) 0x80 = 0x80.
Proof.
  intros H.
  assert (Forall (fun k => let x := N.of_nat k in
    N.land (byte_val (byte_of (N.lor x 0x80))) 0x7F = x /\
    N.land (byte_val (byte_of (N.lor x 0x80))) 0x80 = 0x80) (seq 0 128)) as F
    by (apply List.Forall_forall; intros k Hk; apply in_seq in Hk;
        do 128 (destruct k as [|k]; [split; reflexivity|]); lia).
  rewrite List.Forall_forall in F. specialize (F (N.to_nat x)).
  rewrite N2Nat.id in F. apply F, in_seq. lia.
Qed.

Lemma last_byte x : x < 128 ->
  N.land (byte_val (byte_of x)) 0x7F = x /\ N.land (byte_val (byte_of x)) 0x80 = 0.
Proof.
  intros H. rewrite byte_val_of by lia. split.
  - change 0x7F with (N.ones 7). rewrite N.land_ones. by apply N.mod_small.
  - apply N.bits_inj_0. intros i. rewrite N.land_spec.
    destruct (N.testbit 128 i) eqn:E; [|by rewrite andb_false_r].
    assert (i = 7) as ->.
    { change 128 with (2 ^ 7) in E. rewrite N.pow2_bits_eqb in E. by apply N.eqb_eq in E. }
    rewrite andb_true_r. destruct (decide (x = 0)) as [->|]; [done|].
    apply N.bits_above_log2. apply N.log2_lt_pow2; [lia|]. by change (2 ^ 7) with 128.
Qed.

(** Low seven bits and the rest, put back at [shift]. *)
Lemma chunk_split n s :
  N.lor (N.shiftl (N.land n 0x7F) s) (N.shiftl (N.shiftr n 7) (s + 7)) = N.shiftl n s.
Proof.
  apply N.bits_inj. intros i. rewrite N.lor_spec.
  change 0x7F with (N.ones 7).
  destruct (N.lt_ge_cases i s).
  - rewrite !N.shiftl_spec_low by lia. done.
  - rewrite !(N.shiftl_spec_high' _ s) by lia. rewrite N.land_spec.
    destruct (N.lt_ge_cases (i - s) 7).
    + rewrite N.ones_spec_low by lia. rewrite N.shiftl_spec_low by lia.
      by rewrite andb_true_r, orb_false_r.
    + rewrite N.ones_spec_high by lia. rewrite N.shiftl_spec_high' by lia.
      rewrite N.shiftr_spec'. rewrite andb_false_r. simpl. f_equal. lia.
Qed.

Lemma shiftr7_zero n : N.shiftr n 7 = 0 -> n < 128.
Proof. rewrite N.shiftr_div_pow2. change (2 ^ 7) with 128. intros H. by apply N.div_small_iff in H. Qed.

Lemma shiftr7_decr n f : N.shiftr n 7 <> 0 -> n < 2 ^ N.of_nat (S f) -> N.shiftr n 7 < 2 ^ N.of_nat f.
Proof.
  rewrite N.shiftr_div_pow2. change (2 ^ 7) with 128. intros Hne.
  rewrite Nat2N.inj_succ, N.pow_succ_r'. intros H. apply N.Div0.div_lt_upper_bound. lia.
Qed.

Lemma varint_loop_pb fuel n rest pos acc shift :
  n < 2 ^ N.of_nat fuel ->
  varint_loop (pb_varint_loop (S fuel) n ++ rest) pos acc shift =
  Some (N.lor acc (N.shiftl n shift), pos + blen (pb_varint_loop (S fuel) n)).
Proof.
  revert n pos acc shift. induction fuel as [|f IH]; intros n pos acc shift Hn.
  - assert (n = 0) as -> by (simpl in Hn; lia). simpl.
    rewrite N.lor_0_r, N.shiftl_0_l, N.lor_0_r. done.
  - cbn [pb_varint_loop]. destruct (N.shiftr n 7 =? 0) eqn:E.
    + apply N.eqb_eq in E. pose proof (shiftr7_zero _ E) as Hlt.
      pose proof (last_byte _ (land_127_lt n)) as [H1 H2].
      cbn [app varint_loop]. rewrite H1, H2. cbn [N.eqb]. rewrite blen_cons, blen_nil.
      change 0x7F with (N.ones 7). rewrite N.land_ones, N.mod_small by done.
      by do 2 f_equal.
    + apply N.eqb_neq in E. pose proof (cont_byte _ (land_127_lt n)) as [H1 H2].
      cbn [app varint_loop]. rewrite H1, H2. cbn [N.eqb Pos.eqb].
      cbn [pb_varint_loop] in IH. rewrite IH by by apply shiftr7_decr.
      rewrite blen_cons, <- N.lor_assoc, chunk_split. do 2 f_equal. lia.
Qed.

Lemma varint_at n pre rest :
  _varint (pre ++ _pb_varint n ++ rest) (blen pre) =
  Some (n, blen pre + blen (_pb_varint n)).
Proof.
  unfold _varint. rewrite drop_blen_app. unfold _pb_varint.
  rewrite varint_loop_pb by apply size_nat_bound. by rewrite N.shiftl_0_r.
Qed.

(** ** Encoded messages as sequences of items *)

(** One encoded field; [encode_signal_proto] is a concatenation of these. *)
Inductive item :=
| StrItem (num : N) (s : string)
| IntItem (num n : N)
| ParamItem (p : param).

Definition enc_item (it : item) : bytes :=
  match it with
  | StrItem num s => _pb_str_field num s
  | IntItem num n => _pb_int64_field num n
  | ParamItem p => encode_param p
  end.

(** A parameter as the encoder writes it: absent parts become empty. *)
Definition norm_param (p : param) : param :=
  mk_param (Some (default ""%string (p_key p))) (Some (default ""%string (p_value p))).

Definition apply_item (sig : signal) (it : item) : signal :=
  match it with
  | StrItem num s => default sig (set_string_field num s sig)
  | IntItem num n => if num =? 8 then set_received n sig else sig
  | ParamItem p => add_param (norm_param p) sig
  end.

Definition wf_param (p : param) : bool :=
  wf_str (default ""%string (p_key p)) && wf_str (default ""%string (p_value p)).

Definition is_string_field (num : N) : bool :=
  match set_string_field num "" empty_signal with Some _ => true | None => false end.

Definition wf_item (it : item) : bool :=
  match it with
  | StrItem num s => is_string_field num && wf_str s
  | IntItem _ _ => true
  | ParamItem p => wf_param p
  end.

Definition str_items (num : N) (o : option string) : list item :=
  match truthy_str o with Some v => [StrItem num v] | None => [] end.
Definition int_items (num : N) (o : option N) : list item :=
  match truthy_int o with Some v => [IntItem num v] | None => [] end.

Definition items_of (sig : signal) : list item :=
  str_items 1 (trace_id sig) ++ str_items 2 (license_id sig) ++
  str_items 3 (instance_id sig) ++ str_items 4 (command sig) ++
  str_items 5 (raw_command sig) ++ str_items 6 (symbol sig) ++
  str_items 7 (ingress_region sig) ++ int_items 8 (received_unix_nano sig) ++
  str_items 9 (body_sha256 sig) ++ map ParamItem (params sig).

Lemma enc_str_items num o : concat (map enc_item (str_items num o)) = str_field_if num o.
Proof. unfold str_items, str_field_if. destruct (truthy_str o); simpl; by rewrite ?app_nil_r. Qed.

Lemma enc_int_items num o :
  concat (map enc_item (int_items num o)) =
  match truthy_int o with Some v => _pb_int64_field num v | None => [] end.
Proof. unfold int_items. destruct (truthy_int o); simpl; by rewrite ?app_nil_r. Qed.

Lemma encode_items sig : encode_signal_proto sig = concat (map enc_item (items_of sig)).
Proof.
  unfold encode_signal_proto, items_of. rewrite !map_app, !concat_app.
  rewrite !enc_str_items, enc_int_items, map_map. done.
Qed.

(** ** One iteration on one item *)

Lemma tag_split num wt : wt < 8 ->
  N.shiftr (N.lor (N.shiftl num 3) wt) 3 = num /\ N.land (N.lor (N.shiftl num 3) wt) 7 = wt.
Proof.
  intros H. assert (N.shiftr wt 3 = 0) as Hz
    by (rewrite N.shiftr_div_pow2; by apply N.div_small).
  rewrite N.shiftr_lor, Hz, N.lor_0_r, N.shiftr_shiftl_l by lia.
  rewrite N.sub_diag, N.shiftl_0_r. split; [done|].
  change 7 with (N.ones 3). rewrite N.land_lor_distr_l, !N.land_ones.
  rewrite N.shiftl_mul_pow2, N.Div0.mod_mul, N.lor_0_l. by apply N.mod_small.
Qed.

Lemma pb_varint_pos n : 0 < blen (_pb_varint n).
Proof. unfold _pb_varint. cbn [pb_varint_loop]. destruct (_ =? 0); rewrite blen_cons; lia. Qed.

(** A length-delimited chunk read inside the portal's framing. *)
Lemma read_delimited num body pre rest :
  let tag := _pb_varint (N.lor (N.shiftl num 3) 2) in
  let len := _pb_varint (blen body) in
  let data := pre ++ _pb_bytes_field num body ++ rest in
  _varint data (blen pre) = Some (N.lor (N.shiftl num 3) 2, blen pre + blen tag) /\
  _varint data (blen pre + blen tag) = Some (blen body, blen pre + blen tag + blen len) /\
  slice data (blen pre + blen tag + blen len) (blen pre + blen tag + blen len + blen body) = body /\
  blen data = blen pre + blen tag + blen len + blen body + blen rest /\
  blen (_pb_bytes_field num body) = blen tag + blen len + blen body.
Proof.
  intros tag len data. unfold data, _pb_bytes_field. fold tag len.
  rewrite <- !(app_assoc tag), <- !(app_assoc len). split_and!.
  - apply varint_at.
  - rewrite app_assoc, <- blen_app. apply varint_at.
  - rewrite (app_assoc pre), (app_assoc (pre ++ tag)).
    replace (blen pre + blen tag + blen len) with (blen ((pre ++ tag) ++ len))
      by (rewrite !blen_app; lia).
    apply slice_middle.
  - rewrite !blen_app. lia.
  - rewrite !blen_app. lia.
Qed.

Lemma ltb_lt_true (a b : N) : a < b -> (a <? b) = true.
Proof. apply N.ltb_lt. Qed.

Lemma ltb_ge_false (a b : N) : b <= a -> (a <? b) = false.
Proof. apply N.ltb_ge. Qed.

(** The nested loop reads back one string of a parameter. *)
Lemma param_loop_str f num s pre rest prm :
  wf_str s = true ->
  param_loop (S f) (pre ++ _pb_str_field num s ++ rest) (blen pre) prm =
  param_loop f (pre ++ _pb_str_field num s ++ rest)
    (blen pre + blen (_pb_str_field num s)) (set_param num s prm).
Proof.
  intros Hs. change (_pb_str_field num s) with (_pb_bytes_field num (encode_utf8 s)).
  pose proof (read_delimited num (encode_utf8 s) pre rest) as (H1 & H2 & H3 & H4 & H5).
  pose proof (tag_split num 2 ltac:(lia)) as [T1 T2].
  pose proof (pb_varint_pos (N.lor (N.shiftl num 3) 2)).
  cbn [param_loop]. rewrite ltb_lt_true by lia. rewrite H1. cbn [or_raise rbind].
  rewrite T1, T2. cbn [N.eqb Pos.eqb]. rewrite H2. cbn [or_raise rbind].
  rewrite ltb_ge_false by lia. rewrite H3, decode_encode by done. cbn [or_raise rbind].
  rewrite H5. f_equal. lia.
Qed.

Lemma param_loop_end f raw p prm : blen raw <= p -> param_loop f raw p prm = Ok prm.
Proof. intros H. destruct f; cbn [param_loop]; by rewrite ltb_ge_false. Qed.

Lemma pb_bytes_field_length num d : (2 <= length (_pb_bytes_field num d))%nat.
Proof.
  unfold _pb_bytes_field. rewrite !length_app.
  pose proof (pb_varint_pos (N.lor (N.shiftl num 3) 2)).
  pose proof (pb_varint_pos (blen d)). unfold blen in *. lia.
Qed.

Lemma parse_param_encode p :
  wf_param p = true ->
  parse_param (_pb_str_field 1 (default ""%string (p_key p)) ++
               _pb_str_field 2 (default ""%string (p_value p))) = Ok (norm_param p).
Proof.
  unfold wf_param, parse_param. intros H. bool_hyps.
  set (k := default _ (p_key p)) in *. set (v := default _ (p_value p)) in *.
  pose proof (pb_bytes_field_length 1 (encode_utf8 k)).
  change (_pb_bytes_field 1 (encode_utf8 k)) with (_pb_str_field 1 k) in *.
  destruct (length (_ ++ _)) as [|[|f]] eqn:E; [rewrite length_app in E; lia..|].
  pose proof (param_loop_str (S f) 1 k [] (_pb_str_field 2 v) empty_param) as S1.
  cbn [app] in S1. change (blen []) with 0 in S1. rewrite S1 by done.
  pose proof (param_loop_str f 2 v (_pb_str_field 1 k) [] (set_param 1 k empty_param)) as S2.
  rewrite app_nil_r in S2. rewrite N.add_0_l, S2 by done.
  rewrite param_loop_end; [done|]. rewrite blen_app. lia.
Qed.

(** The body a [wf_item] carries is read back by [parse_delimited]. *)
Lemma set_string_field_num num v s s' :
  is_string_field num = true ->
  exists s1 s2, set_string_field num v s = Some s1 /\ set_string_field num ""%string s' = Some s2.
Proof.
  unfold is_string_field, set_string_field. destruct s, s'.
  destruct num as [|p]; [done|].
  destruct p as [[[[]|[]|]|[[]|[]|]|]|[[[]|[]|]|[[]|[]|]|]|]; simpl; eauto; done.
Qed.

Lemma parse_delimited_str num s sig :
  is_string_field num = true -> wf_str s = true ->
  parse_delimited num (encode_utf8 s) sig = Ok (apply_item sig (StrItem num s)).
Proof.
  intros Hn Hs. unfold parse_delimited.
  destruct (set_string_field_num num s sig sig Hn) as (s1 & s2 & E1 & ->).
  by rewrite decode_encode.
Qed.

(** A length-delimited field whose body is understood moves the loop past
    it. *)
Lemma parse_loop_delimited f num body pre rest sig sig' :
  parse_delimited num body sig = Ok sig' ->
  parse_loop (S f) (pre ++ _pb_bytes_field num body ++ rest) (blen pre) sig =
  parse_loop f (pre ++ _pb_bytes_field num body ++ rest)
    (blen pre + blen (_pb_bytes_field num body)) sig'.
Proof.
  intros Hb. pose proof (read_delimited num body pre rest) as (H1 & H2 & H3 & H4 & H5).
  pose proof (tag_split num 2 ltac:(lia)) as [T1 T2].
  pose proof (pb_varint_pos (N.lor (N.shiftl num 3) 2)).
  cbn [parse_loop]. rewrite ltb_lt_true by lia. rewrite H1. cbn [or_raise rbind].
  rewrite T1, T2. cbn [N.eqb Pos.eqb]. rewrite H2. cbn [or_raise rbind].
  rewrite ltb_ge_false by lia. rewrite H3, Hb. cbn [rbind]. rewrite H5. f_equal. lia.
Qed.

Lemma parse_loop_int f num n pre rest sig :
  parse_loop (S f) (pre ++ _pb_int64_field num n ++ rest) (blen pre) sig =
  parse_loop f (pre ++ _pb_int64_field num n ++ rest)
    (blen pre + blen (_pb_int64_field num n)) (apply_item sig (IntItem num n)).
Proof.
  pose proof (tag_split num 0 ltac:(lia)) as [T1 T2].
  unfold _pb_int64_field. set (tag := N.lor (N.shiftl num 3) 0) in *.
  pose proof (varint_at tag pre (_pb_varint n ++ rest)) as H1.
  pose proof (varint_at n (pre ++ _pb_varint tag) rest) as H2.
  rewrite blen_app, <- app_assoc in H2.
  pose proof (pb_varint_pos tag). cbn [parse_loop]. rewrite <- !(app_assoc (_pb_varint tag)).
  rewrite ltb_lt_true by (rewrite !blen_app; lia). rewrite H1. cbn [or_raise rbind].
  rewrite T1, T2. cbn [N.eqb]. rewrite H2. cbn [or_raise rbind apply_item].
  rewrite blen_app. f_equal. lia.
Qed.

Lemma parse_loop_item f it pre rest sig :
  wf_item it = true ->
  parse_loop (S f) (pre ++ enc_item it ++ rest) (blen pre) sig =
  parse_loop f (pre ++ enc_item it ++ rest) (blen pre + blen (enc_item it)) (apply_item sig it).
Proof.
  destruct it as [num s|num n|p]; cbn [wf_item enc_item]; intros H.
  - bool_hyps. by apply parse_loop_delimited, parse_delimited_str.
  - apply parse_loop_int.
  - apply parse_loop_delimited. unfold parse_delimited.
    destruct sig. cbn [set_string_field N.eqb Pos.eqb]. by rewrite parse_param_encode.
Qed.

Lemma enc_item_length it : (1 <= length (enc_item it))%nat.
Proof.
  destruct it as [num s|num n|p]; cbn [enc_item].
  - pose proof (pb_bytes_field_length num (encode_utf8 s)).
    change (_pb_str_field num s) with (_pb_bytes_field num (encode_utf8 s)). lia.
  - unfold _pb_int64_field. rewrite length_app.
    pose proof (pb_varint_pos n). unfold blen in *. lia.
  - unfold encode_param. match goal with |- context [_pb_bytes_field 10 ?d] =>
      pose proof (pb_bytes_field_length 10 d) end. lia.
Qed.

Lemma parse_loop_items its fuel pre sig :
  forallb wf_item its = true ->
  (length (concat (map enc_item its)) <= fuel)%nat ->
  parse_loop fuel (pre ++ concat (map enc_item its)) (blen pre) sig =
  Ok (fold_left apply_item its sig).
Proof.
  revert fuel pre sig. induction its as [|it its IH]; intros fuel pre sig Hwf Hf.
  - simpl in *. rewrite app_nil_r. destruct fuel; cbn [parse_loop]; by rewrite N.ltb_irrefl.
  - cbn [map concat forallb fold_left] in *. bool_hyps. rewrite length_app in Hf.
    pose proof (enc_item_length it). destruct fuel as [|f]; [lia|].
    rewrite parse_loop_item by done. rewrite app_assoc, <- blen_app. apply IH; [done|lia].
Qed.

(** ** Round trip *)

(** The signal as it survives encoding: falsy fields are dropped, the parts of
    a parameter are always written. *)
Definition norm_signal (sig : signal) : signal :=
  mk_signal (truthy_str (trace_id sig)) (truthy_str (license_id sig))
    (truthy_str (instance_id sig)) (truthy_str (command sig))
    (truthy_str (raw_command sig)) (truthy_str (symbol sig))
    (truthy_str (ingress_region sig)) (truthy_int (received_unix_nano sig))
    (truthy_str (body_sha256 sig)) (map norm_param (params sig)).

Definition wf_ostr (o : option string) : bool :=
  match o with Some s => wf_str s | None => true end.

Definition wf_oparam (p : param) : bool := wf_ostr (p_key p) && wf_ostr (p_value p).

(** Every string of the dict is a real [str]. *)
Definition wf_signal (sig : signal) : bool :=
  wf_ostr (trace_id sig) && wf_ostr (license_id sig) && wf_ostr (instance_id sig) &&
  wf_ostr (command sig) && wf_ostr (raw_command sig) && wf_ostr (symbol sig) &&
  wf_ostr (ingress_region sig) && wf_ostr (body_sha256 sig) &&
  forallb wf_oparam (params sig).

Lemma wf_oparam_wf p : wf_oparam p = true -> wf_param p = true.
Proof. destruct p as [[k|] [v|]]; unfold wf_oparam, wf_param; simpl; intros H; bool_hyps; by rewrite ?H, ?H0. Qed.

Lemma wf_str_items num o :
  is_string_field num = true -> wf_ostr o = true -> forallb wf_item (str_items num o) = true.
Proof. unfold str_items. intros Hn Ho. destruct o as [[|a s]|]; simpl in *; rewrite ?Hn, ?Ho; done. Qed.

Lemma wf_int_items num o : forallb wf_item (int_items num o) = true.
Proof. unfold int_items. by destruct (truthy_int o). Qed.

Lemma wf_items_of sig : wf_signal sig = true -> forallb wf_item (items_of sig) = true.
Proof.
  unfold wf_signal, items_of. intros H. bool_hyps. rewrite !forallb_app.
  rewrite !wf_str_items, wf_int_items by done. simpl.
  induction (params sig) as [|p ps IH]; [done|]. simpl in *. bool_hyps.
  rewrite wf_oparam_wf by done. auto.
Qed.

Lemma fold_str_items num o sig :
  fold_left apply_item (str_items num o) sig =
  match truthy_str o with Some v => apply_item sig (StrItem num v) | None => sig end.
Proof. unfold str_items. by destruct (truthy_str o). Qed.

Lemma fold_int_items num o sig :
  fold_left apply_item (int_items num o) sig =
  match truthy_int o with Some v => apply_item sig (IntItem num v) | None => sig end.
Proof. unfold int_items. by destruct (truthy_int o). Qed.

Lemma fold_params ps t l i c r y g u h qs :
  fold_left apply_item (map ParamItem ps) (mk_signal t l i c r y g u h qs) =
  mk_signal t l i c r y g u h (qs ++ map norm_param ps).
Proof.
  revert qs. induction ps as [|p ps IH]; intros qs; simpl; [by rewrite app_nil_r|].
  rewrite IH, <- app_assoc. done.
Qed.

(** One optional field after another, on an explicit record: the first
    candidate field that takes the value is the one the item sets. *)
Ltac fold_field :=
  match goal with
  | |- context [match ?o with Some v => apply_item (mk_signal ?t ?l ?i ?c ?r ?y ?g ?u ?h ?ps) (@?it v)
                            | None => _ end] =>
      let s := constr:(mk_signal t l i c r y g u h ps) in
      let x := constr:(match o with Some v => apply_item s (it v) | None => s end) in
      let x := eval cbv beta in x in
      let try_with s' := (replace x with s' by (by destruct o)) in
      first
        [ try_with constr:(mk_signal o l i c r y g u h ps)
        | try_with constr:(mk_signal t o i c r y g u h ps)
        | try_with constr:(mk_signal t l o c r y g u h ps)
        | try_with constr:(mk_signal t l i o r y g u h ps)
        | try_with constr:(mk_signal t l i c o y g u h ps)
        | try_with constr:(mk_signal t l i c r o g u h ps)
        | try_with constr:(mk_signal t l i c r y o u h ps)
        | try_with constr:(mk_signal t l i c r y g o h ps)
        | try_with constr:(mk_signal t l i c r y g u o ps) ]
  end.

Lemma fold_items_of sig : fold_left apply_item (items_of sig) empty_signal = norm_signal sig.
Proof.
  unfold items_of, norm_signal, empty_signal.
  rewrite !fold_left_app, !fold_str_items, fold_int_items.
  repeat fold_field. apply fold_params.
Qed.

Lemma parse_loop_encode sig :
  wf_signal sig = true ->
  parse_loop (length (encode_signal_proto sig)) (encode_signal_proto sig) 0 empty_signal =
  Ok (norm_signal sig).
Proof.
  intros Hwf. rewrite encode_items, <- fold_items_of.
  apply (parse_loop_items (items_of sig) _ [] empty_signal); [by apply wf_items_of|lia].
Qed.

Lemma missing_norm sig : missing_fields (norm_signal sig) = missing_fields sig.
Proof.
  unfold missing_fields, norm_signal; cbn [trace_id license_id command symbol].
  destruct (trace_id sig) as [[|]|], (license_id sig) as [[|]|],
    (command sig) as [[|]|], (symbol sig) as [[|]|]; reflexivity.
Qed.

(** ** Consumption and termination *)

Lemma varint_loop_bounds rest pos acc shift v pos' :
  varint_loop rest pos acc shift = Some (v, pos') -> pos < pos' <= pos + blen rest.
Proof.
  revert pos acc shift. induction rest as [|b rest IH]; intros pos acc shift; simpl; [done|].
  rewrite blen_cons. destruct (_ =? 0); [intros [= _ <-]; lia|].
  intros H. apply IH in H. lia.
Qed.

Lemma varint_bounds data pos v pos' :
  pos <= blen data -> _varint data pos = Some (v, pos') -> pos < pos' <= blen data.
Proof.
  unfold _varint. intros Hp H. apply varint_loop_bounds in H.
  unfold blen in *. rewrite length_drop in H. lia.
Qed.

Lemma param_loop_fuel fuel raw p prm :
  p <= blen raw -> blen raw <= p + N.of_nat fuel -> param_loop fuel raw p prm <> Err OutOfFuel.
Proof.
  revert p prm. induction fuel as [|f IH]; intros p prm Hle Hf; cbn [param_loop].
  - rewrite ltb_ge_false by lia. done.
  - destruct (p <? blen raw) eqn:E; [|done]. apply N.ltb_lt in E.
    destruct (_varint raw p) as [[t p1]|] eqn:V1; cbn [or_raise rbind]; [|done].
    apply varint_bounds in V1; [|lia]. destruct (_ =? 2); [|done].
    destruct (_varint raw p1) as [[ln p2]|] eqn:V2; cbn [or_raise rbind]; [|done].
    apply varint_bounds in V2; [|lia]. destruct (blen raw <? p2 + ln) eqn:O; [done|].
    apply N.ltb_ge in O. destruct (decode_utf8 _); cbn [or_raise rbind]; [|done]. apply IH; lia.
Qed.

Lemma parse_param_fuel raw : parse_param raw <> Err OutOfFuel.
Proof. apply param_loop_fuel; unfold blen; lia. Qed.

Lemma parse_delimited_fuel num raw sig : parse_delimited num raw sig <> Err OutOfFuel.
Proof.
  unfold parse_delimited. destruct (set_string_field num "" sig).
  - by destruct (decode_utf8 raw).
  - destruct (num =? 10); [|done]. pose proof (parse_param_fuel raw).
    destruct (parse_param raw); simpl; congruence.
Qed.

Lemma parse_loop_fuel fuel data pos sig :
  pos <= blen data -> blen data <= pos + N.of_nat fuel ->
  parse_loop fuel data pos sig <> Err OutOfFuel.
Proof.
  revert pos sig. induction fuel as [|f IH]; intros pos sig Hle Hf; cbn [parse_loop].
  - rewrite ltb_ge_false by lia. done.
  - destruct (pos <? blen data) eqn:E; [|done]. apply N.ltb_lt in E.
    destruct (_varint data pos) as [[tag p1]|] eqn:V1; cbn [or_raise rbind]; [|done].
    apply varint_bounds in V1; [|lia]. destruct (_ =? 0).
    + destruct (_varint data p1) as [[v p2]|] eqn:V2; cbn [or_raise rbind]; [|done].
      apply varint_bounds in V2; [|lia]. apply IH; lia.
    + destruct (_ =? 2); [|done].
      destruct (_varint data p1) as [[ln p2]|] eqn:V2; cbn [or_raise rbind]; [|done].
      apply varint_bounds in V2; [|lia]. destruct (blen data <? p2 + ln) eqn:O; [done|].
      apply N.ltb_ge in O. pose proof (parse_delimited_fuel (N.shiftr tag 3)
        (slice data p2 (p2 + ln)) sig) as D.
      destruct (parse_delimited _ _ _); cbn [rbind]; [apply IH; lia | congruence].
Qed.

Lemma decode_param_loop_fuel fuel raw p prm :
  blen raw <= p + N.of_nat fuel -> decode_param_loop fuel raw p prm <> Err NoFuel.
Proof.
  revert p prm. induction fuel as [|f IH]; intros p prm Hf; cbn [decode_param_loop].
  - rewrite ltb_ge_false by lia. done.
  - destruct (p <? blen raw) eqn:E; [|done]. apply N.ltb_lt in E.
    destruct (_varint raw p) as [[t p1]|] eqn:V1; cbn [or_raise rbind]; [|done].
    apply varint_bounds in V1; [|lia]. destruct (_ =? 2); [|apply IH; lia].
    destruct (_varint raw p1) as [[ln p2]|] eqn:V2; cbn [or_raise rbind]; [|done].
    apply varint_bounds in V2; [|lia]. apply IH; lia.
Qed.

Lemma decode_delimited_fuel num raw sig : decode_delimited num raw sig <> Err NoFuel.
Proof.
  unfold decode_delimited. destruct (set_string_field _ _ _); [done|].
  destruct (num =? 10); [|done].
  assert (decode_param_loop (length raw) raw 0 empty_param <> Err NoFuel)
    by (apply decode_param_loop_fuel; unfold blen; lia).
  destruct (decode_param_loop _ _ _ _); simpl; congruence.
Qed.

Lemma decode_loop_fuel fuel data pos sig :
  blen data <= pos + N.of_nat fuel -> decode_loop fuel data pos sig <> Err NoFuel.
Proof.
  revert pos sig. induction fuel as [|f IH]; intros pos sig Hf; cbn [decode_loop].
  - rewrite ltb_ge_false by lia. done.
  - destruct (pos <? blen data) eqn:E; [|done]. apply N.ltb_lt in E.
    destruct (_varint data pos) as [[tag p1]|] eqn:V1; cbn [or_raise rbind]; [|done].
    apply varint_bounds in V1; [|lia]. destruct (_ =? 0).
    + destruct (_varint data p1) as [[v p2]|] eqn:V2; cbn [or_raise rbind]; [|done].
      apply varint_bounds in V2; [|lia]. apply IH; lia.
    + destruct (_ =? 2); [|done].
      destruct (_varint data p1) as [[ln p2]|] eqn:V2; cbn [or_raise rbind]; [|done].
      apply varint_bounds in V2; [|lia].
      pose proof (decode_delimited_fuel (N.shiftr tag 3) (slice data p2 (p2 + ln)) sig) as D.
      destruct (decode_delimited _ _ _); cbn [rbind]; [apply IH; lia | congruence].
Qed.

(** ** The strict parser refines the lenient decoder *)

Lemma param_loop_lenient fuel raw p prm r :
  param_loop fuel raw p prm = Ok r -> decode_param_loop fuel raw p prm = Ok r.
Proof.
  revert p prm. induction fuel as [|f IH]; intros p prm;
    cbn [param_loop decode_param_loop]; (destruct (p <? blen raw); [|congruence]); [done|].
  destruct (_varint raw p) as [[t p1]|]; cbn [or_raise rbind]; [|done].
  destruct (_ =? 2); [|done].
  destruct (_varint raw p1) as [[ln p2]|]; cbn [or_raise rbind]; [|done].
  destruct (blen raw <? p2 + ln); [done|].
  destruct (decode_utf8 _) eqn:D; cbn [or_raise rbind]; [|done].
  apply decode_replace_strict in D. rewrite D. apply IH.
Qed.

Lemma set_string_field_some num v sig sig' :
  set_string_field num v sig = Some sig' -> forall w, set_string_field num w sig <> None.
Proof.
  unfold set_string_field. destruct sig. intros H w.
  destruct num as [|p]; [done|].
  destruct p as [[[[]|[]|]|[[]|[]|]|]|[[[]|[]|]|[[]|[]|]|]|]; simpl in *; congruence.
Qed.

Lemma parse_delimited_lenient num raw sig r :
  parse_delimited num raw sig = Ok r -> decode_delimited num raw sig = Ok r.
Proof.
  unfold parse_delimited, decode_delimited. intros H.
  destruct (set_string_field num "" sig) as [s0|] eqn:S0.
  - inv_ok. apply decode_replace_strict in H0. rewrite H0.
    pose proof (set_string_field_some _ _ _ _ S0 a) as Hn.
    destruct (set_string_field num a sig); simpl in *; congruence.
  - destruct (set_string_field num (decode_utf8_replace raw) sig) eqn:S1.
    + exfalso. by eapply (set_string_field_some _ _ _ _ S1).
    + destruct (num =? 10); inv_ok; subst; [|done]. unfold parse_param in H0.
      by rewrite (param_loop_lenient _ _ _ _ _ H0).
Qed.

Lemma parse_loop_lenient fuel data pos sig r :
  parse_loop fuel data pos sig = Ok r -> decode_loop fuel data pos sig = Ok r.
Proof.
  revert pos sig. induction fuel as [|f IH]; intros pos sig;
    cbn [parse_loop decode_loop]; (destruct (pos <? blen data); [|congruence]); [done|].
  destruct (_varint data pos) as [[tag p1]|]; cbn [or_raise rbind]; [|done].
  destruct (_ =? 0).
  - destruct (_varint data p1) as [[v p2]|]; cbn [or_raise rbind]; [|done]. apply IH.
  - destruct (_ =? 2); [|done].
    destruct (_varint data p1) as [[ln p2]|]; cbn [or_raise rbind]; [|done].
    destruct (blen data <? p2 + ln); [done|].
    destruct (parse_delimited _ _ _) as [s'|] eqn:D; cbn [rbind]; [|done].
    rewrite (parse_delimited_lenient _ _ _ _ D). cbn [rbind]. apply IH.
Qed.

(** ** What a successful strict parse guarantees *)

Lemma set_param_wf fn v prm :
  wf_str v = true -> wf_oparam prm = true -> wf_oparam (set_param fn v prm) = true.
Proof.
  unfold set_param, wf_oparam. intros Hv H. bool_hyps.
  destruct (fn =? 1); [|destruct (fn =? 2)]; simpl; rewrite ?Hv, ?H, ?H0; done.
Qed.

Lemma param_loop_wf fuel raw p prm r :
  wf_oparam prm = true -> param_loop fuel raw p prm = Ok r -> wf_oparam r = true.
Proof.
  revert p prm. induction fuel as [|f IH]; intros p prm Hp; cbn [param_loop];
    (destruct (p <? blen raw); [|congruence]); [done|].
  destruct (_varint raw p) as [[t p1]|]; cbn [or_raise rbind]; [|done].
  destruct (_ =? 2); [|done].
  destruct (_varint raw p1) as [[ln p2]|]; cbn [or_raise rbind]; [|done].
  destruct (blen raw <? p2 + ln); [done|].
  destruct (decode_utf8 _) eqn:D; cbn [or_raise rbind]; [|done].
  apply decode_utf8_Some in D as [_ D]. apply IH. by apply set_param_wf.
Qed.

Lemma set_string_field_wf num v sig sig' :
  wf_str v = true -> wf_signal sig = true ->
  set_string_field num v sig = Some sig' -> wf_signal sig' = true.
Proof.
  unfold wf_signal. destruct sig. cbn [trace_id license_id instance_id command raw_command
    symbol ingress_region body_sha256 params]. intros Hv H. bool_hyps.
  cbn [set_string_field]. destruct num as [|p]; [done|].
  destruct p as [[[[]|[]|]|[[]|[]|]|]|[[[]|[]|]|[[]|[]|]|]|]; try done; intros [= <-];
    cbn [trace_id license_id instance_id command raw_command symbol ingress_region
         body_sha256 params wf_ostr]; rewrite Hv;
    repeat match goal with E : _ = true |- _ => rewrite E; clear E end; done.
Qed.

Lemma add_param_wf p sig :
  wf_oparam p = true -> wf_signal sig = true -> wf_signal (add_param p sig) = true.
Proof.
  unfold wf_signal. destruct sig. simpl. intros Hp H. bool_hyps.
  rewrite forallb_app. simpl. rewrite Hp.
  repeat match goal with E : _ = true |- _ => rewrite E; clear E end. done.
Qed.

Lemma parse_delimited_wf num raw sig r :
  wf_signal sig = true -> parse_delimited num raw sig = Ok r -> wf_signal r = true.
Proof.
  unfold parse_delimited. intros Hs H. destruct (set_string_field num "" sig).
  - inv_ok. apply decode_utf8_Some in H0 as [_ D]. subst r.
    destruct (set_string_field num a sig) eqn:S; simpl; [|done].
    by eapply set_string_field_wf.
  - destruct (num =? 10); inv_ok; subst; [|done].
    apply add_param_wf; [|done]. eapply param_loop_wf; [|exact H0]. done.
Qed.

Lemma parse_loop_wf fuel data pos sig r :
  wf_signal sig = true -> parse_loop fuel data pos sig = Ok r -> wf_signal r = true.
Proof.
  revert pos sig. induction fuel as [|f IH]; intros pos sig Hs; cbn [parse_loop];
    (destruct (pos <? blen data); [|congruence]); [done|].
  destruct (_varint data pos) as [[tag p1]|]; cbn [or_raise rbind]; [|done].
  destruct (_ =? 0).
  - destruct (_varint data p1) as [[v p2]|]; cbn [or_raise rbind]; [|done].
    apply IH. destruct (_ =? 8); [|done]. by destruct sig.
  - destruct (_ =? 2); [|done].
    destruct (_varint data p1) as [[ln p2]|]; cbn [or_raise rbind]; [|done].
    destruct (blen data <? p2 + ln); [done|].
    destruct (parse_delimited _ _ _) as [s'|] eqn:D; cbn [rbind]; [|done].
    apply IH. by eapply parse_delimited_wf.
Qed.

Lemma missing_fields_nil sig : missing_fields sig = [] ->
  (exists v, trace_id sig = Some v /\ v <> ""%string) /\
  (exists v, license_id sig = Some v /\ v <> ""%string) /\
  (exists v, command sig = Some v /\ v <> ""%string) /\
  (exists v, symbol sig = Some v /\ v <> ""%string).
Proof.
  unfold missing_fields.
  destruct (trace_id sig) as [[|]|], (license_id sig) as [[|]|],
    (command sig) as [[|]|], (symbol sig) as [[|]|]; simpl; try done.
  intros _. split_and!; eexists; split; done || congruence.
Qed.

Lemma parse_signal_inv data sig :
  parse_signal data = Ok sig ->
  data <> [] /\ parse_loop (length data) data 0 empty_signal = Ok sig /\ missing_fields sig = [].
Proof.
  unfold parse_signal. destruct data as [|b d]; [done|]. intros H. inv_ok.
  destruct (missing_fields a) eqn:M; [|done]. inv_ok. subst. done.
Qed.

(** A complete run of the loop with its required fields is an accepted message. *)
Lemma parse_of_loop data sig :
  parse_loop (length data) data 0 empty_signal = Ok sig -> missing_fields sig = [] ->
  parse_signal data = Ok sig.
Proof.
  intros H Hm. unfold parse_signal. destruct data as [|b d].
  - change (Ok empty_signal = @Ok proto_error _ sig) in H. injection H as <-. done.
  - rewrite H. cbn [rbind]. by rewrite Hm.
Qed.

(** ** Main results *)

(** C3: what the portal encodes, the persist worker parses back: for every
    signal dict of real strings whose required fields are present,
    [parse_signal] accepts [encode_signal_proto sig] and returns the same
    fields (falsy ones dropped, parameter parts defaulted to the empty
    string). *)
Theorem parse_encode_roundtrip (sig : signal)
  (Hwf : wf_signal sig = true) (Hreq : missing_fields sig = []) :
  parse_signal (encode_signal_proto sig) = Ok (norm_signal sig).
Proof.
  apply parse_of_loop; [by apply parse_loop_encode|]. by rewrite missing_norm.
Qed.

(** The portal's own decoder inverts its encoder on every signal of real
    strings, required fields present or not. *)
Theorem decode_encode_roundtrip (sig : signal) (Hwf : wf_signal sig = true) :
  decode_signal_proto (encode_signal_proto sig) = Ok (norm_signal sig).
Proof. unfold decode_signal_proto. by apply parse_loop_lenient, parse_loop_encode. Qed.

(** C26: the strict parser refines the lenient decoder: whatever bytes the
    persist worker accepts, the portal decodes to the same signal, so a replay
    starts from what was persisted. *)
Theorem strict_refines_lenient (data : bytes) (sig : signal)
  (H : parse_signal data = Ok sig) : decode_signal_proto data = Ok sig.
Proof. apply parse_signal_inv in H as (_ & H & _). by apply parse_loop_lenient. Qed.

(** A message the strict parser accepts is non-empty, carries non-empty
    [trace_id], [license_id], [command] and [symbol], and every string in it is
    valid UTF-8. *)
Theorem parse_signal_sound (data : bytes) (sig : signal) (H : parse_signal data = Ok sig) :
  data <> [] /\ wf_signal sig = true /\
  (exists v, trace_id sig = Some v /\ v <> ""%string) /\
  (exists v, license_id sig = Some v /\ v <> ""%string) /\
  (exists v, command sig = Some v /\ v <> ""%string) /\
  (exists v, symbol sig = Some v /\ v <> ""%string).
Proof.
  apply parse_signal_inv in H as (H1 & H2 & H3).
  split; [done|]. split; [|by apply missing_fields_nil].
  by eapply (parse_loop_wf _ _ _ empty_signal).
Qed.

(** C33: both decoders terminate on every input: the fuel given by the input
    length is never exhausted, because each iteration consumes a byte. *)
Theorem decoders_terminate (data : bytes) :
  parse_signal data <> Err OutOfFuel /\ decode_signal_proto data <> Err NoFuel.
Proof.
  split.
  - unfold parse_signal. destruct data as [|b d] eqn:E; [done|]. rewrite <- E.
    assert (parse_loop (length data) data 0 empty_signal <> Err OutOfFuel)
      by (apply parse_loop_fuel; unfold blen; lia).
    destruct (parse_loop _ _ _ _); cbn [rbind]; [|congruence].
    by destruct (missing_fields _).
  - apply decode_loop_fuel. unfold blen. lia.
Qed.

(** [_varint] reads back, at any offset and whatever follows, every integer
    [_pb_varint] wrote, however large: the format places no bound on it. *)
Theorem varint_roundtrip (n : N) (pre rest : bytes) :
  _varint (pre ++ _pb_varint n ++ rest) (blen pre) =
  Some (n, blen pre + blen (_pb_varint n)).
Proof. apply varint_at. Qed.

(** The varint reader has no overflow check: a message whose timestamp is a
    12-byte varint beyond the signed 64-bit range is accepted. *)
Theorem varint_overflow_accepted :
  exists data sig, parse_signal data = Ok sig /\
    received_unix_nano sig = Some (2 ^ 80) /\ 2 ^ 63 <= 2 ^ 80.
Proof.
  exists (encode_signal_proto (mk_signal (Some "t") (Some "l") None (Some "buy") None
            (Some "EURUSD") None (Some (2 ^ 80)) None [])%string).
  eexists. split; [vm_compute; reflexivity|]. split; [reflexivity|lia].
Qed.

(** ** Witnesses *)

Definition sample_signal : signal :=
  mk_signal (Some "trace-1234") (Some "L-100") (Some "I-1") (Some "buy") (Some "BUY")
    (Some "EURUSD") None (Some 1700000000000000000) (Some "deadbeef")
    [mk_param (Some "sl") (Some "1.05"); mk_param (Some "comment") None]%string.

Lemma parse_encode_roundtrip_witness :
  parse_signal (encode_signal_proto sample_signal) = Ok (norm_signal sample_signal).
Proof. apply parse_encode_roundtrip; reflexivity. Defined.

Lemma decode_encode_roundtrip_witness :
  decode_signal_proto (encode_signal_proto sample_signal) = Ok (norm_signal sample_signal).
Proof. apply decode_encode_roundtrip; reflexivity. Defined.

Lemma strict_refines_lenient_witness :
  decode_signal_proto (encode_signal_proto sample_signal) = Ok (norm_signal sample_signal).
Proof. apply strict_refines_lenient; vm_compute; reflexivity. Defined.

Lemma parse_signal_sound_witness : encode_signal_proto sample_signal <> [] /\
  wf_signal (norm_signal sample_signal) = true.
Proof.
  destruct (parse_signal_sound (encode_signal_proto sample_signal) (norm_signal sample_signal))
    as (H1 & H2 & _); [vm_compute; reflexivity|]. exact (conj H1 H2).
Defined.
