(* ===== verification/Features.v ===== *)
(** * Features: indicator primitives and feature assembly

    apps/backtester/feature_builder.py, function by function: the rolling
    indicators, the higher-timeframe resampling, and [FeatureBuilder].  A
    Python [list[float | None]] is a [list (option F)]; a [ValueError] or
    [ZeroDivisionError] raised while indicators are computed is [None] of the
    outer [option].  Timestamps are microseconds since the epoch (UTC).
    Window lengths are the positive constants the code passes. *)

From S2P Require Import Prelude PyFloat.
From Stdlib Require Import ZArith QArith Qabs Lqa SpecFloat.
Open Scope nat_scope.

(** ** Calendar fields of a UTC timestamp *)

Definition us_per_day : Z := 86400000000.
Definition ts_days (ts : Z) : Z := (ts / us_per_day)%Z.
Definition ts_hour (ts : Z) : Z := (ts mod us_per_day / 3600000000)%Z.
Definition ts_minute (ts : Z) : Z := (ts mod 3600000000 / 60000000)%Z.

(** [datetime.weekday()]: Monday is 0; 1970-01-01 was a Thursday. *)
Definition ts_weekday (ts : Z) : Z := ((ts_days ts + 3) mod 7)%Z.

(** Month of a day count, by eras of 400 years starting on March 1st. *)
Definition ts_month (ts : Z) : Z :=
  (let z := ts_days ts + 719468 in
   let doe := z mod 146097 in
   let yoe := (doe - doe / 1460 + doe / 36524 - doe / 146096) / 365 in
   let doy := doe - (365 * yoe + yoe / 4 - yoe / 100) in
   let mp := (5 * doy + 2) / 153 in
   if mp <? 10 then mp + 3 else mp - 9)%Z.

Section Indicators.
Context {F : Type} {A : Arith F} {R : ArithSqrt F}.
Open Scope pyf_scope.

Record Candle := mk_candle {
  timestamp : Z;
  open : F;
  high : F;
  low : F;
  close : F;
  volume : F }.

(** ** Indicator primitives *)

(** The loop of [sma]: [values] is the whole input, [rest] what is still to be
    read from index [i]. *)
Fixpoint sma_loop (values : list F) (length i : nat) (rest : list F) (window_sum : F)
  : list (option F) :=
  match rest with
  | [] => []
  | v :: rest' =>
      let window_sum := window_sum + v in
      let window_sum :=
        if (length <=? i)%nat
        then match values !! (i - length)%nat with
             | Some old => window_sum - old | None => window_sum end
        else window_sum in
      (if (length - 1 <=? i)%nat then Some (f_quot window_sum (f_int (Z.of_nat length))) else None)
      :: sma_loop values length (S i) rest' window_sum
  end.

Definition sma (values : list F) (length : nat) : list (option F) :=
  sma_loop values length 0 values f_zero.

(** Population standard deviation of the window ending at [i]. *)
Definition stdev_at (values : list F) (length i : nat) : option F :=
  if (length - 1 <=? i)%nat then
    let window := take length (drop (i + 1 - length)%nat values) in
    let mean := f_quot (py_sum window) (f_int (Z.of_nat length)) in
    let var := f_quot (py_sum (map (fun x => (x - mean) * (x - mean)) window))
                      (f_int (Z.of_nat length)) in
    Some (f_sqrt var)
  else None.

Definition stdev (values : list F) (length : nat) : list (option F) :=
  map (stdev_at values length) (seq 0 (List.length values)).

Fixpoint ema_loop (alpha prev : F) (rest : list F) : list F :=
  match rest with
  | [] => []
  | v :: rest' =>
      let cur := alpha * v + (f_one - alpha) * prev in
      cur :: ema_loop alpha cur rest'
  end.

Definition ema (values : list F) (length : nat) : list F :=
  let alpha := f_quot (f_int 2) (f_int (Z.of_nat (length + 1))) in
  match values with
  | [] => []
  | v :: rest => v :: ema_loop alpha v rest
  end.

Fixpoint rma_loop (length : nat) (prev : F) (rest : list F) : list (option F) :=
  match rest with
  | [] => []
  | v :: rest' =>
      let prev := prev + f_quot (v - prev) (f_int (Z.of_nat length)) in
      Some prev :: rma_loop length prev rest'
  end.

Definition rma (values : list F) (length : nat) : list (option F) :=
  if (List.length values <? length)%nat then replicate (List.length values) None
  else
    let seed := f_quot (py_sum (take length values)) (f_int (Z.of_nat length)) in
    replicate (length - 1) None ++ Some seed :: rma_loop length seed (drop length values).

(** [[g(l[i - 1], l[i]) for i in range(1, n)]]. *)
Fixpoint adjacent {X Y} (g : X -> X -> Y) (prev : X) (rest : list X) : list Y :=
  match rest with
  | [] => []
  | x :: rest' => g prev x :: adjacent g x rest'
  end.

(** The same, kept at the original indices: [None] at index 0. *)
Definition from_second {X Y} (g : X -> X -> Y) (l : list X) : list (option Y) :=
  match l with
  | [] => []
  | x :: rest => None :: map Some (adjacent g x rest)
  end.

Definition rsi_cell (u d : option F) : option F :=
  match u, d with
  | Some u, Some d =>
      if d =? f_zero then Some (if f_zero <? u then f_int 100 else f_int 50)
      else
        let rs := f_quot u d in
        Some (f_int 100 - f_quot (f_int 100) (f_one + rs))
  | _, _ => None
  end.

Definition rsi_from_closes (closes : list F) (length : nat) : list (option F) :=
  match closes with
  | [] => []
  | c :: rest =>
      let gains := adjacent (fun p x => py_max (x - p) f_zero) c rest in
      let losses := adjacent (fun p x => py_max (p - x) f_zero) c rest in
      None :: zip_with rsi_cell (rma gains length) (rma losses length)
  end.

Definition true_range_of (prev c : Candle) : F :=
  py_max (py_max (high c - low c) (f_abs (high c - close prev)))
         (f_abs (low c - close prev)).

Definition true_range (candles : list Candle) : list (option F) :=
  from_second true_range_of candles.

(** Index of the first defined value. *)
Fixpoint first_defined (values : list (option F)) : option nat :=
  match values with
  | [] => None
  | Some _ :: _ => Some 0
  | None :: rest => S <$> first_defined rest
  end.

(** [None] is the [ValueError] on a hole after the first defined value. *)
Definition _align_from_first_defined (values : list (option F)) (length : nat)
    (fn : list F -> nat -> list (option F)) : option (list (option F)) :=
  match first_defined values with
  | None => Some (replicate (List.length values) None)
  | Some start =>
      clean ← mapM id (drop start values);
      Some (replicate start None ++ fn clean length)
  end.

Definition atr (candles : list Candle) (length : nat) : option (list (option F)) :=
  _align_from_first_defined (true_range candles) length rma.

Definition plus_dm_of (prev c : Candle) : F :=
  let up_move := high c - high prev in
  let down_move := low prev - low c in
  if (down_move <? up_move) && (f_zero <? up_move) then up_move else f_zero.

Definition minus_dm_of (prev c : Candle) : F :=
  let up_move := high c - high prev in
  let down_move := low prev - low c in
  if (up_move <? down_move) && (f_zero <? down_move) then down_move else f_zero.

(** (plus_di, minus_di, dx) of one bar. *)
Definition di_cell (tr_rma plus_rma minus_rma : option F) : option (F * F * F) :=
  match tr_rma with
  | None => None
  | Some t =>
      if t =? f_zero then None
      else match plus_rma, minus_rma with
      | Some p, Some m =>
          let pdi := f_quot (f_int 100 * p) t in
          let mdi := f_quot (f_int 100 * m) t in
          let denom := pdi + mdi in
          Some (pdi, mdi,
            if denom =? f_zero then f_zero
            else f_quot (f_int 100 * f_abs (pdi - mdi)) denom)
      | _, _ => None
      end
  end.

Definition dmi (candles : list Candle) (length : nat)
  : option (list (option F) * list (option F) * list (option F)) :=
  tr_rma ← _align_from_first_defined (true_range candles) length rma;
  plus_rma ← _align_from_first_defined (from_second plus_dm_of candles) length rma;
  minus_rma ← _align_from_first_defined (from_second minus_dm_of candles) length rma;
  let cells := zip_with (fun t pm => di_cell t pm.1 pm.2) tr_rma (zip plus_rma minus_rma) in
  adx ← _align_from_first_defined (map (fmap (fun c => c.2)) cells) length rma;
  Some (map (fmap (fun c => c.1.1)) cells, map (fmap (fun c => c.1.2)) cells, adx).

(** ** Higher-timeframe resampling *)

Definition _last_closed_bin (i factor : nat) : option nat :=
  let bin_idx := (i / factor)%nat in
  if (i mod factor =? factor - 1)%nat then Some bin_idx
  else match bin_idx with O => None | S b => Some b end.

(** Closes of [candles[start + factor - 1]] for
    [start in range(0, n - factor + 1, factor)]. *)
Definition resample_closes (candles : list Candle) (factor : nat) : list F :=
  omap (fun k => close <$> candles !! (k * factor + factor - 1)%nat)
       (seq 0 (List.length candles / factor)%nat).

(** ** Feature assembly *)

Definition _session (hour_utc : Z) : Z :=
  if (hour_utc <? 7)%Z then 0%Z
  else if (hour_utc <? 13)%Z then 1%Z
  else if (hour_utc <? 20)%Z then 2%Z
  else 3%Z.

Record FeatureBuilder := mk_builder {
  fb_candles : list Candle;
  h1_factor : nat;
  h4_factor : nat;
  fb_closes : list F;
  fb_ema9 : list F;
  fb_ema21 : list F;
  fb_ema50 : list F;
  fb_ema200 : list F;
  fb_atr14 : list (option F);
  fb_rsi14 : list (option F);
  fb_plus_di : list (option F);
  fb_minus_di : list (option F);
  fb_adx14 : list (option F);
  fb_sma20 : list (option F);
  fb_stdev20 : list (option F);
  fb_vol72 : list (option F);
  fb_vol288 : list (option F);
  fb_active_bar : list F;
  fb_active_rate288 : list (option F);
  fb_h1_closes : list F;
  fb_h1_ema50 : list F;
  fb_h4_closes : list F;
  fb_h4_ema50 : list F }.

(** [[None] + [(closes[i] - closes[i-1]) / closes[i-1] ...]]: [None] of the
    outer option when a previous close is zero. *)
Definition ret1_series (closes : list F) : option (list (option F)) :=
  match closes with
  | [] => Some [None]
  | c :: rest =>
      rs ← mapM id (adjacent (fun p x => f_div (x - p) p) c rest);
      Some (None :: map Some rs)
  end.

Definition active_bar_of (c : Candle) : F :=
  if negb (high c =? low c) then f_one else f_zero.

Definition build_FeatureBuilder (candles : list Candle) (h1f h4f : nat) : option FeatureBuilder :=
  let closes := map close candles in
  atr14 ← atr candles 14;
  '(plus_di, minus_di, adx14) ← dmi candles 14;
  ret1 ← ret1_series closes;
  vol72 ← _align_from_first_defined ret1 72 stdev;
  vol288 ← _align_from_first_defined ret1 288 stdev;
  let active_bar := map active_bar_of candles in
  let h1_closes := resample_closes candles h1f in
  let h4_closes := resample_closes candles h4f in
  Some (mk_builder candles h1f h4f closes
    (ema closes 9) (ema closes 21) (ema closes 50) (ema closes 200)
    atr14 (rsi_from_closes closes 14) plus_di minus_di adx14
    (sma closes 20) (stdev closes 20) vol72 vol288
    active_bar (sma active_bar 288)
    h1_closes (ema h1_closes 50) h4_closes (ema h4_closes 50)).

(** [a / b if b else None]. *)
Definition div_if (a b : F) : option F :=
  if f_truthy b then Some (f_quot a b) else None.

Definition _htf (i factor : nat) (closes ema50 : list F) : option (F * F) :=
  b ← _last_closed_bin i factor;
  c ← closes !! b;
  e ← ema50 !! b;
  Some (c, e).

Definition ret (fb : FeatureBuilder) (c : Candle) (i lag : nat) : option F :=
  if (i <? lag)%nat then None
  else prev ← fb_closes fb !! (i - lag)%nat; div_if (close c - prev) prev.

(** [(v - series[i - lag]) / v] once [lag] bars exist and [v] is not zero. *)
Definition ema_slope (series : list F) (i lag : nat) : option F :=
  v ← series !! i;
  if (lag <=? i)%nat then
    prev ← series !! (i - lag)%nat; div_if (v - prev) v
  else None.

Definition FEATURE_NAMES : list string := [
  "ret_1"; "ret_3"; "ret_12"; "ret_36"; "ret_72"; "ret_288";
  "range_pct"; "body_pct"; "upper_wick"; "lower_wick"; "atr_pct";
  "vol_72"; "vol_288"; "dist_ema_9"; "dist_ema_21"; "dist_ema_50";
  "ema_50_slope"; "dist_ema_200"; "ema_200_slope"; "rsi_14";
  "plus_di"; "minus_di"; "adx_14"; "bb_z"; "bb_width";
  "active_bar"; "active_rate_288"; "h1_dist_ema50"; "h1_ret_24";
  "h4_dist_ema50"; "hour_utc"; "dow"; "month"; "minute_of_day"; "session"]%string.

(** The dict [feats] of bar [i], with the keys of its own literal; [None] values are
    Python [None]. *)
Definition feats_at (fb : FeatureBuilder) (i : nat) (c : Candle) : list (string * option F) :=
  let dist series := (v ← series !! i; div_if (close c - v) (close c)) in
  let bb_basis := mjoin (fb_sma20 fb !! i) in
  let bb_sd := mjoin (fb_stdev20 fb !! i) in
  let h1 := _htf i (h1_factor fb) (fb_h1_closes fb) (fb_h1_ema50 fb) in
  let h4 := _htf i (h4_factor fb) (fb_h4_closes fb) (fb_h4_ema50 fb) in
  let hour := ts_hour (timestamp c) in
  [ ("ret_1"%string, ret fb c i 1);
    ("ret_3"%string, ret fb c i 3);
    ("ret_12"%string, ret fb c i 12);
    ("ret_36"%string, ret fb c i 36);
    ("ret_72"%string, ret fb c i 72);
    ("ret_288"%string, ret fb c i 288);
    ("range_pct"%string, div_if (high c - low c) (close c));
    ("body_pct"%string, div_if (close c - open c) (close c));
    ("upper_wick"%string, div_if (high c - py_max (open c) (close c)) (close c));
    ("lower_wick"%string, div_if (py_min (open c) (close c) - low c) (close c));
    ("atr_pct"%string, a ← mjoin (fb_atr14 fb !! i); div_if a (close c));
    ("vol_72"%string, mjoin (fb_vol72 fb !! i));
    ("vol_288"%string, mjoin (fb_vol288 fb !! i));
    ("dist_ema_9"%string, dist (fb_ema9 fb));
    ("dist_ema_21"%string, dist (fb_ema21 fb));
    ("dist_ema_50"%string, dist (fb_ema50 fb));
    ("ema_50_slope"%string, ema_slope (fb_ema50 fb) i 12);
    ("dist_ema_200"%string, dist (fb_ema200 fb));
    ("ema_200_slope"%string, ema_slope (fb_ema200 fb) i 48);
    ("rsi_14"%string, mjoin (fb_rsi14 fb !! i));
    ("plus_di"%string, mjoin (fb_plus_di fb !! i));
    ("minus_di"%string, mjoin (fb_minus_di fb !! i));
    ("adx_14"%string, mjoin (fb_adx14 fb !! i));
    ("bb_z"%string, basis ← bb_basis; sd ← bb_sd;
             if sd =? f_zero then None else Some (f_quot (close c - basis) sd));
    ("bb_width"%string, basis ← bb_basis; sd ← bb_sd;
                 if basis =? f_zero then None else Some (f_quot (f_int 4 * sd) basis));
    ("active_bar"%string, fb_active_bar fb !! i);
    ("active_rate_288"%string, mjoin (fb_active_rate288 fb !! i));
    ("h1_dist_ema50"%string, '(hc, he) ← h1; div_if (hc - he) hc);
    ("h1_ret_24"%string, b ← _last_closed_bin i (h1_factor fb);
                  if (24 <=? b)%nat then
                    '(hc, _) ← h1; prev ← fb_h1_closes fb !! (b - 24)%nat; div_if (hc - prev) prev
                  else None);
    ("h4_dist_ema50"%string, '(hc, he) ← h4; div_if (hc - he) hc);
    ("hour_utc"%string, Some (f_int hour));
    ("dow"%string, Some (f_int (ts_weekday (timestamp c))));
    ("month"%string, Some (f_int (ts_month (timestamp c))));
    ("minute_of_day"%string, Some (f_int (hour * 60 + ts_minute (timestamp c))));
    ("session"%string, Some (f_int (_session hour))) ].

(** [build_at]: the outer result is the [IndexError] on a bad index, the inner
    option the [None] returned while some feature is undefined. *)
Inductive index_error := BarIndexError (i : nat).

Definition build_at (fb : FeatureBuilder) (i : nat)
  : result index_error (option (list (string * F))) :=
  match fb_candles fb !! i with
  | None => Err (BarIndexError i)
  | Some c => Ok (mapM (fun nv => pair nv.1 <$> nv.2) (feats_at fb i c))
  end.

Definition build (fb : FeatureBuilder) : list (result index_error (option (list (string * F)))) :=
  map (build_at fb) (seq 0 (List.length (fb_candles fb))).

End Indicators.

Arguments Candle F : clear implicits.
Arguments FeatureBuilder F : clear implicits.

(** ** Causality

    An indicator is causal when its value on a prefix is the prefix of its
    value: bar [i] never sees a later bar.  All indicators are, for every
    arithmetic, so a feature vector computed in a backtest equals the one a
    live feed stopped at that bar would have produced. *)

Definition causal {X Y} (f : list X -> list Y) : Prop :=
  forall k l, f (take k l) = take k (f l).

(** The same for computations that may raise: success is inherited by
    prefixes. *)
Definition causal_opt {X Y} (f : list X -> option (list Y)) : Prop :=
  forall k l r, f l = Some r -> f (take k l) = Some (take k r).

Create HintDb causal discriminated.

Lemma take_min {X} k (l : list X) : length (take k l) = Nat.min k (length l).
Proof. apply length_take. Qed.

Lemma causal_map {X Y} (g : X -> Y) : causal (map g).
Proof. intros k l. by rewrite firstn_map. Qed.

(** [map f (seq 0 n)] where [f i] reads only indices up to [i]. *)
Lemma causal_map_seq {X Y} (f : list X -> nat -> Y) :
  (forall k l i, i < k -> i < length l -> f (take k l) i = f l i) ->
  causal (fun l => map (f l) (seq 0 (length l))).
Proof.
  intros H k l. rewrite take_min, firstn_map.
  replace (take k (seq 0 (length l))) with (seq 0 (Nat.min k (length l))).
  - apply map_ext_in. intros i Hi. apply in_seq in Hi. apply H; lia.
  - destruct (Nat.le_gt_cases k (length l)).
    + rewrite Nat.min_l by done. rewrite take_seq. f_equal. lia.
    + rewrite Nat.min_r by lia. rewrite take_ge; [done|]. rewrite length_seq. lia.
Qed.

Lemma adjacent_take {X Y} (g : X -> X -> Y) k p l :
  adjacent g p (take k l) = take k (adjacent g p l).
Proof. revert k p. induction l as [|x l IH]; intros [|k] p; simpl; [done..|]. by f_equal. Qed.

Lemma causal_from_second {X Y} (g : X -> X -> Y) : causal (from_second g).
Proof.
  intros [|k] [|x l]; simpl; [done..|]. by rewrite adjacent_take, firstn_map.
Qed.

Lemma mapM_id_take {X} k (l : list (option X)) r :
  mapM id l = Some r -> mapM id (take k l) = Some (take k r).
Proof. rewrite !mapM_Some. apply Forall2_take. Qed.

Section CausalIndicators.
Context {F : Type} {A : Arith F} {R : ArithSqrt F}.

Lemma ema_loop_take alpha p k (l : list F) :
  ema_loop alpha p (take k l) = take k (ema_loop alpha p l).
Proof. revert k p. induction l as [|x l IH]; intros [|k] p; simpl; [done..|]. by f_equal. Qed.

Lemma causal_ema n : causal (fun l : list F => ema l n).
Proof. intros [|k] [|x l]; simpl; [done..|]. by rewrite ema_loop_take. Qed.

Lemma rma_loop_take n p k (l : list F) : rma_loop n p (take k l) = take k (rma_loop n p l).
Proof. revert k p. induction l as [|x l IH]; intros [|k] p; simpl; [done..|]. by f_equal. Qed.

Lemma causal_rma n : 0 < n -> causal (fun l : list F => rma l n).
Proof.
  intros Hn k l. unfold rma. rewrite take_min.
  destruct (Nat.ltb_spec (length l) n) as [H|H].
  - rewrite (proj2 (Nat.ltb_lt _ _)) by lia. by rewrite take_replicate.
  - destruct (Nat.ltb_spec (Nat.min k (length l)) n) as [Hk|Hk].
    + rewrite take_app_le by (rewrite length_replicate; lia). rewrite take_replicate.
      f_equal. lia.
    + rewrite take_take, Nat.min_l by lia.
      rewrite take_app_ge by (rewrite length_replicate; lia). rewrite length_replicate.
      replace (k - (n - 1)) with (S (k - n)) by lia. rewrite firstn_cons. f_equal. f_equal.
      rewrite <- rma_loop_take. f_equal. rewrite skipn_firstn_comm. done.
Qed.

Lemma causal_stdev n : 0 < n -> causal (fun l : list F => stdev l n).
Proof.
  intros Hn. apply causal_map_seq. intros k l i Hk Hl. unfold stdev_at.
  destruct (n - 1 <=? i) eqn:E; [|done]. apply Nat.leb_le in E.
  assert (take n (drop (i + 1 - n) (take k l)) = take n (drop (i + 1 - n) l)) as ->; [|done].
  rewrite skipn_firstn_comm, take_take. f_equal. lia.
Qed.

Lemma sma_loop_take n k (values : list F) i rest w :
  sma_loop (take k values) n i (take (k - i) rest) w = take (k - i) (sma_loop values n i rest w).
Proof.
  revert i w. induction rest as [|v rest IH]; intros i w; [simpl; by rewrite !firstn_nil|].
  destruct (k - i) as [|m] eqn:E; [done|]. simpl.
  assert ((if n <=? i then match take k values !! (i - n) with
           | Some old => f_sub (f_add w v) old | None => f_add w v end else f_add w v) =
          (if n <=? i then match values !! (i - n) with
           | Some old => f_sub (f_add w v) old | None => f_add w v end else f_add w v)) as ->.
  { destruct (n <=? i); [|done]. by rewrite lookup_take_lt by lia. }
  f_equal. replace m with (k - S i) by lia. apply IH.
Qed.

Lemma causal_sma n : causal (fun l : list F => sma l n).
Proof.
  intros k l. unfold sma. pose proof (sma_loop_take n k l 0 l f_zero) as H.
  by rewrite Nat.sub_0_r in H.
Qed.

Lemma zip_with_take {X Y Z} (f : X -> Y -> Z) k l1 l2 :
  zip_with f (take k l1) (take k l2) = take k (zip_with f l1 l2).
Proof. revert k l2. induction l1 as [|x l IH]; intros [|k] [|y l2]; simpl; [done..|]. by f_equal. Qed.

Lemma causal_rsi n : 0 < n -> causal (fun l : list F => rsi_from_closes l n).
Proof.
  intros Hn [|k] [|x l]; simpl; [done..|]. f_equal.
  rewrite !adjacent_take, !(causal_rma n Hn). apply zip_with_take.
Qed.

Lemma first_defined_take k (l : list (option F)) :
  first_defined (take k l) =
  match first_defined l with
  | Some s => if s <? k then Some s else None
  | None => None
  end.
Proof.
  revert k. induction l as [|[x|] l IH]; intros [|k]; simpl; try done.
  - by destruct (first_defined l) as [s|].
  - rewrite IH. destruct (first_defined l) as [s|]; simpl; [|done].
    change (S s <? S k) with (s <? k). by destruct (s <? k).
Qed.

Lemma first_defined_lt (l : list (option F)) s : first_defined l = Some s -> s < length l.
Proof.
  revert s. induction l as [|[x|] l IH]; intros s; simpl; [done|intros [= <-]; lia|].
  destruct (first_defined l) as [s'|]; simpl; [|done]. intros [= <-]. specialize (IH s' eq_refl). lia.
Qed.

Lemma causal_align fn n :
  causal (fun l => fn l n) ->
  causal_opt (fun l : list (option F) => _align_from_first_defined l n fn).
Proof.
  intros Hfn k l r. unfold _align_from_first_defined. rewrite first_defined_take, take_min.
  destruct (first_defined l) as [s|] eqn:Hs.
  - apply first_defined_lt in Hs.
    destruct (mapM id (drop s l)) as [clean|] eqn:E; simpl; [|done]. intros [= <-].
    destruct (Nat.ltb_spec s k) as [Hk|Hk].
    + rewrite skipn_firstn_comm, (mapM_id_take _ _ _ E). simpl. f_equal.
      rewrite take_app_ge by (rewrite length_replicate; lia).
      by rewrite length_replicate, Hfn.
    + f_equal. rewrite take_app_le by (rewrite length_replicate; lia).
      rewrite take_replicate. f_equal. lia.
  - intros [= <-]. f_equal. by rewrite take_replicate.
Qed.

Lemma causal_atr n : 0 < n -> causal_opt (fun cs : list (Candle F) => atr cs n).
Proof.
  intros Hn k cs r. unfold atr, true_range. rewrite causal_from_second.
  by apply (causal_align rma n (causal_rma n Hn)).
Qed.

Lemma zip_take {X Y} k (l1 : list X) (l2 : list Y) : zip (take k l1) (take k l2) = take k (zip l1 l2).
Proof. apply zip_with_take. Qed.

Lemma causal_dmi n k (cs : list (Candle F)) p m a :
  0 < n -> dmi cs n = Some (p, m, a) ->
  dmi (take k cs) n = Some (take k p, take k m, take k a).
Proof.
  intros Hn. pose proof (causal_align rma n (causal_rma n Hn)) as Hal. unfold causal_opt in Hal.
  unfold dmi, true_range. rewrite !causal_from_second. intros H.
  destruct (_align_from_first_defined (from_second true_range_of cs) n rma) as [tr|] eqn:E1; [|done].
  destruct (_align_from_first_defined (from_second plus_dm_of cs) n rma) as [pd|] eqn:E2; [|done].
  destruct (_align_from_first_defined (from_second minus_dm_of cs) n rma) as [md|] eqn:E3; [|done].
  rewrite (Hal k _ _ E1), (Hal k _ _ E2), (Hal k _ _ E3). simpl in *.
  rewrite zip_take, zip_with_take.
  set (cells := zip_with _ tr (zip pd md)) in *.
  destruct (_align_from_first_defined (map (fmap (fun c => c.2)) cells) n rma) as [adx|] eqn:E4; [|done].
  simpl in H. injection H as <- <- <-.
  rewrite <- !firstn_map, (Hal k _ _ E4). done.
Qed.

Lemma causal_ret1 k (closes : list F) r :
  0 < k -> ret1_series closes = Some r -> ret1_series (take k closes) = Some (take k r).
Proof.
  intros Hk. destruct k as [|k]; [lia|]. destruct closes as [|c rest]; simpl.
  - intros [= <-]. simpl. by rewrite firstn_nil.
  - rewrite adjacent_take. destruct (mapM id _) as [rs|] eqn:E; simpl; [|done].
    intros [= <-]. rewrite (mapM_id_take _ _ _ E). simpl. by rewrite firstn_map.
Qed.

Lemma resample_lookup (cs : list (Candle F)) f b :
  0 < f -> resample_closes cs f !! b =
  if b <? length cs / f then close <$> cs !! (b * f + f - 1) else None.
Proof.
  intros Hf. unfold resample_closes. set (n := length cs / f).
  assert (n * f <= length cs) as Hn by (unfold n; rewrite Nat.mul_comm; apply Nat.Div0.mul_div_le).
  assert (omap (fun k => close <$> cs !! (k * f + f - 1)) (seq 0 n) =
          map (fun k => default f_zero (close <$> cs !! (k * f + f - 1))) (seq 0 n)) as ->.
  { assert (forall k, In k (seq 0 n) -> is_Some (cs !! (k * f + f - 1))) as H.
    { intros k Hk. apply in_seq in Hk. apply lookup_lt_is_Some. nia. }
    induction (seq 0 n) as [|k l IH]; [done|]. simpl.
    destruct (H k) as [c Hc]; [by left|]. rewrite Hc. simpl. f_equal. apply IH. intros. apply H. by right. }
  destruct (Nat.ltb_spec b n) as [Hb|Hb].
  - rewrite list_lookup_fmap, lookup_seq_lt by done. simpl.
    destruct (lookup_lt_is_Some_2 cs (b * f + f - 1)) as [c Hc]; [nia|]. by rewrite Hc.
  - apply lookup_ge_None. rewrite length_map, length_seq. done.
Qed.

Lemma resample_length (cs : list (Candle F)) f : 0 < f -> length (resample_closes cs f) = length cs / f.
Proof.
  intros Hf.
  destruct (Nat.lt_trichotomy (length (resample_closes cs f)) (length cs / f)) as [H|[H|H]]; [|done|].
  - assert (resample_closes cs f !! length (resample_closes cs f) = None) as E by by apply lookup_ge_None.
    rewrite resample_lookup in E by done. rewrite (proj2 (Nat.ltb_lt _ _) H) in E.
    destruct (lookup_lt_is_Some_2 cs (length (resample_closes cs f) * f + f - 1)) as [c Hc].
    { pose proof (Nat.Div0.mul_div_le (length cs) f). nia. }
    by rewrite Hc in E.
  - destruct (lookup_lt_is_Some_2 (resample_closes cs f) (length cs / f)) as [c Hc]; [done|].
    rewrite resample_lookup in Hc by done. by rewrite Nat.ltb_irrefl in Hc.
Qed.

(** The resampled series of a prefix is a prefix of the resampled series. *)
Lemma resample_take k f (cs : list (Candle F)) :
  0 < f -> k <= length cs -> resample_closes (take k cs) f = take (k / f) (resample_closes cs f).
Proof.
  intros Hf Hk. apply list_eq. intros b. rewrite resample_lookup by done.
  rewrite take_min, Nat.min_l by done.
  destruct (Nat.ltb_spec b (k / f)) as [Hb|Hb].
  - pose proof (Nat.Div0.mul_div_le k f).
    rewrite !lookup_take_lt by (done || nia). rewrite resample_lookup by done.
    rewrite (proj2 (Nat.ltb_lt _ _)); [done|].
    eapply Nat.lt_le_trans; [done|]. by apply Nat.Div0.div_le_mono.
  - symmetry. apply lookup_take_ge. done.
Qed.

End CausalIndicators.

Section NoLookahead.
Context {F : Type} {A : Arith F} {R : ArithSqrt F}.

(** The builder one obtains from the first [k] candles only. *)
Definition prefix_builder (k : nat) (fb : FeatureBuilder F) : FeatureBuilder F :=
  let k1 := k / h1_factor fb in
  let k4 := k / h4_factor fb in
  mk_builder (take k (fb_candles fb)) (h1_factor fb) (h4_factor fb)
    (take k (fb_closes fb)) (take k (fb_ema9 fb)) (take k (fb_ema21 fb))
    (take k (fb_ema50 fb)) (take k (fb_ema200 fb)) (take k (fb_atr14 fb))
    (take k (fb_rsi14 fb)) (take k (fb_plus_di fb)) (take k (fb_minus_di fb))
    (take k (fb_adx14 fb)) (take k (fb_sma20 fb)) (take k (fb_stdev20 fb))
    (take k (fb_vol72 fb)) (take k (fb_vol288 fb)) (take k (fb_active_bar fb))
    (take k (fb_active_rate288 fb))
    (take k1 (fb_h1_closes fb)) (take k1 (fb_h1_ema50 fb))
    (take k4 (fb_h4_closes fb)) (take k4 (fb_h4_ema50 fb)).

(** A builder records the candles and factors it was built from. *)
Lemma build_inputs (cs : list (Candle F)) h1f h4f fb :
  build_FeatureBuilder cs h1f h4f = Some fb ->
  fb_candles fb = cs /\ h1_factor fb = h1f /\ h4_factor fb = h4f.
Proof.
  unfold build_FeatureBuilder.
  destruct (atr cs 14); [|done]. simpl. destruct (dmi cs 14) as [[[? ?] ?]|]; [|done]. simpl.
  destruct (ret1_series (map close cs)) as [r|]; [|done]. simpl.
  destruct (_align_from_first_defined r 72 stdev); [|done]. simpl.
  destruct (_align_from_first_defined r 288 stdev); [|done]. simpl. by intros [= <-].
Qed.

Lemma build_prefix (cs : list (Candle F)) h1f h4f fb k :
  0 < h1f -> 0 < h4f -> 0 < k <= length cs ->
  build_FeatureBuilder cs h1f h4f = Some fb ->
  build_FeatureBuilder (take k cs) h1f h4f = Some (prefix_builder k fb).
Proof.
  intros H1 H4 [Hk Hkl]. unfold build_FeatureBuilder. intros H.
  rewrite <- !firstn_map.
  destruct (atr cs 14) as [atr14|] eqn:E1; [|done].
  rewrite (causal_atr 14 ltac:(lia) k _ _ E1). simpl in *.
  destruct (dmi cs 14) as [[[pdi mdi] adx]|] eqn:E2; [|done].
  rewrite (causal_dmi 14 k _ _ _ _ ltac:(lia) E2). simpl in *.
  destruct (ret1_series (map close cs)) as [ret1|] eqn:E3; [|done].
  rewrite (causal_ret1 k _ _ Hk E3). simpl in *.
  destruct (_align_from_first_defined ret1 72 stdev) as [v72|] eqn:E4; [|done].
  rewrite (causal_align stdev 72 (causal_stdev 72 ltac:(lia)) k _ _ E4). simpl in *.
  destruct (_align_from_first_defined ret1 288 stdev) as [v288|] eqn:E5; [|done].
  rewrite (causal_align stdev 288 (causal_stdev 288 ltac:(lia)) k _ _ E5). simpl in *.
  injection H as <-. unfold prefix_builder.
  cbn [fb_candles h1_factor h4_factor fb_closes fb_ema9 fb_ema21 fb_ema50 fb_ema200 fb_atr14
    fb_rsi14 fb_plus_di fb_minus_di fb_adx14 fb_sma20 fb_stdev20 fb_vol72 fb_vol288
    fb_active_bar fb_active_rate288 fb_h1_closes fb_h1_ema50 fb_h4_closes fb_h4_ema50].
  rewrite !resample_take by done.
  by rewrite !causal_ema, !causal_sma, (causal_stdev 20), (causal_rsi 14) by lia.
Qed.

(** The last closed bin lies entirely at or before the bar. *)
Lemma last_closed_bin_bound i f b :
  0 < f -> _last_closed_bin i f = Some b -> b * f + f <= i + 1.
Proof.
  intros Hf. unfold _last_closed_bin. pose proof (Nat.div_mod_eq i f).
  destruct (Nat.eqb_spec (i mod f) (f - 1)) as [E|E].
  - intros [= <-]. nia.
  - destruct (i / f) as [|q] eqn:Q; [done|]. intros [= <-]. nia.
Qed.

Lemma last_closed_bin_div i f b :
  0 < f -> _last_closed_bin i f = Some b -> b < (i + 1) / f.
Proof.
  intros Hf H. apply last_closed_bin_bound in H; [|done].
  assert (S b <= (i + 1) / f) as ?; [|lia]. apply Nat.div_le_lower_bound; lia.
Qed.

Lemma htf_prefix i f (closes ema50 : list F) :
  0 < f -> _htf i f (take ((i + 1) / f) closes) (take ((i + 1) / f) ema50) = _htf i f closes ema50.
Proof.
  intros Hf. unfold _htf. destruct (_last_closed_bin i f) as [b|] eqn:E; simpl; [|done].
  pose proof (last_closed_bin_div _ _ _ Hf E). by rewrite !lookup_take_lt by done.
Qed.

Lemma feats_prefix (fb : FeatureBuilder F) i c :
  0 < h1_factor fb -> 0 < h4_factor fb ->
  feats_at (prefix_builder (i + 1) fb) i c = feats_at fb i c.
Proof.
  intros H1 H4. unfold feats_at, prefix_builder, ret, ema_slope.
  cbn [fb_candles h1_factor h4_factor fb_closes fb_ema9 fb_ema21 fb_ema50 fb_ema200 fb_atr14
    fb_rsi14 fb_plus_di fb_minus_di fb_adx14 fb_sma20 fb_stdev20 fb_vol72 fb_vol288
    fb_active_bar fb_active_rate288 fb_h1_closes fb_h1_ema50 fb_h4_closes fb_h4_ema50].
  rewrite !htf_prefix by done. rewrite !lookup_take_lt by lia.
  assert ((b ← _last_closed_bin i (h1_factor fb);
     if 24 <=? b then
       '(hc, _) ← _htf i (h1_factor fb) (fb_h1_closes fb) (fb_h1_ema50 fb);
       prev ← take ((i + 1) / h1_factor fb) (fb_h1_closes fb) !! (b - 24);
       div_if (f_sub hc prev) prev
     else None) =
    (b ← _last_closed_bin i (h1_factor fb);
     if 24 <=? b then
       '(hc, _) ← _htf i (h1_factor fb) (fb_h1_closes fb) (fb_h1_ema50 fb);
       prev ← fb_h1_closes fb !! (b - 24);
       div_if (f_sub hc prev) prev
     else None)) as ->; [|done].
  destruct (_last_closed_bin i (h1_factor fb)) as [b|] eqn:E; simpl; [|done].
  pose proof (last_closed_bin_div _ _ _ H1 E).
  rewrite lookup_take_lt by lia. done.
Qed.

(** C6: no lookahead.  Whenever indicators can be computed over a whole candle
    series, they can be computed over the series cut after bar [i], and the
    feature vector of bar [i] is the same: for every arithmetic, binary64
    included, a backtested feature never depends on a later candle. *)
Theorem no_lookahead (cs : list (Candle F)) h1f h4f fb i
  (H1 : 0 < h1f) (H4 : 0 < h4f) (Hi : i < length cs)
  (Hb : build_FeatureBuilder cs h1f h4f = Some fb) :
  exists fb', build_FeatureBuilder (take (i + 1) cs) h1f h4f = Some fb' /\
              build_at fb' i = build_at fb i.
Proof.
  exists (prefix_builder (i + 1) fb). split; [apply build_prefix; (done || lia)|].
  assert (fb_candles fb = cs /\ h1_factor fb = h1f /\ h4_factor fb = h4f) as (Ec & E1 & E4).
  { by apply build_inputs in Hb. }
  unfold build_at. rewrite <- Ec in Hi. unfold prefix_builder at 1. cbn [fb_candles].
  rewrite lookup_take_lt by lia. destruct (fb_candles fb !! i); [|done].
  by rewrite feats_prefix by congruence.
Qed.

(** [_last_closed_bin] returns the largest higher-timeframe bin all of
    whose base bars are at or before bar [i], and none exactly when the first
    bin is still forming. *)
Theorem last_closed_bin_spec (i f : nat) (Hf : 0 < f) :
  match _last_closed_bin i f with
  | Some b => b * f + f <= i + 1 < (b + 1) * f + f
  | None => i + 1 < f
  end.
Proof.
  unfold _last_closed_bin. pose proof (Nat.div_mod_eq i f).
  pose proof (Nat.mod_upper_bound i f ltac:(lia)).
  destruct (Nat.eqb_spec (i mod f) (f - 1)); [nia|].
  destruct (i / f); nia.
Qed.
End NoLookahead.

(** ** Warm-up and shape of a feature vector *)

Section WarmUp.
Context {F : Type} {A : Arith F} {R : ArithSqrt F}.

Lemma feats_names (fb : FeatureBuilder F) i c fs :
  mapM (fun nv => pair nv.1 <$> nv.2) (feats_at fb i c) = Some fs -> map fst fs = FEATURE_NAMES.
Proof.
  intros H. apply mapM_Some in H.
  assert (map fst fs = map fst (feats_at fb i c)) as ->; [|reflexivity].
  induction H as [|[n v] [n' v'] l l' Hx _ IH]; [done|]. simpl in *.
  destruct v; simplify_eq/=. by f_equal.
Qed.

Lemma build_at_inv (fb : FeatureBuilder F) i fs :
  build_at fb i = Ok (Some fs) ->
  exists c, fb_candles fb !! i = Some c /\
            mapM (fun nv => pair nv.1 <$> nv.2) (feats_at fb i c) = Some fs.
Proof.
  unfold build_at. destruct (fb_candles fb !! i) as [c|]; [|discriminate].
  intros H. exists c. split; [reflexivity|congruence].
Qed.

(** C35: a returned feature vector has exactly the 35 model features, in the
    model's order, and none is returned during warm-up: with the default H1
    factor the first vector needs 300 candles (24 closed H1 bars back). *)
Theorem features_complete (fb : FeatureBuilder F) i fs
  (Hf : h1_factor fb = 12) (H : build_at fb i = Ok (Some fs)) :
  map fst fs = FEATURE_NAMES /\ length fs = 35 /\ 299 <= i.
Proof.
  apply build_at_inv in H as (c & _ & H).
  pose proof (feats_names _ _ _ _ H) as Hn. split; [done|]. split.
  - by rewrite <- (length_map fst), Hn.
  - apply mapM_Some in H.
    destruct (Forall2_lookup_l _ _ _ 28 _ H eq_refl) as (y & _ & Hy). cbn -[_last_closed_bin Nat.leb] in Hy.
    destruct (_last_closed_bin i (h1_factor fb)) as [b|] eqn:E; [|done].
    rewrite Hf in E. pose proof (last_closed_bin_bound i 12 b ltac:(lia) E) as Hb.
    cbn -[Nat.leb] in Hy.
    destruct (Nat.leb_spec 24 b); [lia|done].
Qed.
End WarmUp.

(** ** Exact arithmetic *)

(** What [sma] should hold at index [i]: nothing before the window is full,
    then the mean of the window. *)
Definition sma_ref (values : list Q) (n i : nat) (o : option Q) : Prop :=
  match o with
  | None => i < n - 1
  | Some r => n - 1 <= i /\
      (r == q_sum (take n (drop (i + 1 - n) values)) / inject_Z (Z.of_nat n))%Q
  end.


Lemma sma_loop_ref n pre rest w j :
  0 < n -> (w == q_sum (drop (length pre - n) pre))%Q -> j < length rest ->
  exists o, sma_loop (pre ++ rest) n (length pre) rest w !! j = Some o /\
            sma_ref (pre ++ rest) n (length pre + j) o.
Proof.
  intros Hn. revert pre w j. induction rest as [|v rest IH]; intros pre w j Hw Hj; simpl in Hj; [lia|].
  cbn [sma_loop].
  set (w' := if n <=? length pre then _ else _).
  assert (w' == q_sum (drop (S (length pre) - n) (pre ++ [v])))%Q as Hw'.
  { unfold w'. destruct (Nat.leb_spec n (length pre)) as [H|H].
    - rewrite lookup_app_l by lia.
      destruct (lookup_lt_is_Some_2 pre (length pre - n)) as [old Hold]; [lia|]. rewrite Hold.
      rewrite drop_app_le by lia. rewrite q_sum_app.
      rewrite (drop_S _ _ _ Hold) in Hw. replace (S (length pre) - n) with (S (length pre - n)) by lia.
      cbn [f_add f_sub ArithQ]. unfold q_sum in *. simpl in *. rewrite Hw. ring.
    - replace (S (length pre) - n) with 0 by lia. replace (length pre - n) with 0 in Hw by lia.
      rewrite !drop_0 in *. rewrite q_sum_app. cbn [f_add ArithQ]. rewrite Hw.
      unfold q_sum. simpl. ring. }
  destruct j as [|j].
  - eexists. split; [reflexivity|]. rewrite Nat.add_0_r.
    destruct (Nat.leb_spec (n - 1) (length pre)) as [H|H]; cbn [sma_ref]; [|done]. split; [done|].
    cbn [f_quot ArithQ]. rewrite Hw', f_int_q. replace (length pre + 1 - n) with (S (length pre) - n) by lia.
    assert (drop (S (length pre) - n) (pre ++ [v]) =
            take n (drop (S (length pre) - n) (pre ++ v :: rest))) as ->; [|done].
    rewrite (cons_middle v pre rest), app_assoc, (drop_app_le (pre ++ [v])) by (rewrite length_app; simpl; lia).
    rewrite take_app_le, take_ge; [done|..]; rewrite length_drop, length_app; simpl; lia.
  - destruct (IH (pre ++ [v]) w' j) as (o & Ho & Hr); [by rewrite length_app, Nat.add_1_r | lia|].
    rewrite length_app, <- app_assoc in Ho, Hr. simpl in Ho, Hr. rewrite Nat.add_1_r in Ho, Hr.
    exists o. split; [exact Ho|]. by rewrite Nat.add_succ_r.
Qed.

(** The incremental window sum of [sma] computes the mean of the last
    [n] values at every index from [n - 1] on, and [None] before (exact
    arithmetic). *)
Theorem sma_is_window_mean (values : list Q) (n i : nat) (Hn : 0 < n) (Hi : i < length values) :
  exists o, sma values n !! i = Some o /\ sma_ref values n i o.
Proof.
  destruct (sma_loop_ref n [] values f_zero i) as (o & Ho & Hr); [done|reflexivity|done|].
  exists o. done.
Qed.

(** Smoothing weights of the two filters. *)
Lemma ema_alpha n : 0 < n ->
  (0 <= f_quot (f_int 2) (f_int (Z.of_nat (n + 1))) <= 1)%Q.
Proof.
  intros Hn. cbn [f_quot ArithQ]. rewrite !f_int_q.
  assert (2 <= inject_Z (Z.of_nat (n + 1)))%Q as H
    by (change 2%Q with (inject_Z 2); rewrite <- Zle_Qle; lia).
  split.
  - apply Qle_shift_div_l; [lra|]. rewrite Qmult_0_l. change 0%Q with (inject_Z 0).
    rewrite <- Zle_Qle. lia.
  - apply Qle_shift_div_r; [lra|]. rewrite Qmult_1_l. exact H.
Qed.

Lemma convex_bounds (a lo hi x y : Q) :
  (0 <= a <= 1 -> lo <= x <= hi -> lo <= y <= hi -> lo <= a * x + (1 - a) * y <= hi)%Q.
Proof. intros [Ha1 Ha2] [Hx1 Hx2] [Hy1 Hy2]. split; nra. Qed.

Lemma ema_loop_bounds alpha p lo hi (l : list Q) :
  (0 <= alpha <= 1)%Q -> (lo <= p <= hi)%Q -> Forall (fun v => lo <= v <= hi)%Q l ->
  Forall (fun v => lo <= v <= hi)%Q (ema_loop alpha p l).
Proof.
  intros Ha Hp Hl. revert p Hp. induction Hl as [|v l Hv _ IH]; intros p Hp; simpl; [constructor|].
  assert (lo <= alpha * v + (f_one - alpha) * p <= hi)%Q as H
    by (rewrite f_one_q; by apply convex_bounds).
  constructor; [exact H | by apply IH].
Qed.

(** An exponential moving average stays within the range of its inputs
    (exact arithmetic). *)
Theorem ema_within_range (values : list Q) (n : nat) (lo hi : Q) (Hn : 0 < n)
  (Hv : Forall (fun v => lo <= v <= hi)%Q values) :
  Forall (fun v => lo <= v <= hi)%Q (ema values n).
Proof.
  unfold ema. destruct Hv as [|v l Hx Hl]; [constructor|].
  constructor; [done|]. apply ema_loop_bounds; [by apply ema_alpha | done | done].
Qed.

(** [1 / n] is a weight, and Wilder's update is a convex combination. *)
Lemma rma_step n (p v : Q) lo : 0 < n -> (lo <= p)%Q -> (lo <= v)%Q ->
  (lo <= p + f_quot (v - p) (f_int (Z.of_nat n)))%Q.
Proof.
  intros Hn Hp Hv. cbn [f_quot ArithQ]. rewrite f_int_q.
  assert (1 <= inject_Z (Z.of_nat n))%Q as H
    by (change 1%Q with (inject_Z 1); rewrite <- Zle_Qle; lia).
  set (w := inject_Z (Z.of_nat n)) in *.
  assert (lo <= / w * v + (1 - / w) * p)%Q as H2.
  { assert (0 <= / w)%Q by (apply Qinv_le_0_compat; lra).
    assert (w * / w == 1)%Q by (apply Qmult_inv_r; lra).
    assert (/ w <= 1)%Q by nra. nra. }
  unfold Qdiv. lra.
Qed.

Definition all_ge (lo : Q) (l : list (option Q)) : Prop :=
  Forall (fun o => match o with Some v => (lo <= v)%Q | None => True end) l.

Lemma rma_loop_ge n lo p (l : list Q) :
  0 < n -> (lo <= p)%Q -> Forall (fun v => lo <= v)%Q l -> all_ge lo (rma_loop n p l).
Proof.
  intros Hn Hp Hl. revert p Hp. induction Hl as [|v l Hv _ IH]; intros p Hp; simpl; [constructor|].
  pose proof (rma_step n p v lo Hn Hp Hv) as H. constructor; [exact H | by apply IH].
Qed.

Lemma q_sum_ge lo (l : list Q) :
  Forall (fun v => lo <= v)%Q l -> (lo * inject_Z (Z.of_nat (length l)) <= q_sum l)%Q.
Proof.
  induction 1 as [|v l Hv _ IH]; [change (lo * 0 <= 0)%Q; lra|].
  change (length (v :: l)) with (S (length l)). rewrite Nat2Z.inj_succ. unfold Z.succ.
  rewrite inject_Z_plus. change (q_sum (v :: l)) with (v + q_sum l)%Q.
  change (inject_Z 1) with 1%Q. lra.
Qed.

(** Wilder smoothing never goes below its inputs. *)
Lemma rma_ge n lo (l : list Q) :
  0 < n -> Forall (fun v => lo <= v)%Q l -> all_ge lo (rma l n).
Proof.
  intros Hn Hl. unfold rma. destruct (Nat.ltb_spec (length l) n) as [H|H].
  - apply Forall_replicate. done.
  - assert (lo <= f_quot (py_sum (take n l)) (f_int (Z.of_nat n)))%Q as Hseed.
    { cbn [f_quot ArithQ]. rewrite f_int_q, py_sum_q.
      assert (0 < inject_Z (Z.of_nat n))%Q
        by (change 0%Q with (inject_Z 0); rewrite <- Zlt_Qlt; lia).
      apply Qle_shift_div_l; [done|].
      pose proof (q_sum_ge lo (take n l) ltac:(by apply Forall_take)) as Hs.
      rewrite take_min, Nat.min_l in Hs by lia. exact Hs. }
    apply Forall_app. split; [by apply Forall_replicate|]. constructor; [exact Hseed|].
    apply rma_loop_ge; [done..|]. by apply Forall_drop.
Qed.

Lemma adjacent_Forall {X} (g : X -> X -> Q) (P : Q -> Prop) p l :
  (forall a b, P (g a b)) -> Forall P (adjacent g p l).
Proof. intros H. revert p. induction l; intros p; simpl; constructor; auto. Qed.

Lemma py_max_zero (x : Q) : (0 <= py_max x f_zero)%Q.
Proof.
  unfold py_max. cbn [f_ltb ArithQ]. destruct (q_ltb x f_zero) eqn:E; q_tests.
  - by rewrite f_zero_q.
  - by rewrite f_zero_q in E.
Qed.

Lemma rsi_cell_bounds u d :
  match u with Some v => (0 <= v)%Q | None => True end ->
  match d with Some v => (0 <= v)%Q | None => True end ->
  match rsi_cell u d with Some v => (0 <= v <= 100)%Q | None => True end.
Proof.
  destruct u as [u|], d as [d|]; cbn [rsi_cell f_eqb f_ltb f_quot f_sub f_add ArithQ];
    try done. intros Hu Hd.
  destruct (Qeq_bool d f_zero) eqn:E.
  - destruct (q_ltb f_zero u); rewrite !f_int_q; split; unfold inject_Z, Qle; simpl; lia.
  - q_tests. rewrite f_zero_q in E. rewrite !f_int_q, f_one_q.
    change (inject_Z 100) with 100%Q.
    assert (0 <= u / d)%Q as Hr by (apply Qle_shift_div_l; lra).
    assert (0 <= 100 / (1 + u / d))%Q by (apply Qle_shift_div_l; lra).
    assert (100 / (1 + u / d) <= 100)%Q by (apply Qle_shift_div_r; lra).
    lra.
Qed.

(** The relative strength index lies between 0 and 100 wherever it is
    defined, the all-gain and flat special cases included (exact
    arithmetic). *)
Theorem rsi_within_0_100 (closes : list Q) (n : nat) (Hn : 0 < n) :
  Forall (fun o => match o with Some v => (0 <= v <= 100)%Q | None => True end)
         (rsi_from_closes closes n).
Proof.
  unfold rsi_from_closes. destruct closes as [|c rest]; [constructor|]. constructor; [done|].
  set (up := rma _ n). set (down := rma _ n).
  assert (all_ge 0 up) as Hu by (apply rma_ge; [done|]; apply adjacent_Forall; intros; apply py_max_zero).
  assert (all_ge 0 down) as Hd by (apply rma_ge; [done|]; apply adjacent_Forall; intros; apply py_max_zero).
  clearbody up down. revert down Hd. induction Hu as [|u up Hu _ IH]; intros down Hd; [constructor|].
  destruct Hd as [|d down Hd Hd']; [constructor|]. simpl. constructor; [by apply rsi_cell_bounds | by apply IH].
Qed.

(** ** Witnesses *)

(** A synthetic five-minute series in binary64. *)
Definition sample_candle (i : nat) : Candle spec_float :=
  let z := Z.of_nat i in
  let o := (1000 + z * 7 mod 13)%Z in
  let c := (1000 + z * z mod 11)%Z in
  mk_candle (1700000000000000 + z * 300000000)%Z (b64_dec o (-1)) (b64_dec (Z.max o c + 3) (-1))
    (b64_dec (Z.min o c - 2) (-1)) (b64_dec c (-1)) (b64_dec 5 0).

Definition sample_series (n : nat) : list (Candle spec_float) := map sample_candle (seq 0 n).

Lemma no_lookahead_witness :
  exists fb fb', build_FeatureBuilder (sample_series 4) 12 48 = Some fb /\
    build_FeatureBuilder (take 3 (sample_series 4)) 12 48 = Some fb' /\
    build_at fb' 2 = build_at fb 2.
Proof.
  destruct (build_FeatureBuilder (sample_series 4) 12 48) as [fb|] eqn:E.
  - destruct (no_lookahead (sample_series 4) 12 48 fb 2) as (fb' & H1 & H2);
      [lia | lia | vm_compute; lia | exact E |].
    exists fb, fb'. split; [reflexivity|]. split; [exact H1 | exact H2].
  - exfalso. vm_compute in E. discriminate E.
Defined.

Lemma last_closed_bin_spec_witness :
  match _last_closed_bin 23 12 with Some b => b * 12 + 12 <= 24 | None => False end.
Proof. pose proof (last_closed_bin_spec 23 12 ltac:(lia)) as H. vm_compute in H |- *. lia. Defined.

(** The names and the completeness of the vector of one bar. *)
Definition complete_at (cs : list (Candle spec_float)) (i : nat) : bool :=
  match build_FeatureBuilder cs 12 48 with
  | Some fb => match build_at fb i with Ok (Some _) => true | _ => false end
  | None => false
  end.

Lemma complete_at_inv cs i : complete_at cs i = true ->
  exists fb fs, build_FeatureBuilder cs 12 48 = Some fb /\ build_at fb i = Ok (Some fs).
Proof.
  unfold complete_at. destruct (build_FeatureBuilder cs 12 48) as [fb|]; [|discriminate].
  destruct (build_at fb i) as [[fs|]|] eqn:B; [|discriminate..]. intros _. by exists fb, fs.
Qed.

Lemma features_complete_witness :
  exists fb fs, build_FeatureBuilder (sample_series 300) 12 48 = Some fb /\
    build_at fb 299 = Ok (Some fs) /\ length fs = 35.
Proof.
  destruct (complete_at_inv (sample_series 300) 299) as (fb & fs & H1 & H2);
    [vm_compute; reflexivity|].
  exists fb, fs. split; [exact H1|]. split; [exact H2|].
  exact (proj1 (proj2 (features_complete fb 299 fs (proj1 (proj2 (build_inputs _ _ _ _ H1))) H2))).
Defined.

Lemma sma_is_window_mean_witness :
  exists o, sma [1; 2; 3; 4]%Q 2 !! 3 = Some o /\ sma_ref [1; 2; 3; 4]%Q 2 3 o.
Proof. apply sma_is_window_mean; vm_compute; lia. Defined.

Lemma ema_within_range_witness :
  Forall (fun v => 1 <= v <= 4)%Q (ema [1; 4; 2]%Q 3).
Proof.
  apply ema_within_range; [lia|]. repeat constructor; vm_compute; discriminate.
Defined.

Lemma rsi_within_0_100_witness :
  Forall (fun o => match o with Some v => (0 <= v <= 100)%Q | None => True end)
         (rsi_from_closes [1; 2; 1; 3]%Q 2).
Proof. apply rsi_within_0_100. lia. Defined.
