(* ===== verification/Predictor.v ===== *)
(** * Predictor: the ML trade filter and its HTTP endpoint

    apps/ml-predictor/xgb_predictor.py ([XGBPredictor]) and
    apps/ml-predictor/app.py ([handle_predict], [http_handler]).  The booster
    is third-party code: [p_score] is a parameter of the predictor record, a
    function that may raise.  [json.loads] on the request body and the
    Prometheus exposition are parameters of the HTTP layer. *)

From Stdlib Require Import ZArith QArith SpecFloat Ascii Strings.Byte.
From S2P Require Import Prelude Text PyFloat PyVal.
Open Scope Z_scope.

(** The model expects this many features, [direction] included. *)
Definition EXPECTED_FEATURE_COUNT : nat := 36.

Section Predictor.
Context {F : Type} {A : Arith F}.

Record XGBPredictor := mk_predictor {
  p_threshold : F;
  p_feature_order : list string;
  p_model_version : string;
  (** [Booster.predict] on the float32 row built from these values. *)
  p_score : list F -> result string F }.

(** Why a prediction failed, surfaced in [result["error"]]. *)
Inductive predict_error :=
| DirectionNotInt
| BadDirection (direction : Z)
| FeaturesNotDict
| MissingFeatures (names : list string)
| FeatureNotFloat (name : string)
| ScoreFailed (msg : string).

(** The text of [result["reason"]], by the branch that writes it. *)
Inductive reason_text :=
| NoReason
| ReasonFlip (position sig_dir : string) (prob : F)
| ReasonCloseOnly (position sig_dir : string) (prob : F)
| ReasonOpen (sig_dir : string) (prob : F)
| ReasonAlreadyIn (position : string)
| ReasonSkip (sig_dir : string) (prob : F).

(** The result dict, timestamp aside. *)
Record decision := mk_decision {
  signal_direction : option string;
  prob_win : option F;
  threshold : F;
  should_close : bool;
  should_open : bool;
  open_direction : option string;
  action_summary : string;
  reason : reason_text;
  model_version : string;
  error : option predict_error }.

(** Constructor of the feature order: blank lines dropped, count checked.
    [Err n] is the [ValueError] reporting [n] features. *)
Definition load_feature_order (lines : list string) : result nat (list string) :=
  let order := List.filter (fun l => negb (bool_decide (l = ""%string))) (map strip lines) in
  if Nat.eqb (length order) EXPECTED_FEATURE_COUNT then Ok order else Err (length order).

(** Convert the ordered features one by one. *)
Fixpoint floats_of (merged : pydict F) (names : list string) : result predict_error (list F) :=
  match names with
  | [] => Ok []
  | name :: names' =>
      let! x := or_raise (to_float (get merged name)) (FeatureNotFloat name) in
      let! xs := floats_of merged names' in
      Ok (x :: xs)
  end.

Definition _build_feature_vector (p : XGBPredictor) (features : pydict F) (direction : Z)
  : result predict_error (list F) :=
  let merged := dict_set features "direction" (PInt direction) in
  let missing :=
    List.filter (fun f => match dict_get merged f with None => true | Some _ => false end)
                (p_feature_order p) in
  match missing with
  | [] => floats_of merged (p_feature_order p)
  | _ => Err (MissingFeatures missing)
  end.

Definition initial_decision (p : XGBPredictor) : decision :=
  mk_decision None None (p_threshold p) false false None "NOTHING" NoReason (p_model_version p) None.

(** Steps 1 to 3 of [predict]: close, open, summary. *)
Definition option1 (p : XGBPredictor) (sig_dir : string) (current_position : option string) (prob : F)
  : decision :=
  let filter_pass := f_ltb (p_threshold p) prob in
  let should_close :=
    bool_decide (current_position = Some "LONG"%string) && bool_decide (sig_dir = "SHORT"%string) ||
    bool_decide (current_position = Some "SHORT"%string) && bool_decide (sig_dir = "LONG"%string) in
  let will_be_flat := bool_decide (current_position = None) || should_close in
  let same_direction := bool_decide (current_position = Some sig_dir) in
  let should_open := if same_direction then false else will_be_flat && filter_pass in
  let pos := default "None"%string current_position in
  let '(summary, why) :=
    if should_close && should_open then (("FLIP_" +:+ sig_dir)%string, ReasonFlip pos sig_dir prob)
    else if should_close then ("CLOSE_ONLY"%string, ReasonCloseOnly pos sig_dir prob)
    else if should_open then (("OPEN_" +:+ sig_dir)%string, ReasonOpen sig_dir prob)
    else if same_direction then ("NOTHING"%string, ReasonAlreadyIn pos)
    else ("NOTHING"%string, ReasonSkip sig_dir prob) in
  mk_decision (Some sig_dir) (Some (f_round 4 prob)) (p_threshold p) should_close should_open
    (if should_open then Some sig_dir else None) summary why (p_model_version p) None.

(** The default result with an error; [signal_direction] is already set when
    the failure comes after the direction check. *)
Definition failed_decision (p : XGBPredictor) (dir : option string) (e : predict_error) : decision :=
  mk_decision dir None (p_threshold p) false false None "NOTHING" NoReason (p_model_version p) (Some e).

Definition predict (p : XGBPredictor) (payload : pydict F) (current_position : option string)
  : decision :=
  match to_int (get_or payload "direction" (PInt 0)) with
  | None => failed_decision p None DirectionNotInt
  | Some direction =>
      if negb ((direction =? 1) || (direction =? -1)) then
        failed_decision p None (BadDirection direction)
      else
        let sig_dir := (if direction =? 1 then "LONG"%string else "SHORT"%string) in
        match get payload "features" with
        | PDict features =>
            match _build_feature_vector p features direction with
            | Err e => failed_decision p (Some sig_dir) e
            | Ok x =>
                match p_score p x with
                | Err msg => failed_decision p (Some sig_dir) (ScoreFailed msg)
                | Ok prob => option1 p sig_dir current_position prob
                end
            end
        | _ => failed_decision p (Some sig_dir) FeaturesNotDict
        end
  end.

(** ** HTTP endpoint *)

Definition MAX_BODY_BYTES : Z := 1024 * 1024.

Inductive response_body :=
| BodyError (msg : string) (version : option string)
| BodyDecision (d : decision)
| BodyStatus (s : string)
| BodyMetrics (text : string)
| BodyEmpty.

Record response := mk_response { status_code : Z; body : response_body }.

(** Prometheus state touched by a prediction. *)
Record metrics := mk_metrics {
  prediction_errors : nat;
  predictions_made : list string;
  prob_observed : list F }.

Definition count_error (m : metrics) : metrics :=
  mk_metrics (S (prediction_errors m)) (predictions_made m) (prob_observed m).

(** Error body tagged with the model version when a model is loaded. *)
Definition _predict_error_response (pred : option XGBPredictor) (code : Z) (msg : string) : response :=
  mk_response code (BodyError msg (p_model_version <$> pred)).

(** The header loop: the last Content-Length wins, a bad or negative one stops
    it at once ([Err]).  Lines are already decoded and stripped. *)
Fixpoint read_content_length (lines : list string) (cur : Z) : result unit Z :=
  match lines with
  | [] => Ok cur
  | line :: rest =>
      if bool_decide (line = ""%string) then Ok cur
      else if contains line ":" then
        let parts := split ":"%char line in
        let key := default ""%string (parts !! 0%nat) in
        let val := join ":" (drop 1 parts) in
        if bool_decide (lower key = "content-length"%string) then
          match parse_int (strip val) with
          | None => Err tt
          | Some n => if n <? 0 then Err tt else read_content_length rest n
          end
        else read_content_length rest cur
      else read_content_length rest cur
  end.

Context (json_loads : bytes -> option (pyval F)).

(** The value of ["current_position"]: a string, [None] for null, and any
    other JSON value compares equal to neither side (written [Some ""]). *)
Definition position_of (v : pyval F) : option string :=
  match v with
  | PNone => None
  | PStr s => Some s
  | _ => Some ""%string
  end.

(** [handle_predict]: [None] is an exception that escapes to [http_handler]
    (short body, undecodable body, a JSON document that is not an object). *)
Definition handle_predict (pred : option XGBPredictor) (lines : list string) (stream : bytes)
    (m : metrics) : metrics * option response :=
  match read_content_length lines 0 with
  | Err _ => (count_error m, Some (_predict_error_response pred 400 "invalid Content-Length"))
  | Ok content_length =>
      if MAX_BODY_BYTES <? content_length then
        (count_error m, Some (_predict_error_response pred 413 "request body too large"))
      else if Z.of_nat (length stream) <? content_length then (m, None)
      else
        let body := take (Z.to_nat content_length) stream in
        if negb (utf8_valid body) then (m, None)
        else match json_loads body with
        | None => (count_error m, Some (_predict_error_response pred 400 "invalid JSON"))
        | Some payload =>
            match pred with
            | None => (count_error m, Some (mk_response 503 (BodyError "model not loaded" None)))
            | Some p =>
                match payload with
                | PDict d =>
                    let dec := predict p d (position_of (get d "current_position")) in
                    match error dec with
                    | Some _ => (count_error m, Some (mk_response 400 (BodyDecision dec)))
                    | None =>
                        (mk_metrics (prediction_errors m)
                           (predictions_made m ++ [action_summary dec])
                           (prob_observed m ++ match prob_win dec with Some q => [q] | None => [] end),
                         Some (mk_response 200 (BodyDecision dec)))
                    end
                | _ => (m, None)
                end
            end
        end
  end.

(** [http_handler]: [None] closes the connection without a response. *)
Definition http_handler (pred : option XGBPredictor) (metrics_text : string)
    (request_line : list string) (lines : list string) (stream : bytes) (m : metrics)
  : metrics * option response :=
  match request_line with
  | method :: path :: _ =>
      let loaded := match pred with Some _ => true | None => false end in
      if bool_decide (path = "/health"%string) && bool_decide (method = "GET"%string) then
        (m, Some (mk_response (if loaded then 200 else 503)
                    (BodyStatus (if loaded then "ok" else "model not loaded"))))
      else if bool_decide (path = "/healthz"%string) && bool_decide (method = "GET"%string) then
        (m, Some (mk_response 200 (BodyStatus "ok")))
      else if bool_decide (path = "/readyz"%string) && bool_decide (method = "GET"%string) then
        (m, Some (mk_response (if loaded then 200 else 503)
                    (BodyStatus (if loaded then "ready" else "not ready"))))
      else if bool_decide (path = "/metrics"%string) && bool_decide (method = "GET"%string) then
        (m, Some (mk_response 200 (BodyMetrics metrics_text)))
      else if bool_decide (path = "/predict"%string) && bool_decide (method = "POST"%string) then
        handle_predict pred lines stream m
      else (m, Some (mk_response 404 BodyEmpty))
  | _ => (m, None)
  end.

End Predictor.

Arguments XGBPredictor F : clear implicits.
Arguments decision F : clear implicits.
Arguments metrics F : clear implicits.

(** ** Option-1 rules *)

Section PredictorFacts.
Context {F : Type} {A : Arith F}.

(** What [predict] promises, as a table over the tracked position. *)
Definition option1_spec (sig_dir : string) (pos : option string) (pass : bool) (d : decision F) : Prop :=
  let opposite := match pos with
    | Some "LONG"%string => bool_decide (sig_dir = "SHORT"%string)
    | Some "SHORT"%string => bool_decide (sig_dir = "LONG"%string)
    | _ => false end in
  should_close d = opposite /\
  should_open d = ((bool_decide (pos = None) || opposite) && pass) /\
  open_direction d = (if should_open d then Some sig_dir else None) /\
  action_summary d =
    (if should_close d then if should_open d then "FLIP_" +:+ sig_dir else "CLOSE_ONLY"
     else if should_open d then "OPEN_" +:+ sig_dir else "NOTHING")%string.

Lemma string_eq_dec_cases (s : string) : s = "LONG"%string \/ s = "SHORT"%string \/
  (s <> "LONG"%string /\ s <> "SHORT"%string).
Proof. destruct (decide (s = "LONG"%string)), (decide (s = "SHORT"%string)); auto. Qed.

Lemma pos_match_other (s : string) (a b c : bool) :
  s <> "LONG"%string -> s <> "SHORT"%string ->
  match s with "LONG"%string => a | "SHORT"%string => b | _ => c end = c.
Proof.
  intros H1 H2.
  destruct (decide (s = "LONG"%string)); [done|]. destruct (decide (s = "SHORT"%string)); [done|].
  repeat (match goal with
    | |- match ?x with _ => _ end = _ => destruct x; try done
    end).
Qed.

Lemma option1_ok (p : XGBPredictor F) sig_dir pos prob :
  sig_dir = "LONG"%string \/ sig_dir = "SHORT"%string ->
  option1_spec sig_dir pos (f_ltb (p_threshold p) prob) (option1 p sig_dir pos prob).
Proof.
  intros Hs. unfold option1_spec, option1.
  destruct pos as [s|].
  - destruct (string_eq_dec_cases s) as [->|[->|[N1 N2]]].
    + destruct Hs as [->| ->]; destruct (f_ltb _ _); by vm_compute.
    + destruct Hs as [->| ->]; destruct (f_ltb _ _); by vm_compute.
    + rewrite pos_match_other by done.
      rewrite !(bool_decide_false (Some s = _)) by (destruct Hs; congruence).
      done.
  - destruct Hs as [->| ->]; destruct (f_ltb _ _); by vm_compute.
Qed.

Lemma option1_no_error (p : XGBPredictor F) sd pos prob : error (option1 p sd pos prob) = None.
Proof. unfold option1. by repeat case_match; simplify_eq. Qed.

(** Every outcome of [predict] is the default with an error, or the Option-1
    decision of a scored signal. *)
Lemma predict_cases (p : XGBPredictor F) payload pos :
  (exists dir e, predict p payload pos = failed_decision p dir e) \/
  (exists d sig_dir features x prob,
     to_int (get_or payload "direction" (PInt 0)) = Some d /\ (d = 1 \/ d = -1) /\
     sig_dir = (if d =? 1 then "LONG"%string else "SHORT"%string) /\
     get payload "features" = PDict features /\
     _build_feature_vector p features d = Ok x /\ p_score p x = Ok prob /\
     predict p payload pos = option1 p sig_dir pos prob).
Proof.
  unfold predict. destruct (to_int _) as [d|] eqn:Ed; [|left; eauto].
  destruct (negb _) eqn:N; [left; eauto|]. bool_hyps.
  assert (d = 1 \/ d = -1) as Hd.
  { apply orb_true_iff in N as [N|N]; apply Z.eqb_eq in N; auto. }
  destruct (get payload "features") as [| | | | | |features] eqn:Ef; try (left; by eauto).
  destruct (_build_feature_vector _ _ _) as [x|e] eqn:Ex; [|left; by eauto].
  destruct (p_score p x) as [prob|msg] eqn:Es; [|left; by eauto].
  right. eexists d, _, features, x, prob. eauto 10.
Qed.

(** Option-1 decision table.  When the payload is well formed and the model
    scores it, an opposite signal always closes (no filter on the close), a
    position opens only from flat or on a flip and only if the probability
    exceeds the threshold, a same-direction signal never pyramids, and the
    summary names exactly that combination. *)
Theorem predict_decides (p : XGBPredictor F) (payload : pydict F) pos
  (H : error (predict p payload pos) = None) :
  exists d x prob features,
    to_int (get_or payload "direction" (PInt 0)) = Some d /\ (d = 1 \/ d = -1) /\
    get payload "features" = PDict features /\
    _build_feature_vector p features d = Ok x /\ p_score p x = Ok prob /\
    option1_spec (if d =? 1 then "LONG"%string else "SHORT"%string) pos (f_ltb (p_threshold p) prob)
      (predict p payload pos).
Proof.
  destruct (predict_cases p payload pos) as [(dir & e & E)|(d & sd & fs & x & prob & H1 & H2 & -> & H4 & H5 & H6 & ->)].
  - by rewrite E in H.
  - exists d, x, prob, fs. split_and!; try done.
    destruct H2 as [->| ->]; apply option1_ok; auto.
Qed.

(** Fail-safe.  Any malformed payload, missing feature or scoring failure
    yields an error result that neither opens nor closes anything. *)
Theorem predict_error_is_inert (p : XGBPredictor F) payload pos
  (H : error (predict p payload pos) <> None) :
  should_open (predict p payload pos) = false /\ should_close (predict p payload pos) = false /\
  open_direction (predict p payload pos) = None /\ prob_win (predict p payload pos) = None /\
  action_summary (predict p payload pos) = "NOTHING"%string.
Proof.
  destruct (predict_cases p payload pos) as [(dir & e & E)|(d & sd & fs & x & prob & _ & _ & _ & _ & _ & _ & E)];
    rewrite E in *; [done|]. by rewrite option1_no_error in H.
Qed.


(** A 200 answer is a decision.  Whenever [handle_predict] answers 200, a
    model is loaded, the declared body is at most 1 MiB, and the body carries an
    error-free decision of that model, which is exactly what the counters record;
    in every other case no prediction is counted. *)
Theorem handle_predict_200 (jl : bytes -> option (pyval F)) pred lines stream (m m' : metrics F) r
  (H : handle_predict jl pred lines stream m = (m', r)) :
  (exists p d n dec, pred = Some p /\ read_content_length lines 0 = Ok n /\ n <= MAX_BODY_BYTES /\
     jl (take (Z.to_nat n) stream) = Some (PDict d) /\
     dec = predict p d (position_of (get d "current_position")) /\ error dec = None /\
     r = Some (mk_response 200 (BodyDecision dec)) /\
     predictions_made m' = predictions_made m ++ [action_summary dec] /\
     prediction_errors m' = prediction_errors m) \/
  (predictions_made m' = predictions_made m /\ prob_observed m' = prob_observed m /\
   match r with
   | None => prediction_errors m' = prediction_errors m
   | Some resp => status_code resp <> 200 /\ prediction_errors m' = S (prediction_errors m)
   end).
Proof.
  unfold handle_predict in H.
  destruct (read_content_length lines 0) as [n|] eqn:En; [|injection H as <- <-; right; done].
  destruct (MAX_BODY_BYTES <? n) eqn:Em; [injection H as <- <-; right; done|].
  destruct (Z.of_nat (length stream) <? n); [injection H as <- <-; right; done|].
  cbn zeta in H.
  destruct (negb _); [injection H as <- <-; right; done|].
  destruct (jl _) as [payload|] eqn:Ej; [|injection H as <- <-; right; done].
  destruct pred as [p|]; [|injection H as <- <-; right; done].
  destruct payload as [| | | | | |d]; try (injection H as <- <-; right; done).
  destruct (error _) eqn:Ee; injection H as <- <-; [right; done|].
  left. apply Z.ltb_ge in Em. exists p, d, n, (predict p d (position_of (get d "current_position"))).
  done.
Qed.

End PredictorFacts.

(** ** Witnesses: a one-feature model at the shipped threshold *)

Module Demo.
Definition model (prob : Q) : XGBPredictor Q :=
  mk_predictor (5 # 10)%Q ["direction"%string] "v1" (fun _ => Ok prob).
Definition payload : pydict Q := [("direction"%string, PInt (-1)); ("features"%string, PDict [])].
End Demo.

Lemma predict_decides_witness :
  error (predict (Demo.model (7 # 10)) Demo.payload (Some "LONG"%string)) = None /\
  exists d x prob features,
    to_int (get_or Demo.payload "direction" (PInt 0)) = Some d /\ (d = 1 \/ d = -1) /\
    get Demo.payload "features" = PDict features /\
    _build_feature_vector (Demo.model (7 # 10)) features d = Ok x /\
    p_score (Demo.model (7 # 10)) x = Ok prob /\
    option1_spec (if d =? 1 then "LONG"%string else "SHORT"%string) (Some "LONG"%string)
      (f_ltb (p_threshold (Demo.model (7 # 10))) prob)
      (predict (Demo.model (7 # 10)) Demo.payload (Some "LONG"%string)).
Proof.
  split; [by vm_compute|].
  apply (predict_decides (Demo.model (7 # 10)) Demo.payload (Some "LONG"%string)). by vm_compute.
Defined.

Lemma predict_error_is_inert_witness :
  error (predict (Demo.model (7 # 10)) [] None) <> None /\
  should_open (predict (Demo.model (7 # 10)) [] None) = false.
Proof.
  split; [by vm_compute|].
  apply (predict_error_is_inert (Demo.model (7 # 10)) [] None). by vm_compute.
Defined.

Definition Demo_response : metrics Q * option (response) :=
  handle_predict (fun _ => Some (PDict Demo.payload)) (Some (Demo.model (7 # 10)))
    ["Content-Length: 2"%string; ""%string] [x7b; x7d] (mk_metrics 0 [] []).

Lemma handle_predict_200_witness :
  (status_code <$> snd Demo_response) = Some 200 /\ predictions_made (fst Demo_response) = ["OPEN_SHORT"%string].
Proof.
  destruct (handle_predict_200 (fun _ => Some (PDict Demo.payload)) (Some (Demo.model (7 # 10)))
      ["Content-Length: 2"%string; ""%string] [x7b; x7d] (mk_metrics 0 [] [])
      (fst Demo_response) (snd Demo_response)) as [(p & d & n & dec & Hp & _ & _ & Hd & Hdec & _ & Hr & Hm & _)|(E & _)].
  - by vm_compute.
  - injection Hp as <-. injection Hd as <-. rewrite Hr, Hm, Hdec. by vm_compute.
  - by vm_compute in E.
Defined.
