(* ===== verification/BtScorer.v ===== *)
(** * BtScorer: the backtester's copy of the trade filter

    apps/backtester/xgb_predictor.py.  The module is a copy of the live
    predictor's, kept so that a replay decides exactly as the live path does.  It
    is translated here from its own source, with its own record and result (which
    have no model version), and compared with Predictor.v. *)

From Stdlib Require Import ZArith QArith.
From S2P Require Import Prelude Text PyFloat PyVal Predictor.
Open Scope Z_scope.

(** The copy's own constant. *)
Definition BT_EXPECTED_FEATURE_COUNT : nat := 36.

Section Scorer.
Context {F : Type} {A : Arith F}.

Record Scorer := mk_scorer {
  c_threshold : F; c_feature_order : list string; c_score : list F -> result string F }.

(** The result dict, timestamp aside. *)
Record verdict := mk_verdict {
  v_direction : option string; v_prob : option F; v_threshold : F; v_close : bool; v_open : bool;
  v_open_direction : option string; v_summary : string; v_reason : reason_text (F := F);
  v_error : option predict_error }.

(** The constructor: blank lines dropped, then the count is checked. *)
Definition new_scorer (booster : list F -> result string F) (lines : list string) (thr : F) : result nat Scorer :=
  let order := omap (fun l => if bool_decide (strip l = ""%string) then None else Some (strip l)) lines in
  if bool_decide (length order = BT_EXPECTED_FEATURE_COUNT) then Ok (mk_scorer thr order booster)
  else Err (length order).

Fixpoint row_values (merged : pydict F) (names : list string) : result predict_error (list F) :=
  match names with
  | [] => Ok []
  | name :: rest =>
      match to_float (get merged name) with
      | None => Err (FeatureNotFloat name)
      | Some x => let! xs := row_values merged rest in Ok (x :: xs)
      end
  end.

Definition scorer_vector (c : Scorer) (features : pydict F) (direction : Z) : result predict_error (list F) :=
  let merged := dict_set features "direction" (PInt direction) in
  let missing := List.filter (fun f => negb (bool_decide (is_Some (dict_get merged f)))) (c_feature_order c) in
  if bool_decide (missing = []) then row_values merged (c_feature_order c) else Err (MissingFeatures missing).

Definition start_verdict (c : Scorer) : verdict :=
  mk_verdict None None (c_threshold c) false false None "NOTHING" NoReason None.

(** The close, open and summary steps, each updating the result. *)
Definition close_step (position : option string) (sig_dir : string) (r : verdict) : verdict :=
  let closing := mk_verdict (v_direction r) (v_prob r) (v_threshold r) true (v_open r) (v_open_direction r) (v_summary r)
                   (v_reason r) (v_error r) in
  if bool_decide (position = Some "LONG"%string) && bool_decide (sig_dir = "SHORT"%string) then closing
  else if bool_decide (position = Some "SHORT"%string) && bool_decide (sig_dir = "LONG"%string) then closing
  else r.

Definition open_step (position : option string) (sig_dir : string) (filter_pass : bool) (r : verdict) : verdict :=
  let will_be_flat := bool_decide (position = None) || v_close r in
  if bool_decide (position = Some sig_dir) then r
  else if will_be_flat && filter_pass then
    mk_verdict (v_direction r) (v_prob r) (v_threshold r) (v_close r) true (Some sig_dir) (v_summary r) (v_reason r) (v_error r)
  else r.

Definition with_summary (summary : string) (why : reason_text (F := F)) (r : verdict) : verdict :=
  mk_verdict (v_direction r) (v_prob r) (v_threshold r) (v_close r) (v_open r) (v_open_direction r) summary why (v_error r).

Definition summary_step (position : option string) (sig_dir : string) (prob : F) (r : verdict) : verdict :=
  let pos := default "None"%string position in
  if v_close r && v_open r then with_summary ("FLIP_" +:+ sig_dir) (ReasonFlip pos sig_dir prob) r
  else if v_close r then with_summary "CLOSE_ONLY" (ReasonCloseOnly pos sig_dir prob) r
  else if v_open r then with_summary ("OPEN_" +:+ sig_dir) (ReasonOpen sig_dir prob) r
  else if bool_decide (position = Some sig_dir) then with_summary (v_summary r) (ReasonAlreadyIn pos) r
  else with_summary (v_summary r) (ReasonSkip sig_dir prob) r.

(** What the [try] block raises, with the result as it was by then. *)
Definition scorer_body (c : Scorer) (payload : pydict F) (position : option string) : result (predict_error * verdict) verdict :=
  let r := start_verdict c in
  let! direction := or_raise (to_int (get_or payload "direction" (PInt 0))) (DirectionNotInt, r) in
  if negb ((direction =? 1) || (direction =? -1))%Z then Err (BadDirection direction, r)
  else
    let sig_dir := (if direction =? 1 then "LONG"%string else "SHORT"%string) in
    let r := mk_verdict (Some sig_dir) (v_prob r) (v_threshold r) (v_close r) (v_open r) (v_open_direction r) (v_summary r)
               (v_reason r) (v_error r) in
    match get payload "features" with
    | PDict features =>
        match scorer_vector c features direction with
        | Err e => Err (e, r)
        | Ok x =>
            match c_score c x with
            | Err msg => Err (ScoreFailed msg, r)
            | Ok prob =>
                let r := mk_verdict (v_direction r) (Some (f_round 4 prob)) (v_threshold r) (v_close r) (v_open r)
                           (v_open_direction r) (v_summary r) (v_reason r) (v_error r) in
                Ok (summary_step position sig_dir prob
                      (open_step position sig_dir (f_ltb (c_threshold c) prob) (close_step position sig_dir r)))
            end
        end
    | _ => Err (FeaturesNotDict, r)
    end.

Definition scorer_predict (c : Scorer) (payload : pydict F) (position : option string) : verdict :=
  match scorer_body c payload position with
  | Ok r => r
  | Err (e, r) =>
      mk_verdict (v_direction r) (v_prob r) (v_threshold r) (v_close r) (v_open r) (v_open_direction r) (v_summary r)
        (v_reason r) (Some e)
  end.

End Scorer.

Arguments Scorer F : clear implicits.
Arguments verdict F : clear implicits.

(** ** The copy decides as the original *)

Section Same.
Context {F : Type} {A : Arith F}.

Definition scorer_of (p : XGBPredictor F) : Scorer F := mk_scorer (p_threshold p) (p_feature_order p) (p_score p).

(** A decision without its model version. *)
Definition verdict_of (d : decision F) : verdict F :=
  mk_verdict (signal_direction d) (prob_win d) (threshold d) (should_close d) (should_open d) (open_direction d)
    (action_summary d) (reason d) (error d).

Lemma row_values_floats (merged : pydict F) names : row_values merged names = floats_of merged names.
Proof. induction names as [|n names IH]; simpl; [done|]. rewrite IH. by destruct (to_float (get merged n)). Qed.

Lemma scorer_vector_same (p : XGBPredictor F) features d :
  scorer_vector (scorer_of p) features d = _build_feature_vector p features d.
Proof.
  unfold scorer_vector, _build_feature_vector. cbn [scorer_of c_feature_order].
  set (merged := dict_set _ _ _).
  erewrite (List.filter_ext (fun f => negb (bool_decide (is_Some (dict_get merged f))))
    (fun f => match dict_get merged f with None => true | Some _ => false end)).
  - rewrite row_values_floats. by destruct (List.filter _ _).
  - intros f. by destruct (dict_get merged f).
Qed.

Lemma steps_option1 (p : XGBPredictor F) position sig_dir prob r :
  v_direction r = Some sig_dir -> v_prob r = Some (f_round 4 prob) -> v_threshold r = p_threshold p ->
  v_close r = false -> v_open r = false -> v_open_direction r = None -> v_summary r = "NOTHING"%string -> v_error r = None ->
  summary_step position sig_dir prob
    (open_step position sig_dir (f_ltb (p_threshold p) prob) (close_step position sig_dir r)) =
  verdict_of (option1 p sig_dir position prob).
Proof.
  destruct r as [r1 r2 r3 r4 r5 r6 r7 r8 r9]. cbn. intros -> -> -> -> -> -> -> ->.
  unfold summary_step, open_step, close_step, option1, verdict_of, with_summary.
  destruct (bool_decide (position = Some "LONG"%string) && bool_decide (sig_dir = "SHORT"%string)),
    (bool_decide (position = Some "SHORT"%string) && bool_decide (sig_dir = "LONG"%string)),
    (bool_decide (position = None)), (bool_decide (position = Some sig_dir)), (f_ltb (p_threshold p) prob); done.
Qed.

(** C39: the backtester scores exactly like the live predictor.  For every payload
    and position, errors included, the copy's result is the live predictor's
    without the model version; and both load the same feature list from the same
    file or refuse it with the same count. *)
Theorem scorer_is_predictor (p : XGBPredictor F) payload position lines thr version :
  scorer_predict (scorer_of p) payload position = verdict_of (predict p payload position) /\
  match new_scorer (p_score p) lines thr, load_feature_order lines with
  | Ok c, Ok order => c = scorer_of (mk_predictor thr order version (p_score p))
  | Err n, Err m => n = m
  | _, _ => False
  end.
Proof.
  split.
  - unfold scorer_predict, scorer_body, predict.
    destruct (to_int (get_or payload "direction" (PInt 0))) as [d|]; cbn [or_raise rbind]; [|done].
    destruct (negb ((d =? 1) || (d =? -1))); [done|].
    destruct (get payload "features") as [| | | | | |features]; try done.
    rewrite scorer_vector_same. destruct (_build_feature_vector p features d) as [x|e]; [|done].
    cbn [scorer_of c_score]. destruct (p_score p x) as [prob|msg]; [|done]. by apply steps_option1.
  - unfold new_scorer, load_feature_order.
    assert (forall ls, omap (fun l => if bool_decide (strip l = ""%string) then None else Some (strip l)) ls =
      List.filter (fun l => negb (bool_decide (l = ""%string))) (map strip ls)) as ->.
    { induction ls as [|l ls IH]; [done|]. simpl. rewrite <-IH. by case_bool_decide. }
    unfold BT_EXPECTED_FEATURE_COUNT, EXPECTED_FEATURE_COUNT.
    destruct (Nat.eqb_spec (length (List.filter (fun l => negb (bool_decide (l = ""%string))) (map strip lines))) 36) as [E|E].
    + by rewrite bool_decide_true.
    + by rewrite bool_decide_false.
Qed.

End Same.
