(* ===== verification/Backtest.v ===== *)
(** * Backtest: filtered against unfiltered replay

    apps/backtester/backtest_ml.py: the Option-1 position bookkeeping of a
    branch ([Trade], [BranchState], [_baseline_decision]), its statistics and
    [run_comparison], and the aggregate metrics of the live endpoint
    ([run_backtest] of apps/backtester/app.py).  [open_trade] is in the source a
    reference to the last element of [trades]; here it is that element's index,
    so that closing it mutates the shared list. *)

From Stdlib Require Import ZArith QArith Lqa SpecFloat.
From S2P Require Import Prelude PyFloat PyVal Features Predictor.
Open Scope Z_scope.

Definition LONG : string := "LONG".
Definition SHORT : string := "SHORT".

(** The [action] column of the signals file: a word or an integer. *)
Definition action_direction (raw : string) : option Z :=
  let action := lower (strip raw) in
  if bool_decide (action = "buy"%string) || bool_decide (action = "long"%string) then Some 1
  else if bool_decide (action = "sell"%string) || bool_decide (action = "short"%string) then Some (-1)
  else parse_int action.

Section Branch.
Context {F : Type} {A : Arith F} {R : ArithSqrt F}.
Open Scope pyf_scope.

Record RawSignal := mk_raw_signal { s_timestamp : Z; s_direction : Z }.

(** Times are UTC microseconds; a price is missing when the signal falls on
    the last candle, which has no next bar to fill at. *)
Record Trade := mk_trade {
  t_direction : string;
  entry_index : nat;
  entry_time : Z;
  entry_price : option F;
  exit_index : option nat;
  exit_time : option Z;
  exit_price : option F }.

Definition is_open (t : Trade) : bool :=
  match exit_price t with None => true | Some _ => false end.

Inductive backtest_error :=
| EntryPriceMissing
| EntryPriceZero
| BuilderError
| BarError (e : index_error).

(** [Ok None] for an open trade; the arithmetic raises on a missing or zero
    entry price. *)
Definition pnl_pct (t : Trade) : result backtest_error (option F) :=
  match exit_price t with
  | None => Ok None
  | Some x =>
      let sign := if bool_decide (t_direction t = LONG) then f_one else f_int (-1) in
      match entry_price t with
      | None => Err EntryPriceMissing
      | Some e =>
          let! r := or_raise (f_div (sign * (x - e)) e) EntryPriceZero in
          Ok (Some r)
      end
  end.

Record baseline := mk_baseline {
  b_close : bool; b_open : bool; b_open_direction : option string }.

Definition _baseline_decision (sig_dir : string) (current_position : option string) : baseline :=
  let should_close :=
    bool_decide (current_position = Some LONG) && bool_decide (sig_dir = SHORT) ||
    bool_decide (current_position = Some SHORT) && bool_decide (sig_dir = LONG) in
  let will_be_flat := bool_decide (current_position = None) || should_close in
  let same_direction := bool_decide (current_position = Some sig_dir) in
  let should_open := negb same_direction && will_be_flat in
  mk_baseline should_close should_open (if should_open then Some sig_dir else None).

Record BranchState := mk_branch {
  current_position : option string;
  open_trade : option nat;
  trades : list Trade;
  signals_seen : nat;
  opened : nat;
  closed : nat;
  skipped_pyramid : nat;
  skipped_filter : nat }.

Definition new_branch : BranchState := mk_branch None None [] 0 0 0 0 0.

Definition close_trade (index : nat) (ts : Z) (fill : option F) (t : Trade) : Trade :=
  mk_trade (t_direction t) (entry_index t) (entry_time t) (entry_price t)
           (Some index) (Some ts) fill.

Definition apply (st : BranchState) (sig_dir : string) (should_close should_open : bool)
    (open_direction : option string) (blocked_by_filter : bool) (index : nat) (ts : Z)
    (fill_price : option F) : BranchState :=
  let pre_position := current_position st in
  let st := mk_branch (current_position st) (open_trade st) (trades st) (S (signals_seen st))
              (opened st) (closed st) (skipped_pyramid st) (skipped_filter st) in
  let st :=
    match should_close, open_trade st with
    | true, Some k =>
        mk_branch None None (alter (close_trade index ts fill_price) k (trades st))
          (signals_seen st) (opened st) (S (closed st)) (skipped_pyramid st) (skipped_filter st)
    | _, _ => st
    end in
  match should_open, open_direction with
  | true, Some dir =>
      mk_branch (Some dir) (Some (length (trades st)))
        (trades st ++ [mk_trade dir index ts fill_price None None None])
        (signals_seen st) (S (opened st)) (closed st) (skipped_pyramid st) (skipped_filter st)
  | _, _ =>
      if negb should_close && bool_decide (pre_position = Some sig_dir) then
        mk_branch (current_position st) (open_trade st) (trades st) (signals_seen st)
          (opened st) (closed st) (S (skipped_pyramid st)) (skipped_filter st)
      else if blocked_by_filter then
        mk_branch (current_position st) (open_trade st) (trades st) (signals_seen st)
          (opened st) (closed st) (skipped_pyramid st) (S (skipped_filter st))
      else st
  end.

(** ** Statistics *)

Fixpoint drawdown_loop (peak cumulative max_dd : F) (pnls : list F) : F :=
  match pnls with
  | [] => max_dd
  | pnl :: rest =>
      let cumulative := cumulative + pnl in
      let peak := py_max peak cumulative in
      drawdown_loop peak cumulative (py_max max_dd (peak - cumulative)) rest
  end.

Definition _max_drawdown (pnl_series : list F) : F :=
  drawdown_loop f_zero f_zero f_zero pnl_series.

Record branch_stats := mk_stats {
  st_signals_seen : nat;
  trades_opened : nat;
  trades_closed : nat;
  trades_still_open : nat;
  trades_skipped_pyramid : nat;
  trades_skipped_by_filter : nat;
  win_rate : option F;
  cumulative_pnl_pct : F;
  max_drawdown_pct : F }.

(** [mapM] in the [result] monad: a list comprehension that may raise. *)
Fixpoint collect {X Y E} (f : X -> result E Y) (xs : list X) : result E (list Y) :=
  match xs with
  | [] => Ok []
  | x :: xs' => let! y := f x in let! ys := collect f xs' in Ok (y :: ys)
  end.

Definition _branch_stats (st : BranchState) : result backtest_error branch_stats :=
  let closed_trades := List.filter (fun t => negb (is_open t)) (trades st) in
  let! pnls := collect pnl_pct closed_trades in
  let known := omap id pnls in
  let wins := List.filter (fun p => f_zero <? p) known in
  Ok (mk_stats (signals_seen st) (opened st) (closed st)
        (length (List.filter is_open (trades st)))
        (skipped_pyramid st) (skipped_filter st)
        (match pnls with
         | [] => None
         | _ => Some (f_quot (f_int (Z.of_nat (length wins))) (f_int (Z.of_nat (length pnls))))
         end)
        (py_sum known) (_max_drawdown known)).

Record ComparisonReport := mk_report {
  r_threshold : F;
  total_candidate_signals : nat;
  scored_signals : nat;
  skipped_missing_candle : nat;
  skipped_incomplete_features : nat;
  r_unfiltered : branch_stats;
  r_filtered : branch_stats;
  uplift_pct : F;
  unfiltered_trades : list Trade;
  filtered_trades : list Trade }.

(** ** The comparison *)

(** [{c.timestamp: i for i, c in enumerate(candles)}.get(ts)]: the last candle
    with that timestamp. *)
Fixpoint ts_index_from (i : nat) (candles : list (Candle F)) (ts : Z) : option nat :=
  match candles with
  | [] => None
  | c :: rest =>
      match ts_index_from (S i) rest ts with
      | Some j => Some j
      | None => if (timestamp c =? ts)%Z then Some i else None
      end
  end.

Definition ts_index (candles : list (Candle F)) (ts : Z) : option nat :=
  ts_index_from 0 candles ts.

(** The local variables of the loop. *)
Record replay := mk_replay {
  unfiltered : BranchState;
  filtered : BranchState;
  scored : nat;
  missing_candle : nat;
  incomplete : nat }.

Definition new_replay : replay := mk_replay new_branch new_branch 0 0 0.

Definition sig_dir_of (direction : Z) : string := if (direction =? 1)%Z then LONG else SHORT.

Definition fill_price_at (candles : list (Candle F)) (fill_index : nat) : option F :=
  open <$> candles !! fill_index.

Definition fill_ts_at (candles : list (Candle F)) (fill_index : nat) (sig_ts : Z) : Z :=
  default sig_ts (timestamp <$> candles !! fill_index).

(** The payload handed to the predictor: features are a dict of floats. *)
Definition signal_payload (direction : Z) (feats : list (string * F)) : pydict F :=
  [("direction"%string, PInt direction);
   ("features"%string, PDict (map (fun nf => (nf.1, PFloat nf.2)) feats))].

Definition step_unfiltered (candles : list (Candle F)) (idx : nat) (sig : RawSignal)
    (st : BranchState) : BranchState :=
  let sig_dir := sig_dir_of (s_direction sig) in
  let base := _baseline_decision sig_dir (current_position st) in
  apply st sig_dir (b_close base) (b_open base) (b_open_direction base) false
    (S idx) (fill_ts_at candles (S idx) (s_timestamp sig)) (fill_price_at candles (S idx)).

Definition step_filtered (p : XGBPredictor F) (candles : list (Candle F)) (idx : nat)
    (sig : RawSignal) (feats : list (string * F)) (st : BranchState) : BranchState :=
  let sig_dir := sig_dir_of (s_direction sig) in
  let decision := predict p (signal_payload (s_direction sig) feats) (current_position st) in
  let would_open_unfiltered := b_open (_baseline_decision sig_dir (current_position st)) in
  apply st sig_dir (should_close decision) (should_open decision) (open_direction decision)
    (would_open_unfiltered && negb (should_open decision))
    (S idx) (fill_ts_at candles (S idx) (s_timestamp sig)) (fill_price_at candles (S idx)).

(** The loop body; [continue] is the early result. *)
Definition replay_signal (p : XGBPredictor F) (candles : list (Candle F)) (fb : FeatureBuilder F)
    (r : replay) (sig : RawSignal) : result backtest_error replay :=
  match ts_index candles (s_timestamp sig) with
  | None => Ok (mk_replay (unfiltered r) (filtered r) (scored r) (S (missing_candle r)) (incomplete r))
  | Some idx =>
      let u := step_unfiltered candles idx sig (unfiltered r) in
      match build_at fb idx with
      | Err e => Err (BarError e)
      | Ok None => Ok (mk_replay u (filtered r) (scored r) (missing_candle r) (S (incomplete r)))
      | Ok (Some feats) =>
          Ok (mk_replay u (step_filtered p candles idx sig feats (filtered r))
                (S (scored r)) (missing_candle r) (incomplete r))
      end
  end.

Fixpoint replay_signals (p : XGBPredictor F) (candles : list (Candle F)) (fb : FeatureBuilder F)
    (r : replay) (sigs : list RawSignal) : result backtest_error replay :=
  match sigs with
  | [] => Ok r
  | sig :: rest => let! r := replay_signal p candles fb r sig in replay_signals p candles fb r rest
  end.

Definition run_comparison (candles : list (Candle F)) (signals : list RawSignal)
    (p : XGBPredictor F) : result backtest_error ComparisonReport :=
  let! fb := or_raise (build_FeatureBuilder candles 12 48) BuilderError in
  let! r := replay_signals p candles fb new_replay signals in
  let! us := _branch_stats (unfiltered r) in
  let! fs := _branch_stats (filtered r) in
  Ok (mk_report (p_threshold p) (length signals) (scored r) (missing_candle r) (incomplete r)
        us fs (cumulative_pnl_pct fs - cumulative_pnl_pct us)
        (trades (unfiltered r)) (trades (filtered r))).

End Branch.

Arguments Trade F : clear implicits.
Arguments BranchState F : clear implicits.
Arguments replay F : clear implicits.
Arguments ComparisonReport F : clear implicits.
Arguments branch_stats F : clear implicits.

(** ** Branch invariant *)

Section BranchFacts.
Context {F : Type} {A : Arith F} {R : ArithSqrt F}.

Definition side (s : string) : Prop := s = LONG \/ s = SHORT.

(** A closed trade: an exit was recorded, at a price or without one. *)
Definition settled (t : Trade F) : Prop := exit_index t <> None.

Definition open_trade_ok (st : BranchState F) : Prop :=
  match open_trade st with
  | None => current_position st = None /\ Forall settled (trades st) /\ opened st = closed st
  | Some k =>
      exists ts t, trades st = ts ++ [t] /\ k = length ts /\ Forall settled ts /\
        exit_index t = None /\ exit_price t = None /\ side (t_direction t) /\
        current_position st = Some (t_direction t) /\ opened st = S (closed st)
  end.

Definition branch_inv (st : BranchState F) : Prop :=
  opened st = length (trades st) /\
  signals_seen st = (opened st + skipped_pyramid st + skipped_filter st)%nat /\
  open_trade_ok st.

(** What the callers of [apply] guarantee: a close only on an open position,
    an open only in the signal's direction and from flat or on a flip, and a
    signal that does not open either repeats the position or was blocked. *)
Definition legal (st : BranchState F) (sig_dir : string) (c o : bool) (od : option string)
    (blk : bool) : Prop :=
  side sig_dir /\
  (c = true -> open_trade st <> None) /\
  (o = true -> od = Some sig_dir /\ (open_trade st = None \/ c = true)) /\
  (o = false -> (c = false /\ current_position st = Some sig_dir) \/
                (blk = true /\ (c = true \/ current_position st <> Some sig_dir))).

#[local] Arguments alter : simpl never.

Lemma alter_last {X} (f : X -> X) (l : list X) (x : X) :
  alter f (length l) (l ++ [x]) = l ++ [f x].
Proof. by rewrite alter_app_r_alt, Nat.sub_diag by lia. Qed.

Lemma new_branch_inv : branch_inv new_branch.
Proof. repeat split; auto. Qed.

Lemma apply_inv st sig_dir c o od blk i ts fill :
  branch_inv st -> legal st sig_dir c o od blk ->
  branch_inv (apply st sig_dir c o od blk i ts fill).
Proof.
  intros (Ho & Hs & Hopen) (Hside & Hc & Hopn & Hskip).
  destruct st as [pos ot trs seen op cl pyr flt]. simpl in *.
  unfold open_trade_ok in Hopen. simpl in Hopen.
  destruct ot as [k|]; destruct c; try (by destruct Hc).
  - destruct Hopen as (l & t & -> & -> & Hl & Hx & Hp & Ht & -> & Hcl).
    assert (Forall settled (l ++ [close_trade i ts fill t])) as Hset.
    { apply Forall_app; split; [done|]. by repeat constructor. }
    rewrite length_app in Ho. simpl in Ho.
    destruct o.
    + destruct (Hopn eq_refl) as [-> _].
      unfold branch_inv, open_trade_ok, apply. simpl.
      rewrite alter_last, !length_app. simpl. split_and!; try lia.
      eexists (l ++ [close_trade i ts fill t]), _. rewrite length_app. simpl. split_and!; try done; lia.
    + destruct (Hskip eq_refl) as [[? _]|[-> _]]; [done|].
      unfold branch_inv, open_trade_ok, apply. simpl.
      rewrite alter_last, !length_app. simpl. split_and!; try done; lia.
  - destruct Hopen as (l & t & -> & -> & Hl & Hx & Hp & Ht & -> & Hcl).
    destruct o; [by destruct (Hopn eq_refl) as [_ [?|?]]|].
    assert (open_trade_ok (mk_branch (Some (t_direction t)) (Some (length l)) (l ++ [t])
              seen op cl pyr flt)) as Hok.
    { exists l, t. split_and!; done. }
    destruct (Hskip eq_refl) as [[_ E]|[-> E]]; unfold branch_inv, open_trade_ok, apply; simpl.
    + rewrite bool_decide_true by done. simpl. split_and!; try done. lia.
    + destruct E as [?|E]; [done|]. rewrite bool_decide_false by done. simpl. split_and!; try done. lia.
  - destruct Hopen as (-> & Hall & Hcl). destruct o.
    + destruct (Hopn eq_refl) as [-> _].
      unfold branch_inv, open_trade_ok, apply. simpl. rewrite length_app. simpl. split_and!; try lia.
      eexists trs, _. simpl. split_and!; try done; lia.
    + destruct (Hskip eq_refl) as [[_ E]|[-> E]]; [done|].
      unfold branch_inv, open_trade_ok, apply. simpl. split_and!; try done; lia.
Qed.

Lemma side_of (d : Z) : side (sig_dir_of d).
Proof. unfold side, sig_dir_of. destruct (d =? 1)%Z; auto. Qed.

Lemma LONG_neq_SHORT : LONG <> SHORT.
Proof. done. Qed.

(** The position of a branch is flat, or long or short with an open trade. *)
Lemma position_cases st :
  branch_inv st ->
  (open_trade st = None /\ current_position st = None) \/
  (open_trade st <> None /\ (current_position st = Some LONG \/ current_position st = Some SHORT)).
Proof.
  intros (_ & _ & H). unfold open_trade_ok in H. destruct (open_trade st).
  - destruct H as (? & t & _ & _ & _ & _ & _ & [E|E] & -> & _); rewrite E; auto.
  - left. by destruct H as (-> & _).
Qed.

Lemma baseline_legal st sig_dir :
  branch_inv st -> side sig_dir ->
  let base := _baseline_decision sig_dir (current_position st) in
  legal st sig_dir (b_close base) (b_open base) (b_open_direction base) false.
Proof.
  intros Hinv Hs. unfold legal.
  destruct (position_cases st Hinv) as [[-> ->]|[Hn [-> | ->]]]; destruct Hs as [-> | ->];
    vm_compute; naive_solver.
Qed.

(** Only [should_close] and [should_open] of a prediction matter, and they are
    the baseline's, the open gated by the filter or refused by an error. *)
Lemma predict_gates (p : XGBPredictor F) d feats pos :
  (pos = None \/ pos = Some LONG \/ pos = Some SHORT) ->
  let dec := predict p (signal_payload d feats) pos in
  let base := _baseline_decision (sig_dir_of d) pos in
  (should_close dec = false /\ should_open dec = false /\ open_direction dec = None) \/
  exists pass, should_close dec = b_close base /\ should_open dec = b_open base && pass /\
    open_direction dec = if b_open base && pass then Some (sig_dir_of d) else None.
Proof.
  intros Hpos. cbn zeta.
  destruct (predict_cases p (signal_payload d feats) pos)
    as [(dir & e & ->)|(d' & sd & fs & x & prob & H1 & H2 & -> & H4 & H5 & H6 & ->)]; [by left|right].
  injection H1 as <-. exists (f_ltb (p_threshold p) prob).
  destruct H2 as [-> | ->]; destruct Hpos as [-> |[-> | ->]];
    unfold option1; destruct (f_ltb _ _); by vm_compute.
Qed.

Lemma predict_legal (p : XGBPredictor F) d feats st :
  branch_inv st ->
  let dec := predict p (signal_payload d feats) (current_position st) in
  legal st (sig_dir_of d) (should_close dec) (should_open dec) (open_direction dec)
    (b_open (_baseline_decision (sig_dir_of d) (current_position st)) && negb (should_open dec)).
Proof.
  intros Hinv. cbn zeta.
  assert (current_position st = None \/ current_position st = Some LONG \/
          current_position st = Some SHORT) as Hpos
    by (destruct (position_cases st Hinv) as [[_ ?]|[_ [?|?]]]; auto).
  unfold legal.
  destruct (predict_gates p d feats _ Hpos) as [(-> & -> & ->)|(pass & -> & -> & ->)];
    (destruct (position_cases st Hinv) as [[E1 E2]|[E1 [E2|E2]]]; clear Hpos; rewrite E2;
     destruct (side_of d) as [-> | ->]; try destruct pass; vm_compute; naive_solver).
Qed.

Lemma step_unfiltered_inv candles idx sig st :
  branch_inv st -> branch_inv (step_unfiltered candles idx sig st).
Proof. intros H. apply apply_inv; [done|]. by apply baseline_legal, side_of. Qed.

Lemma step_filtered_inv p candles idx sig feats st :
  branch_inv st -> branch_inv (step_filtered p candles idx sig feats st).
Proof. intros H. apply apply_inv; [done|]. by apply predict_legal. Qed.

(** ** Replay invariant *)

Definition replay_inv (n : nat) (r : replay F) : Prop :=
  branch_inv (unfiltered r) /\ branch_inv (filtered r) /\
  n = (scored r + missing_candle r + incomplete r)%nat /\
  signals_seen (unfiltered r) = (scored r + incomplete r)%nat /\
  signals_seen (filtered r) = scored r /\
  skipped_filter (unfiltered r) = 0%nat.

Lemma apply_seen (st : BranchState F) sd c o od blk i ts fill :
  signals_seen (apply st sd c o od blk i ts fill) = S (signals_seen st).
Proof. unfold apply. by repeat case_match. Qed.

Lemma apply_unblocked (st : BranchState F) sd c o od i ts fill :
  skipped_filter (apply st sd c o od false i ts fill) = skipped_filter st.
Proof. unfold apply. by repeat case_match. Qed.

Lemma replay_signal_inv p candles fb n r sig r' :
  replay_inv n r -> replay_signal p candles fb r sig = Ok r' -> replay_inv (S n) r'.
Proof.
  intros (Hu & Hf & Hn & Hsu & Hsf & Hk) H. unfold replay_signal in H.
  destruct (ts_index _ _) as [idx|].
  - destruct (build_at fb idx) as [[feats|]|]; [| |done]; injection H as <-;
      unfold replay_inv; simpl; unfold step_unfiltered, step_filtered;
      rewrite ?apply_seen, ?apply_unblocked; split_and!; try lia; try done;
      try (by apply step_unfiltered_inv); by apply step_filtered_inv.
  - injection H as <-. split_and!; simpl; done || lia.
Qed.

Lemma replay_signals_inv p candles fb n r sigs r' :
  replay_inv n r -> replay_signals p candles fb r sigs = Ok r' ->
  replay_inv (n + length sigs) r'.
Proof.
  revert n r. induction sigs as [|sig sigs IH]; intros n r Hr H; simpl in *.
  - injection H as <-. by rewrite Nat.add_0_r.
  - inv_ok. eapply replay_signal_inv in Hr; [|eassumption].
    eapply IH in Hr; [|done]. by rewrite <-Nat.add_succ_comm.
Qed.

End BranchFacts.

(** ** Properties of the comparison *)

Section ComparisonFacts.
Context {F : Type} {A : Arith F} {R : ArithSqrt F}.

(** The report is assembled from the final replay state. *)
Lemma run_comparison_replay candles signals (p : XGBPredictor F) rep :
  run_comparison candles signals p = Ok rep ->
  exists fb r, build_FeatureBuilder candles 12 48 = Some fb /\
    replay_signals p candles fb new_replay signals = Ok r /\
    replay_inv (length signals) r /\
    _branch_stats (unfiltered r) = Ok (r_unfiltered rep) /\
    _branch_stats (filtered r) = Ok (r_filtered rep) /\
    total_candidate_signals rep = length signals /\ scored_signals rep = scored r /\
    skipped_missing_candle rep = missing_candle r /\ skipped_incomplete_features rep = incomplete r /\
    unfiltered_trades rep = trades (unfiltered r) /\ filtered_trades rep = trades (filtered r) /\
    uplift_pct rep = f_sub (cumulative_pnl_pct (r_filtered rep)) (cumulative_pnl_pct (r_unfiltered rep)).
Proof.
  unfold run_comparison. intros H. inv_ok. subst rep.
  eexists _, _. split; [eassumption|]. split; [eassumption|]. split_and!; try done.
  eapply (replay_signals_inv p candles _ 0 new_replay); [|eassumption].
  split_and!; try apply new_branch_inv; done.
Qed.

Lemma branch_stats_counters (st : BranchState F) s :
  _branch_stats st = Ok s ->
  st_signals_seen s = signals_seen st /\ trades_opened s = opened st /\ trades_closed s = closed st /\
  trades_still_open s = length (List.filter is_open (trades st)) /\
  trades_skipped_pyramid s = skipped_pyramid st /\ trades_skipped_by_filter s = skipped_filter st.
Proof. unfold _branch_stats. intros H. inv_ok. by subst s. Qed.

(** Trades closed by a signal on the last candle: no next bar, so no price. *)
Definition closed_unpriced (t : Trade F) : bool :=
  match exit_index t, exit_price t with Some _, None => true | _, _ => false end.

Lemma settled_open_filter (ts : list (Trade F)) :
  Forall settled ts -> List.filter is_open ts = List.filter closed_unpriced ts.
Proof.
  induction 1 as [|t ts Ht _ IH]; [done|]. simpl. unfold is_open at 1, closed_unpriced at 1.
  unfold settled in Ht. destruct (exit_index t); [|done].
  destruct (exit_price t); by rewrite IH.
Qed.

Lemma filter_snoc {X} (f : X -> bool) (l : list X) (x : X) :
  List.filter f (l ++ [x]) = List.filter f l ++ (if f x then [x] else []).
Proof. by rewrite List.filter_app. Qed.

(** Trades no signal has closed. *)
Definition running (t : Trade F) : bool := match exit_index t with None => true | Some _ => false end.

Lemma settled_not_running (ts : list (Trade F)) : Forall settled ts -> List.filter running ts = [].
Proof.
  induction 1 as [|t ts Ht _ IH]; [done|]. simpl. unfold running at 1. unfold settled in Ht. by destruct (exit_index t).
Qed.

(** The trades of a branch: each is closed or still running; the last column of the
    report counts those without an exit price. *)
Lemma branch_account (st : BranchState F) s : branch_inv st -> _branch_stats st = Ok s ->
  trades_opened s = length (trades st) /\
  trades_opened s = (trades_closed s + length (List.filter running (trades st)))%nat /\
  (length (List.filter running (trades st)) <= 1)%nat /\
  trades_still_open s =
    (length (List.filter running (trades st)) + length (List.filter closed_unpriced (trades st)))%nat.
Proof.
  intros (Hn & _ & Ho) Hs. apply branch_stats_counters in Hs as (_ & -> & -> & -> & _ & _).
  unfold open_trade_ok in Ho. destruct (open_trade st).
  - destruct Ho as (l & t & E & _ & Hl & Hx & Hp & _ & _ & Hc). rewrite Hn. rewrite E in *.
    rewrite !filter_snoc, (settled_open_filter _ Hl), (settled_not_running _ Hl), !length_app.
    assert (running t = true /\ is_open t = true /\ closed_unpriced t = false) as (-> & -> & ->)
      by (unfold running, is_open, closed_unpriced; by rewrite Hx, Hp).
    rewrite length_app in Hn. simpl in *. lia.
  - destruct Ho as (_ & Hl & Hc). rewrite (settled_open_filter _ Hl), (settled_not_running _ Hl). simpl. lia.
Qed.

(** C27: the report accounts for every signal and every trade.  Each candidate signal
    is scored, or skipped for a missing candle or incomplete features; each signal a
    branch sees opens a trade, repeats the position, or is blocked by the filter
    (never in the unfiltered branch).  Every trade opened is listed, and is either
    counted as closed or still running (the last one at most).  "Still open" counts
    the trades without an exit price: the running ones, and those closed on the last
    candle, which are counted as closed too. *)
Theorem comparison_accounting candles signals (p : XGBPredictor F) rep
  (H : run_comparison candles signals p = Ok rep) :
  total_candidate_signals rep =
    (scored_signals rep + skipped_missing_candle rep + skipped_incomplete_features rep)%nat /\
  st_signals_seen (r_unfiltered rep) = (scored_signals rep + skipped_incomplete_features rep)%nat /\
  st_signals_seen (r_filtered rep) = scored_signals rep /\
  trades_skipped_by_filter (r_unfiltered rep) = 0%nat /\
  (forall s ts, (s, ts) = (r_unfiltered rep, unfiltered_trades rep) \/
                (s, ts) = (r_filtered rep, filtered_trades rep) ->
     st_signals_seen s = (trades_opened s + trades_skipped_pyramid s + trades_skipped_by_filter s)%nat /\
     trades_opened s = length ts /\
     trades_opened s = (trades_closed s + length (List.filter running ts))%nat /\
     (length (List.filter running ts) <= 1)%nat /\
     trades_still_open s = (length (List.filter running ts) + length (List.filter closed_unpriced ts))%nat).
Proof.
  apply run_comparison_replay in H
    as (fb & r & _ & _ & (Hu & Hf & Hn & Hsu & Hsf & Hk) & Su & Sf & T1 & T2 & T3 & T4 & T5 & T6 & _).
  pose proof (branch_account _ _ Hu Su) as Au. pose proof (branch_account _ _ Hf Sf) as Af.
  destruct Hu as (_ & Hu & _), Hf as (_ & Hf & _).
  apply branch_stats_counters in Su as (U1 & U2 & _ & _ & U5 & U6).
  apply branch_stats_counters in Sf as (V1 & V2 & _ & _ & V5 & V6).
  split_and!; try congruence.
  intros s ts [[= -> ->]|[= -> ->]]; rewrite ?T5, ?T6; (split; [congruence|done]).
Qed.

(** How "still open" is counted.  In either branch the report's
    [trades_still_open] is the number of trades opened and never closed, plus
    the trades closed on the last candle, whose exit has no price: those are
    counted both as closed and as still open. *)
Theorem still_open_count candles signals (p : XGBPredictor F) rep
  (H : run_comparison candles signals p = Ok rep) :
  forall s ts, (s, ts) = (r_unfiltered rep, unfiltered_trades rep) \/
               (s, ts) = (r_filtered rep, filtered_trades rep) ->
  (trades_closed s <= trades_opened s <= S (trades_closed s))%nat /\
  trades_still_open s =
    (trades_opened s - trades_closed s + length (List.filter closed_unpriced ts))%nat.
Proof.
  apply run_comparison_replay in H
    as (fb & r & _ & _ & (Hu & Hf & _) & Su & Sf & _ & _ & _ & _ & T5 & T6 & _).
  pose proof (branch_account _ _ Hu Su) as Au. pose proof (branch_account _ _ Hf Sf) as Af.
  intros s ts [[= -> ->]|[= -> ->]]; rewrite ?T5, ?T6; lia.
Qed.

(** ** The unfiltered branch is always in the market *)

(** Consecutive trades of a branch that flips. *)
Definition flips (t1 t2 : Trade F) : Prop :=
  t_direction t1 <> t_direction t2 /\ exit_index t1 = Some (entry_index t2) /\
  exit_time t1 = Some (entry_time t2) /\ exit_price t1 = entry_price t2.

Fixpoint chained (ts : list (Trade F)) : Prop :=
  match ts with
  | t1 :: (t2 :: _) as rest => flips t1 t2 /\ chained rest
  | _ => True
  end.

Lemma chained_flip (ts : list (Trade F)) t t2 i z fill :
  chained (ts ++ [t]) -> t_direction t <> t_direction t2 ->
  entry_index t2 = i -> entry_time t2 = z -> entry_price t2 = fill ->
  chained ((ts ++ [close_trade i z fill t]) ++ [t2]).
Proof.
  intros Hc Hd <- <- <-. induction ts as [|a ts IH]; simpl in *; [by repeat split|].
  destruct ts as [|b ts]; simpl in *; destruct Hc as [Ha Hc]; [by repeat split; try apply Ha|].
  split; [done|]. by apply IH.
Qed.

Lemma apply_idle (st : BranchState F) sd od blk i ts fill :
  trades (apply st sd false false od blk i ts fill) = trades st /\
  open_trade (apply st sd false false od blk i ts fill) = open_trade st.
Proof. unfold apply. destruct st. simpl. by repeat case_match. Qed.

Definition flip_inv (st : BranchState F) : Prop :=
  branch_inv st /\ chained (trades st) /\ (trades st <> [] -> open_trade st <> None).

Lemma step_unfiltered_flip candles idx sig st :
  flip_inv st -> flip_inv (step_unfiltered candles idx sig st).
Proof.
  intros (Hinv & Hch & Hin). split; [by apply step_unfiltered_inv|].
  pose proof Hinv as (_ & _ & Ho). unfold open_trade_ok in Ho. unfold step_unfiltered.
  destruct st as [pos ot trs seen op cl pyr flt].
  cbn [current_position open_trade trades opened closed] in *.
  destruct ot as [k|].
  - destruct Ho as (l & t & -> & -> & Hl & Hx & Hp & Ht & -> & Hcl).
    destruct (decide (t_direction t = sig_dir_of (s_direction sig))) as [E|N].
    + assert (_baseline_decision (sig_dir_of (s_direction sig)) (Some (t_direction t)) =
              mk_baseline false false None) as ->.
      { rewrite E. by destruct (side_of (s_direction sig)) as [-> | ->]. }
      cbn [b_close b_open b_open_direction].
      by rewrite (proj1 (apply_idle _ _ _ _ _ _ _)), (proj2 (apply_idle _ _ _ _ _ _ _)).
    + assert (_baseline_decision (sig_dir_of (s_direction sig)) (Some (t_direction t)) =
              mk_baseline true true (Some (sig_dir_of (s_direction sig)))) as ->.
      { destruct (side_of (s_direction sig)) as [E| E]; rewrite E in *; destruct Ht as [E' | E'];
          rewrite E' in *; done. }
      unfold apply. cbn. rewrite alter_last. split; [|done].
      by apply chained_flip.
  - destruct Ho as (-> & _). destruct trs; [|by destruct Hin].
    destruct (side_of (s_direction sig)) as [-> | ->]; vm_compute; done.
Qed.

Lemma replay_flip p candles fb sigs : forall r r',
  flip_inv (unfiltered r) -> replay_signals p candles fb r sigs = Ok r' ->
  flip_inv (unfiltered r').
Proof.
  induction sigs as [|sig sigs IH]; intros r r' Hr H; simpl in H; [by injection H as <-|].
  inv_ok. eapply IH; [|eassumption].
  match goal with HR : replay_signal _ _ _ _ _ = Ok _ |- _ => unfold replay_signal in HR; revert HR end.
  intros HR. repeat case_match; simplify_eq; simpl; try done; by apply step_unfiltered_flip.
Qed.

(** The unfiltered baseline never misses a turn.  Each of its trades is
    opened by the opposite of the previous direction, at the very index, time
    and price at which the previous trade was closed; at most the last trade is
    open. *)
Theorem unfiltered_flips candles signals (p : XGBPredictor F) rep
  (H : run_comparison candles signals p = Ok rep) :
  chained (unfiltered_trades rep) /\
  (forall i t, unfiltered_trades rep !! i = Some t -> (S i < length (unfiltered_trades rep))%nat ->
     settled t) /\
  (trades_opened (r_unfiltered rep) <= S (trades_closed (r_unfiltered rep)))%nat.
Proof.
  apply run_comparison_replay in H as (fb & r & _ & Hr & (Hu & _) & Su & _ & _ & _ & _ & _ & T5 & _).
  apply replay_flip in Hr as ((_ & _ & Ho) & Hc & _);
    [|split_and!; [apply new_branch_inv|done|done]].
  apply branch_stats_counters in Su as (_ & -> & -> & _). rewrite T5. split; [done|].
  unfold open_trade_ok in Ho. destruct (open_trade (unfiltered r)).
  - destruct Ho as (l & t & -> & _ & Hl & _ & _ & _ & _ & ->). split; [|lia].
    intros i t' Hi Hlt. rewrite length_app in Hlt. simpl in Hlt.
    rewrite lookup_app_l in Hi by lia. by eapply Forall_lookup_1.
  - destruct Ho as (_ & Hl & ->). split; [|lia]. intros i t Hi _. by eapply Forall_lookup_1.
Qed.

(** ** A filter that always passes changes nothing *)

(** The model scores the signal above the threshold at this bar. *)
Definition passes (p : XGBPredictor F) (candles : list (Candle F)) (fb : FeatureBuilder F)
    (sig : RawSignal) : Prop :=
  forall idx, ts_index candles (s_timestamp sig) = Some idx ->
  (s_direction sig = 1 \/ s_direction sig = -1) /\
  exists feats x prob, build_at fb idx = Ok (Some feats) /\
    _build_feature_vector p (map (fun nf => (nf.1, PFloat nf.2)) feats) (s_direction sig) = Ok x /\
    p_score p x = Ok prob /\ f_ltb (p_threshold p) prob = true.

Lemma predict_passing (p : XGBPredictor F) d feats x prob pos :
  (d = 1 \/ d = -1) ->
  _build_feature_vector p (map (fun nf => (nf.1, PFloat nf.2)) feats) d = Ok x ->
  p_score p x = Ok prob -> f_ltb (p_threshold p) prob = true ->
  predict p (signal_payload d feats) pos = option1 p (sig_dir_of d) pos prob.
Proof.
  intros Hd Hx Hs Hp. unfold predict, signal_payload.
  replace (to_int (get_or _ _ _)) with (Some d) by done.
  replace (negb _) with false by (by destruct Hd as [-> | ->]).
  replace (get _ "features") with (PDict (map (fun nf : string * F => (nf.1, PFloat nf.2)) feats)) by done.
  by rewrite Hx, Hs.
Qed.

Lemma option1_is_baseline (p : XGBPredictor F) sig_dir pos prob :
  side sig_dir -> (pos = None \/ pos = Some LONG \/ pos = Some SHORT) ->
  f_ltb (p_threshold p) prob = true ->
  let dec := option1 p sig_dir pos prob in let base := _baseline_decision sig_dir pos in
  should_close dec = b_close base /\ should_open dec = b_open base /\
  open_direction dec = b_open_direction base.
Proof.
  intros Hs Hpos Hp. unfold option1. rewrite Hp.
  destruct Hs as [-> | ->]; destruct Hpos as [-> |[-> | ->]]; by vm_compute.
Qed.

Lemma replay_signal_passing p candles fb r sig r' :
  branch_inv (filtered r) -> passes p candles fb sig -> unfiltered r = filtered r ->
  replay_signal p candles fb r sig = Ok r' -> unfiltered r' = filtered r'.
Proof.
  intros Hinv Hp Heq. unfold replay_signal. destruct (ts_index _ _) as [idx|] eqn:Hi.
  - destruct (Hp _ Hi) as (Hd & feats & x & prob & Hb & Hx & Hs & Ht). rewrite Hb.
    intros [= <-]. simpl. rewrite Heq. unfold step_unfiltered, step_filtered.
    rewrite (predict_passing p _ feats x prob) by done.
    assert (current_position (filtered r) = None \/ current_position (filtered r) = Some LONG \/
            current_position (filtered r) = Some SHORT) as Hpos
      by (destruct (position_cases _ Hinv) as [[_ ?]|[_ [?|?]]]; auto).
    destruct (option1_is_baseline p _ _ prob (side_of (s_direction sig)) Hpos Ht) as (-> & -> & ->).
    by rewrite andb_negb_r.
  - intros [= <-]. done.
Qed.

(** The two branches differ only by the ML gate.  If every signal that falls
    on a candle is scored above the threshold, the filtered branch makes exactly
    the unfiltered branch's trades and reports the same statistics. *)
Theorem passing_filter_is_unfiltered candles signals (p : XGBPredictor F) fb rep
  (Hb : build_FeatureBuilder candles 12 48 = Some fb)
  (Hp : Forall (passes p candles fb) signals)
  (H : run_comparison candles signals p = Ok rep) :
  filtered_trades rep = unfiltered_trades rep /\ r_filtered rep = r_unfiltered rep.
Proof.
  apply run_comparison_replay in H as (fb' & r & Hb' & Hr & _ & Su & Sf & _ & _ & _ & _ & T5 & T6 & _).
  assert (fb' = fb) as -> by congruence.
  assert (unfiltered r = filtered r) as E; [|rewrite E in *; split; congruence].
  assert (forall sigs r0 r1 n, replay_inv n r0 -> unfiltered r0 = filtered r0 ->
    Forall (passes p candles fb) sigs -> replay_signals p candles fb r0 sigs = Ok r1 ->
    unfiltered r1 = filtered r1) as K.
  { induction sigs as [|sig sigs IH]; intros r0 r1 n Hinv He Hall HR; simpl in HR; [by injection HR as <-|].
    inversion_clear Hall. inv_ok.
    eapply IH; [eapply replay_signal_inv; eassumption| |eassumption|eassumption].
    eapply replay_signal_passing; eauto. apply Hinv. }
  by eapply (K signals new_replay r 0%nat).
Qed.

End ComparisonFacts.

(** ** Maximum drawdown, in exact arithmetic *)

(** Equity after [k] trades. *)
Definition equity (pnls : list Q) (k : nat) : Q := q_sum (take k pnls).

Lemma equity_prefix (pre post : list Q) k :
  (k <= length pre)%nat -> equity (pre ++ post) k = equity pre k.
Proof. intros H. unfold equity. by rewrite take_app_le. Qed.

Lemma equity_all (l : list Q) : equity l (length l) = q_sum l.
Proof. unfold equity. by rewrite firstn_all. Qed.

(** The loop's variables after the prefix [pre]. *)
Definition drawdown_state (pre : list Q) (peak cum dd : Q) : Prop :=
  (cum == q_sum pre)%Q /\
  (forall k, (k <= length pre)%nat -> (equity pre k <= peak)%Q) /\
  (exists k, (k <= length pre)%nat /\ (peak == equity pre k)%Q) /\
  (forall i j, (i <= j <= length pre)%nat -> (equity pre i - equity pre j <= dd)%Q) /\
  (exists i j, (i <= j <= length pre)%nat /\ (dd == equity pre i - equity pre j)%Q).

Lemma py_max_q (a b : Q) : (a <= py_max a b)%Q /\ (b <= py_max a b)%Q /\
  (py_max a b = a \/ py_max a b = b).
Proof.
  unfold py_max. cbn [f_ltb ArithQ]. destruct (q_ltb a b) eqn:E; q_tests; split_and!; auto; lra.
Qed.

Lemma drawdown_step pre x peak cum dd :
  drawdown_state pre peak cum dd ->
  let cum' := (cum + x)%Q in let peak' := py_max peak cum' in
  drawdown_state (pre ++ [x]) peak' cum' (py_max dd (peak' - cum')%Q).
Proof.
  intros (Hc & Hpk & (kp & Hkp & Ekp) & Hdd & (i0 & j0 & Hij & Edd)) cum' peak'.
  assert (length (pre ++ [x]) = S (length pre)) as HL by (rewrite length_app; simpl; lia).
  assert (cum' == q_sum (pre ++ [x]))%Q as Hcum.
  { unfold cum'. rewrite q_sum_app, Hc. simpl. ring. }
  assert (forall k, (k <= length pre)%nat -> equity (pre ++ [x]) k = equity pre k) as He
    by (intros; by apply equity_prefix).
  assert (equity (pre ++ [x]) (S (length pre)) = q_sum (pre ++ [x])) as Hlast
    by (rewrite <-HL; apply equity_all).
  destruct (py_max_q peak cum') as (P1 & P2 & P3). fold peak' in P1, P2, P3.
  destruct (py_max_q dd (peak' - cum')%Q) as (D1 & D2 & D3).
  set (dd' := py_max dd (peak' - cum')%Q) in *.
  assert (forall k, (k <= S (length pre))%nat -> (equity (pre ++ [x]) k <= peak')%Q) as Hpk'.
  { intros k Hk. destruct (decide (k = S (length pre))) as [-> |N].
    - rewrite Hlast, <-Hcum. done.
    - rewrite He by lia. specialize (Hpk k ltac:(lia)). lra. }
  assert (exists k, (k <= S (length pre))%nat /\ (peak' == equity (pre ++ [x]) k)%Q) as Hat.
  { destruct P3 as [-> | ->].
    - exists kp. rewrite He by lia. split; [lia|done].
    - exists (S (length pre)). rewrite Hlast. split; [lia|done]. }
  unfold drawdown_state. rewrite HL. split_and!; try done.
  - intros i j [Hi Hj]. destruct (decide (j = S (length pre))) as [-> |N].
    + rewrite Hlast, <-Hcum. specialize (Hpk' i ltac:(lia)). lra.
    + rewrite !He by lia. specialize (Hdd i j ltac:(lia)). lra.
  - destruct D3 as [-> | ->].
    + exists i0, j0. rewrite !He by lia. split; [lia|done].
    + destruct Hat as (k & Hk & Ek). exists k, (S (length pre)). split; [lia|].
      rewrite Hlast, <-Hcum, <-Ek. lra.
Qed.

Lemma drawdown_loop_state rest : forall pre peak cum dd,
  drawdown_state pre peak cum dd ->
  exists peak' cum', drawdown_state (pre ++ rest) peak' cum' (drawdown_loop peak cum dd rest).
Proof.
  induction rest as [|x rest IH]; intros pre peak cum dd H.
  - rewrite app_nil_r. eauto.
  - apply (drawdown_step _ x) in H. apply IH in H as (pk & c & H).
    rewrite <-app_assoc in H. eauto.
Qed.

(** [_max_drawdown] is the largest fall of the equity curve from an earlier
    to a later point, the flat start included: an upper bound of every fall, and
    attained by one. *)
Theorem max_drawdown_spec (pnls : list Q) :
  (forall i j, (i <= j <= length pnls)%nat -> (equity pnls i - equity pnls j <= _max_drawdown pnls)%Q) /\
  (exists i j, (i <= j <= length pnls)%nat /\ (_max_drawdown pnls == equity pnls i - equity pnls j)%Q).
Proof.
  destruct (drawdown_loop_state pnls [] f_zero f_zero f_zero) as (? & ? & _ & _ & _ & H1 & H2).
  - split_and!; try done.
    + intros k _. unfold equity. by destruct k.
    + by exists 0%nat.
    + intros i j _. unfold equity. by destruct i, j.
    + by exists 0%nat, 0%nat.
  - done.
Qed.

(** ** The live endpoint's aggregates ([run_backtest])

    Input: the number of accepted signals, and the payload of each fill with the
    day it is filed under.  The fills query selects no [created_at] column, so
    that day is always the default of [fill.get("created_at", utcnow())], the
    current date. *)

Section LiveMetrics.
Context {F : Type} {A : Arith F} {R : ArithSqrt F}.
Context (json_loads : string -> option (pyval F)).
Open Scope pyf_scope.

(** [json.loads] on a string payload, the value itself otherwise. *)
Definition payload_value (v : pyval F) : option (pyval F) :=
  match v with PStr s => json_loads s | _ => Some v end.

(** [payload.get("simulated_pnl", 0.0)]; [None] when the payload does not parse
    or is not a dict. *)
Definition fill_pnl (v : pyval F) : option (pyval F) :=
  match payload_value v with
  | Some (PDict d) => Some (get_or d "simulated_pnl" (PFloat f_zero))
  | _ => None
  end.

(** A number that can be added to a float; anything else is a [TypeError]. *)
Definition number_of (v : pyval F) : option F :=
  match v with
  | PFloat x => Some x
  | PInt n => Some (f_int n)
  | PBool b => Some (f_int (if b then 1 else 0))
  | _ => None
  end.

(** The first loop: gross result, wins, losses and the values, a fill that
    raises being skipped with a warning. *)
Definition pnl_step (acc : F * nat * nat * list F) (fill : pyval F) : F * nat * nat * list F :=
  let '(gross, wins, losses, values) := acc in
  match fill_pnl fill ≫= number_of with
  | None => acc
  | Some pnl =>
      (gross + pnl,
       if f_zero <? pnl then S wins else wins,
       if f_zero <? pnl then losses else if pnl <? f_zero then S losses else losses,
       values ++ [pnl])
  end.

Definition pnl_loop (fills : list (pyval F)) : F * nat * nat * list F :=
  fold_left pnl_step fills (f_zero, 0%nat, 0%nat, []).

(** The second loop: the day's entry is created before the addition that may
    raise on a value that is not a number. *)
Definition daily_step (daily : list (Z * F)) (fill : pyval F * Z) : list (Z * F) :=
  match fill_pnl fill.1 with
  | None => daily
  | Some v =>
      let daily := if existsb (fun e => (e.1 =? fill.2)%Z) daily then daily
                   else daily ++ [(fill.2, f_zero)] in
      match number_of v with
      | None => daily
      | Some pnl => map (fun e => if (e.1 =? fill.2)%Z then (e.1, e.2 + pnl) else e) daily
      end
  end.

Definition daily_returns (fills : list (pyval F * Z)) : list (Z * F) :=
  fold_left daily_step fills [].

Definition sharpe_of (daily : list (Z * F)) : F :=
  if (1 <? length daily)%nat then
    let returns := map snd daily in
    let n := f_int (Z.of_nat (length returns)) in
    let mean_return := f_quot (py_sum returns) n in
    let variance :=
      f_quot (py_sum (map (fun r => (r - mean_return) * (r - mean_return)) returns)) n in
    let std_dev := f_sqrt variance in
    if f_zero <? std_dev then f_quot mean_return std_dev else f_zero
  else f_zero.

(** The third loop, with its own running peak. *)
Fixpoint live_drawdown_loop (peak cumulative max_dd : F) (pnls : list F) : F :=
  match pnls with
  | [] => max_dd
  | pnl :: rest =>
      let cumulative := cumulative + pnl in
      let peak := if peak <? cumulative then cumulative else peak in
      let drawdown := peak - cumulative in
      live_drawdown_loop peak cumulative (if max_dd <? drawdown then drawdown else max_dd) rest
  end.

Record live_metrics := mk_live {
  m_signals : nat; m_fills : nat; m_fill_rate : F; m_gross : F; m_net : F; m_sharpe : F;
  m_drawdown : F; m_wins : nat; m_losses : nat; m_win_pct : F; m_avg_win : F; m_avg_loss : F }.

Definition percent (a b : nat) : F :=
  if (0 <? b)%nat then f_quot (f_int (Z.of_nat a)) (f_int (Z.of_nat b)) * f_int 100 else f_zero.

(** [None] is the early return of a range without signals. *)
Definition backtest_metrics (signals : nat) (fills : list (pyval F * Z)) : option live_metrics :=
  if (signals =? 0)%nat then None
  else
    let '(gross, wins, losses, values) := pnl_loop (map fst fills) in
    let average sel n := match values with
      | [] => f_zero
      | _ => f_quot (py_sum (List.filter sel values)) (f_int (Z.of_nat (Nat.max n 1)))
      end in
    Some (mk_live signals (length fills) (percent (length fills) signals) gross
            (gross * f_dec 95 (-2)) (sharpe_of (daily_returns fills))
            (live_drawdown_loop f_zero f_zero f_zero values) wins losses
            (percent wins (length fills))
            (average (fun p => f_zero <? p) wins) (average (fun p => p <? f_zero) losses)).

(** The values the first loop keeps. *)
Definition live_values (fills : list (pyval F)) : list F :=
  omap (fun v => fill_pnl v ≫= number_of) fills.

Lemma pnl_loop_spec fills : forall gross wins losses values,
  fold_left pnl_step fills (gross, wins, losses, values) =
  (fold_left f_add (live_values fills) gross,
   (wins + length (List.filter (fun p => f_ltb f_zero p) (live_values fills)))%nat,
   (losses + length (List.filter (fun p => negb (f_ltb f_zero p) && f_ltb p f_zero) (live_values fills)))%nat,
   values ++ live_values fills).
Proof.
  induction fills as [|v fills IH]; intros gross wins losses values.
  - cbn. by rewrite !Nat.add_0_r, app_nil_r.
  - cbn [fold_left]. unfold pnl_step at 2. unfold live_values. cbn [omap list_omap].
    destruct (fill_pnl v ≫= number_of) as [pnl|]; [|apply IH].
    rewrite IH. fold (live_values fills). cbn [fold_left List.filter].
    rewrite <-app_assoc.
    destruct (f_zero <? pnl); destruct (pnl <? f_zero); cbn; repeat f_equal; lia.
Qed.

Lemma daily_step_same_day d daily fill :
  fill.2 = d -> Forall (fun e => e.1 = d) daily -> (length daily <= 1)%nat ->
  Forall (fun e => e.1 = d) (daily_step daily fill) /\ (length (daily_step daily fill) <= 1)%nat.
Proof.
  intros <- Hd Hl. unfold daily_step. destruct (fill_pnl fill.1) as [v|]; [|done].
  destruct daily as [|e [|? ?]]; simpl in Hl; [| |lia].
  - simpl. destruct (number_of v); simpl; repeat constructor; rewrite ?Z.eqb_refl; done.
  - inversion_clear Hd as [|? ? He _]. cbn. rewrite He, Z.eqb_refl. cbn.
    destruct (number_of v); cbn; rewrite ?He, ?Z.eqb_refl; repeat constructor; done.
Qed.

Lemma daily_same_day d fills daily :
  Forall (fun f => f.2 = d) fills -> Forall (fun e => e.1 = d) daily -> (length daily <= 1)%nat ->
  (length (fold_left daily_step fills daily) <= 1)%nat.
Proof.
  intros Hf. revert daily. induction Hf as [|f fills Hd _ IH]; intros daily H1 H2; [done|].
  simpl. destruct (daily_step_same_day d daily f Hd H1 H2). by apply IH.
Qed.

(** The live aggregates.  Malformed fills are skipped, not fatal: gross, wins
    and losses range over the numeric values in order, and the endpoint's drawdown
    loop computes the harness's [_max_drawdown].  When every fill is filed under
    one day, as the query makes it, the Sharpe ratio is always 0. *)
Theorem live_metrics_spec signals fills m
  (H : backtest_metrics signals fills = Some m) :
  let values := live_values (map fst fills) in
  m_gross m = fold_left f_add values f_zero /\
  m_wins m = length (List.filter (fun p => f_ltb f_zero p) values) /\
  (m_wins m + m_losses m <= m_fills m)%nat /\
  m_drawdown m = _max_drawdown values /\
  (forall d, Forall (fun f => f.2 = d) fills -> m_sharpe m = f_zero).
Proof.
  unfold backtest_metrics, pnl_loop in H. destruct (signals =? 0)%nat; [done|].
  rewrite pnl_loop_spec in H. injection H as <-. cbn [app m_gross m_wins m_losses m_fills m_drawdown m_sharpe].
  split_and!; try done.
  - assert (forall f g (l : list F), (forall x, f x = true -> g x = true -> False) ->
      (length (List.filter f l) + length (List.filter g l) <= length l)%nat) as K.
    { intros f g l Hfg. induction l as [|x l IH]; [done|]. simpl. specialize (Hfg x).
      destruct (f x), (g x); simpl; try lia; by destruct Hfg. }
    assert (length (live_values (map fst fills)) <= length fills)%nat.
    { unfold live_values. clear. induction fills as [|f fills IH]; [done|]. cbn.
      destruct (_ ≫= number_of); simpl; lia. }
    etrans; [|eassumption]. apply K. intros x E E'. by rewrite E in E'.
  - intros d Hd. unfold sharpe_of, daily_returns.
    destruct (1 <? _)%nat eqn:E; [|done]. apply Nat.ltb_lt in E.
    pose proof (daily_same_day d fills [] Hd) as K. specialize (K ltac:(by constructor) ltac:(simpl; lia)). lia.
Qed.

End LiveMetrics.

(** ** Witnesses: a replay in binary64 over a synthetic series *)

Module BacktestDemo.
Definition model : XGBPredictor spec_float :=
  mk_predictor (b64_dec 5 (-1)) ["direction"%string] "v1" (fun _ => Ok (b64_dec 9 (-1))).
Definition signal_at (i : nat) (d : Z) : RawSignal := mk_raw_signal (timestamp (sample_candle i)) d.
(** The last signal falls on the last bar and closes without a price. *)
Definition early : list RawSignal := [signal_at 1 1; signal_at 2 (-1); signal_at 2 (-1); signal_at 3 1].
Definition late : list RawSignal := [signal_at 299 1; signal_at 300 (-1)].

Definition report_of (r : result backtest_error (ComparisonReport spec_float))
  : option (ComparisonReport spec_float) :=
  match r with Ok rep => Some rep | Err _ => None end.

Lemma report_ok r : bool_decide (report_of r <> None) = true -> exists rep, r = Ok rep.
Proof. destruct r as [rep|]; [by exists rep|]. intros H. by apply bool_decide_eq_true in H. Qed.

Definition passesb (p : XGBPredictor spec_float) (candles : list (Candle spec_float))
    (fb : FeatureBuilder spec_float) (sig : RawSignal) : bool :=
  match ts_index candles (s_timestamp sig) with
  | None => true
  | Some idx =>
      ((s_direction sig =? 1) || (s_direction sig =? -1)) &&
      match build_at fb idx with
      | Ok (Some feats) =>
          match _build_feature_vector p (map (fun nf => (nf.1, PFloat nf.2)) feats) (s_direction sig) with
          | Ok x => match p_score p x with Ok prob => f_ltb (p_threshold p) prob | Err _ => false end
          | Err _ => false
          end
      | _ => false
      end
  end.

Lemma passesb_ok p candles fb sig : passesb p candles fb sig = true -> passes p candles fb sig.
Proof.
  unfold passesb, passes. intros H idx Hi. rewrite Hi in H.
  apply andb_prop in H as [Hd H].
  destruct (build_at fb idx) as [[feats|]|] eqn:Hb; try discriminate H.
  destruct (_build_feature_vector _ _ _) as [x|] eqn:Hx; [|discriminate H].
  destruct (p_score p x) as [prob|] eqn:Hs; [|discriminate H].
  split; [apply orb_prop in Hd as [E|E]; apply Z.eqb_eq in E; auto|].
  exists feats, x, prob. auto.
Qed.

Definition all_pass (candles : list (Candle spec_float)) (sigs : list RawSignal) : bool :=
  match build_FeatureBuilder candles 12 48 with
  | Some fb => forallb (passesb model candles fb) sigs
  | None => false
  end.

Lemma all_pass_ok candles sigs : all_pass candles sigs = true ->
  exists fb, build_FeatureBuilder candles 12 48 = Some fb /\ Forall (passes model candles fb) sigs.
Proof.
  unfold all_pass. destruct (build_FeatureBuilder _ _ _) as [fb|]; [|discriminate].
  intros H. exists fb. split; [reflexivity|]. apply List.Forall_forall. intros sig Hin.
  apply passesb_ok. rewrite forallb_forall in H. by apply H.
Qed.
End BacktestDemo.
Import BacktestDemo.

(** Three trades opened, two closed and one running; the last of the closed ones has no
    price, so two are counted as still open. *)
Lemma comparison_accounting_witness :
  exists rep, run_comparison (sample_series 4) early model = Ok rep /\
    trades_opened (r_unfiltered rep) = 3%nat /\
    (3 = trades_closed (r_unfiltered rep) + length (List.filter running (unfiltered_trades rep)))%nat.
Proof.
  destruct (report_ok (run_comparison (sample_series 4) early model)) as [rep E];
    [vm_compute; reflexivity|].
  assert (trades_opened (r_unfiltered rep) = 3%nat) as E3.
  { apply (f_equal (fun r => trades_opened <$> (r_unfiltered <$> report_of r))) in E. revert E. vm_compute. by intros [=]. }
  exists rep. split; [exact E|]. split; [exact E3|].
  destruct (comparison_accounting _ _ _ rep E) as (_ & _ & _ & _ & K).
  destruct (K _ _ (or_introl eq_refl)) as (_ & _ & K2 & _). rewrite E3 in K2. exact K2.
Defined.

(** Three trades opened and two closed, yet two counted as still open. *)
Definition early_counts : option (nat * nat * nat) :=
  rep ← report_of (run_comparison (sample_series 4) early model);
  Some (trades_opened (r_unfiltered rep), trades_closed (r_unfiltered rep),
        trades_still_open (r_unfiltered rep)).

Lemma still_open_count_witness :
  early_counts = Some (3, 2, 2)%nat /\
  exists rep, run_comparison (sample_series 4) early model = Ok rep /\
    trades_still_open (r_unfiltered rep) =
      (trades_opened (r_unfiltered rep) - trades_closed (r_unfiltered rep) +
       length (List.filter closed_unpriced (unfiltered_trades rep)))%nat.
Proof.
  split; [vm_compute; reflexivity|].
  destruct (report_ok (run_comparison (sample_series 4) early model)) as [rep E];
    [vm_compute; reflexivity|].
  exists rep. split; [exact E|].
  exact (proj2 (still_open_count _ _ _ rep E _ _ (or_introl eq_refl))).
Defined.

Lemma unfiltered_flips_witness :
  exists rep, run_comparison (sample_series 4) early model = Ok rep /\ chained (unfiltered_trades rep).
Proof.
  destruct (report_ok (run_comparison (sample_series 4) early model)) as [rep E];
    [vm_compute; reflexivity|].
  exists rep. split; [exact E|]. exact (proj1 (unfiltered_flips _ _ _ rep E)).
Defined.

Lemma passing_filter_is_unfiltered_witness :
  exists rep, run_comparison (sample_series 302) late model = Ok rep /\
    filtered_trades rep = unfiltered_trades rep.
Proof.
  destruct (report_ok (run_comparison (sample_series 302) late model)) as [rep E];
    [vm_compute; reflexivity|].
  destruct (all_pass_ok (sample_series 302) late) as (fb & Hb & Hp); [vm_compute; reflexivity|].
  exists rep. split; [exact E|].
  exact (proj1 (passing_filter_is_unfiltered _ _ _ fb rep Hb Hp E)).
Defined.

Definition demo_fills : list (pyval spec_float * Z) :=
  [(PDict [("simulated_pnl"%string, PFloat (b64_dec 3 0))], 7);
   (PStr "oops", 7); (PDict [("simulated_pnl"%string, PInt (-1))], 7)].

Lemma live_metrics_spec_witness :
  exists m, backtest_metrics (fun _ => None) 5 demo_fills = Some m /\ m_sharpe m = f_zero.
Proof.
  destruct (backtest_metrics (fun _ => None) 5 demo_fills) as [m|] eqn:E; [|discriminate E].
  exists m. split; [reflexivity|].
  apply (live_metrics_spec (fun _ => None) 5 demo_fills m E) with (d := 7).
  repeat constructor.
Defined.
