(* ===== verification/Prog.v ===== *)
(** * Prog: asynchronous handlers over a shared database

    A handler of the Python services is a coroutine that issues SQL statements
    one after the other, each committed on its own, and may be suspended
    between two of them.  [prog] is the tree of its statements: [Stmt] is one
    statement, which either takes effect atomically or fails and raises, [Act] an
    effect that cannot fail (a counter, a local variable), [Done] the return value or the
    exception that escapes.  The tree is inductive, so every handler terminates.

    Two semantics are given: [run], one handler alone under a schedule of
    statement failures, and [istep], any number of handlers interleaved with
    arbitrary failures. *)

From stdpp Require Import relations.
From S2P Require Import Prelude.

Inductive prog (D E A : Type) : Type :=
| Done (r : result E A)
| Stmt (upd : D -> D) (next : D -> prog D E A) (fail : prog D E A)
| Act (upd : D -> D) (next : D -> prog D E A).

Arguments Done {D E A} r.
Arguments Stmt {D E A} upd next fail.
Arguments Act {D E A} upd next.

Section Combinators.
Context {D E : Type}.

Definition ret {A} (a : A) : prog D E A := Done (Ok a).
Definition raise {A} (e : E) : prog D E A := Done (Err e).

Fixpoint bind {A B} (p : prog D E A) (k : A -> prog D E B) : prog D E B :=
  match p with
  | Done (Ok a) => k a
  | Done (Err e) => Done (Err e)
  | Stmt upd next fail => Stmt upd (fun d => bind (next d) k) (bind fail k)
  | Act upd next => Act upd (fun d => bind (next d) k)
  end.

(** [try: p except Exception as e: h(e)]. *)
Fixpoint try_ {A} (p : prog D E A) (h : E -> prog D E A) : prog D E A :=
  match p with
  | Done (Ok a) => Done (Ok a)
  | Done (Err e) => h e
  | Stmt upd next fail => Stmt upd (fun d => try_ (next d) h) (try_ fail h)
  | Act upd next => Act upd (fun d => try_ (next d) h)
  end.

(** A query or update that raises [e] when the database refuses it. *)
Definition stmt {A} (e : E) (f : D -> A * D) : prog D E A :=
  Stmt (fun d => (f d).2) (fun d => ret (f d).1) (raise e).

(** A statement whose own outcome may be an exception (a constraint). *)
Definition stmt_r {A} (e : E) (f : D -> result E A * D) : prog D E A :=
  Stmt (fun d => (f d).2) (fun d => Done (f d).1) (raise e).

Definition query {A} (e : E) (f : D -> A) : prog D E A := stmt e (fun d => (f d, d)).

Definition exec (e : E) (f : D -> D) : prog D E unit := stmt e (fun d => (tt, f d)).

Definition act (f : D -> D) : prog D E unit := Act f (fun _ => ret tt).

(** ** One handler alone *)

(** The schedule says of each statement in turn whether it fails; statements
    past its end succeed. *)
Fixpoint run {A} (p : prog D E A) (faults : list bool) (d : D) : result E A * D * list bool :=
  match p with
  | Done r => (r, d, faults)
  | Stmt upd next fail =>
      match faults with
      | true :: fs => run fail fs d
      | false :: fs => run (next d) fs (upd d)
      | [] => run (next d) [] (upd d)
      end
  | Act upd next => run (next d) faults (upd d)
  end.

Definition run_state {A} (p : prog D E A) (faults : list bool) (d : D) : D := (run p faults d).1.2.
Definition run_result {A} (p : prog D E A) (faults : list bool) (d : D) : result E A :=
  (run p faults d).1.1.

Lemma run_bind {A B} (p : prog D E A) (k : A -> prog D E B) fs d :
  run (bind p k) fs d =
  match run p fs d with
  | (Ok a, d', fs') => run (k a) fs' d'
  | (Err e, d', fs') => (Err e, d', fs')
  end.
Proof.
  revert fs d. induction p as [[a|e]|upd next IH fail IHf|upd next IH]; intros fs d; simpl; auto.
  destruct fs as [|[] fs]; auto.
Qed.

(** An undisturbed query passes its answer on. *)
Lemma run_bind_query {A B} e (f : D -> A) (k : A -> prog D E B) d :
  run (bind (query e f) k) [] d = run (k (f d)) [] d.
Proof. done. Qed.

Lemma run_try {A} (p : prog D E A) (h : E -> prog D E A) fs d :
  run (try_ p h) fs d =
  match run p fs d with
  | (Ok a, d', fs') => (Ok a, d', fs')
  | (Err e, d', fs') => run (h e) fs' d'
  end.
Proof.
  revert fs d. induction p as [[a|e]|upd next IH fail IHf|upd next IH]; intros fs d; simpl; auto.
  destruct fs as [|[] fs]; auto.
Qed.

(** ** What every step of a handler does *)

(** Each effect of the tree, in any state, is related by [R]. *)
Fixpoint steps_in {A} (R : D -> D -> Prop) (p : prog D E A) : Prop :=
  match p with
  | Done _ => True
  | Stmt upd next fail => (forall d, R d (upd d)) /\ (forall d, steps_in R (next d)) /\ steps_in R fail
  | Act upd next => (forall d, R d (upd d)) /\ (forall d, steps_in R (next d))
  end.

Lemma steps_in_bind {A B} R (p : prog D E A) (k : A -> prog D E B) :
  steps_in R p -> (forall a, steps_in R (k a)) -> steps_in R (bind p k).
Proof.
  induction p as [[a|e]|upd next IH fail IHf|upd next IH]; simpl; intros; destruct_and?; split_and?; auto.
Qed.

Lemma steps_in_try {A} R (p : prog D E A) (h : E -> prog D E A) :
  steps_in R p -> (forall e, steps_in R (h e)) -> steps_in R (try_ p h).
Proof.
  induction p as [[a|e]|upd next IH fail IHf|upd next IH]; simpl; intros; destruct_and?; split_and?; auto.
Qed.

Lemma steps_in_query {A} R e (f : D -> A) : (forall d, R d d) -> steps_in R (query e f).
Proof. intros H. repeat split. apply H. Qed.

Lemma steps_in_ret {A} R (a : A) : steps_in R (ret a).
Proof. done. Qed.

Lemma steps_in_mono {A} (R R' : D -> D -> Prop) (p : prog D E A) :
  (forall d d', R d d' -> R' d d') -> steps_in R p -> steps_in R' p.
Proof. intros HR. induction p; simpl; intros; destruct_and?; split_and?; auto. Qed.

Lemma steps_in_act R (f : D -> D) : (forall d, R d (f d)) -> steps_in R (act f).
Proof. intros H. by repeat split. Qed.

Lemma run_steps_in {A} R (p : prog D E A) fs d :
  reflexive D R -> transitive D R -> steps_in R p -> R d (run_state p fs d).
Proof.
  intros Hr Ht. unfold run_state. revert fs d.
  induction p as [r|upd next IH fail IHf|upd next IH]; intros fs d; simpl; [auto| |].
  - intros (Hu & Hn & Hf). destruct fs as [|[] fs]; auto; eapply Ht; eauto.
  - intros (Hu & Hn). eapply Ht; eauto.
Qed.

(** ** Interleaving *)

(** One step of one of the handlers. *)
Inductive istep {A} : list (prog D E A) * D -> list (prog D E A) * D -> Prop :=
| istep_stmt l1 l2 upd next fail d :
    istep (l1 ++ Stmt upd next fail :: l2, d) (l1 ++ next d :: l2, upd d)
| istep_fail l1 l2 upd next fail d :
    istep (l1 ++ Stmt upd next fail :: l2, d) (l1 ++ fail :: l2, d)
| istep_act l1 l2 upd next d :
    istep (l1 ++ Act upd next :: l2, d) (l1 ++ next d :: l2, upd d).

(** An executable scheduler: each pick names a handler and whether its
    statement fails; picks of finished handlers are ignored. *)
Definition pick {A} (c : list (prog D E A) * D) (choice : nat * bool) : list (prog D E A) * D :=
  match c.1 !! choice.1 with
  | Some (Stmt upd next fail) =>
      if choice.2 then (<[choice.1 := fail]> c.1, c.2)
      else (<[choice.1 := next c.2]> c.1, upd c.2)
  | Some (Act upd next) => (<[choice.1 := next c.2]> c.1, upd c.2)
  | _ => c
  end.

Lemma pick_rtc {A} (c : list (prog D E A) * D) choice : rtc istep c (pick c choice).
Proof.
  destruct c as [ps d], choice as [i b]. unfold pick. simpl.
  destruct (ps !! i) as [p|] eqn:Hi; [|done].
  destruct (list_elem_of_split_length _ _ _ Hi) as (l1 & l2 & -> & ->).
  destruct p as [r|upd next fail|upd next]; [done| |].
  - rewrite !insert_app_r_alt, Nat.sub_diag by lia. destruct b; apply rtc_once; constructor.
  - rewrite insert_app_r_alt, Nat.sub_diag by lia. apply rtc_once. constructor.
Qed.

Lemma sched_rtc {A} (c : list (prog D E A) * D) choices : rtc istep c (fold_left pick choices c).
Proof.
  revert c. induction choices as [|ch choices IH]; intros c; [done|].
  etrans; [apply pick_rtc|apply IH].
Qed.

Lemma interleave_steps_in {A} R (ps ps' : list (prog D E A)) d d' :
  reflexive D R -> transitive D R -> Forall (steps_in R) ps ->
  rtc istep (ps, d) (ps', d') -> R d d' /\ Forall (steps_in R) ps'.
Proof.
  intros Hr Ht Hps Hs. remember (ps, d) as c eqn:Ec. remember (ps', d') as c' eqn:Ec'.
  revert ps d Hps Ec. induction Hs as [c|c c1 c2 Hstep _ IH]; intros ps d Hps ->.
  - injection Ec' as <- <-. split; [apply Hr|done].
  - destruct c1 as [ps1 d1].
    assert (R d d1 /\ Forall (steps_in R) ps1) as [HR H1].
    { inversion Hstep; subst; apply Forall_app in Hps as [? Hps]; apply Forall_cons_1 in Hps as [Hp ?];
        simpl in Hp; destruct_and?; split; auto; apply Forall_app; split; auto. }
    destruct (IH Ec' ps1 d1 H1 eq_refl) as [H2 H3]. split; [by eapply Ht|done].
Qed.

(** ** Invariants

    [preserves I p]: every step of [p] from a state with [I] reaches a state with
    [I].  Unlike [steps_in] the continuation may rely on [I] having held when its
    query was answered. *)
Fixpoint preserves {A} (I : D -> Prop) (p : prog D E A) : Prop :=
  match p with
  | Done _ => True
  | Stmt upd next fail => (forall d, I d -> I (upd d) /\ preserves I (next d)) /\ preserves I fail
  | Act upd next => forall d, I d -> I (upd d) /\ preserves I (next d)
  end.

Lemma preserves_bind {A B} I (p : prog D E A) (k : A -> prog D E B) :
  preserves I p -> (forall a, preserves I (k a)) -> preserves I (bind p k).
Proof.
  induction p as [[a|e]|upd next IH fail IHf|upd next IH]; simpl; intros Hp Hk; auto.
  - destruct Hp as [Hn Hf]. split; [|auto]. intros d Hd. destruct (Hn d Hd). auto.
  - intros d Hd. destruct (Hp d Hd). auto.
Qed.

Lemma preserves_try {A} I (p : prog D E A) (h : E -> prog D E A) :
  preserves I p -> (forall e, preserves I (h e)) -> preserves I (try_ p h).
Proof.
  induction p as [[a|e]|upd next IH fail IHf|upd next IH]; simpl; intros Hp Hk; auto.
  - destruct Hp as [Hn Hf]. split; [|auto]. intros d Hd. destruct (Hn d Hd). auto.
  - intros d Hd. destruct (Hp d Hd). auto.
Qed.

Lemma preserves_exec I e (f : D -> D) : (forall d, I d -> I (f d)) -> preserves I (exec e f).
Proof. intros H. repeat split. by apply H. Qed.

Lemma run_preserves {A} I (p : prog D E A) fs d : preserves I p -> I d -> I (run_state p fs d).
Proof.
  unfold run_state. revert fs d. induction p as [r|upd next IH fail IHf|upd next IH]; intros fs d Hp Hd; simpl; [done| |].
  - destruct Hp as [Hn Hf]. destruct (Hn d Hd). destruct fs as [|[] fs]; auto.
  - destruct (Hp d Hd). auto.
Qed.

Lemma istep_preserves {A} I (ps ps' : list (prog D E A)) d d' :
  Forall (preserves I) ps -> I d -> istep (ps, d) (ps', d') -> Forall (preserves I) ps' /\ I d'.
Proof.
  intros Hps Hd Hs. inversion Hs; subst; apply Forall_app in Hps as [H1 Hps];
    apply Forall_cons_1 in Hps as [Hp H2]; simpl in Hp.
  - destruct (proj1 Hp d Hd). split; [apply Forall_app; auto|done].
  - split; [apply Forall_app; split; [done|]; constructor; [apply Hp|done]|done].
  - destruct (Hp d Hd). split; [apply Forall_app; auto|done].
Qed.

Lemma interleave_preserves {A} I (ps ps' : list (prog D E A)) d d' :
  Forall (preserves I) ps -> I d -> rtc istep (ps, d) (ps', d') -> I d'.
Proof.
  intros Hps Hd Hs. remember (ps, d) as c eqn:Ec. remember (ps', d') as c' eqn:Ec'.
  revert ps d Hps Hd Ec. induction Hs as [c|c [ps1 d1] c2 Hstep _ IH]; intros ps d Hps Hd ->.
  - by injection Ec' as <- <-.
  - destruct (istep_preserves _ _ _ _ _ Hps Hd Hstep). eauto.
Qed.

(** ** Tokens

    A ghost argument for "at most once" under interleaving.  [supply d k] counts
    what the shared state still allows or already holds of key [k]; a handler
    may hold tokens between two statements.  [conserving h p] says that from
    holdings [h] no step of [p] creates tokens out of nothing. *)
Section Tokens.
Context {K : Type} (supply : D -> K -> nat).

Fixpoint conserving {A} (h : K -> nat) (p : prog D E A) : Prop :=
  match p with
  | Done _ => True
  | Stmt upd next fail =>
      (forall d, exists h', (forall k, supply (upd d) k + h' k <= supply d k + h k) /\
                            conserving h' (next d)) /\
      conserving h fail
  | Act upd next =>
      forall d, exists h', (forall k, supply (upd d) k + h' k <= supply d k + h k) /\
                           conserving h' (next d)
  end.

Definition held (hs : list (K -> nat)) (k : K) : nat := sum_list (map (fun h => h k) hs).

Lemma held_app hs1 hs2 k : held (hs1 ++ hs2) k = held hs1 k + held hs2 k.
Proof. unfold held. rewrite map_app. induction (map _ hs1); simpl; lia. Qed.

Lemma held_cons h hs k : held (h :: hs) k = h k + held hs k.
Proof. done. Qed.

Lemma istep_conserving {A} (ps ps' : list (prog D E A)) hs d d' :
  Forall2 conserving hs ps -> istep (ps, d) (ps', d') ->
  exists hs', Forall2 conserving hs' ps' /\
    forall k, supply d' k + held hs' k <= supply d k + held hs k.
Proof.
  intros HF Hs. inversion Hs; subst;
    apply Forall2_app_inv_r in HF as (hs1 & hs2 & H1 & H2 & ->);
    apply Forall2_cons_inv_r in H2 as (h & hs2' & Hp & H2 & ->).
  - destruct Hp as [Hp _]. destruct (Hp d) as (h' & Hle & Hn).
    exists (hs1 ++ h' :: hs2'). split; [by apply Forall2_app; [|constructor]|].
    intros k. specialize (Hle k). rewrite !held_app, !held_cons. lia.
  - destruct Hp as [_ Hp].
    exists (hs1 ++ h :: hs2'). split; [by apply Forall2_app; [|constructor]|].
    intros k. rewrite !held_app, !held_cons. lia.
  - destruct (Hp d) as (h' & Hle & Hn).
    exists (hs1 ++ h' :: hs2'). split; [by apply Forall2_app; [|constructor]|].
    intros k. specialize (Hle k). rewrite !held_app, !held_cons. lia.
Qed.

Lemma interleave_conserving {A} (ps ps' : list (prog D E A)) d d' :
  Forall (conserving (fun _ => 0)) ps -> rtc istep (ps, d) (ps', d') ->
  forall k, supply d' k <= supply d k.
Proof.
  intros Hps Hs k.
  assert (Forall2 conserving (map (fun _ _ => 0) ps) ps) as HF.
  { clear Hs. induction Hps; simpl; constructor; auto. }
  assert (held (map (fun _ _ => 0) ps) k = 0) as H0.
  { clear. induction ps as [|p ps IH]; simpl; [done|]. by rewrite held_cons, IH. }
  assert (forall c c' : list (prog D E A) * D, rtc istep c c' -> forall hs, Forall2 conserving hs c.1 ->
    exists hs', supply c'.2 k + held hs' k <= supply c.2 k + held hs k) as K'.
  { intros c c' Hr. induction Hr as [c|[ps1 d1] [ps2 d2] c3 Hst _ IH]; intros hs Hh; [by exists hs|].
    destruct (istep_conserving _ _ _ _ _ Hh Hst) as (hs' & Hh' & Hle).
    destruct (IH hs' Hh') as (hs'' & Hle'). exists hs''. specialize (Hle k). simpl in *. lia. }
  destruct (K' _ _ Hs _ HF) as (hs' & Hle). simpl in Hle. lia.
Qed.

(** A handler that changes no supply and starts from nothing is conserving,
    and stays so through [bind] and [try_]. *)
Lemma conserving_weaken {A} (p : prog D E A) : forall h h',
  (forall k, h k <= h' k) -> conserving h p -> conserving h' p.
Proof.
  induction p as [r|upd next IH fail IHf|upd next IH]; intros h h' Hle Hp; simpl in *; [done| |].
  - destruct Hp as [Hn Hf]. split; [|by eapply IHf].
    intros d. destruct (Hn d) as (h1 & H1 & H2). exists h1. split; [|done].
    intros k. specialize (H1 k). specialize (Hle k). lia.
  - intros d. destruct (Hp d) as (h1 & H1 & H2). exists h1. split; [|done].
    intros k. specialize (H1 k). specialize (Hle k). lia.
Qed.

Lemma conserving_bind {A B} (p : prog D E A) (k : A -> prog D E B) :
  forall h, conserving h p -> (forall a, conserving (fun _ => 0) (k a)) -> conserving h (bind p k).
Proof.
  induction p as [[a|e]|upd next IH fail IHf|upd next IH]; intros h Hp Hk; simpl in *.
  - eapply conserving_weaken; [|apply Hk]. intros; simpl; lia.
  - done.
  - destruct Hp as [Hn Hf]. split; [|by apply IHf]. intros d.
    destruct (Hn d) as (h1 & H1 & H2). exists h1. split; [done|]. by apply IH.
  - intros d. destruct (Hp d) as (h1 & H1 & H2). exists h1. split; [done|]. by apply IH.
Qed.

Lemma conserving_try {A} (p : prog D E A) (hd : E -> prog D E A) :
  forall h, conserving h p -> (forall e, conserving (fun _ => 0) (hd e)) -> conserving h (try_ p hd).
Proof.
  induction p as [[a|e]|upd next IH fail IHf|upd next IH]; intros h Hp Hk; simpl in *.
  - done.
  - eapply conserving_weaken; [|apply Hk]. intros; simpl; lia.
  - destruct Hp as [Hn Hf]. split; [|by apply IHf]. intros d.
    destruct (Hn d) as (h1 & H1 & H2). exists h1. split; [done|]. by apply IH.
  - intros d. destruct (Hp d) as (h1 & H1 & H2). exists h1. split; [done|]. by apply IH.
Qed.

Lemma steps_conserving {A} (p : prog D E A) :
  steps_in (fun d d' => forall k, supply d' k = supply d k) p -> conserving (fun _ => 0) p.
Proof.
  induction p as [r|upd next IH fail IHf|upd next IH]; simpl; [done| |].
  - intros (Hu & Hn & Hf). split; [|auto]. intros d. exists (fun _ => 0). split; [|auto].
    intros k. rewrite (Hu d k). lia.
  - intros (Hu & Hn) d. exists (fun _ => 0). split; [|auto]. intros k. rewrite (Hu d k). lia.
Qed.

End Tokens.

(** ** Exact accounts

    [answers p]: no path of [p] ends in an exception. *)
Fixpoint answers {A} (p : prog D E A) : Prop :=
  match p with
  | Done (Ok _) => True
  | Done (Err _) => False
  | Stmt upd next fail => (forall d, answers (next d)) /\ answers fail
  | Act upd next => forall d, answers (next d)
  end.

Lemma answers_bind {A B} (p : prog D E A) (k : A -> prog D E B) :
  answers p -> (forall a, answers (k a)) -> answers (bind p k).
Proof. induction p as [[a|e]|upd next IH fail IHf|upd next IH]; simpl; intros; destruct_and?; split_and?; auto. Qed.

Lemma answers_try {A} (p : prog D E A) (h : E -> prog D E A) : (forall e, answers (h e)) -> answers (try_ p h).
Proof. intros H. induction p as [[a|e]|upd next IH fail IHf|upd next IH]; simpl; split_and?; auto. Qed.

Lemma answers_run {A} (p : prog D E A) fs d : answers p -> exists a, run_result p fs d = Ok a.
Proof.
  unfold run_result. revert fs d. induction p as [[a|e]|upd next IH fail IHf|upd next IH]; intros fs d Hp; simpl in *; [by exists a|done| |auto].
  destruct Hp. destruct fs as [|[] fs]; auto.
Qed.

(** Every exception a path of [p] ends with has [P]. *)
Fixpoint raises {A} (P : E -> Prop) (p : prog D E A) : Prop :=
  match p with
  | Done (Ok _) => True
  | Done (Err e) => P e
  | Stmt upd next fail => (forall d, raises P (next d)) /\ raises P fail
  | Act upd next => forall d, raises P (next d)
  end.

Lemma raises_bind {A B} P (p : prog D E A) (k : A -> prog D E B) :
  raises P p -> (forall a, raises P (k a)) -> raises P (bind p k).
Proof. induction p as [[a|e]|upd next IH fail IHf|upd next IH]; simpl; intros; destruct_and?; split_and?; auto. Qed.

Lemma answers_raises {A} P (p : prog D E A) : answers p -> raises P p.
Proof. induction p as [[a|e]|upd next IH fail IHf|upd next IH]; simpl; intros; destruct_and?; split_and?; auto; done. Qed.

Lemma raises_run {A} P (p : prog D E A) fs d e : raises P p -> run_result p fs d = Err e -> P e.
Proof.
  unfold run_result. revert fs d. induction p as [[a|x]|upd next IH fail IHf|upd next IH]; intros fs d Hp; simpl in *; [done|by intros [= <-]| |eauto].
  destruct Hp. destruct fs as [|[] fs]; eauto.
Qed.

(** Each of the interleaved handlers keeps to its own exceptions. *)
Lemma interleave_raises {A X} (P : X -> E -> Prop) xs (ps ps' : list (prog D E A)) d d' :
  Forall2 (fun x => raises (P x)) xs ps -> rtc istep (ps, d) (ps', d') -> Forall2 (fun x => raises (P x)) xs ps'.
Proof.
  intros H Hs. remember (ps, d) as c eqn:Ec. remember (ps', d') as c' eqn:Ec'.
  revert ps d H Ec. induction Hs as [c|c [ps1 d1] c2 Hstep _ IH]; intros ps d H ->; [by injection Ec' as <- <-|].
  apply (IH Ec' ps1 d1); [|done].
  inversion Hstep; subst; apply Forall2_app_inv_r in H as (xs1 & xs2 & H1 & H2 & ->);
    inversion H2 as [|x p xs' ps2 Hp H3]; subst; simpl in Hp; destruct_and?;
    apply Forall2_app; [done|constructor; auto|done|constructor; auto|done|constructor; auto].
Qed.

(** [owes n p]: on every path [p] changes the measure by exactly [n] before it is
    done, whatever fails. *)
Section Accounts.
Context (measure : D -> Z).

Fixpoint owes {A} (n : Z) (p : prog D E A) : Prop :=
  match p with
  | Done _ => n = 0%Z
  | Stmt upd next fail => (forall d, owes (n - (measure (upd d) - measure d)) (next d)) /\ owes n fail
  | Act upd next => forall d, owes (n - (measure (upd d) - measure d)) (next d)
  end.

Lemma owes_bind {A B} (p : prog D E A) (k : A -> prog D E B) m : answers p \/ m = 0%Z -> (forall a, owes m (k a)) ->
  forall n, owes n p -> owes (n + m) (bind p k).
Proof.
  intros Ha Hk. induction p as [[a|e]|upd next IH fail IHf|upd next IH]; intros n Hp; simpl in *.
  - by subst n.
  - destruct Ha as [[]| ->]. lia.
  - destruct Hp as [Hn Hf]. split; [|apply IHf; [tauto|done]]. intros d.
    replace (n + m - (measure (upd d) - measure d))%Z with (n - (measure (upd d) - measure d) + m)%Z by lia.
    apply IH; [|done]. destruct Ha as [[? ?]|?]; auto.
  - intros d. replace (n + m - (measure (upd d) - measure d))%Z with (n - (measure (upd d) - measure d) + m)%Z by lia.
    apply IH; [|done]. destruct Ha; auto.
Qed.

Lemma owes_try {A} (p : prog D E A) (h : E -> prog D E A) : (forall e, owes 0 (h e)) ->
  forall n, owes n p -> owes n (try_ p h).
Proof.
  intros Hh. induction p as [[a|e]|upd next IH fail IHf|upd next IH]; intros n Hp; simpl in *; [done| | |auto].
  - by subst n.
  - destruct Hp. split; auto.
Qed.

Lemma owes_steps {A} (p : prog D E A) : steps_in (fun d d' => measure d' = measure d) p -> owes 0 p.
Proof.
  induction p as [r|upd next IH fail IHf|upd next IH]; simpl; [done| |].
  - intros (Hu & Hn & Hf). split; [|auto]. intros d. rewrite Hu, Z.sub_diag. auto.
  - intros (Hu & Hn) d. rewrite Hu, Z.sub_diag. auto.
Qed.

Definition owed (ns : list Z) : Z := foldr Z.add 0%Z ns.

Lemma owed_app ns1 ns2 : owed (ns1 ++ ns2) = (owed ns1 + owed ns2)%Z.
Proof. induction ns1 as [|n ns1 IH]; simpl; lia. Qed.

(** Whatever the interleaving, the measure and what is still owed add up. *)
Lemma interleave_owes {A} (ps ps' : list (prog D E A)) ns d d' :
  Forall2 owes ns ps -> rtc istep (ps, d) (ps', d') ->
  exists ns', Forall2 owes ns' ps' /\ (measure d' + owed ns' = measure d + owed ns)%Z.
Proof.
  intros HF Hs. remember (ps, d) as c eqn:Ec. remember (ps', d') as c' eqn:Ec'.
  revert ps d ns HF Ec. induction Hs as [c|c [ps1 d1] c2 Hstep _ IH]; intros ps d ns HF ->.
  - injection Ec' as <- <-. by exists ns.
  - assert (exists ns1, Forall2 owes ns1 ps1 /\ (measure d1 + owed ns1 = measure d + owed ns)%Z) as (ns1 & H1 & E1).
    { inversion Hstep; subst; apply Forall2_app_inv_r in HF as (na & nb & Ha & Hb & ->);
        apply Forall2_cons_inv_r in Hb as (n & nb' & Hp & Hb & ->); simpl in Hp; destruct_and?; eexists (na ++ _ :: nb');
        (split; [apply Forall2_app; [done|]; constructor; [eauto|done]|]); rewrite !owed_app; simpl; lia. }
    destruct (IH Ec' ps1 d1 ns1 H1 eq_refl) as (ns2 & H2 & E2). exists ns2. split; [done|]. lia.
Qed.

End Accounts.

End Combinators.

(** ** A part of a larger state

    [zoom get put p] runs [p] on the component [get] of a state. *)
Section Zoom.
Context {D S E : Type} (get : S -> D) (put : D -> S -> S).

Fixpoint zoom {A} (p : prog D E A) : prog S E A :=
  match p with
  | Done r => Done r
  | Stmt upd next fail => Stmt (fun s => put (upd (get s)) s) (fun s => zoom (next (get s))) (zoom fail)
  | Act upd next => Act (fun s => put (upd (get s)) s) (fun s => zoom (next (get s)))
  end.

Context (get_put : forall d s, get (put d s) = d) (put_get : forall s, put (get s) s = s)
  (put_put : forall d d' s, put d (put d' s) = put d s).

Lemma run_zoom {A} (p : prog D E A) fs s :
  run (zoom p) fs s = let '(r, d, fs') := run p fs (get s) in (r, put d s, fs').
Proof using get_put put_get put_put.
  revert fs s. induction p as [r|upd next IH fail IHf|upd next IH]; intros fs s; simpl.
  - by rewrite put_get.
  - destruct fs as [|[] fs]; rewrite ?IH, ?IHf, ?get_put; [|done|].
    all: by destruct (run (next _) _ _) as [[r d] fs']; rewrite put_put.
  - rewrite IH, get_put. by destruct (run (next _) _ _) as [[r d] fs']; rewrite put_put.
Qed.

Lemma steps_in_zoom {A} (R : D -> D -> Prop) (R' : S -> S -> Prop) (p : prog D E A) :
  (forall s d, R (get s) d -> R' s (put d s)) -> steps_in R p -> steps_in R' (zoom p).
Proof using Type. intros HR. induction p; simpl; intros; destruct_and?; split_and?; auto. Qed.

End Zoom.

(** A handler whose exceptions are seen as another type of exception. *)
Section Rethrow.
Context {D E E' : Type} (f : E -> E').

Fixpoint rethrow {A} (p : prog D E A) : prog D E' A :=
  match p with
  | Done (Ok a) => Done (Ok a)
  | Done (Err e) => Done (Err (f e))
  | Stmt upd next fail => Stmt upd (fun d => rethrow (next d)) (rethrow fail)
  | Act upd next => Act upd (fun d => rethrow (next d))
  end.

Lemma run_rethrow {A} (p : prog D E A) fs d :
  run (rethrow p) fs d =
  let '(r, d', fs') := run p fs d in ((match r with Ok a => Ok a | Err e => Err (f e) end), d', fs').
Proof.
  revert fs d. induction p as [[a|e]|upd next IH fail IHf|upd next IH]; intros fs d; simpl; auto.
  destruct fs as [|[] fs]; auto.
Qed.

Lemma steps_in_rethrow {A} R (p : prog D E A) : steps_in R p -> steps_in R (rethrow p).
Proof. induction p as [[a|e]|upd next IH fail IHf|upd next IH]; simpl; intros; destruct_and?; split_and?; auto. Qed.

Lemma preserves_rethrow {A} I (p : prog D E A) : preserves I p -> preserves I (rethrow p).
Proof.
  induction p as [[a|e]|upd next IH fail IHf|upd next IH]; simpl; intros Hp; auto.
  - destruct Hp as [Hn Hf]. split; [|auto]. intros d Hd. destruct (Hn d Hd). auto.
  - intros d Hd. destruct (Hp d Hd). auto.
Qed.

End Rethrow.

(** [try: p finally: c]. *)
Definition finally {D E} (p c : prog D E unit) : prog D E unit :=
  bind (try_ p (fun e => bind c (fun _ => raise e))) (fun _ => c).

Notation "x <- p ;; k" := (bind p (fun x => k))
  (at level 100, p at next level, right associativity) : py_scope.
Notation "p ;;; k" := (bind p (fun _ => k)) (at level 100, right associativity) : py_scope.

#[export] Hint Resolve steps_in_bind steps_in_try steps_in_query steps_in_ret : py.
