(* ===== verification/Db.v ===== *)
(** * Db: the shared PostgreSQL schema

    The tables of infra/migrations that the services read and write, as lists of
    row records in insertion order.  A primary key generated by
    [gen_random_uuid()] is the next unused number.  [db_now] is what [now()]
    returns, in nanoseconds since the epoch.  The NATS effects of a handler (acked messages, published payloads)
    are recorded beside the tables.  JSON documents are Python values with
    binary64 floats. *)

From Stdlib Require Import ZArith SpecFloat Sorting.Sorted.
From S2P Require Import Prelude Text PyFloat PyVal Prog.
Open Scope Z_scope.

Abbreviation json := (pyval spec_float).

Record user := mk_user { user_id : nat; user_email : string; user_hash : string; user_role : bool;
  user_created : Z }.

Record license := mk_license {
  lic_id : nat; lic_user : nat; lic_key : string; lic_hmac : string;
  lic_pending : option string; lic_active : bool; lic_created : Z }.

Record instance := mk_instance {
  inst_id : nat; inst_license : nat; inst_key : string; inst_platform : string;
  inst_active : bool; inst_created : Z }.

(** [received_at] is kept in the nanoseconds of the message. *)
Record accepted := mk_accepted {
  acc_id : nat; acc_received : N; acc_license : nat; acc_instance : option nat;
  acc_trace : string; acc_region : string; acc_command : string; acc_symbol : string;
  acc_payload : json; acc_raw : option bytes }.

Record fill := mk_fill {
  fill_id : nat; fill_signal : option nat; fill_license : nat; fill_instance : option nat;
  fill_trace : string; fill_status : string; fill_order : option string;
  fill_error_code : option string; fill_error : option string; fill_payload : json;
  fill_created : Z }.

Record dead_letter := mk_dead {
  dead_subject : string; dead_reason : string; dead_detail : string; dead_payload : bytes }.

Record session := mk_session {
  ses_id : nat; ses_license : nat; ses_instance : nat; ses_account : string; ses_broker : string;
  ses_type : string; ses_platform : string; ses_version : string; ses_region : string;
  ses_connected : Z; ses_disconnected : option Z }.

Record rejection := mk_rejection {
  rej_license : string; rej_reason : string; rej_region : string; rej_hash : string }.

Record request_row := mk_request {
  req_id : string; req_trace : string; req_service : string; req_route : string;
  req_method : string; req_ip : option string; req_license : option string; req_status : Z;
  req_outcome : string; req_reason : option string; req_latency : Z;
  req_sha : option string; req_agent : option string; req_detail : json;
  req_received : option string }.

Record audit_row := mk_audit {
  audit_id : nat; audit_actor : nat; audit_action : string; audit_reason : string;
  audit_before : option json; audit_after : option json; audit_created : Z }.

(** [signal_fingerprints]: the key and [received_at], the insertion time. *)
Record fingerprint := mk_fingerprint { fp_key : nat * string; fp_received : Z }.

Record system_event := mk_event {
  ev_trace : string; ev_type : string; ev_severity : string; ev_payload : json }.

Record task_row := mk_task {
  task_id : nat; task_type : string; task_status : string; task_payload : json;
  task_created : Z; task_updated : Z }.

Record report_row := mk_report {
  rep_id : nat; rep_type : string; rep_as_of : Z; rep_hash : string; rep_status : string;
  rep_payload : json; rep_created : Z }.

Record Db := mk_db {
  db_now : Z;
  db_next : nat;
  db_users : list user;
  db_licenses : list license;
  db_instances : list instance;
  db_fp_rows : list fingerprint;
  db_accepted : list accepted;
  db_fills : list fill;
  db_dead : list dead_letter;
  db_sessions : list session;
  db_rejections : list rejection;
  db_requests : list request_row;
  db_audit : list audit_row;
  db_events : list system_event;
  db_tasks : list task_row;
  db_reports : list report_row;
  db_acks : list nat;
  db_published : list (string * bytes) }.

Definition empty_db : Db := mk_db 0 1 [] [] [] [] [] [] [] [] [] [] [] [] [] [] [] [].

(** The keys present, on which the primary key constraint is. *)
Definition db_fingerprints (d : Db) : list (nat * string) := map fp_key (db_fp_rows d).

(** ** Field updates *)

Definition on_now (f : Z -> Z) (d : Db) : Db :=
  mk_db (f (db_now d)) (db_next d) (db_users d) (db_licenses d) (db_instances d) (db_fp_rows d)
    (db_accepted d) (db_fills d) (db_dead d) (db_sessions d) (db_rejections d) (db_requests d)
    (db_audit d) (db_events d) (db_tasks d) (db_reports d) (db_acks d) (db_published d).

Definition on_next (f : nat -> nat) (d : Db) : Db :=
  mk_db (db_now d) (f (db_next d)) (db_users d) (db_licenses d) (db_instances d) (db_fp_rows d)
    (db_accepted d) (db_fills d) (db_dead d) (db_sessions d) (db_rejections d) (db_requests d)
    (db_audit d) (db_events d) (db_tasks d) (db_reports d) (db_acks d) (db_published d).

Definition on_users (f : list user -> list user) (d : Db) : Db :=
  mk_db (db_now d) (db_next d) (f (db_users d)) (db_licenses d) (db_instances d) (db_fp_rows d)
    (db_accepted d) (db_fills d) (db_dead d) (db_sessions d) (db_rejections d) (db_requests d)
    (db_audit d) (db_events d) (db_tasks d) (db_reports d) (db_acks d) (db_published d).

Definition on_licenses (f : list license -> list license) (d : Db) : Db :=
  mk_db (db_now d) (db_next d) (db_users d) (f (db_licenses d)) (db_instances d) (db_fp_rows d)
    (db_accepted d) (db_fills d) (db_dead d) (db_sessions d) (db_rejections d) (db_requests d)
    (db_audit d) (db_events d) (db_tasks d) (db_reports d) (db_acks d) (db_published d).

Definition on_instances (f : list instance -> list instance) (d : Db) : Db :=
  mk_db (db_now d) (db_next d) (db_users d) (db_licenses d) (f (db_instances d)) (db_fp_rows d)
    (db_accepted d) (db_fills d) (db_dead d) (db_sessions d) (db_rejections d) (db_requests d)
    (db_audit d) (db_events d) (db_tasks d) (db_reports d) (db_acks d) (db_published d).

Definition on_fingerprints (f : list fingerprint -> list fingerprint) (d : Db) : Db :=
  mk_db (db_now d) (db_next d) (db_users d) (db_licenses d) (db_instances d) (f (db_fp_rows d))
    (db_accepted d) (db_fills d) (db_dead d) (db_sessions d) (db_rejections d) (db_requests d)
    (db_audit d) (db_events d) (db_tasks d) (db_reports d) (db_acks d) (db_published d).

Definition on_accepted (f : list accepted -> list accepted) (d : Db) : Db :=
  mk_db (db_now d) (db_next d) (db_users d) (db_licenses d) (db_instances d) (db_fp_rows d) (f
    (db_accepted d)) (db_fills d) (db_dead d) (db_sessions d) (db_rejections d) (db_requests d)
    (db_audit d) (db_events d) (db_tasks d) (db_reports d) (db_acks d) (db_published d).

Definition on_fills (f : list fill -> list fill) (d : Db) : Db :=
  mk_db (db_now d) (db_next d) (db_users d) (db_licenses d) (db_instances d) (db_fp_rows d)
    (db_accepted d) (f (db_fills d)) (db_dead d) (db_sessions d) (db_rejections d) (db_requests
    d) (db_audit d) (db_events d) (db_tasks d) (db_reports d) (db_acks d) (db_published d).

Definition on_dead (f : list dead_letter -> list dead_letter) (d : Db) : Db :=
  mk_db (db_now d) (db_next d) (db_users d) (db_licenses d) (db_instances d) (db_fp_rows d)
    (db_accepted d) (db_fills d) (f (db_dead d)) (db_sessions d) (db_rejections d) (db_requests
    d) (db_audit d) (db_events d) (db_tasks d) (db_reports d) (db_acks d) (db_published d).

Definition on_sessions (f : list session -> list session) (d : Db) : Db :=
  mk_db (db_now d) (db_next d) (db_users d) (db_licenses d) (db_instances d) (db_fp_rows d)
    (db_accepted d) (db_fills d) (db_dead d) (f (db_sessions d)) (db_rejections d) (db_requests
    d) (db_audit d) (db_events d) (db_tasks d) (db_reports d) (db_acks d) (db_published d).

Definition on_rejections (f : list rejection -> list rejection) (d : Db) : Db :=
  mk_db (db_now d) (db_next d) (db_users d) (db_licenses d) (db_instances d) (db_fp_rows d)
    (db_accepted d) (db_fills d) (db_dead d) (db_sessions d) (f (db_rejections d)) (db_requests
    d) (db_audit d) (db_events d) (db_tasks d) (db_reports d) (db_acks d) (db_published d).

Definition on_requests (f : list request_row -> list request_row) (d : Db) : Db :=
  mk_db (db_now d) (db_next d) (db_users d) (db_licenses d) (db_instances d) (db_fp_rows d)
    (db_accepted d) (db_fills d) (db_dead d) (db_sessions d) (db_rejections d) (f (db_requests
    d)) (db_audit d) (db_events d) (db_tasks d) (db_reports d) (db_acks d) (db_published d).

Definition on_audit (f : list audit_row -> list audit_row) (d : Db) : Db :=
  mk_db (db_now d) (db_next d) (db_users d) (db_licenses d) (db_instances d) (db_fp_rows d)
    (db_accepted d) (db_fills d) (db_dead d) (db_sessions d) (db_rejections d) (db_requests d)
    (f (db_audit d)) (db_events d) (db_tasks d) (db_reports d) (db_acks d) (db_published d).

Definition on_events (f : list system_event -> list system_event) (d : Db) : Db :=
  mk_db (db_now d) (db_next d) (db_users d) (db_licenses d) (db_instances d) (db_fp_rows d)
    (db_accepted d) (db_fills d) (db_dead d) (db_sessions d) (db_rejections d) (db_requests d)
    (db_audit d) (f (db_events d)) (db_tasks d) (db_reports d) (db_acks d) (db_published d).

Definition on_tasks (f : list task_row -> list task_row) (d : Db) : Db :=
  mk_db (db_now d) (db_next d) (db_users d) (db_licenses d) (db_instances d) (db_fp_rows d)
    (db_accepted d) (db_fills d) (db_dead d) (db_sessions d) (db_rejections d) (db_requests d)
    (db_audit d) (db_events d) (f (db_tasks d)) (db_reports d) (db_acks d) (db_published d).

Definition on_reports (f : list report_row -> list report_row) (d : Db) : Db :=
  mk_db (db_now d) (db_next d) (db_users d) (db_licenses d) (db_instances d) (db_fp_rows d)
    (db_accepted d) (db_fills d) (db_dead d) (db_sessions d) (db_rejections d) (db_requests d)
    (db_audit d) (db_events d) (db_tasks d) (f (db_reports d)) (db_acks d) (db_published d).

Definition on_acks (f : list nat -> list nat) (d : Db) : Db :=
  mk_db (db_now d) (db_next d) (db_users d) (db_licenses d) (db_instances d) (db_fp_rows d)
    (db_accepted d) (db_fills d) (db_dead d) (db_sessions d) (db_rejections d) (db_requests d)
    (db_audit d) (db_events d) (db_tasks d) (db_reports d) (f (db_acks d)) (db_published d).

Definition on_published (f : list (string * bytes) -> list (string * bytes)) (d : Db) : Db :=
  mk_db (db_now d) (db_next d) (db_users d) (db_licenses d) (db_instances d) (db_fp_rows d)
    (db_accepted d) (db_fills d) (db_dead d) (db_sessions d) (db_rejections d) (db_requests d)
    (db_audit d) (db_events d) (db_tasks d) (db_reports d) (db_acks d) (f (db_published d)).

(** ** Exceptions that reach a handler *)

Inductive exn :=
| DbError                                     (* connection, timeout, constraint *)
| DataError                                   (* a parameter of the wrong type *)
| UniqueViolation
| ValueError
| TypeError
| AckError                                    (* the broker did not take the ack *)
| ConnectionLost                              (* a client's connection, read or written *)
| HTTPException (status : Z) (detail : string).

(** A value bound to a [text] parameter must be a [str]. *)
Definition as_text {D} (v : json) : prog D exn string :=
  match v with PStr s => ret s | _ => raise DataError end.

(** The same for a nullable column. *)
Definition as_text_or_null {D} (v : json) : prog D exn (option string) :=
  match v with PNone => ret None | PStr s => ret (Some s) | _ => raise DataError end.

(** Append a row that carries a generated key. *)
Definition take_id (d : Db) : Db := on_next S d.

(** [LIMIT 1] without [ORDER BY]: the first matching row in table order. *)
Definition first_where {A} (p : A -> bool) (l : list A) : option A := List.find p l.

Lemma first_where_Some {A} (p : A -> bool) l x :
  first_where p l = Some x -> x ∈ l /\ p x = true.
Proof.
  intros H. split; [|exact (proj2 (List.find_some _ _ H))].
  apply list_elem_of_In. exact (proj1 (List.find_some _ _ H)).
Qed.

(** ** [ORDER BY] *)

Section Sorting.
(** [before a b]: [a] comes strictly before [b]. *)
Context {A : Type} (before : A -> A -> bool).

Fixpoint insert_sorted (x : A) (l : list A) : list A :=
  match l with
  | [] => [x]
  | y :: l' => if before y x then y :: insert_sorted x l' else x :: l
  end.

(** Stable: rows that compare equal keep their order. *)
Definition sort_by (l : list A) : list A := fold_right insert_sorted [] l.

Lemma elem_insert_sorted x y l : y ∈ insert_sorted x l <-> y = x \/ y ∈ l.
Proof.
  induction l as [|z l IH]; simpl.
  - rewrite list_elem_of_singleton. split; [by left|]. intros [?|H]; [done|]. by apply not_elem_of_nil in H.
  - destruct (before z x); rewrite ?elem_of_cons, ?IH; tauto.
Qed.

Lemma elem_sort_by y l : y ∈ sort_by l <-> y ∈ l.
Proof.
  induction l as [|x l IH]; simpl; [done|]. by rewrite elem_insert_sorted, IH, elem_of_cons.
Qed.
End Sorting.

(** ** Counting rows *)

Lemma filter_submseteq_length {A} (p : A -> bool) l k :
  l ⊆+ k -> (length (List.filter p l) <= length (List.filter p k))%nat.
Proof.
  induction 1; simpl; repeat case_scrutinee; simpl; try lia.
Qed.

Lemma filter_all {A} (p : A -> bool) l : (forall x, x ∈ l -> p x = true) -> List.filter p l = l.
Proof.
  induction l as [|x l IH]; intros H; [done|]. simpl. rewrite H by left.
  by rewrite IH by (intros y Hy; apply H; by right).
Qed.

(** Rows [l] taken from the table [k] that satisfy [p] are at most those of [k]. *)
Lemma selected_length {A} (p : A -> bool) l k :
  l ⊆+ k -> (forall x, x ∈ l -> p x = true) -> (length l <= length (List.filter p k))%nat.
Proof.
  intros Hs Hp. rewrite <- (filter_all p l) at 1 by done. by apply filter_submseteq_length.
Qed.

Lemma filter_split_length {A} (p q : A -> bool) l :
  (length (List.filter (fun x => p x && q x) l) + length (List.filter (fun x => p x && negb (q x)) l)
   = length (List.filter p l))%nat.
Proof.
  induction l as [|x l IH]; [done|]. simpl. destruct (p x), (q x); simpl; lia.
Qed.

Lemma filter_length_mono {A} (p q : A -> bool) l :
  (forall x, x ∈ l -> p x = true -> q x = true) ->
  (length (List.filter p l) <= length (List.filter q l))%nat.
Proof.
  induction l as [|x l IH]; intros H; [done|]. simpl.
  assert (forall y, y ∈ l -> p y = true -> q y = true) as H' by (intros y Hy; apply H; by right).
  specialize (IH H'). specialize (H x (list_elem_of_here _ _)).
  destruct (p x); [rewrite H by done; simpl; lia|]. destruct (q x); simpl; lia.
Qed.

Lemma filter_submseteq {A} (p : A -> bool) l : List.filter p l ⊆+ l.
Proof. induction l as [|x l IH]; simpl; [done|]. destruct (p x); by constructor. Qed.

Lemma take_submseteq {A} n (l : list A) : take n l ⊆+ l.
Proof. rewrite <- (take_drop n l) at 2. by apply submseteq_inserts_r. Qed.

Lemma insert_sorted_perm {A} (before : A -> A -> bool) x l : insert_sorted before x l ≡ₚ x :: l.
Proof.
  induction l as [|y l IH]; simpl; [done|]. destruct (before y x); [|done].
  rewrite IH. by apply Permutation_swap.
Qed.

Lemma sort_by_perm {A} (before : A -> A -> bool) l : sort_by before l ≡ₚ l.
Proof. induction l as [|x l IH]; simpl; [done|]. by rewrite insert_sorted_perm, IH. Qed.

Lemma sort_by_sorted {A} (before : A -> A -> bool) (le : A -> A -> Prop) l :
  (forall x y z, le x y -> le y z -> le x z) ->
  (forall x y, if before x y then le x y else le y x) ->
  StronglySorted le (sort_by before l).
Proof.
  intros Ht Hb. induction l as [|x l IH]; simpl; [constructor|].
  induction IH as [|y l' Hs IHs Hf]; simpl; [repeat constructor|].
  pose proof (Hb y x) as Hyx. destruct (before y x).
  - constructor; [done|]. rewrite insert_sorted_perm. by constructor.
  - constructor; [by constructor|]. constructor; [done|]. eapply Forall_impl; [|exact Hf]. simpl. eauto.
Qed.

Lemma sort_by_key {A} (key : A -> Z) l :
  StronglySorted (fun a b => key a <= key b) (sort_by (fun a b => key a <? key b) l).
Proof. apply sort_by_sorted; [lia|]. intros x y. destruct (Z.ltb_spec (key x) (key y)); lia. Qed.

(** A row cut off by [LIMIT n] comes after the [n] rows returned. *)
Lemma sorted_cut {A} (key : A -> Z) l n x :
  StronglySorted (fun a b => key a <= key b) l -> x ∈ l -> x ∉ take n l ->
  length (take n l) = n /\ forall y, y ∈ take n l -> key y <= key x.
Proof.
  intros Hs. revert n. induction Hs as [|y l Hs IH Hf]; intros n Hx Hn; [by apply not_elem_of_nil in Hx|].
  destruct n as [|n]; [split; [done|]; intros z Hz; by apply not_elem_of_nil in Hz|].
  simpl in *. apply not_elem_of_cons in Hn as [Hne Hn]. apply elem_of_cons in Hx as [->|Hx]; [done|].
  destruct (IH n Hx Hn) as [Hl Hk]. split; [lia|]. intros z [->|Hz]%elem_of_cons; [|auto].
  exact (proj1 (list.Forall_forall _ _) Hf x Hx).
Qed.
