(* ===== verification/Persist.v ===== *)
(** * Persist: the NATS-to-PostgreSQL worker

    apps/persist/app.py: [deadletter], [persist_signal], [persist_fill], the
    message handlers [on_signal], [on_fill], [on_event] with their event writers,
    the readiness state and the health endpoint.  Each handler is a [prog]: one
    statement per SQL call, [acquire] for [pool.acquire()], and [ack] for
    [msg.ack()], which may raise like any other.  [json.loads] and [str()] of a
    value that is not text are arguments. *)

From Stdlib Require Import ZArith SpecFloat Ascii.
From S2P Require Import Prelude Text PyFloat PyVal Wire Prog Db.
Open Scope Z_scope.

Record message := mk_message { msg_id : nat; msg_subject : string; msg_data : bytes }.

(** ** Text of the parse errors *)

Definition show (n : N) : string := pretty n.

Definition proto_error_text (e : proto_error) : string :=
  match e with
  | EmptyPayload => "empty payload"
  | TruncatedAt pos => "truncated at pos " +:+ show pos
  | TruncatedVarint f => "truncated varint for field " +:+ show f
  | TruncatedLength f => "truncated length for field " +:+ show f
  | OverrunsPayload f l => "field " +:+ show f +:+ " length " +:+ show l +:+ " overruns payload"
  | NotUtf8 f => "field " +:+ show f +:+ " not valid utf-8"
  | NestedTruncatedTag => "truncated nested param tag"
  | NestedTruncatedLength => "truncated nested param length"
  | NestedOverruns => "nested param overruns"
  | NestedNotUtf8 => "nested param not utf-8"
  | NestedWireType wt => "unknown nested wire type " +:+ show wt
  | UnknownWireType wt => "unknown wire type " +:+ show wt
  | MissingRequired fields => "missing required fields: " +:+ join "," fields
  | OutOfFuel => ""
  end%string.

(** ** Statements *)

Definition acquire : prog Db exn unit := query DbError (fun _ => tt).

Definition find_active_license (key : string) (d : Db) : option license :=
  first_where (fun l => bool_decide (lic_key l = key) && lic_active l) (db_licenses d).

(** [INSERT ... ON CONFLICT DO NOTHING RETURNING TRUE]. *)
Definition insert_fingerprint (lid : nat) (sha : string) (d : Db) : bool * Db :=
  if existsb (fun f => bool_decide (f = (lid, sha))) (db_fingerprints d) then (false, d)
  else (true, on_fingerprints (fun l => l ++ [mk_fingerprint (lid, sha) (db_now d)]) d).

Definition find_instance (lid : nat) (key : string) (d : Db) : option instance :=
  first_where (fun i => bool_decide (inst_license i = lid) && bool_decide (inst_key i = key))
              (db_instances d).

(** The generated primary key never conflicts. *)
Definition insert_accepted (row : nat -> accepted) (d : Db) : Db :=
  take_id (on_accepted (fun l => l ++ [row (db_next d)]) d).

(** [instances i JOIN licenses l] for an active license, first match. *)
Fixpoint join_active (key : string) (ls : list license) (insts : list instance)
  : option (license * instance) :=
  match insts with
  | [] => None
  | i :: insts' =>
      match (if bool_decide (inst_key i = key)
             then first_where (fun l => bool_decide (lic_id l = inst_license i) && lic_active l) ls
             else None) with
      | Some l => Some (l, i)
      | None => join_active key ls insts'
      end
  end.

Definition insert_fill (row : nat -> Z -> fill) (d : Db) : Db :=
  take_id (on_fills (fun l => l ++ [row (db_next d) (db_now d)]) d).

Definition insert_dead (row : dead_letter) (d : Db) : Db := on_dead (fun l => l ++ [row]) d.

(** ** Dead letters *)

(** A failed insert is logged and swallowed. *)
Definition deadletter (pool : bool) (subject : string) (raw : bytes) (reason err : string)
  : prog Db exn unit :=
  if negb pool then ret tt
  else try_ (acquire ;;;
             exec DbError (insert_dead (mk_dead subject reason (str_take 2000 err) raw)))
            (fun _ => ret tt).

(** ** Signals *)

Definition opt_json (o : option string) : json :=
  match o with Some s => PStr s | None => PNone end.

Definition param_json (p : param) : json :=
  PDict (match p_key p with Some k => [("key"%string, PStr k)] | None => [] end ++
         match p_value p with Some v => [("value"%string, PStr v)] | None => [] end).

Definition signal_payload_json (sig : signal) : json :=
  PDict [("raw_command"%string, opt_json (raw_command sig));
         ("params"%string, PList (map param_json (params sig)))].

Definition get_str (o : option string) : string := default ""%string o.

Definition accepted_row (sig : signal) (raw : bytes) (lid : nat) (inst : option instance) (id : nat)
  : accepted :=
  mk_accepted id (default 0%N (received_unix_nano sig)) lid (inst_id <$> inst)
    (get_str (trace_id sig)) (get_str (ingress_region sig)) (get_str (command sig))
    (get_str (symbol sig)) (signal_payload_json sig) (Some raw).

(** The fingerprint is inserted first; an existing one means a duplicate. *)
Definition claim_fingerprint (lid : nat) (sha : string) : prog Db exn bool :=
  if bool_decide (sha = ""%string) then ret true
  else stmt DbError (insert_fingerprint lid sha).

(** [$1::bigint]. *)
Definition bigint (n : N) : prog Db exn unit :=
  if (n <? 2 ^ 63)%N then ret tt else raise DataError.

Definition store_accepted (sig : signal) (raw : bytes) (lid : nat) : prog Db exn unit :=
  inst <- query DbError (find_instance lid (get_str (instance_id sig))) ;;
  bigint (default 0%N (received_unix_nano sig)) ;;;
  exec DbError (insert_accepted (accepted_row sig raw lid inst)).

Definition persist_signal (sig : signal) (raw : bytes) : prog Db exn unit :=
  acquire ;;;
  lic <- query DbError (find_active_license (get_str (license_id sig))) ;;
  match lic with
  | None => ret tt
  | Some l =>
      inserted <- claim_fingerprint (lic_id l) (get_str (body_sha256 sig)) ;;
      if negb inserted then ret tt else store_accepted sig raw (lic_id l)
  end.

(** Outside the [try] that guards the writer: a failure escapes the handler. *)
Definition ack (msg : message) : prog Db exn unit := exec AckError (on_acks (fun l => l ++ [msg_id msg])).

(** The failure of the writer is logged; the message is acked either way. *)
Definition persist_then_ack (pool : bool) (msg : message) (p : prog Db exn unit) : prog Db exn unit :=
  (if pool then try_ p (fun _ => ret tt) else ret tt) ;;; ack msg.

Definition on_signal (pool : bool) (msg : message) : prog Db exn unit :=
  match parse_signal (msg_data msg) with
  | Err e =>
      deadletter pool (msg_subject msg) (msg_data msg) "parse_error" (proto_error_text e) ;;;
      ack msg
  | Ok sig => persist_then_ack pool msg (persist_signal sig (msg_data msg))
  end.

(** ** Fills and events *)

Section Json.
(** [json.loads], with the [repr] of the exception it raises, and [str(v)] of a
    float or a container. *)
Context (json_loads : bytes -> result string json) (str_other : json -> string).

Definition py_str (v : json) : string :=
  match v with
  | PStr s => s
  | PInt z => pretty z
  | PBool b => if b then "True" else "False"
  | PNone => "None"
  | _ => str_other v
  end.

(** A JSON object, or the text of the error. *)
Definition load_object (what : string) (data : bytes) : result string (pydict spec_float) :=
  let! v := json_loads data in
  match v with
  | PDict o => Ok o
  | _ => Err ("ValueError('" +:+ what +:+ " payload must be a JSON object')")%string
  end.

Definition persist_fill (f : pydict spec_float) : prog Db exn unit :=
  acquire ;;;
  key <- as_text (get_or f "instance_id" (PStr "")) ;;
  row <- query DbError (fun d => join_active key (db_licenses d) (db_instances d)) ;;
  match row with
  | None => ret tt
  | Some (l, _) =>
      trace <- as_text (get_or f "trace_id" (PStr "")) ;;
      status <- as_text (get_or f "status" (PStr "")) ;;
      order <- as_text_or_null (py_or (get f "broker_order_id") PNone) ;;
      code <- as_text_or_null (py_or (get f "error_code") PNone) ;;
      errmsg <- as_text_or_null (py_or (get f "error_message") PNone) ;;
      exec DbError (insert_fill (fun id now =>
        mk_fill id None (lic_id l) None trace status order code errmsg (PDict f) now))
  end.

Definition on_fill (pool : bool) (msg : message) : prog Db exn unit :=
  let parts := split "."%char (msg_subject msg) in
  let instance := default ""%string (parts !! 1%nat) in
  match load_object "fill" (msg_data msg) with
  | Err e => deadletter pool (msg_subject msg) (msg_data msg) "invalid_json" e ;;; ack msg
  | Ok o => persist_then_ack pool msg (persist_fill (dict_set o "instance_id" (PStr instance)))
  end.

Definition detail_keys : list string :=
  ["request_id"; "trace_id"; "license_key"; "method"; "path"; "client_ip"; "status"; "outcome";
   "reason_code"; "latency_ms"; "body_sha256"; "user_agent"; "received_at"; "region"; "service"]%string.

(** [str(evt.get(k, "") or "")]. *)
Definition text_of (evt : pydict spec_float) (k : string) : string :=
  py_str (py_or (get_or evt k (PStr "")) (PStr "")).

Definition or_null (s : string) : option string :=
  if bool_decide (s = ""%string) then None else Some s.

(** [int(evt.get(k) or 0)]. *)
Definition int_of (evt : pydict spec_float) (k : string) : prog Db exn Z :=
  match to_int (py_or (get evt k) (PInt 0)) with Some z => ret z | None => raise ValueError end.

Definition _persist_request_log (evt : pydict spec_float) : prog Db exn unit :=
  let detail := List.filter (fun kv => negb (existsb (fun k => bool_decide (k = kv.1)) detail_keys)) evt in
  acquire ;;;
  status <- int_of evt "status" ;;
  latency <- int_of evt "latency_ms" ;;
  received_at <- as_text_or_null (py_or (get evt "received_at") PNone) ;;
  exec DbError (on_requests (fun l => l ++ [mk_request
    (text_of evt "request_id") (text_of evt "trace_id")
    (str_take 32 (text_of evt "service")) (str_take 128 (text_of evt "path"))
    (str_take 8 (text_of evt "method")) (or_null (text_of evt "client_ip"))
    (or_null (str_take 64 (text_of evt "license_key"))) status
    (str_take 32 (text_of evt "outcome")) (or_null (str_take 64 (text_of evt "reason_code"))) latency
    (or_null (str_take 64 (text_of evt "body_sha256"))) (or_null (str_take 256 (text_of evt "user_agent")))
    (PDict detail) received_at])).

Definition _persist_ea_connected (evt : pydict spec_float) : prog Db exn unit :=
  acquire ;;;
  key <- as_text (get_or evt "instance_id" (PStr "")) ;;
  row <- query DbError (fun d => join_active key (db_licenses d) (db_instances d)) ;;
  match row with
  | None => ret tt
  | Some (l, i) =>
      account <- as_text (get_or evt "account_number" (PStr "")) ;;
      broker <- as_text (get_or evt "broker" (PStr "")) ;;
      platform <- as_text (get_or evt "platform" (PStr "")) ;;
      version <- as_text (get_or evt "ea_version" (PStr "")) ;;
      region <- as_text (get_or evt "bridge_region" (PStr "")) ;;
      exec DbError (fun d => take_id (on_sessions (fun l' => l' ++
        [mk_session (db_next d) (lic_id l) (inst_id i) account broker "live" platform version region
           (db_now d) None]) d))
  end.

(** [WHERE instance_id = $1 AND disconnected_at IS NULL]. *)
Definition open_for (iid : nat) (s : session) : bool :=
  bool_decide (ses_instance s = iid) && bool_decide (ses_disconnected s = None).

(** [ORDER BY connected_at DESC LIMIT 1]. *)
Fixpoint latest (l : list session) : option session :=
  match l with
  | [] => None
  | s :: l' =>
      match latest l' with
      | Some s' => if ses_connected s <? ses_connected s' then Some s' else Some s
      | None => Some s
      end
  end.

Definition disconnect (now : Z) (s : session) : session :=
  mk_session (ses_id s) (ses_license s) (ses_instance s) (ses_account s) (ses_broker s) (ses_type s)
    (ses_platform s) (ses_version s) (ses_region s) (ses_connected s) (Some now).

Definition close_latest (iid : nat) (now : Z) (l : list session) : list session :=
  match latest (List.filter (open_for iid) l) with
  | None => l
  | Some s => map (fun s' => if bool_decide (ses_id s' = ses_id s) then disconnect now s' else s') l
  end.

Definition _persist_ea_disconnected (evt : pydict spec_float) : prog Db exn unit :=
  acquire ;;;
  key <- as_text (get_or evt "instance_id" (PStr "")) ;;
  inst <- query DbError (fun d => first_where (fun i => bool_decide (inst_key i = key)) (db_instances d)) ;;
  match inst with
  | None => ret tt
  | Some i => exec DbError (fun d => on_sessions (close_latest (inst_id i) (db_now d)) d)
  end.

Definition _persist_rejection (evt : pydict spec_float) : prog Db exn unit :=
  acquire ;;;
  lid <- as_text (get_or evt "license_id" (PStr "")) ;;
  why <- as_text (get_or evt "reason_code" (PStr "")) ;;
  region <- as_text (get_or evt "region" (PStr "")) ;;
  hash <- as_text (get_or evt "payload_hash" (PStr "")) ;;
  exec DbError (on_rejections (fun l => l ++ [mk_rejection lid why region hash])).

Definition persist_event (subject : string) (evt : pydict spec_float) : prog Db exn unit :=
  if bool_decide (subject = "events.ea.connected"%string) then _persist_ea_connected evt
  else if bool_decide (subject = "events.ea.disconnected"%string) then _persist_ea_disconnected evt
  else if bool_decide (subject = "events.ingress.rejection"%string) then _persist_rejection evt
  else if bool_decide (subject = "events.ingress.request"%string) then _persist_request_log evt
  else ret tt.

Definition on_event (pool : bool) (msg : message) : prog Db exn unit :=
  match load_object "event" (msg_data msg) with
  | Err e => deadletter pool (msg_subject msg) (msg_data msg) "invalid_json" e ;;; ack msg
  | Ok evt => persist_then_ack pool msg (persist_event (msg_subject msg) evt)
  end.

End Json.

(** ** Readiness and health *)

Record readiness := mk_readiness { db_ok : bool; db_err : string; nats_ok : bool; nats_err : string }.

Definition _readiness0 : readiness := mk_readiness false "not initialized" false "not initialized".

(** Outcome of the [SELECT 1] probe: [None] without a pool, the error text
    otherwise. *)
Definition _probe_db (probe : option (result string unit)) (r : readiness) : readiness :=
  match probe with
  | None => mk_readiness false "pool not initialized" (nats_ok r) (nats_err r)
  | Some (Ok _) => mk_readiness true "" (nats_ok r) (nats_err r)
  | Some (Err e) => mk_readiness false (str_take 200 e) (nats_ok r) (nats_err r)
  end.

Definition _readiness_step (probe : option (result string unit)) (connected : bool) (r : readiness)
  : readiness :=
  let r := _probe_db probe r in
  mk_readiness (db_ok r) (db_err r) connected (if connected then "" else "disconnected").

(** Status of a GET; [None] is the metrics page. *)
Definition do_GET (path : string) (r : readiness) : option Z :=
  if bool_decide (path = "/health"%string) || bool_decide (path = "/healthz"%string) then Some 200
  else if bool_decide (path = "/readyz"%string) then Some (if db_ok r && nats_ok r then 200 else 503)
  else if bool_decide (path = "/metrics"%string) then None
  else Some 404.

(** Start-up refuses the development defaults in production. *)
Definition persist_config_errors (is_prod : bool) (dsn nats dev_dsn dev_nats : string) : list string :=
  if is_prod then
    (if bool_decide (dsn = dev_dsn) then ["DATABASE_URL required in prod (refusing dev default)"%string] else []) ++
    (if bool_decide (nats = dev_nats) then ["NATS_URL required in prod (refusing dev default)"%string] else [])
  else [].

(** ** Effects of the writers *)

(** Frame: a writer never acks nor publishes. *)
Definition same_acks (d d' : Db) : Prop := db_acks d' = db_acks d /\ db_published d' = db_published d.

Lemma same_acks_refl : reflexive Db same_acks.
Proof. by split. Qed.
Lemma same_acks_trans : transitive Db same_acks.
Proof. intros d1 d2 d3 [] []. split; congruence. Qed.

(** The tables that decide whether a signal is a duplicate. *)
Definition same_signals (d d' : Db) : Prop :=
  db_fingerprints d' = db_fingerprints d /\ db_accepted d' = db_accepted d.

Lemma steps_in_exec {D E} (R : D -> D -> Prop) (e : E) f :
  (forall d, R d (f d)) -> steps_in R (exec e f).
Proof. intros H. repeat split. exact H. Qed.

Lemma steps_in_stmt {D E A} (R : D -> D -> Prop) (e : E) (f : D -> A * D) :
  (forall d, R d (f d).2) -> steps_in R (stmt e f).
Proof. intros H. repeat split. exact H. Qed.

(** Walk through a writer: every leaf is a query, a pure check or an update. *)
Ltac steps_in_auto :=
  repeat first
    [ apply steps_in_bind; [|intros]
    | apply steps_in_try; [|intros]
    | apply steps_in_query; by split
    | apply steps_in_exec; by split
    | apply steps_in_ret
    | match goal with |- steps_in _ (match ?x with _ => _ end) => destruct x end
    | done ].

Lemma deadletter_acks pool subject raw reason err : steps_in same_acks (deadletter pool subject raw reason err).
Proof. unfold deadletter, acquire. steps_in_auto. Qed.

Lemma insert_fingerprint_acks lid sha d : same_acks d (insert_fingerprint lid sha d).2.
Proof. unfold insert_fingerprint. by destruct (existsb _ _). Qed.

Lemma persist_signal_acks sig raw : steps_in same_acks (persist_signal sig raw).
Proof.
  unfold persist_signal, acquire, claim_fingerprint, store_accepted, bigint. steps_in_auto.
  apply steps_in_stmt. apply insert_fingerprint_acks.
Qed.

Lemma persist_fill_acks f : steps_in same_acks (persist_fill f).
Proof. unfold persist_fill, acquire, as_text, as_text_or_null. steps_in_auto. Qed.

Lemma persist_event_acks so subject evt : steps_in same_acks (persist_event so subject evt).
Proof.
  unfold persist_event, _persist_ea_connected, _persist_ea_disconnected, _persist_rejection,
    _persist_request_log, acquire, as_text, as_text_or_null, int_of. steps_in_auto.
Qed.

(** ** Every message is acked once, or its ack failed *)

(** The handler publishes nothing and ends in one of two ways: it completes with
    one ack added, or the ack itself was refused, and that exception, the only one
    that can escape, ends the handler without an ack. *)
Definition acks_once (msg : message) (p : prog Db exn unit) : Prop :=
  forall faults d,
    let d' := run_state p faults d in
    db_published d' = db_published d /\
    ((run_result p faults d = Ok tt /\ db_acks d' = db_acks d ++ [msg_id msg]) \/
     (run_result p faults d = Err AckError /\ db_acks d' = db_acks d)).

Lemma swallow_then_ack msg p :
  steps_in same_acks p -> (forall fs d, run_result p fs d = Ok tt) -> acks_once msg (p ;;; ack msg).
Proof.
  intros Hs Hr fs d. unfold run_result, run_state. rewrite run_bind.
  specialize (Hr fs d). pose proof (run_steps_in _ p fs d same_acks_refl same_acks_trans Hs) as HA.
  unfold run_result, run_state in *. destruct (run p fs d) as [[r d'] fs']. simpl in *. subst r.
  destruct HA as [E1 E2]. destruct fs' as [|[] fs']; simpl; rewrite ?E1, ?E2; auto.
Qed.

Lemma try_completes (p : prog Db exn unit) fs d : run_result (try_ p (fun _ => ret tt)) fs d = Ok tt.
Proof. unfold run_result. rewrite run_try. by destruct (run p fs d) as [[[[]|] ?] ?]. Qed.

Lemma persist_then_ack_once pool msg p : steps_in same_acks p -> acks_once msg (persist_then_ack pool msg p).
Proof.
  intros Hs. apply swallow_then_ack; destruct pool; try done.
  - apply steps_in_try; [done|by intros].
  - intros. apply try_completes.
Qed.

Lemma deadletter_then_ack_once pool msg subject raw reason err :
  acks_once msg (deadletter pool subject raw reason err ;;; ack msg).
Proof.
  apply swallow_then_ack; [apply deadletter_acks|].
  intros. unfold deadletter. destruct pool; [apply try_completes|done].
Qed.

(** C7: a message is acknowledged exactly once, or the acknowledgement itself
    failed.  Under every schedule of failures (pool, statements, ack), with or
    without a pool, and on any bytes, each of the three handlers terminates and
    publishes nothing; no exception of the parser, the pool or the database escapes;
    it ends with exactly one ack of its message, unless [msg.ack()] raised, and then
    it ends in that exception with no ack at all. *)
Theorem handlers_ack_once jl so pool msg :
  acks_once msg (on_signal pool msg) /\
  acks_once msg (on_fill jl pool msg) /\
  acks_once msg (on_event jl so pool msg).
Proof.
  split_and!.
  - unfold on_signal. destruct (parse_signal _); [|apply deadletter_then_ack_once].
    apply persist_then_ack_once, persist_signal_acks.
  - unfold on_fill. destruct (load_object _ _ _); [|apply deadletter_then_ack_once].
    apply persist_then_ack_once, persist_fill_acks.
  - unfold on_event. destruct (load_object _ _ _); [|apply deadletter_then_ack_once].
    apply persist_then_ack_once, persist_event_acks.
Qed.

(** ** At most one row per fingerprint, under any interleaving *)

(** The fingerprint a stored row stands for, from its raw message. *)
Definition row_sha (r : accepted) : string :=
  match acc_raw r with
  | Some raw => match parse_signal raw with Ok sig => get_str (body_sha256 sig) | Err _ => "" end
  | None => ""
  end.

Definition row_key (r : accepted) : nat * string := (acc_license r, row_sha r).

Definition rows_of (d : Db) (k : nat * string) : nat :=
  length (List.filter (fun r => bool_decide (row_key r = k)) (db_accepted d)).

(** What is left or used of a key: an unclaimed fingerprint, plus its rows.
    Keys without a fingerprint are not limited. *)
Definition key_supply (d : Db) (k : nat * string) : nat :=
  if bool_decide (k.2 = ""%string) then 0
  else (if bool_decide (k ∈ db_fingerprints d) then 0 else 1) + rows_of d k.

Lemma same_signals_supply d d' k : same_signals d d' -> key_supply d' k = key_supply d k.
Proof. intros [E1 E2]. unfold key_supply, rows_of. by rewrite E1, E2. Qed.

Lemma steps_same_signals {A} (p : prog Db exn A) :
  steps_in same_signals p -> conserving key_supply (fun _ => 0%nat) p.
Proof.
  intros H. apply steps_conserving. revert H.
  induction p as [r|upd next IH fail IHf|upd next IH]; simpl; [done| |].
  - intros (Hu & Hn & Hf). split_and!; auto. intros d k. by apply same_signals_supply.
  - intros (Hu & Hn). split_and!; auto. intros d k. by apply same_signals_supply.
Qed.

Lemma existsb_elem (l : list (nat * string)) k :
  existsb (fun f => bool_decide (f = k)) l = bool_decide (k ∈ l).
Proof.
  induction l as [|f l IH]; [done|]. cbn [existsb]. rewrite IH.
  destruct (decide (f = k)) as [-> |Hf].
  - rewrite (bool_decide_true (k = k)), (bool_decide_true (k ∈ k :: l)); [done|left|done].
  - rewrite (bool_decide_false (f = k)) by done. apply bool_decide_ext. rewrite elem_of_cons. intuition congruence.
Qed.

Lemma fingerprints_insert d k t :
  db_fingerprints (on_fingerprints (fun l => l ++ [mk_fingerprint k t]) d) = db_fingerprints d ++ [k].
Proof. unfold db_fingerprints. simpl. by rewrite map_app. Qed.

(** Claiming a fingerprint turns the key's quota into a token. *)
Lemma insert_fingerprint_supply lid sha d k :
  sha <> ""%string ->
  (key_supply (insert_fingerprint lid sha d).2 k +
   (if (insert_fingerprint lid sha d).1 then if bool_decide (k = (lid, sha)) then 1 else 0 else 0)
   <= key_supply d k)%nat.
Proof.
  intros Hs. unfold insert_fingerprint. rewrite existsb_elem.
  destruct (bool_decide ((lid, sha) ∈ db_fingerprints d)) eqn:E; simpl; [lia|].
  apply bool_decide_eq_false in E. unfold key_supply, rows_of. rewrite fingerprints_insert. simpl.
  destruct (decide (k = (lid, sha))) as [-> |Hk].
  - rewrite (bool_decide_true ((lid, sha) = _)) by done. simpl.
    rewrite (bool_decide_false (sha = _)) by done.
    rewrite (bool_decide_true ((lid, sha) ∈ _ ++ _)) by set_solver.
    rewrite (bool_decide_false ((lid, sha) ∈ db_fingerprints d)) by done. lia.
  - rewrite (bool_decide_false (k = _)) by done.
    rewrite (bool_decide_ext (k ∈ db_fingerprints d ++ [(lid, sha)]) (k ∈ db_fingerprints d)); [lia|].
    rewrite elem_of_app, list_elem_of_singleton. intuition congruence.
Qed.

(** Storing the row spends the token. *)
Lemma insert_accepted_supply row d k :
  (key_supply (insert_accepted row d) k <=
   key_supply d k + (if bool_decide (k.2 = ""%string) then 0
                     else if bool_decide (k = row_key (row (db_next d))) then 1 else 0))%nat.
Proof.
  unfold key_supply, rows_of, insert_accepted.
  change (db_fingerprints (take_id (on_accepted ?f ?x))) with (db_fingerprints x). simpl.
  destruct (bool_decide (k.2 = ""%string)); [lia|].
  rewrite List.filter_app, length_app. simpl.
  destruct (decide (k = row_key (row (db_next d)))) as [Hk|Hk].
  - rewrite (bool_decide_true (k = _)) by done.
    rewrite (bool_decide_true (row_key (row (db_next d)) = k)) by done. simpl. lia.
  - rewrite (bool_decide_false (k = _)) by done.
    rewrite (bool_decide_false (row_key (row (db_next d)) = k)) by done. simpl. lia.
Qed.

Definition token (k0 : nat * string) : nat * string -> nat := fun k =>
  if bool_decide (k.2 = ""%string) then 0%nat else if bool_decide (k = k0) then 1%nat else 0%nat.

Lemma store_accepted_conserving sig raw lid :
  parse_signal raw = Ok sig ->
  conserving key_supply (token (lid, get_str (body_sha256 sig))) (store_accepted sig raw lid).
Proof.
  intros Hp. simpl. split; [|done]. intros d. exists (token (lid, get_str (body_sha256 sig))).
  split; [done|]. unfold bigint. destruct (_ <? _)%N; [|done]. simpl. split; [|done].
  intros d'. exists (fun _ => 0%nat). split; [|done]. intros k.
  pose proof (insert_accepted_supply
    (accepted_row sig raw lid (find_instance lid (get_str (instance_id sig)) d)) d' k) as H.
  assert (row_key (accepted_row sig raw lid (find_instance lid (get_str (instance_id sig)) d)
            (db_next d')) = (lid, get_str (body_sha256 sig))) as Hk
    by (unfold row_key, row_sha; simpl; by rewrite Hp).
  rewrite Hk in H. unfold token. lia.
Qed.

Lemma persist_signal_conserving sig raw :
  parse_signal raw = Ok sig -> conserving key_supply (fun _ => 0%nat) (persist_signal sig raw).
Proof.
  intros Hp. simpl. split; [|done]. intros d. exists (fun _ => 0%nat). split; [done|].
  split; [|done]. intros d1. exists (fun _ => 0%nat). split; [done|].
  destruct (find_active_license _ d1) as [l|]; [|done]. unfold claim_fingerprint.
  pose proof (store_accepted_conserving sig raw (lic_id l) Hp) as Hst.
  destruct (bool_decide (get_str (body_sha256 sig) = ""%string)) eqn:Es.
  - change (conserving key_supply (fun _ => 0%nat) (store_accepted sig raw (lic_id l))).
    eapply conserving_weaken; [|exact Hst]. intros k. unfold token.
    apply bool_decide_eq_true in Es. rewrite Es.
    destruct (bool_decide (k.2 = ""%string)) eqn:Ek; [done|]. apply bool_decide_eq_false in Ek.
    rewrite bool_decide_false; [done|]. intros ->. done.
  - apply bool_decide_eq_false in Es. simpl. split; [|done]. intros d2.
    pose proof (insert_fingerprint_supply (lic_id l) (get_str (body_sha256 sig)) d2) as Hs.
    destruct (insert_fingerprint (lic_id l) (get_str (body_sha256 sig)) d2) as [b d3] eqn:Ei. simpl in *.
    destruct b; simpl.
    + exists (token (lic_id l, get_str (body_sha256 sig))). split; [|exact Hst].
      intros k. specialize (Hs k Es). unfold token. destruct (bool_decide (k.2 = _)); lia.
    + exists (fun _ => 0%nat). split; [|done]. intros k. specialize (Hs k Es). lia.
Qed.

Lemma ack_signals msg : steps_in same_signals (ack msg).
Proof. by repeat split. Qed.

Lemma deadletter_signals pool subject raw reason err :
  steps_in same_signals (deadletter pool subject raw reason err).
Proof. unfold deadletter, acquire. steps_in_auto. Qed.

Lemma persist_fill_signals f : steps_in same_signals (persist_fill f).
Proof. unfold persist_fill, acquire, as_text, as_text_or_null. steps_in_auto. Qed.

Lemma persist_event_signals so subject evt : steps_in same_signals (persist_event so subject evt).
Proof.
  unfold persist_event, _persist_ea_connected, _persist_ea_disconnected, _persist_rejection,
    _persist_request_log, acquire, as_text, as_text_or_null, int_of. steps_in_auto.
Qed.

(** The handlers of the three subscriptions. *)
Inductive handler jl so : prog Db exn unit -> Prop :=
| h_signal pool msg : handler jl so (on_signal pool msg)
| h_fill pool msg : handler jl so (on_fill jl pool msg)
| h_event pool msg : handler jl so (on_event jl so pool msg).

Lemma handler_conserving jl so p : handler jl so p -> conserving key_supply (fun _ => 0%nat) p.
Proof.
  assert (forall msg, conserving key_supply (fun _ => 0%nat) (ack msg)) as Hack
    by (intros; apply steps_same_signals, ack_signals).
  assert (forall pool msg p', conserving key_supply (fun _ => 0%nat) p' ->
    conserving key_supply (fun _ => 0%nat) (persist_then_ack pool msg p')) as Hpa.
  { intros pool msg p' Hp'. apply conserving_bind; [|by intros].
    destruct pool; [|done]. by apply conserving_try. }
  assert (forall pool msg s r re er, conserving key_supply (fun _ => 0%nat)
    (deadletter pool s r re er ;;; ack msg)) as Hd.
  { intros. apply conserving_bind; [|by intros]. apply steps_same_signals, deadletter_signals. }
  destruct 1; [unfold on_signal|unfold on_fill|unfold on_event].
  - destruct (parse_signal (msg_data msg)) eqn:E; [|apply Hd]. by apply Hpa, persist_signal_conserving.
  - destruct (load_object _ _ _); [|apply Hd]. apply Hpa, steps_same_signals, persist_fill_signals.
  - destruct (load_object _ _ _); [|apply Hd]. apply Hpa, steps_same_signals, persist_event_signals.
Qed.

(** C1: deduplication is race-free.  Run any number of signal, fill and event
    handlers interleaved statement by statement, with arbitrary failures, from a
    database where every key is consistent: at every moment at most one
    [accepted_signals] row exists per license and non-empty body fingerprint. *)
Theorem signal_stored_at_most_once jl so ps ps' d d'
  (Hh : Forall (handler jl so) ps)
  (H0 : forall k, (key_supply d k <= 1)%nat)
  (Hr : rtc istep (ps, d) (ps', d')) :
  forall lid sha, sha <> ""%string -> (rows_of d' (lid, sha) <= 1)%nat.
Proof.
  intros lid sha Hs.
  assert (Forall (conserving key_supply (fun _ => 0%nat)) ps) as Hc.
  { eapply Forall_impl; [|exact Hh]. intros p. apply handler_conserving. }
  pose proof (interleave_conserving key_supply _ _ _ _ Hc Hr (lid, sha)) as H.
  specialize (H0 (lid, sha)). unfold key_supply at 1 in H. simpl in H.
  rewrite bool_decide_false in H by done. lia.
Qed.

(** ** What one delivery does *)

(** The row an undisturbed delivery adds, if any. *)
Definition new_rows (d : Db) (data : bytes) : list accepted :=
  match parse_signal data with
  | Err _ => []
  | Ok sig =>
      match find_active_license (get_str (license_id sig)) d with
      | None => []
      | Some l =>
          let sha := get_str (body_sha256 sig) in
          let duplicate := negb (bool_decide (sha = ""%string)) &&
                           bool_decide ((lic_id l, sha) ∈ db_fingerprints d) in
          if duplicate || negb (default 0%N (received_unix_nano sig) <? 2 ^ 63)%N then []
          else [accepted_row sig data (lic_id l)
                  (find_instance (lic_id l) (get_str (instance_id sig)) d) (db_next d)]
      end
  end.

Definition new_dead (msg : message) : list dead_letter :=
  match parse_signal (msg_data msg) with
  | Ok _ => []
  | Err e => [mk_dead (msg_subject msg) "parse_error" (str_take 2000 (proto_error_text e)) (msg_data msg)]
  end.

Lemma claim_run lid sha d :
  run (claim_fingerprint lid sha) [] d =
  if bool_decide (sha = ""%string) then (Ok true, d, [])
  else if bool_decide ((lid, sha) ∈ db_fingerprints d) then (Ok false, d, [])
  else (Ok true, on_fingerprints (fun l => l ++ [mk_fingerprint (lid, sha) (db_now d)]) d, []).
Proof.
  unfold claim_fingerprint. destruct (bool_decide (sha = _)); [done|].
  simpl. unfold insert_fingerprint. rewrite existsb_elem. by destruct (bool_decide _).
Qed.

Lemma store_run sig raw lid d :
  db_accepted (run_state (store_accepted sig raw lid) [] d) =
    db_accepted d ++ (if (default 0%N (received_unix_nano sig) <? 2 ^ 63)%N then
      [accepted_row sig raw lid (find_instance lid (get_str (instance_id sig)) d) (db_next d)] else []) /\
  db_dead (run_state (store_accepted sig raw lid) [] d) = db_dead d.
Proof.
  unfold run_state, store_accepted, bigint. simpl. destruct (_ <? _)%N; simpl; [done|].
  by rewrite app_nil_r.
Qed.

(** The state a swallowed writer leaves is the state it reached, up to the ack. *)
Lemma persist_then_ack_run msg p fs d :
  run (persist_then_ack true msg p) fs d = let '(_, d', fs') := run p fs d in run (ack msg) fs' d'.
Proof.
  unfold persist_then_ack. rewrite run_bind, run_try.
  by destruct (run p fs d) as [[[[]|] d'] fs'].
Qed.

Lemma run_no_faults {D E A} (p : prog D E A) : forall d, (run p [] d).2 = [].
Proof. induction p; intros; simpl; auto. Qed.

Lemma persist_then_ack_state msg p d :
  run_state (persist_then_ack true msg p) [] d = on_acks (fun l => l ++ [msg_id msg]) (run_state p [] d).
Proof.
  unfold run_state. rewrite persist_then_ack_run. pose proof (run_no_faults p d) as E.
  destruct (run p [] d) as [[? ?] ?]. simpl in E. by subst.
Qed.

Lemma persist_then_ack_accepted msg p fs d :
  db_accepted (run_state (persist_then_ack true msg p) fs d) = db_accepted (run_state p fs d).
Proof.
  unfold run_state. rewrite persist_then_ack_run. destruct (run p fs d) as [[? ?] [|[] ?]]; done.
Qed.

Lemma persist_signal_run sig raw d :
  parse_signal raw = Ok sig ->
  db_accepted (run_state (persist_signal sig raw) [] d) = db_accepted d ++ new_rows d raw /\
  db_dead (run_state (persist_signal sig raw) [] d) = db_dead d.
Proof.
  intros Hp. unfold new_rows. rewrite Hp. unfold run_state, persist_signal. simpl.
  destruct (find_active_license _ d) as [l|]; [|by rewrite app_nil_r].
  rewrite run_bind, claim_run.
  set (sha := get_str (body_sha256 sig)). destruct (bool_decide (sha = ""%string)).
  - cbn [negb andb orb]. destruct (store_run sig raw (lic_id l) d) as [E1 E2].
    unfold run_state in E1, E2. rewrite E1, E2. by destruct (_ <? _)%N.
  - destruct (bool_decide _); cbn [negb andb orb]; [by rewrite app_nil_r|].
    destruct (store_run sig raw (lic_id l) 
      (on_fingerprints (fun l0 => l0 ++ [mk_fingerprint (lic_id l, sha) (db_now d)]) d))
      as [E1 E2]. unfold run_state in E1, E2. rewrite E1, E2. by destruct (_ <? _)%N.
Qed.

(** C8: functional behaviour of a delivery without failures.  [on_signal] adds to
    [accepted_signals] exactly the row of a well-formed signal of an active
    license that is not a duplicate, resolved to its instance when there is one;
    a malformed message adds exactly one dead letter with its bytes and the reason
    and stores nothing. *)
Theorem on_signal_outcome msg d :
  let d' := run_state (on_signal true msg) [] d in
  db_accepted d' = db_accepted d ++ new_rows d (msg_data msg) /\
  db_dead d' = db_dead d ++ new_dead msg.
Proof.
  unfold on_signal, new_dead. destruct (parse_signal (msg_data msg)) as [sig|e] eqn:Hp.
  - rewrite persist_then_ack_state. simpl. rewrite app_nil_r. by apply persist_signal_run.
  - unfold new_rows. rewrite Hp. simpl. by rewrite app_nil_r.
Qed.

(** Once its fingerprint is claimed, no delivery of the signal is stored. *)
Lemma claimed_never_stored sig raw l fs d :
  get_str (body_sha256 sig) <> ""%string ->
  find_active_license (get_str (license_id sig)) d = Some l ->
  (lic_id l, get_str (body_sha256 sig)) ∈ db_fingerprints d ->
  db_accepted (run_state (persist_signal sig raw) fs d) = db_accepted d.
Proof.
  intros Hs Hl Hin. unfold run_state, persist_signal, claim_fingerprint.
  assert (insert_fingerprint (lic_id l) (get_str (body_sha256 sig)) d = (false, d)) as Hf.
  { unfold insert_fingerprint. rewrite existsb_elem. by rewrite bool_decide_true by done. }
  rewrite (bool_decide_false (_ = ""%string)) by done.
  destruct fs as [|[] fs]; cbn; rewrite ?Hl; [cbn; by rewrite Hf|done|].
  destruct fs as [|[] fs]; cbn; rewrite ?Hl; [cbn; by rewrite Hf|done|].
  destruct fs as [|[] fs]; cbn; [by rewrite Hf|done|by rewrite Hf].
Qed.

(** The failures after the claim: the look-up of the instance, the receive time
    that is no bigint, the insert. *)
Definition fails_after_claim (sig : signal) (faults : list bool) : Prop :=
  faults = [false; false; false; true] \/
  faults = [] /\ (2 ^ 63 <= default 0%N (received_unix_nano sig))%N \/
  faults = [false; false; false; false; true] /\ (default 0%N (received_unix_nano sig) < 2 ^ 63)%N.

Lemma claimed_then_failed msg sig l d faults :
  parse_signal (msg_data msg) = Ok sig ->
  find_active_license (get_str (license_id sig)) d = Some l ->
  get_str (body_sha256 sig) <> ""%string ->
  (lic_id l, get_str (body_sha256 sig)) ∉ db_fingerprints d ->
  fails_after_claim sig faults ->
  run_state (on_signal true msg) faults d =
    on_acks (fun a => a ++ [msg_id msg])
      (on_fingerprints (fun f => f ++ [mk_fingerprint (lic_id l, get_str (body_sha256 sig)) (db_now d)]) d).
Proof.
  intros Hp Hl Hs Hf Hfail. unfold on_signal. rewrite Hp. unfold run_state. rewrite persist_then_ack_run.
  unfold persist_signal, claim_fingerprint, store_accepted, bigint. rewrite (bool_decide_false (_ = ""%string)) by done.
  destruct Hfail as [->|[[-> Hn%N.ltb_ge]|[-> Hn%N.ltb_lt]]]; cbn; rewrite Hl; cbn;
    unfold insert_fingerprint; rewrite existsb_elem, bool_decide_false by done; cbn; rewrite ?Hn; done.
Qed.

(** C36: a failure after the fingerprint was claimed loses the signal.  Whichever of
    the later steps fails (the look-up of the instance, a receive time that is no
    bigint, the insert into [accepted_signals]), nothing is stored, no dead letter is
    written and the message is acked; and however many handlers of the worker then
    run, redeliveries of the same signal included, interleaved and failing anywhere,
    no row for its license and fingerprint ever appears.  (The worker never releases
    a fingerprint; only the retention of the tasks service, 90 days later by
    default, does.) *)
Theorem failed_insert_loses_signal jl so msg sig l d faults ps ps' d2
  (Hp : parse_signal (msg_data msg) = Ok sig)
  (Hl : find_active_license (get_str (license_id sig)) d = Some l)
  (Hs : get_str (body_sha256 sig) <> ""%string)
  (Hf : (lic_id l, get_str (body_sha256 sig)) ∉ db_fingerprints d)
  (H0 : (key_supply d (lic_id l, get_str (body_sha256 sig)) <= 1)%nat)
  (Hfail : fails_after_claim sig faults)
  (Hh : Forall (handler jl so) ps)
  (Hr : rtc istep (ps, run_state (on_signal true msg) faults d) (ps', d2)) :
  let d1 := run_state (on_signal true msg) faults d in
  db_acks d1 = db_acks d ++ [msg_id msg] /\ db_accepted d1 = db_accepted d /\ db_dead d1 = db_dead d /\
  rows_of d2 (lic_id l, get_str (body_sha256 sig)) = 0%nat.
Proof.
  rewrite (claimed_then_failed msg sig l d faults) in * by done. cbn zeta. split_and!; try done.
  assert (Forall (conserving key_supply (fun _ => 0%nat)) ps) as Hc.
  { eapply Forall_impl; [|exact Hh]. intros p. apply handler_conserving. }
  pose proof (interleave_conserving key_supply _ _ _ _ Hc Hr (lic_id l, get_str (body_sha256 sig))) as H.
  revert H H0. unfold key_supply. rewrite !(bool_decide_false (_.2 = ""%string)) by done.
  change (db_fingerprints (on_acks ?f ?x)) with (db_fingerprints x). rewrite fingerprints_insert.
  rewrite (bool_decide_false _ Hf), (bool_decide_true (_ ∈ _ ++ [_])) by set_solver.
  change (rows_of (on_acks ?f (on_fingerprints ?g d))) with (rows_of d). lia.
Qed.

(** ** Sessions *)

Lemma latest_none l : latest l = None -> l = [].
Proof. destruct l as [|a l]; [done|]. simpl. destruct (latest l); [by destruct (_ <? _)|done]. Qed.

Lemma latest_spec l s : latest l = Some s ->
  s ∈ l /\ forall s', s' ∈ l -> ses_connected s' <= ses_connected s.
Proof.
  revert s. induction l as [|a l IH]; intros s H; [done|]. simpl in H.
  destruct (latest l) as [b|] eqn:E.
  - destruct (IH b eq_refl) as [Hb Hmax].
    destruct (ses_connected a <? ses_connected b) eqn:C; injection H as <-.
    + split; [by right|]. intros s' Hs'. apply elem_of_cons in Hs' as [-> |Hs']; [lia|auto].
    + split; [left|]. intros s' Hs'. apply elem_of_cons in Hs' as [-> |Hs']; [lia|].
      specialize (Hmax _ Hs'). lia.
  - injection H as <-. apply latest_none in E as ->. split; [left|].
    intros s' Hs'. apply list_elem_of_singleton in Hs' as ->. lia.
Qed.

(** A disconnect event closes one session, the right one.  With distinct
    session ids, [close_latest] leaves every session as it was except one: an open
    session of that instance with the greatest [connected_at], which gets the
    time; when the instance has no open session nothing changes. *)
Theorem disconnect_closes_latest iid now l
  (Hid : NoDup (map ses_id l)) :
  (Forall (fun s => open_for iid s = false) l /\ close_latest iid now l = l) \/
  exists l1 s l2, l = l1 ++ s :: l2 /\ open_for iid s = true /\
    (forall s', s' ∈ l -> open_for iid s' = true -> ses_connected s' <= ses_connected s) /\
    close_latest iid now l = l1 ++ disconnect now s :: l2.
Proof.
  unfold close_latest. destruct (latest _) as [s|] eqn:E.
  - right. apply latest_spec in E as [Hin Hmax].
    apply list_elem_of_In, List.filter_In in Hin as [Hin Ho].
    apply list_elem_of_In, list_elem_of_split in Hin as (l1 & l2 & ->).
    exists l1, s, l2. split_and!; try done.
    + intros s' Hs' Ho'. apply Hmax, list_elem_of_In, List.filter_In. split; [by apply list_elem_of_In|done].
    + rewrite map_app in Hid. simpl in Hid. apply list.NoDup_app in Hid as (_ & Hd & Hid2).
      apply list.NoDup_cons in Hid2 as [Hn _].
      assert (forall l', ses_id s ∉ map ses_id l' ->
        map (fun s' => if bool_decide (ses_id s' = ses_id s) then disconnect now s' else s') l' = l') as K.
      { induction l' as [|a l' IH]; intros Hl'; [done|]. simpl in Hl'. apply not_elem_of_cons in Hl' as [? ?].
        simpl. rewrite bool_decide_false by done. by rewrite IH. }
      rewrite map_app. simpl. rewrite bool_decide_true by done. rewrite K, K; try done.
      intros Hc. apply (Hd _ Hc). left.
  - left. split; [|done]. apply latest_none in E. apply Forall_forall. intros s Hs.
    destruct (open_for iid s) eqn:O; [|done].
    assert (s ∈ List.filter (open_for iid) l) as Hc
      by (by apply list_elem_of_In, List.filter_In).
    rewrite E in Hc. by apply not_elem_of_nil in Hc.
Qed.

(** ** Witnesses *)

Module PersistDemo.
Definition data : bytes := encode_signal_proto sample_signal.
Definition msg (n : nat) : message := mk_message n "signals.mt5.L-100.I-1" data.
(** Two tenants that both named their terminal [I-1]. *)
Definition db : Db :=
  on_instances (fun _ => [mk_instance 11 1 "I-1" "mt5" true 0; mk_instance 12 2 "I-1" "mt5" true 0])
    (on_licenses (fun _ => [mk_license 1 101 "L-100" "h1" None true 0; mk_license 2 102 "L-200" "h2" None true 0])
       empty_db).
(** Two deliveries of the message, advanced in turn, the second with failures. *)
Definition picks : list (nat * bool) :=
  [(0, false); (1, false); (0, false); (1, false); (1, false); (0, false); (0, false); (1, false);
   (1, false); (1, false); (0, false); (0, true)]%nat.
Definition both : list (prog Db exn unit) := [on_signal true (msg 1); on_signal true (msg 2)].
Definition final := fold_left pick picks (both, db).
Definition fill_msg : message := mk_message 7 "fills.I-1" [].
Definition fill_json : json := PDict [("trace_id"%string, PStr "t-2"); ("status"%string, PStr "filled")].
Definition sessions : list session :=
  [mk_session 1 1 11 "a" "b" "live" "mt5" "1" "r" 10 None;
   mk_session 2 1 11 "a" "b" "live" "mt5" "1" "r" 30 None;
   mk_session 3 1 11 "a" "b" "live" "mt5" "1" "r" 20 None].
End PersistDemo.

Lemma demo_supply k : (key_supply PersistDemo.db k <= 1)%nat.
Proof.
  unfold key_supply, rows_of. destruct (bool_decide _); [lia|]. simpl. lia.
Qed.

Lemma signal_stored_at_most_once_witness :
  rows_of (snd PersistDemo.final) (1%nat, "deadbeef"%string) = 1%nat /\
  (rows_of (snd PersistDemo.final) (1%nat, "deadbeef"%string) <= 1)%nat.
Proof.
  split; [vm_compute; reflexivity|].
  apply (signal_stored_at_most_once (fun _ => Err ""%string) (fun _ => ""%string) PersistDemo.both
           (fst PersistDemo.final) PersistDemo.db (snd PersistDemo.final)).
  - repeat constructor.
  - exact demo_supply.
  - rewrite <-surjective_pairing. apply sched_rtc.
  - discriminate.
Defined.

(** The message and a redelivery, after the insert of the first delivery failed. *)
Lemma failed_insert_loses_signal_witness :
  let d1 := run_state (on_signal true (PersistDemo.msg 1)) [false; false; false; false; true] PersistDemo.db in
  let d2 := (fold_left pick (repeat (0%nat, false) 5) ([on_signal true (PersistDemo.msg 2)], d1)).2 in
  db_acks d2 = [1; 2]%nat /\ rows_of d2 (1%nat, "deadbeef"%string) = 0%nat.
Proof.
  split; [vm_compute; reflexivity|].
  refine (proj2 (proj2 (proj2 (failed_insert_loses_signal (fun _ => Err ""%string) (fun _ => ""%string) (PersistDemo.msg 1)
    (norm_signal sample_signal) (mk_license 1 101 "L-100" "h1" None true 0) PersistDemo.db
    [false; false; false; false; true] [on_signal true (PersistDemo.msg 2)] _ _ _ _ _ _ _ _ _ _)))).
  - vm_compute. reflexivity.
  - vm_compute. reflexivity.
  - vm_compute. discriminate.
  - apply not_elem_of_nil.
  - apply demo_supply.
  - right. right. split; [reflexivity|]. vm_compute. reflexivity.
  - repeat constructor.
  - rewrite <- surjective_pairing. apply sched_rtc.
Defined.

Lemma disconnect_closes_latest_witness :
  map ses_disconnected (close_latest 11 99 PersistDemo.sessions) = [None; Some 99; None] /\
  exists l1 s l2, PersistDemo.sessions = l1 ++ s :: l2 /\
    close_latest 11 99 PersistDemo.sessions = l1 ++ disconnect 99 s :: l2.
Proof.
  split; [vm_compute; reflexivity|].
  destruct (disconnect_closes_latest 11 99 PersistDemo.sessions) as [[H _]|(l1 & s & l2 & H1 & _ & _ & H2)].
  - apply (bool_decide_unpack _). vm_compute. exact I.
  - exfalso. inversion H as [|? ? C]. vm_compute in C. discriminate C.
  - exists l1, s, l2. split; [exact H1|exact H2].
Defined.

(** Fills are attributed by instance key alone.  [instance_key] is unique
    only within a license, and the lookup takes the first match: with two tenants
    using the same key, a fill reported by the second one's terminal is stored
    under the first one's license, and carries neither signal nor instance. *)
Theorem fill_attributed_to_first_tenant :
  let d := run_state (on_fill (fun _ => Ok PersistDemo.fill_json) true PersistDemo.fill_msg) []
             PersistDemo.db in
  map (fun f => (fill_license f, fill_instance f, fill_signal f, fill_trace f)) (db_fills d) =
  [(1%nat, None, None, "t-2"%string)].
Proof. vm_compute. reflexivity. Qed.
