(* ===== verification/Tasks.v ===== *)
(** * Tasks: the background worker

    apps/tasks/app.py: [fill_timeout_check], [data_retention] and
    [task_processor] as statement trees over the shared database, the loop
    [run_periodically] that runs them, the readiness state and the health
    endpoint.

    The settings read from the environment, [datetime.isoformat] and [str(UUID)]
    are arguments.  A [SELECT] without [ORDER BY] returns its rows in an order of
    the planner, the argument [plan], of which only that it is a permutation is
    used; [drop_chunks] of TimescaleDB is an argument, of which only that it
    removes nothing but rows older than the cutoff is used. *)

From Stdlib Require Import ZArith SpecFloat Ascii Sorting.Sorted.
From stdpp Require Import relations.
From S2P Require Import Prelude Text PyFloat PyVal Prog Db Persist.
Open Scope Z_scope.

Definition seconds : Z := 10 ^ 9.
Definition days : Z := 86400 * seconds.

Section Worker.
Context (FILL_TIMEOUT_SECS RETENTION_DAYS : Z).
Context (iso : N -> string) (uuid_text : nat -> string).
Context (plan : list accepted -> list accepted).
Context (drop_chunks : Z -> list accepted -> list accepted).

(** ** Timeouts *)

(** [f.id IS NULL] of the left join: no fill carries the trace id. *)
Definition unanswered (d : Db) (s : accepted) : bool :=
  negb (existsb (fun f => bool_decide (fill_trace f = acc_trace s)) (db_fills d)).

Definition overdue (d : Db) (s : accepted) : bool :=
  (Z.of_N (acc_received s) <? db_now d - FILL_TIMEOUT_SECS * seconds) && unanswered d s.

Definition select_overdue (d : Db) : list accepted :=
  take 100 (plan (List.filter (overdue d) (db_accepted d))).

Definition timeout_fill (s : accepted) (id : nat) (now : Z) : fill :=
  mk_fill id (Some (acc_id s)) (acc_license s) (acc_instance s) (acc_trace s) "timeout" None None
    (Some "Fill not received within timeout window"%string)
    (PDict [("signal_id"%string, PStr (uuid_text (acc_id s)));
            ("received_at"%string, PStr (iso (acc_received s)));
            ("timeout_secs"%string, PInt FILL_TIMEOUT_SECS)]) now.

Definition timeout_event (s : accepted) : system_event :=
  mk_event (acc_trace s) "fill_timeout" "warning"
    (PDict [("signal_id"%string, PStr (uuid_text (acc_id s)));
            ("instance_id"%string, match acc_instance s with Some i => PStr (uuid_text i) | None => PNone end);
            ("received_at"%string, PStr (iso (acc_received s)));
            ("timeout_secs"%string, PInt FILL_TIMEOUT_SECS)]).

(** [ON CONFLICT DO NOTHING] never applies: the only unique column of [fills] is
    its generated key. *)
Fixpoint insert_timeouts (rows : list accepted) : prog Db exn unit :=
  match rows with
  | [] => ret tt
  | s :: rows' =>
      exec DbError (insert_fill (timeout_fill s)) ;;;
      exec DbError (on_events (fun l => l ++ [timeout_event s])) ;;;
      insert_timeouts rows'
  end.

Definition fill_timeout_check : prog Db exn unit :=
  rows <- query DbError select_overdue ;;
  match rows with
  | [] => ret tt
  | _ => acquire ;;; insert_timeouts rows
  end.

(** ** Retention *)

Definition cutoff (d : Db) : Z := db_now d - RETENTION_DAYS * days.

Definition delete_fills (d : Db) : nat * Db :=
  (length (List.filter (fun f => fill_created f <? cutoff d) (db_fills d)),
   on_fills (List.filter (fun f => negb (fill_created f <? cutoff d))) d).

Definition delete_fingerprints (d : Db) : nat * Db :=
  (length (List.filter (fun f => fp_received f <? cutoff d) (db_fp_rows d)),
   on_fingerprints (List.filter (fun f => negb (fp_received f <? cutoff d))) d).

Definition delete_signals (d : Db) : nat * Db :=
  (length (List.filter (fun s => Z.of_N (acc_received s) <? cutoff d) (db_accepted d)),
   on_accepted (List.filter (fun s => negb (Z.of_N (acc_received s) <? cutoff d))) d).

(** The counts go to the log. *)
Definition data_retention : prog Db exn unit :=
  _ <- stmt DbError delete_fills ;;
  _ <- stmt DbError delete_fingerprints ;;
  try_ (exec DbError (fun d => on_accepted (drop_chunks (cutoff d)) d))
       (fun _ => _ <- stmt DbError delete_signals ;; ret tt).

(** ** The task table *)

Definition with_status (status : string) (now : Z) (t : task_row) : task_row :=
  mk_task (task_id t) (task_type t) status (task_payload t) (task_created t) now.

Definition is_pending (t : task_row) : bool := bool_decide (task_status t = "pending"%string).

Definition next_tasks (d : Db) : list nat :=
  map task_id (take 10 (sort_by (fun a b => task_created a <? task_created b)
                                (List.filter is_pending (db_tasks d)))).

(** [UPDATE tasks SET status = ..., updated_at = NOW() WHERE id IN ids]. *)
Definition set_status (status : string) (ids : list nat) (d : Db) : Db :=
  on_tasks (map (fun t => if bool_decide (task_id t ∈ ids) then with_status status (db_now d) t else t)) d.

(** One statement claims up to ten rows and returns them. *)
Definition claim (d : Db) : list (nat * string) * Db :=
  let ids := next_tasks d in
  (map (fun t => (task_id t, task_type t))
       (List.filter (fun t => bool_decide (task_id t ∈ ids)) (db_tasks d)),
   set_status "processing" ids d).

Definition process_task (id : nat) : prog Db exn unit :=
  try_ (exec DbError (set_status "completed" [id]))
       (fun _ => exec DbError (set_status "failed" [id])).

Fixpoint process_tasks (rows : list (nat * string)) : prog Db exn unit :=
  match rows with
  | [] => ret tt
  | (id, _) :: rows' => process_task id ;;; process_tasks rows'
  end.

Definition task_processor : prog Db exn unit :=
  rows <- stmt DbError claim ;; process_tasks rows.

(** ** The periodic runner *)

(** What happens between two iterations (the [sleep]): other services change
    the database and the clock moves; and which statements of the iteration
    fail. *)
Record tick := mk_tick { tk_env : Db -> Db; tk_faults : list bool }.

(** One turn of the loop: an exception is logged. *)
Definition turn (fn : prog Db exn unit) : prog Db exn unit := try_ fn (fun _ => ret tt).

Definition run_periodically (fn : prog Db exn unit) (ticks : list tick) (d : Db) : Db :=
  fold_left (fun d t => run_state (turn fn) (tk_faults t) (tk_env t d)) ticks d.

(** ** Readiness and health *)

Record tasks_readiness := mk_ready { td_ok : bool; td_err : string }.

Definition tasks_readiness0 : tasks_readiness := mk_ready false "not initialized".

(** One turn of [_refresh_readiness]: [None] without a pool, else the outcome of
    [SELECT 1] with the text of the exception. *)
Definition _refresh_readiness (probe : option (result string unit)) (r : tasks_readiness) : tasks_readiness :=
  match probe with
  | None => mk_ready false "pool not initialized"
  | Some (Ok _) => mk_ready true ""
  | Some (Err e) => mk_ready false (str_take 200 e)
  end.

(** Status and JSON body of a GET; the 404 has no body. *)
Definition tasks_do_GET (path : string) (snap : tasks_readiness) : Z * option json :=
  if bool_decide (path = "/health"%string) || bool_decide (path = "/healthz"%string) then
    (200, Some (PDict [("service"%string, PStr "tasks"); ("status"%string, PStr "ok")]))
  else if bool_decide (path = "/readyz"%string) then
    (if td_ok snap then 200 else 503,
     Some (PDict [("service"%string, PStr "tasks"); ("ok"%string, PBool (td_ok snap));
       ("checks"%string, PDict [("db"%string,
          PDict [("ok"%string, PBool (td_ok snap)); ("err"%string, PStr (td_err snap))])])]))
  else (404, None).

(** Start-up: the outcome of [create_pool] decides the readiness and which loops
    are started; the pool is never created again. *)
Definition tasks_startup (pool : result string unit) : tasks_readiness * list (prog Db exn unit) :=
  match pool with
  | Ok _ => (mk_ready true "", [fill_timeout_check; data_retention; task_processor])
  | Err e => (mk_ready (td_ok tasks_readiness0) (str_take 200 e), [])
  end.

End Worker.

(** ** The container health check *)

(** [addr.rsplit(":", 1)]: the part before the last colon, if any, and the rest. *)
Fixpoint rsplit_colon (l : chars) : option (chars * chars) :=
  match l with
  | [] => None
  | c :: l' =>
      match rsplit_colon l' with
      | Some (a, b) => Some (c :: a, b)
      | None => if bool_decide (c = ":"%char) then Some ([], l') else None
      end
  end.

(** The URL [healthcheck] probes; [None] is the IndexError of an address without
    a colon. *)
Definition health_url (addr : string) : option string :=
  match rsplit_colon (chars_of addr) with
  | None => None
  | Some (host, port) =>
      let host := if startswith addr "0.0.0.0:" then "127.0.0.1"%string else string_of_chars host in
      Some ("http://" +:+ host +:+ ":" +:+ string_of_chars port +:+ "/health")%string
  end.

Example health_url_default : health_url "0.0.0.0:8080" = Some "http://127.0.0.1:8080/health"%string.
Proof. reflexivity. Qed.

(** ** Progress of the timeout check *)

Lemma unanswered_false d s : unanswered d s = false <-> acc_trace s ∈ map fill_trace (db_fills d).
Proof.
  unfold unanswered. rewrite negb_false_iff, existsb_exists, list_elem_of_fmap. split.
  - intros (f & Hf & E%bool_decide_eq_true). exists f. split; [done|]. by apply list_elem_of_In.
  - intros (f & E & Hf). exists f. split; [by apply list_elem_of_In|]. by apply bool_decide_eq_true.
Qed.

(** The worker adds fills and leaves signals and clock alone. *)
Definition only_answers (d d' : Db) : Prop :=
  db_accepted d' = db_accepted d /\ db_now d' = db_now d /\
  map fill_trace (db_fills d) ⊆ map fill_trace (db_fills d').

Lemma only_answers_refl : reflexive Db only_answers.
Proof. intros d. by unfold only_answers. Qed.

Lemma only_answers_trans : transitive Db only_answers.
Proof. intros d1 d2 d3 (E1 & E2 & S1) (E3 & E4 & S2). unfold only_answers. split_and!; [congruence..|set_solver]. Qed.

Lemma answered_stays d d' s : only_answers d d' -> unanswered d s = false -> unanswered d' s = false.
Proof. rewrite !unanswered_false. intros (_ & _ & H). apply H. Qed.

Section Progress.
Context (FILL_TIMEOUT_SECS : Z) (iso : N -> string) (uuid_text : nat -> string).
Context (plan : list accepted -> list accepted) (plan_perm : forall l, plan l ≡ₚ l).

Abbreviation check := (fill_timeout_check FILL_TIMEOUT_SECS iso uuid_text plan).
Abbreviation inserts := (insert_timeouts FILL_TIMEOUT_SECS iso uuid_text).

Lemma insert_timeouts_steps rows : steps_in only_answers (inserts rows).
Proof.
  induction rows as [|s rows IH]; [done|]. cbn [insert_timeouts].
  apply steps_in_bind; [|intros _; apply steps_in_bind; [|intros _; exact IH]].
  - apply steps_in_exec. intros d. unfold only_answers. split_and!; [done..|]. simpl. rewrite map_app. set_solver.
  - apply steps_in_exec. intros d. by unfold only_answers.
Qed.

Lemma check_steps : steps_in only_answers (turn check).
Proof.
  apply steps_in_try; [|done]. apply steps_in_bind; [by apply steps_in_query, only_answers_refl|].
  intros [|s rows]; [done|]. apply steps_in_bind; [apply steps_in_query, only_answers_refl|].
  intros _. apply insert_timeouts_steps.
Qed.

Lemma turn_only_answers fs d : only_answers d (run_state (turn check) fs d).
Proof. apply run_steps_in; [apply only_answers_refl|apply only_answers_trans|apply check_steps]. Qed.

(** Without failures every row of the list is answered. *)
Lemma insert_timeouts_answers rows d s :
  s ∈ rows -> unanswered (run_state (inserts rows) [] d) s = false.
Proof.
  revert d. induction rows as [|r rows IH]; intros d Hs; [by apply not_elem_of_nil in Hs|].
  apply elem_of_cons in Hs as [<-|Hs]; [|by apply IH].
  unfold run_state. cbn [insert_timeouts]. rewrite run_bind. simpl.
  eapply answered_stays; [apply (run_steps_in only_answers)|].
  - apply only_answers_refl.
  - apply only_answers_trans.
  - apply insert_timeouts_steps.
  - apply unanswered_false. simpl. rewrite map_app. set_solver.
Qed.

Lemma clean_turn d :
  run_state (turn check) [] d = run_state (inserts (select_overdue FILL_TIMEOUT_SECS plan d)) [] d.
Proof.
  unfold turn, run_state. rewrite run_try. unfold fill_timeout_check. rewrite run_bind. simpl.
  destruct (select_overdue FILL_TIMEOUT_SECS plan d) as [|s rows]; [done|].
  cbn -[insert_timeouts]. by destruct (run (inserts (s :: rows)) [] d) as [[[] ?] ?].
Qed.

Definition backlog (d : Db) : nat := length (List.filter (unanswered d) (db_accepted d)).

Lemma backlog_mono d d' : only_answers d d' -> (backlog d' <= backlog d)%nat.
Proof.
  intros H. unfold backlog. rewrite (proj1 H). apply filter_length_mono. intros s _ Hs.
  destruct (unanswered d s) eqn:E; [done|]. by rewrite (answered_stays _ _ _ H E) in Hs.
Qed.

(** A clean turn answers every overdue signal, or a hundred of them. *)
Lemma clean_turn_progress d :
  let d' := run_state (turn check) [] d in
  (forall s, s ∈ db_accepted d -> overdue FILL_TIMEOUT_SECS d s = true -> unanswered d' s = false) \/
  (backlog d' + 100 <= backlog d)%nat.
Proof.
  cbn zeta. set (d' := run_state _ _ _). set (rows := List.filter (overdue FILL_TIMEOUT_SECS d) (db_accepted d)).
  assert (forall s, s ∈ take 100 (plan rows) -> unanswered d' s = false) as Hrow.
  { intros s Hs. unfold d'. rewrite clean_turn. by apply insert_timeouts_answers. }
  destruct (decide (length rows <= 100)%nat) as [Hl|Hl].
  - left. intros s Hs Ho. apply Hrow. rewrite take_ge by (rewrite plan_perm; lia).
    rewrite plan_perm. apply list_elem_of_In, filter_In. split; [by apply list_elem_of_In|done].
  - right. pose proof (turn_only_answers [] d) as Hoa. fold d' in Hoa.
    unfold backlog. rewrite (proj1 Hoa), <- (filter_split_length (unanswered d) (unanswered d')).
    assert (100 <= length (List.filter (fun s => unanswered d s && negb (unanswered d' s)) (db_accepted d)))%nat.
    { replace 100%nat with (length (take 100 (plan rows)))
        by (rewrite length_take, plan_perm; lia).
      apply selected_length.
      - rewrite take_submseteq, plan_perm. apply filter_submseteq.
      - intros s Hs. rewrite (Hrow s Hs). assert (s ∈ rows) as Hr.
        { rewrite <- plan_perm. eapply elem_of_submseteq; [exact Hs|apply take_submseteq]. }
        apply list_elem_of_In, filter_In in Hr as [_ Ho]. by apply andb_true_iff in Ho as [_ ->]. }
    assert (length (List.filter (unanswered d') (db_accepted d)) <=
            length (List.filter (fun s => unanswered d s && unanswered d' s) (db_accepted d)))%nat; [|lia].
    apply filter_length_mono. intros s _ Hs. rewrite Hs.
    destruct (unanswered d s) eqn:E; [done|]. by rewrite (answered_stays _ _ _ Hoa E) in Hs.
Qed.

(** Between two turns the clock does not run backwards, at most [n] signals
    arrive and no fill disappears. *)
Definition arrivals (n : nat) (env : Db -> Db) : Prop :=
  forall d, db_now d <= db_now (env d) /\
    (exists new, db_accepted (env d) = db_accepted d ++ new /\ (length new <= n)%nat) /\
    map fill_trace (db_fills d) ⊆ map fill_trace (db_fills (env d)).

Definition clean (t : tick) : bool := bool_decide (tk_faults t = []).

Lemma backlog_env n env d : arrivals n env -> (backlog (env d) <= backlog d + n)%nat.
Proof.
  intros H. destruct (H d) as (_ & (new & E & Hn) & Hf). unfold backlog.
  rewrite E, List.filter_app, length_app.
  assert (length (List.filter (unanswered (env d)) new) <= length new)%nat by apply List.filter_length_le.
  assert (length (List.filter (unanswered (env d)) (db_accepted d)) <=
          length (List.filter (unanswered d) (db_accepted d)))%nat; [|lia].
  apply filter_length_mono. intros s _ Hs. destruct (unanswered d s) eqn:Eu; [done|].
  apply unanswered_false, Hf, unanswered_false in Eu. congruence.
Qed.

Lemma answered_forever ns ticks s : Forall2 (fun n t => arrivals n (tk_env t)) ns ticks ->
  forall d, unanswered d s = false -> unanswered (run_periodically check ticks d) s = false.
Proof.
  intros H. induction H as [|n t ns ticks Hn _ IH]; intros d Hs; [done|].
  apply IH. eapply answered_stays; [apply turn_only_answers|].
  apply unanswered_false, (Hn d), unanswered_false, Hs.
Qed.

(** C12: liveness of the timeout check.  Run periodically, with any iterations
    failing anywhere and signals arriving in between, the check leaves no signal
    unanswered that was overdue at the start, as soon as the undisturbed
    iterations, at a hundred rows each, outnumber the backlog and the arrivals;
    in whatever order the database returns the rows. *)
Theorem overdue_signals_get_answered ns ticks d s
  (Henv : Forall2 (fun n t => arrivals n (tk_env t)) ns ticks)
  (Hcap : (backlog d + sum_list ns <= 100 * length (List.filter clean ticks))%nat)
  (Hin : s ∈ db_accepted d)
  (Hold : Z.of_N (acc_received s) < db_now d - FILL_TIMEOUT_SECS * seconds) :
  acc_trace s ∈ map fill_trace (db_fills (run_periodically check ticks d)).
Proof.
  apply unanswered_false.
  revert d Hcap Hin Hold. induction Henv as [|n t ns ticks Hn Hts IH]; intros d Hcap Hin Hold.
  - simpl in *. destruct (unanswered d s) eqn:E; [|done].
    assert (1 <= backlog d)%nat; [|lia].
    apply (selected_length (unanswered d) [s]); [by apply singleton_submseteq_l|].
    by intros x ->%list_elem_of_singleton.
  - destruct (Hn d) as (Hnow & (new & Eacc & _) & _).
    pose proof (backlog_env n (tk_env t) d Hn) as Hb. set (d1 := tk_env t d) in *.
    assert (s ∈ db_accepted d1) as Hin1 by (rewrite Eacc; set_solver).
    cbn [run_periodically fold_left]. fold d1.
    pose proof (turn_only_answers (tk_faults t) d1) as Hoa.
    assert (forall k, (backlog (run_state (turn check) (tk_faults t) d1) + k <= backlog d1)%nat ->
      (100 * length (List.filter clean (t :: ticks)) <= k + 100 * length (List.filter clean ticks))%nat ->
      unanswered (run_periodically check ticks (run_state (turn check) (tk_faults t) d1)) s = false) as Hstep.
    { intros k H1 H2. apply IH; [change (sum_list (n :: ns)) with (n + sum_list ns)%nat in Hcap; lia|by rewrite (proj1 Hoa)|].
      rewrite (proj1 (proj2 Hoa)). lia. }
    destruct (clean t) eqn:Ec.
    + unfold clean in Ec. apply bool_decide_eq_true in Ec. rewrite Ec in *.
      destruct (clean_turn_progress d1) as [Hall|Hless].
      * eapply answered_forever; [done|]. destruct (unanswered d1 s) eqn:E.
        -- apply Hall; [done|]. unfold overdue. rewrite E, andb_true_r. apply Z.ltb_lt. lia.
        -- by eapply answered_stays.
      * apply (Hstep 100%nat); [done|]. cbn [List.filter]. destruct (clean t); cbn [length]; lia.
    + apply (Hstep 0%nat); [rewrite Nat.add_0_r; by apply backlog_mono|].
      cbn [List.filter]. rewrite Ec. lia.
Qed.

End Progress.

(** ** The task queue *)

Section Queue.

Definition finish (ids : list nat) (now : Z) (t : task_row) : task_row :=
  if bool_decide (task_id t ∈ ids) then with_status "completed" now t else t.

Lemma process_tasks_clean rows d :
  db_tasks (run_state (process_tasks rows) [] d) = map (finish (map fst rows) (db_now d)) (db_tasks d).
Proof.
  revert d. induction rows as [|[id ty] rows IH]; intros d.
  - symmetry. rewrite <- (map_id (db_tasks (run_state _ _ _))). apply map_ext. done.
  - cbn [process_tasks]. unfold run_state. rewrite run_bind. unfold process_task. rewrite run_try. simpl.
    fold (run_state (process_tasks rows) [] (set_status "completed" [id] d)). rewrite IH. simpl.
    rewrite map_map. apply map_ext. intros t. unfold finish.
    destruct (decide (task_id t = id)) as [<-|Hne].
    + rewrite (bool_decide_true (_ ∈ [_])) by left. rewrite (bool_decide_true (_ ∈ _ :: _)) by left.
      simpl. by destruct (bool_decide _).
    + rewrite (bool_decide_false (_ ∈ [_])) by (by rewrite list_elem_of_singleton).
      rewrite (bool_decide_ext (_ ∈ id :: _) (task_id t ∈ map fst rows)); [done|].
      rewrite elem_of_cons. tauto.
Qed.

(** A poll without failures completes the rows it claims and no others. *)
Lemma clean_poll d :
  db_tasks (run_state (turn task_processor) [] d) = map (finish (next_tasks d) (db_now d)) (db_tasks d).
Proof.
  unfold turn, run_state. rewrite run_try. unfold task_processor. rewrite run_bind. simpl.
  set (rows := map _ _). set (d1 := set_status _ _ _).
  pose proof (process_tasks_clean rows d1) as H. unfold run_state in H.
  assert (db_tasks d1 = map (fun t => if bool_decide (task_id t ∈ next_tasks d)
    then with_status "processing" (db_now d) t else t) (db_tasks d)) as E1 by done.
  rewrite E1, map_map in H. change (db_now d1) with (db_now d) in H.
  assert (forall r : result exn unit * Db * list bool, db_tasks match r with
    | (Ok a, d', fs') => (Ok a, d', fs') | (Err _, d', fs') => (Ok (), d', fs') end.1.2 = db_tasks r.1.2)
    as Er by (by intros [[[] ?] ?]).
  rewrite Er, H. apply map_ext_in. intros t Ht.
  unfold finish. destruct (bool_decide (task_id t ∈ next_tasks d)) eqn:Eb; simpl.
  - rewrite bool_decide_true; [done|]. unfold rows. rewrite map_map. simpl.
    apply list_elem_of_In, in_map_iff. exists t. split; [done|]. by apply filter_In.
  - rewrite bool_decide_false; [done|]. unfold rows. rewrite map_map. simpl.
    intros (t' & E & [_ Ht']%filter_In)%list_elem_of_In%in_map_iff. rewrite E in Ht'. congruence.
Qed.

(** Pending tasks created no later than [c]. *)
Definition is_ahead (c : Z) (t : task_row) : bool := is_pending t && (task_created t <=? c).

Definition ahead (c : Z) (d : Db) : nat := length (List.filter (is_ahead c) (db_tasks d)).

Lemma finish_ahead c ids now l :
  length (List.filter (is_ahead c) (map (finish ids now) l)) =
  length (List.filter (fun t => is_ahead c t && negb (bool_decide (task_id t ∈ ids))) l).
Proof.
  induction l as [|t l IH]; [done|]. cbn [map List.filter].
  destruct (bool_decide (task_id t ∈ ids)) eqn:E; unfold finish at 1; rewrite E; cbn [negb].
  - rewrite andb_false_r. exact IH.
  - rewrite andb_true_r. destruct (is_ahead c t); cbn [length]; by rewrite IH.
Qed.

(** A poll claims a task, or ten that were created no later. *)
Lemma clean_poll_progress d i t :
  db_tasks d !! i = Some t -> is_pending t = true ->
  task_id t ∈ next_tasks d \/
  (ahead (task_created t) (run_state (turn task_processor) [] d) + 10 <= ahead (task_created t) d)%nat.
Proof.
  intros Hi Hp. 
  set (sorted := sort_by (fun a b => task_created a <? task_created b) (List.filter is_pending (db_tasks d))).
  destruct (decide (task_id t ∈ next_tasks d)) as [Ht|Ht]; [by left|].
  assert (t ∉ take 10 sorted) as Hcut.
  { intros H. apply Ht. unfold next_tasks. apply list_elem_of_fmap. by exists t. }
  right. destruct (sorted_cut task_created sorted 10 t) as [Hl Hle].
  - apply sort_by_key.
  - unfold sorted. apply elem_sort_by. apply list_elem_of_In, filter_In.
    split; [apply list_elem_of_In; by eapply list_elem_of_lookup_2|done].
  - done.
  - unfold ahead. rewrite clean_poll. set (c := task_created t).
    rewrite <- (filter_split_length (is_ahead c) (fun t => bool_decide (task_id t ∈ next_tasks d)) (db_tasks d)).
    assert (10 <= length (List.filter (fun t0 => is_ahead c t0 && bool_decide (task_id t0 ∈ next_tasks d))
                                      (db_tasks d)))%nat.
    { rewrite <- Hl at 1. apply selected_length.
      - rewrite take_submseteq. unfold sorted. rewrite sort_by_perm. apply filter_submseteq.
      - intros x Hx. rewrite (bool_decide_true (task_id x ∈ _))
          by (unfold next_tasks; apply list_elem_of_fmap; by exists x).
        unfold is_ahead. rewrite (proj2 (Z.leb_le _ c) (Hle x Hx)).
        assert (x ∈ sorted) as Hxs by (eapply elem_of_submseteq; [exact Hx|apply take_submseteq]).
        unfold sorted in Hxs. rewrite elem_sort_by in Hxs. by apply list_elem_of_In, filter_In in Hxs as [_ ->]. }
    rewrite finish_ahead. lia.
Qed.

(** Between two polls only later tasks are added. *)
Definition later_tasks (c : Z) (env : Db -> Db) : Prop :=
  forall d, exists new, db_tasks (env d) = db_tasks d ++ new /\ Forall (fun t => c < task_created t) new.

Lemma ahead_env c env d : later_tasks c env -> ahead c (env d) = ahead c d.
Proof.
  intros H. destruct (H d) as (new & E & Hn). unfold ahead. rewrite E, List.filter_app, length_app.
  enough (List.filter (is_ahead c) new = []) as -> by (simpl; lia).
  clear E. induction Hn as [|t new Ht _ IH]; [done|]. simpl. rewrite IH.
  unfold is_ahead. rewrite (proj2 (Z.leb_gt _ _) Ht). by rewrite andb_false_r.
Qed.

(** The row at position [i] is task [t], waiting or done. *)
Definition waiting_or_done (t : task_row) (i : nat) (done : bool) (d : Db) : Prop :=
  exists t', db_tasks d !! i = Some t' /\ task_id t' = task_id t /\ task_created t' = task_created t /\
    task_status t' = (if done then "completed" else "pending")%string.

Lemma poll_keeps t i b d : waiting_or_done t i b d ->
  waiting_or_done t i (b || bool_decide (task_id t ∈ next_tasks d)) (run_state (turn task_processor) [] d).
Proof.
  intros (t' & Hi & Hid & Hc & Hs). exists (finish (next_tasks d) (db_now d) t').
  rewrite clean_poll. split; [by rewrite list_lookup_fmap, Hi|]. unfold finish. rewrite Hid.
  destruct (bool_decide _); simpl; rewrite ?orb_true_r, ?orb_false_r; by rewrite ?Hid.
Qed.

Lemma env_keeps c t i b env d : later_tasks c env -> waiting_or_done t i b d -> waiting_or_done t i b (env d).
Proof.
  intros He (t' & Hi & H). destruct (He d) as (new & E & _). exists t'. split; [|done].
  rewrite E. by apply lookup_app_l_Some.
Qed.

(** Liveness of the task queue.  Whatever later tasks are queued meanwhile, a
    pending task is completed after as many undisturbed polls, at ten rows each, as
    it takes to serve the tasks created no later than it: none starves. *)
Theorem pending_tasks_complete ticks d i t
  (Hclean : Forall (fun k => tk_faults k = [] /\ later_tasks (task_created t) (tk_env k)) ticks)
  (Hi : db_tasks d !! i = Some t) (Hp : is_pending t = true)
  (Hcap : (ahead (task_created t) d <= 10 * length ticks)%nat) :
  exists t', db_tasks (run_periodically task_processor ticks d) !! i = Some t' /\
    task_id t' = task_id t /\ task_status t' = "completed"%string.
Proof.
  assert (forall ticks d b, Forall (fun k => tk_faults k = [] /\ later_tasks (task_created t) (tk_env k)) ticks ->
    waiting_or_done t i b d -> (b = true \/ ahead (task_created t) d <= 10 * length ticks)%nat ->
    waiting_or_done t i true (run_periodically task_processor ticks d)) as Hrun.
  { clear. intros ticks. induction ticks as [|k ticks IH]; intros d b Hk Hw Hcap.
    - destruct b; [exact Hw|]. destruct Hcap as [?|Hcap]; [done|]. exfalso.
      destruct Hw as (t' & Hi & _ & Hc & Hs).
      assert (1 <= ahead (task_created t) d)%nat; [|simpl in Hcap; lia].
      apply (selected_length _ [t']); [apply singleton_submseteq_l; by eapply list_elem_of_lookup_2|].
      intros x ->%list_elem_of_singleton. unfold is_ahead, is_pending. by rewrite Hs, Hc, Z.leb_refl.
    - apply Forall_cons_1 in Hk as [[Hf He] Hk]. cbn [run_periodically fold_left]. rewrite Hf.
      set (d1 := tk_env k d). assert (waiting_or_done t i b d1) as Hw1 by (by eapply env_keeps).
      apply (IH _ _ Hk (poll_keeps _ _ _ _ Hw1)).
      destruct b; [by left|]. destruct Hcap as [?|Hcap]; [done|].
      destruct Hw1 as (t' & Hi' & Hid & Hc & Hs).
      destruct (clean_poll_progress d1 i t' Hi') as [Hin|Hless].
      + unfold is_pending. by rewrite Hs.
      + left. simpl. rewrite bool_decide_true; [done|]. by rewrite <- Hid.
      + right. rewrite Hc in Hless. unfold d1 in Hless. rewrite (ahead_env _ _ _ He) in Hless.
        simpl in Hcap. fold d1 in Hless. lia. }
  destruct (Hrun ticks d false Hclean) as (t' & H1 & H2 & _ & H3).
  - exists t. unfold is_pending in Hp. apply bool_decide_eq_true in Hp. by rewrite Hp.
  - by right.
  - by exists t'.
Qed.

End Queue.

(** ** Abandoned tasks *)

Section Abandoned.
Context (t : task_row) (i : nat).

(** Row [i] is the task, claimed, and no row with its id is pending. *)
Definition claimed (d : Db) : Prop :=
  (exists t', db_tasks d !! i = Some t' /\ task_id t' = task_id t /\ task_status t' = "processing"%string) /\
  forall r, r ∈ db_tasks d -> task_id r = task_id t -> task_status r = "processing"%string.

Lemma claimed_not_next d : claimed d -> task_id t ∉ next_tasks d.
Proof.
  intros [_ Hall] Hin. unfold next_tasks in Hin. apply list_elem_of_fmap in Hin as (r & E & Hr).
  assert (r ∈ List.filter is_pending (db_tasks d)) as Hf.
  { apply (elem_sort_by (fun a b => task_created a <? task_created b)).
    eapply elem_of_submseteq; [exact Hr|apply take_submseteq]. }
  apply list_elem_of_In, filter_In in Hf as [Hf Hp%bool_decide_eq_true].
  apply list_elem_of_In in Hf. rewrite (Hall r Hf (eq_sym E)) in Hp. discriminate.
Qed.

Lemma claimed_set_status status ids d : task_id t ∉ ids -> claimed d -> claimed (set_status status ids d).
Proof.
  intros Hid [(t' & Hi & E & Hs) Hall]. split.
  - exists t'. simpl. rewrite list_lookup_fmap, Hi. simpl. by rewrite E, bool_decide_false.
  - intros r Hr Er. simpl in Hr. apply list_elem_of_fmap in Hr as (r' & -> & Hr').
    destruct (bool_decide (task_id r' ∈ ids)) eqn:Eb; [|by apply Hall].
    apply bool_decide_eq_true in Eb. simpl in Er. by rewrite Er in Eb.
Qed.

Lemma process_tasks_preserves rows : task_id t ∉ map fst rows ->
  preserves (E:=exn) claimed (process_tasks rows).
Proof.
  induction rows as [|[id ty] rows IH]; intros Hn; [done|]. cbn [process_tasks].
  simpl in Hn. apply not_elem_of_cons in Hn as [Hne Hn].
  assert (task_id t ∉ [id]) by (by rewrite list_elem_of_singleton).
  apply preserves_bind; [|auto]. apply preserves_try; [|intros _]; apply preserves_exec;
    intros d; by apply claimed_set_status.
Qed.

Lemma task_processor_preserves : preserves claimed (turn task_processor).
Proof.
  apply preserves_try; [|done]. split; [|done]. intros d Hd. simpl.
  pose proof (claimed_not_next d Hd) as Hn. split; [by apply claimed_set_status|].
  apply process_tasks_preserves. rewrite map_map. simpl.
  intros (r & E & [_ Hr]%filter_In)%list_elem_of_In%in_map_iff. apply bool_decide_eq_true in Hr. by rewrite E in Hr.
Qed.

End Abandoned.

(** No retry.  When marking the first claimed task as completed fails and so
    does marking it as failed, the poll is abandoned, and every task it had claimed
    stays in processing for good: no number of further polls, in any interleaving
    and with any failures, picks it up. *)
Theorem abandoned_tasks_stay_claimed d i t ps ps' d'
  (Hi : db_tasks d !! i = Some t) (Hclaim : task_id t ∈ next_tasks d)
  (Hps : Forall (fun p => p = turn task_processor) ps)
  (Hrun : rtc istep (ps, run_state (turn task_processor) [false; true; true] d) (ps', d')) :
  exists t', db_tasks d' !! i = Some t' /\ task_id t' = task_id t /\ task_status t' = "processing"%string.
Proof.
  assert (run_state (turn task_processor) [false; true; true] d = set_status "processing" (next_tasks d) d) as E.
  { unfold turn, run_state. rewrite run_try. unfold task_processor. rewrite run_bind. simpl.
    destruct (List.filter _ (db_tasks d)) as [|r rs] eqn:Ef; [|done]. exfalso.
    assert (List.In t []) as []. rewrite <- Ef. apply filter_In.
    split; [apply list_elem_of_In; by eapply list_elem_of_lookup_2|by apply bool_decide_eq_true]. }
  rewrite E in Hrun. eapply (interleave_preserves (claimed t i)) in Hrun; [exact (proj1 Hrun)| |].
  - eapply Forall_impl; [|exact Hps]. intros p ->. apply task_processor_preserves.
  - split.
    + exists (with_status "processing" (db_now d) t). simpl. rewrite list_lookup_fmap, Hi. simpl.
      by rewrite bool_decide_true.
    + intros r Hr Er. simpl in Hr. apply list_elem_of_fmap in Hr as (r' & -> & Hr').
      destruct (bool_decide (task_id r' ∈ next_tasks d)) eqn:Eb; [done|].
      apply bool_decide_eq_false in Eb. by rewrite Er in Eb.
Qed.

(** ** Retention *)

Section Retention.
Context (FILL_TIMEOUT_SECS RETENTION_DAYS : Z) (iso : N -> string) (uuid_text : nat -> string).
Context (plan : list accepted -> list accepted) (plan_perm : forall l, plan l ≡ₚ l).
Context (drop_chunks : Z -> list accepted -> list accepted).

(** Chunks are dropped whole, and only when nothing in them is newer. *)
Context (drop_sub : forall c l, drop_chunks c l ⊆ l).
Context (drop_old : forall c l s, s ∈ l -> c <= Z.of_N (acc_received s) -> s ∈ drop_chunks c l).

Abbreviation limit := (cutoff RETENTION_DAYS).

(** Rows with a time at or past the cutoff are kept, and none is added. *)
Definition keeps_recent {A} (time : A -> Z) (c : Z) (l l' : list A) : Prop :=
  l' ⊆ l /\ forall x, x ∈ l -> c <= time x -> x ∈ l'.

Definition purges (d d' : Db) : Prop :=
  db_now d' = db_now d /\
  keeps_recent fill_created (limit d) (db_fills d) (db_fills d') /\
  keeps_recent fp_received (limit d) (db_fp_rows d) (db_fp_rows d') /\
  keeps_recent (fun s => Z.of_N (acc_received s)) (limit d) (db_accepted d) (db_accepted d').

Lemma keeps_recent_refl {A} (time : A -> Z) c l : keeps_recent time c l l.
Proof. by split. Qed.

Lemma keeps_recent_filter {A} (time : A -> Z) c l :
  keeps_recent time c l (List.filter (fun x => negb (time x <? c)) l).
Proof.
  split.
  - intros x Hx. apply list_elem_of_In, filter_In in Hx as [Hx _]. by apply list_elem_of_In.
  - intros x Hx Hc. apply list_elem_of_In, filter_In. split; [by apply list_elem_of_In|].
    by rewrite (proj2 (Z.ltb_ge _ _) Hc).
Qed.

Lemma keeps_recent_trans {A} (time : A -> Z) c l1 l2 l3 :
  keeps_recent time c l1 l2 -> keeps_recent time c l2 l3 -> keeps_recent time c l1 l3.
Proof. intros [S1 K1] [S2 K2]. split; [by transitivity l2|auto]. Qed.

Lemma purges_trans : transitive Db purges.
Proof.
  intros d1 d2 d3 (N1 & F1 & P1 & A1) (N2 & F2 & P2 & A2). unfold purges, cutoff in *. rewrite N1 in *.
  split_and!; [done|eapply keeps_recent_trans; eassumption..].
Qed.

Lemma purges_refl : reflexive Db purges.
Proof. intros d. unfold purges. split_and!; auto using @keeps_recent_refl. Qed.

Lemma data_retention_steps : steps_in purges (data_retention RETENTION_DAYS drop_chunks).
Proof using drop_sub drop_old.
  assert (forall d, keeps_recent fill_created (limit d) (db_fills d) (db_fills d)) as K1 by (by split).
  assert (forall d, keeps_recent fp_received (limit d) (db_fp_rows d) (db_fp_rows d)) as K2 by (by split).
  assert (forall d, keeps_recent (fun s => Z.of_N (acc_received s)) (limit d) (db_accepted d) (db_accepted d)) as K3
    by (by split).
  unfold data_retention. apply steps_in_bind; [|intros _; apply steps_in_bind; [|intros _; apply steps_in_try]].
  - apply steps_in_stmt. intros d. split; [done|]. split; [apply keeps_recent_filter|by split].
  - apply steps_in_stmt. intros d. split; [done|]. split; [done|]. split; [apply keeps_recent_filter|done].
  - apply steps_in_exec. intros d. split; [done|]. split; [done|]. split; [done|].
    split; [apply drop_sub|]. intros s Hs Hc. by apply drop_old.
  - intros _. apply steps_in_bind; [|done]. apply steps_in_stmt. intros d.
    split; [done|]. split; [done|]. split; [done|]. apply (keeps_recent_filter (fun s => Z.of_N (acc_received s))).
Qed.

(** C31: retention deletes only what is old.  Whatever fails and whichever branch
    removes the signals, every fill, fingerprint and signal at or past the cutoff
    survives and nothing is added; and when its two deletes succeed, no older fill
    or fingerprint is left. *)
Theorem retention_deletes_only_old faults d :
  let d' := run_state (data_retention RETENTION_DAYS drop_chunks) faults d in
  purges d d' /\
  (take 2 faults = [] \/ take 2 faults = [false; false] ->
   (forall f, f ∈ db_fills d' -> limit d <= fill_created f) /\
   (forall f, f ∈ db_fp_rows d' -> limit d <= fp_received f)).
Proof using drop_sub drop_old.
  cbn zeta. split.
  { apply run_steps_in; [apply purges_refl|apply purges_trans|apply data_retention_steps]. }
  intros Hf. unfold run_state, data_retention. rewrite run_bind.
  assert (forall fs d, let d' := (run (try_ (exec DbError (fun d => on_accepted (drop_chunks (limit d)) d))
    (fun _ => _ <- stmt DbError (delete_signals RETENTION_DAYS) ;; ret (E:=exn) tt)) fs d).1.2 in
    db_fills d' = db_fills d /\ db_fp_rows d' = db_fp_rows d) as Htail.
  { intros fs d0. destruct fs as [|[] [|[] fs]]; done. }
  assert (exists fs, run (stmt DbError (delete_fills RETENTION_DAYS)) faults d =
    (Ok (E:=exn) (delete_fills RETENTION_DAYS d).1, (delete_fills RETENTION_DAYS d).2, fs) /\
    (fs = [] \/ exists fs', fs = false :: fs')) as (fs & -> & Hfs).
  { destruct faults as [|a [|b faults]]; simpl in *; destruct Hf as [Hf|Hf]; try discriminate;
      [by exists []; split; [|left]|]. injection Hf as -> ->. eexists. split; [reflexivity|eauto]. }
  rewrite run_bind.
  assert (exists fs', run (stmt DbError (delete_fingerprints RETENTION_DAYS)) fs (delete_fills RETENTION_DAYS d).2 =
    (Ok (E:=exn) (delete_fingerprints RETENTION_DAYS (delete_fills RETENTION_DAYS d).2).1,
     (delete_fingerprints RETENTION_DAYS (delete_fills RETENTION_DAYS d).2).2, fs')) as (fs' & ->).
  { destruct Hfs as [-> |(fs' & ->)]; eexists; reflexivity. }
  destruct (Htail fs' (delete_fingerprints RETENTION_DAYS (delete_fills RETENTION_DAYS d).2).2) as [-> ->].
  simpl. split; intros f Hin; apply list_elem_of_In, filter_In in Hin as [_ Hc]; bool_hyps;
    by apply Z.ltb_ge in Hc.
Qed.

End Retention.

(** ** Retention and timeouts together *)

Section Revival.
Context (FILL_TIMEOUT_SECS RETENTION_DAYS : Z) (iso : N -> string) (uuid_text : nat -> string).
Context (plan : list accepted -> list accepted) (plan_perm : forall l, plan l ≡ₚ l).
Context (drop_chunks : Z -> list accepted -> list accepted).

Lemma insert_timeouts_row rows d s :
  s ∈ rows -> exists id now, timeout_fill FILL_TIMEOUT_SECS iso uuid_text s id now ∈
    db_fills (run_state (insert_timeouts FILL_TIMEOUT_SECS iso uuid_text rows) [] d).
Proof.
  revert d. induction rows as [|r rows IH]; intros d Hs; [by apply not_elem_of_nil in Hs|].
  apply elem_of_cons in Hs as [<-|Hs]; [|by apply IH].
  exists (db_next d), (db_now d). unfold run_state. cbn [insert_timeouts]. rewrite run_bind. simpl.
  set (d1 := on_events _ _).
  assert (timeout_fill FILL_TIMEOUT_SECS iso uuid_text s (db_next d) (db_now d) ∈ db_fills d1) as Hin
    by (simpl; set_solver).
  assert (forall rs d0 f, f ∈ db_fills d0 ->
    f ∈ db_fills (run_state (insert_timeouts FILL_TIMEOUT_SECS iso uuid_text rs) [] d0)) as Hmono.
  { clear. intros rs. induction rs as [|r rs IH]; intros d0 f Hf; [done|]. apply IH. simpl. set_solver. }
  by apply Hmono.
Qed.

(** Retention makes answered signals look unanswered.  [data_retention] deletes
    fills one by one but signals in whole chunks, so an old signal of a chunk that
    is kept loses its fills, and the next check files a timeout for it, however
    it was answered. *)
Theorem retention_files_false_timeouts d s
  (Hkept : s ∈ drop_chunks (cutoff RETENTION_DAYS d) (db_accepted d))
  (Hold : Z.of_N (acc_received s) < db_now d - FILL_TIMEOUT_SECS * seconds)
  (Hfills : forall f, f ∈ db_fills d -> fill_trace f = acc_trace s -> fill_created f < cutoff RETENTION_DAYS d)
  (Hfew : (length (db_accepted d) <= 100)%nat)
  (Hsub : drop_chunks (cutoff RETENTION_DAYS d) (db_accepted d) ⊆+ db_accepted d) :
  let d1 := run_state (data_retention RETENTION_DAYS drop_chunks) [] d in
  let d2 := run_state (fill_timeout_check FILL_TIMEOUT_SECS iso uuid_text plan) [] d1 in
  exists f, f ∈ db_fills d2 /\ fill_signal f = Some (acc_id s) /\ fill_trace f = acc_trace s /\
    fill_status f = "timeout"%string.
Proof using plan_perm.
  cbn zeta. set (d1 := run_state (data_retention _ _) [] d).
  assert (db_accepted d1 = drop_chunks (cutoff RETENTION_DAYS d) (db_accepted d)) as Ea by done.
  assert (db_fills d1 = List.filter (fun f => negb (fill_created f <? cutoff RETENTION_DAYS d)) (db_fills d)) as Ef
    by done.
  assert (overdue FILL_TIMEOUT_SECS d1 s = true) as Ho.
  { unfold overdue. change (db_now d1) with (db_now d). apply andb_true_iff. split; [by apply Z.ltb_lt|].
    destruct (unanswered d1 s) eqn:E; [done|]. apply unanswered_false in E. rewrite Ef in E.
    apply list_elem_of_fmap in E as (f & Et & Hf). apply list_elem_of_In, filter_In in Hf as [Hf Hc]. bool_hyps.
    apply Z.ltb_ge in Hc. apply list_elem_of_In in Hf. specialize (Hfills f Hf (eq_sym Et)). lia. }
  assert (s ∈ select_overdue FILL_TIMEOUT_SECS plan d1) as Hs.
  { unfold select_overdue. rewrite take_ge.
    - rewrite plan_perm. apply list_elem_of_In, filter_In. split; [|done]. rewrite Ea. by apply list_elem_of_In.
    - rewrite plan_perm, List.filter_length_le, Ea. apply submseteq_length in Hsub. lia. }
  assert (db_fills (run_state (fill_timeout_check FILL_TIMEOUT_SECS iso uuid_text plan) [] d1) =
    db_fills (run_state (insert_timeouts FILL_TIMEOUT_SECS iso uuid_text
                (select_overdue FILL_TIMEOUT_SECS plan d1)) [] d1)) as ->.
  { unfold fill_timeout_check, run_state. rewrite run_bind. simpl.
    destruct (select_overdue FILL_TIMEOUT_SECS plan d1) as [|r rows]; [done|]. by cbn -[insert_timeouts]. }
  destruct (insert_timeouts_row _ d1 s Hs) as (id & now & Hin). by exists (timeout_fill FILL_TIMEOUT_SECS iso uuid_text s id now).
Qed.

End Revival.

(** ** Concrete runs *)

Module TasksDemo.

Definition iso (n : N) : string := pretty n.
Definition uuid_text (n : nat) : string := pretty n.
Definition plan (l : list accepted) : list accepted := rev l.

Lemma plan_perm l : plan l ≡ₚ l.
Proof. symmetry. apply Permutation_rev. Qed.

(** Weekly chunks, dropped when they end before the cutoff. *)
Definition chunk_end (s : accepted) : Z := (Z.of_N (acc_received s) / (7 * days) + 1) * (7 * days).
Definition drop_chunks (c : Z) (l : list accepted) : list accepted :=
  List.filter (fun s => negb (chunk_end s <=? c)) l.

Definition sig1 : accepted := mk_accepted 1 0 1 None "t1" "eu" "buy" "EURUSD" PNone None.
Definition fill1 : fill := mk_fill 2 (Some 1%nat) 1 None "t1" "filled" None None None PNone 5.
Definition task1 (id : nat) : task_row := mk_task id "mail" "pending" PNone (Z.of_nat id) 0.

Definition at_time (now : Z) (acc : list accepted) (fills : list fill) (tasks : list task_row) : Db :=
  mk_db now 10 [] [] [] [] acc fills [] [] [] [] [] [] tasks [] [] [].

(** The signal is hour-old and unanswered; the first check fails half-way. *)
Definition d0 : Db := at_time (3600 * seconds) [sig1] [] [].
Definition quiet (faults : list bool) : tick := mk_tick (fun d => d) faults.

Lemma quiet_arrivals faults : arrivals 0 (tk_env (quiet faults)).
Proof. intros d. split_and!; [done| |done]. exists []. by rewrite app_nil_r. Qed.

Lemma overdue_signals_get_answered_witness :
  acc_trace sig1 ∈ map fill_trace (db_fills (run_periodically
    (fill_timeout_check 30 iso uuid_text plan) [quiet [false; false; true]; quiet []] d0)).
Proof.
  apply (overdue_signals_get_answered 30 iso uuid_text plan plan_perm [0%nat; 0%nat]).
  - repeat constructor; apply quiet_arrivals.
  - vm_compute. lia.
  - left.
  - by vm_compute.
Defined.

Lemma pending_tasks_complete_witness :
  exists t', db_tasks (run_periodically task_processor [quiet []; quiet []]
    (at_time 50 [] [] (map task1 (seq 1 12)))) !! 11%nat = Some t' /\
    task_id t' = 12%nat /\ task_status t' = "completed"%string.
Proof.
  apply (pending_tasks_complete _ (at_time 50 [] [] (map task1 (seq 1 12))) 11 (task1 12)).
  - repeat constructor; intros d; exists []; rewrite app_nil_r; by split.
  - reflexivity.
  - reflexivity.
  - vm_compute. lia.
Defined.

Lemma abandoned_tasks_stay_claimed_witness :
  let d := at_time 50 [] [] (map task1 [1; 2]%nat) in
  let c := fold_left pick [(0%nat, false); (0%nat, false)]
             ([turn task_processor], run_state (turn task_processor) [false; true; true] d) in
  exists t', db_tasks c.2 !! 1%nat = Some t' /\ task_id t' = 2%nat /\ task_status t' = "processing"%string.
Proof.
  apply (abandoned_tasks_stay_claimed (at_time 50 [] [] (map task1 [1; 2]%nat)) 1 (task1 2)
    [turn task_processor] (fold_left pick [(0%nat, false); (0%nat, false)]
      ([turn task_processor], run_state (turn task_processor) [false; true; true]
        (at_time 50 [] [] (map task1 [1; 2]%nat)))).1).
  - reflexivity.
  - apply (bool_decide_unpack _). by vm_compute.
  - by repeat constructor.
  - rewrite <- surjective_pairing. apply sched_rtc.
Defined.

Lemma drop_chunks_sub c l : drop_chunks c l ⊆ l.
Proof. intros s Hs. apply list_elem_of_In, filter_In in Hs as [Hs _]. by apply list_elem_of_In. Qed.

Lemma drop_chunks_old c l s : s ∈ l -> c <= Z.of_N (acc_received s) -> s ∈ drop_chunks c l.
Proof.
  intros Hs Hc. apply list_elem_of_In, filter_In. split; [by apply list_elem_of_In|].
  apply negb_true_iff, Z.leb_gt. unfold chunk_end.
  pose proof (Z.div_mod (Z.of_N (acc_received s)) (7 * days)) as E.
  pose proof (Z.mod_pos_bound (Z.of_N (acc_received s)) (7 * days)) as B.
  assert (7 * days = 604800000000000) as H by reflexivity. rewrite H in *. lia.
Qed.

Lemma retention_deletes_only_old_witness :
  purges 90 (at_time (100 * days) [sig1] [fill1] [])
    (run_state (data_retention 90 drop_chunks) [false; true] (at_time (100 * days) [sig1] [fill1] [])).
Proof.
  apply (retention_deletes_only_old 90 drop_chunks drop_chunks_sub drop_chunks_old [false; true]
    (at_time (100 * days) [sig1] [fill1] [])).
Defined.

(** A signal of day 0 with a fill, 93 days later: its week is kept. *)
Definition d1 : Db := at_time (93 * days) [sig1] [fill1] [].

Lemma retention_files_false_timeouts_witness :
  exists f, f ∈ db_fills (run_state (fill_timeout_check 30 iso uuid_text plan) []
      (run_state (data_retention 90 drop_chunks) [] d1)) /\
    fill_signal f = Some 1%nat /\ fill_trace f = "t1"%string /\ fill_status f = "timeout"%string.
Proof.
  apply (retention_files_false_timeouts 30 90 iso uuid_text plan plan_perm drop_chunks d1 sig1).
  - vm_compute. left.
  - by vm_compute.
  - intros f Hf _. apply list_elem_of_singleton in Hf as ->. by vm_compute.
  - vm_compute. lia.
  - by vm_compute.
Defined.

(** Two workers checking at once both file a timeout: nothing in [fills] is unique
    but its generated key. *)
Example concurrent_checks_file_twice :
  length (db_fills (fold_left pick
    [(0, false); (1, false); (0, false); (0, false); (0, false); (1, false); (1, false); (1, false)]%nat
    ([fill_timeout_check 30 iso uuid_text plan; fill_timeout_check 30 iso uuid_text plan], d0)).2) = 2%nat.
Proof. reflexivity. Qed.

End TasksDemo.
