(* ===== verification/Extractor.v ===== *)
(** * Extractor: signal features for training

    apps/ml-feature-extractor/app.py: [extract_signal_features], the message
    handler [on_signal], the stream set-up and the HTTP endpoint.

    Two statements name objects of the schema that may or may not exist: the
    table [price_history] ([fx_prices], [None] when there is no such table) and a
    unique index on [signal_features.signal_id] ([fx_unique]), without which
    PostgreSQL refuses [ON CONFLICT (signal_id)].  [json.loads], the UUID
    parser and the aggregates of the server ([STDDEV], [AVG]) are arguments. *)

From Stdlib Require Import ZArith SpecFloat Ascii Strings.Byte.
From S2P Require Import Prelude Text PyFloat PyVal Prog Db Persist Tasks.
Open Scope Z_scope.

Abbreviation float := spec_float.

Record price_row := mk_price { pr_symbol : string; pr_close : float; pr_at : Z }.
Record correlation_row := mk_correlation {
  co_license : nat; co_a : string; co_b : string; co_coefficient : float }.
Record account_row := mk_account { ac_license : nat; ac_id : string; ac_drawdown : float }.

Record features := mk_features {
  ft_signal : json; ft_license : json; ft_symbol : json;
  ft_hour : Z; ft_weekday : Z; ft_volatility : float; ft_frequency : nat; ft_win_rate : float;
  ft_drawdown : float; ft_correlation : float }.

Record feature_row := mk_feature_row { fr_signal : nat; fr_license : nat; fr_symbol : string; fr_features : features }.

Record fx_state := mk_fx {
  fx_db : Db;
  fx_prices : option (list price_row);
  fx_unique : bool;
  fx_correlations : list correlation_row;
  fx_accounts : list account_row;
  fx_rows : list feature_row;
  fx_processed : nat; fx_extracted : nat; fx_errors : nat;
  fx_acks : list nat }.

Definition on_rows f s := mk_fx (fx_db s) (fx_prices s) (fx_unique s) (fx_correlations s) (fx_accounts s)
  (f (fx_rows s)) (fx_processed s) (fx_extracted s) (fx_errors s) (fx_acks s).
Definition count_processed s := mk_fx (fx_db s) (fx_prices s) (fx_unique s) (fx_correlations s) (fx_accounts s)
  (fx_rows s) (S (fx_processed s)) (fx_extracted s) (fx_errors s) (fx_acks s).
Definition count_extracted s := mk_fx (fx_db s) (fx_prices s) (fx_unique s) (fx_correlations s) (fx_accounts s)
  (fx_rows s) (fx_processed s) (S (fx_extracted s)) (fx_errors s) (fx_acks s).
Definition count_error_fx s := mk_fx (fx_db s) (fx_prices s) (fx_unique s) (fx_correlations s) (fx_accounts s)
  (fx_rows s) (fx_processed s) (fx_extracted s) (S (fx_errors s)) (fx_acks s).
Definition fx_ack (id : nat) s := mk_fx (fx_db s) (fx_prices s) (fx_unique s) (fx_correlations s) (fx_accounts s)
  (fx_rows s) (fx_processed s) (fx_extracted s) (fx_errors s) (fx_acks s ++ [id]).

Section Service.
Context (uuid_of : string -> option nat) (json_loads : bytes -> option json).
Context (stddev avg : list float -> option float).

Definition fx_acquire : prog fx_state exn unit := query DbError (fun _ => tt).

(** A parameter of type uuid or text: a [str] of the right form. *)
Definition as_uuid (v : json) : result exn nat :=
  match v with PStr s => match uuid_of s with Some n => Ok n | None => Err DataError end | _ => Err DataError end.
Definition as_str (v : json) : result exn string := match v with PStr s => Ok s | _ => Err DataError end.

(** A query with checked parameters. *)
Definition fetch {A} (f : fx_state -> result exn A) : prog fx_state exn A := stmt_r DbError (fun s => (f s, s)).

(** [STDDEV(close_price)] over the last 30 days. *)
Definition volatility_of (symbol : json) (s : fx_state) : result exn (option float) :=
  match fx_prices s with
  | None => Err DbError
  | Some prices =>
      let! sym := as_str symbol in
      Ok (stddev (map pr_close (List.filter (fun p =>
        bool_decide (pr_symbol p = sym) && (db_now (fx_db s) - 30 * days <? pr_at p)) prices)))
  end.

Definition own_signals (lid : nat) (sym : string) (since : Z) (s : fx_state) : list accepted :=
  List.filter (fun a => bool_decide (acc_license a = lid) && bool_decide (acc_symbol a = sym) &&
                        (since <? Z.of_N (acc_received a))) (db_accepted (fx_db s)).

Definition frequency_of (license symbol : json) (s : fx_state) : result exn nat :=
  let! lid := as_uuid license in
  let! sym := as_str symbol in
  Ok (length (own_signals lid sym (db_now (fx_db s) - 7 * days) s)).

(** The left join: a signal without terminal fill counts once. *)
Definition joined_statuses (d : Db) (a : accepted) : list (option string) :=
  match List.filter (fun f => bool_decide (fill_signal f = Some (acc_id a)) &&
                              negb (bool_decide (fill_status f = "placed"%string))) (db_fills d) with
  | [] => [None]
  | fs => map (fun f => Some (fill_status f)) fs
  end.

(** [COUNT(filled)::FLOAT / NULLIF(COUNT( * ), 0) * 100]. *)
Definition win_rate_of (license symbol : json) (s : fx_state) : result exn (option float) :=
  let! lid := as_uuid license in
  let! sym := as_str symbol in
  let rows := flat_map (joined_statuses (fx_db s)) (own_signals lid sym (db_now (fx_db s) - 30 * days) s) in
  let filled := length (List.filter (fun r => bool_decide (r = Some "filled"%string)) rows) in
  Ok (if (length rows =? 0)%nat then None
      else Some (f_mul (f_quot (f_int (Z.of_nat filled)) (f_int (Z.of_nat (length rows)))) (f_int 100))).

Definition drawdown_of (license account : json) (s : fx_state) : result exn (option float) :=
  let! lid := as_uuid license in
  let! acc := as_str account in
  Ok (ac_drawdown <$> first_where (fun r => bool_decide (ac_license r = lid) && bool_decide (ac_id r = acc))
                                  (fx_accounts s)).

Definition correlation_of (license symbol : json) (s : fx_state) : result exn (option float) :=
  let! lid := as_uuid license in
  let! sym := as_str symbol in
  Ok (avg (map (fun c => f_abs (co_coefficient c)) (List.filter (fun c =>
    bool_decide (co_license c = lid) && (bool_decide (co_a c = sym) || bool_decide (co_b c = sym)))
    (fx_correlations s)))).

Definition utc_hour (now : Z) : Z := (now / (3600 * seconds)) mod 24.
Definition utc_weekday (now : Z) : Z := (now / days + 3) mod 7.

(** [None] after a logged exception. *)
Definition extract_signal_features (signal_id license_id symbol : json) (signal_data : pydict float)
  : prog fx_state exn (option features) :=
  now <- Act id (fun s => ret (db_now (fx_db s))) ;;
  try_ (
    fx_acquire ;;;
    volatility <- fetch (volatility_of symbol) ;;
    frequency <- fetch (frequency_of license_id symbol) ;;
    win <- fetch (win_rate_of license_id symbol) ;;
    drawdown <- match dict_get signal_data "account_id" with
      | Some account => fetch (drawdown_of license_id account)
      | None => ret None
      end ;;
    corr <- fetch (correlation_of license_id symbol) ;;
    ret (Some (mk_features signal_id license_id symbol (utc_hour now) (utc_weekday now)
      (match volatility with Some v => if f_truthy v then v else f_zero | None => f_zero end)
      frequency (default f_zero win) (default f_zero drawdown) (default f_zero corr))))
    (fun _ => act count_error_fx ;;; ret None).

(** [INSERT ... ON CONFLICT (signal_id) DO UPDATE SET ...]: the update leaves the
    license and the symbol of the stored row. *)
Definition upsert_features (row : feature_row) (l : list feature_row) : list feature_row :=
  let same r := bool_decide (fr_signal r = fr_signal row) in
  if existsb same l
  then map (fun r => if same r then mk_feature_row (fr_signal r) (fr_license r) (fr_symbol r) (fr_features row) else r) l
  else l ++ [row].

Definition store_features (f : features) (s : fx_state) : result exn unit * fx_state :=
  if fx_unique s then
    match as_uuid (ft_signal f), as_uuid (ft_license f), as_str (ft_symbol f) with
    | Ok sid, Ok lid, Ok sym => (Ok tt, on_rows (upsert_features (mk_feature_row sid lid sym f)) s)
    | _, _, _ => (Err DataError, s)
    end
  else (Err DbError, s).

Definition message_ack (msg : message) : prog fx_state exn unit := exec AckError (fx_ack (msg_id msg)).

(** [msg.ack(); return] inside the [try] is the [true] result. *)
Definition handle_signal (msg : message) : prog fx_state exn bool :=
  match json_loads (msg_data msg) with
  | None => raise ValueError
  | Some (PDict signal_data) =>
      let get k := default PNone (dict_get signal_data k) in
      let signal_id := get "id"%string in
      let license_id := get "license_id"%string in
      let symbol := get "symbol"%string in
      if negb (truthy signal_id && truthy license_id && truthy symbol)
      then message_ack msg ;;; ret true
      else
        features <- extract_signal_features signal_id license_id symbol signal_data ;;
        match features with
        | None => ret false
        | Some f => fx_acquire ;;; stmt_r DbError (store_features f) ;;; act count_extracted ;;; ret false
        end
  | Some _ => raise ValueError
  end.

Definition extractor_on_signal (pool : bool) (msg : message) : prog fx_state exn unit :=
  act count_processed ;;;
  if negb pool then message_ack msg
  else
    returned <- try_ (handle_signal msg) (fun _ => act count_error_fx ;;; ret false) ;;
    if (returned : bool) then ret tt else message_ack msg.

(** The set-up creates the stream only when it is missing. *)
Definition setup_signals_stream (streams : list string) : list string :=
  if existsb (fun s => bool_decide (s = "SIGNALS"%string)) streams then streams else streams ++ ["SIGNALS"%string].

End Service.

(** [request_line.split()]: runs of whitespace separate. *)
Fixpoint split_ws (l : chars) (cur : chars) : list string :=
  match l with
  | [] => match cur with [] => [] | _ => [string_of_chars (rev cur)] end
  | c :: l' =>
      if is_space c then match cur with [] => split_ws l' [] | _ => string_of_chars (rev cur) :: split_ws l' [] end
      else split_ws l' (c :: cur)
  end.

Inductive extractor_reply := NoReply | Health | Metrics | NotFound | IndexError.

(** An empty request line closes the connection; a line of one word raises. *)
Definition extractor_http (request_line : string) : extractor_reply :=
  let line := strip request_line in
  if bool_decide (line = ""%string) then NoReply
  else match split_ws (chars_of line) [] !! 1%nat with
    | None => IndexError
    | Some path =>
        if bool_decide (path = "/health"%string) then Health
        else if bool_decide (path = "/metrics"%string) then Metrics
        else NotFound
    end.

(** ** Every message is acked once, and the migrated schema stores nothing *)

Section Acks.
Context (uuid_of : string -> option nat) (json_loads : bytes -> option json).
Context (stddev avg : list float -> option float).

Abbreviation on_message := (extractor_on_signal uuid_of json_loads stddev avg).
Abbreviation handle := (handle_signal uuid_of json_loads stddev avg).

Definition same_fx_acks (s s' : fx_state) : Prop := fx_acks s' = fx_acks s.

Lemma same_fx_acks_refl : reflexive fx_state same_fx_acks.
Proof. done. Qed.
Lemma same_fx_acks_trans : transitive fx_state same_fx_acks.
Proof. intros s1 s2 s3. unfold same_fx_acks. congruence. Qed.

Lemma fetch_steps {A} (f : fx_state -> result exn A) : steps_in same_fx_acks (fetch f).
Proof. by repeat split. Qed.

Lemma extract_acks sid lid sym data :
  steps_in same_fx_acks (extract_signal_features uuid_of stddev avg sid lid sym data).
Proof.
  unfold extract_signal_features. apply steps_in_bind; [by repeat split|]. intros now.
  apply steps_in_try; [|by repeat split]. apply steps_in_bind; [by repeat split|]. intros _.
  do 3 (apply steps_in_bind; [apply fetch_steps|intros ?]).
  apply steps_in_bind; [destruct (dict_get _ _); [apply fetch_steps|done]|]. intros ?.
  apply steps_in_bind; [apply fetch_steps|done].
Qed.

Lemma store_acks f s : same_fx_acks s (store_features uuid_of f s).2.
Proof. unfold store_features. by repeat case_scrutinee. Qed.

(** Either the handler acked and returned, or it left the acks alone. *)
Lemma handle_acks msg faults s :
  match run (handle msg) faults s with
  | (Ok true, s', _) => fx_acks s' = fx_acks s ++ [msg_id msg]
  | (_, s', _) => fx_acks s' = fx_acks s
  end.
Proof.
  unfold handle_signal. destruct (json_loads (msg_data msg)) as [[| | | | | |data]|]; try done.
  destruct (negb _); [by destruct faults as [|[] faults]|]. rewrite run_bind.
  pose proof (run_steps_in same_fx_acks _ faults s same_fx_acks_refl same_fx_acks_trans
    (extract_acks (default PNone (dict_get data "id")) (default PNone (dict_get data "license_id"))
       (default PNone (dict_get data "symbol")) data)) as H.
  unfold run_state in H. destruct (run (extract_signal_features _ _ _ _ _ _ _) faults s) as [[[[f|]|e] s1] fs1];
    simpl in H; [|done..].
  destruct fs1 as [|[] [|[] fs1]]; simpl; try done;
    pose proof (store_acks f s1) as Hs; unfold same_fx_acks in *;
    destruct (store_features uuid_of f s1) as [[]]; simpl in *; congruence.
Qed.

(** A schema without the unique index: rows and counter stay as they were. *)
Definition stores_nothing (s s' : fx_state) : Prop :=
  fx_unique s' = false /\ fx_rows s' = fx_rows s /\ fx_extracted s' = fx_extracted s.

Lemma fetch_preserves {A} I (f : fx_state -> result exn A) : preserves I (fetch f).
Proof. split; [|done]. intros s H. by split; [exact H|]. Qed.

Lemma extract_preserves s sid lid sym data :
  preserves (stores_nothing s) (extract_signal_features uuid_of stddev avg sid lid sym data).
Proof.
  unfold extract_signal_features. apply preserves_bind; [intros s' H; split; [exact H|done]|]. intros now.
  apply preserves_try; [|intros _ s' H; split; [exact H|done]].
  apply preserves_bind; [split; [intros s' H; split; [exact H|done]|done]|]. intros _.
  do 3 (apply preserves_bind; [apply fetch_preserves|intros ?]).
  apply preserves_bind; [destruct (dict_get _ _); [apply fetch_preserves|done]|]. intros ?.
  apply preserves_bind; [apply fetch_preserves|done].
Qed.

Lemma handle_preserves s msg : preserves (stores_nothing s) (handle msg).
Proof.
  unfold handle_signal. destruct (json_loads (msg_data msg)) as [[| | | | | |data]|]; try done.
  destruct (negb _); [split; [intros s' H; split; [exact H|done]|done]|].
  apply preserves_bind; [apply extract_preserves|]. intros [f|]; [|done].
  apply preserves_bind; [split; [intros s' H; split; [exact H|done]|done]|]. intros _. cbn [bind stmt_r].
  split; [|done]. intros s' H. unfold store_features. rewrite (proj1 H). by split.
Qed.

Lemma message_preserves s pool msg : preserves (stores_nothing s) (on_message pool msg).
Proof.
  unfold extractor_on_signal. apply preserves_bind; [intros s' H; split; [exact H|done]|]. intros _.
  destruct pool; cbn [negb]; [|split; [intros s' H; split; [exact H|done]|done]].
  apply preserves_bind; [apply preserves_try; [apply handle_preserves|]|].
  - intros _ s' H. split; [exact H|done].
  - intros [|]; [done|]. split; [intros s' H; split; [exact H|done]|done].
Qed.

(** The extractor acks but never stores.  Whatever the message and whatever
    fails, the handler acks the message exactly once and completes, or ends without
    an ack in the exception of the ack itself; and over the migrated schema, which
    has no unique index on [signal_features.signal_id], it stores no feature row and
    counts none as extracted. *)
Theorem extractor_acks_and_stores_nothing pool msg faults s :
  let s' := run_state (on_message pool msg) faults s in
  ((run_result (on_message pool msg) faults s = Ok tt /\ fx_acks s' = fx_acks s ++ [msg_id msg]) \/
   (run_result (on_message pool msg) faults s = Err AckError /\ fx_acks s' = fx_acks s)) /\
  (fx_unique s = false -> fx_rows s' = fx_rows s /\ fx_extracted s' = fx_extracted s).
Proof.
  cbn zeta. split.
  2: { intros Hu. apply (run_preserves (stores_nothing s) _ faults s (message_preserves s pool msg)). by split. }
  assert (forall fs s', fx_acks s' = fx_acks s -> let '(r, s2, _) := run (message_ack msg) fs s' in
    (r = Ok tt /\ fx_acks s2 = fx_acks s ++ [msg_id msg]) \/ (r = Err AckError /\ fx_acks s2 = fx_acks s)) as K
    by (intros [|[] fs] s' <-; simpl; auto).
  unfold run_result, run_state, extractor_on_signal. rewrite run_bind. cbn [act run ret].
  destruct pool; cbn [negb].
  2: { specialize (K faults (count_processed s) eq_refl). by destruct (run (message_ack msg) _ _) as [[r s2] fs2]. }
  rewrite run_bind, run_try. pose proof (handle_acks msg faults (count_processed s)) as H.
  destruct (run (handle msg) faults (count_processed s)) as [[[[|]|e] s1] fs1]; cbn [run act ret bind].
  - simpl in *. auto.
  - specialize (K fs1 s1 H). by destruct (run (message_ack msg) fs1 s1) as [[r s2] fs2].
  - specialize (K fs1 (count_error_fx s1) H). by destruct (run (message_ack msg) fs1 _) as [[r s2] fs2].
Qed.

(** Over a schema with the price table and the index, an undisturbed delivery
    of a JSON signal with its three ids stores exactly one row for the signal, and
    delivering it again updates that row. *)
Theorem extractor_stores_row msg data sid lid sym prices s sid_n lid_n
  (Hload : json_loads (msg_data msg) = Some (PDict data))
  (Hid : dict_get data "id" = Some (PStr sid)) (Hsid : uuid_of sid = Some sid_n)
  (Hlic : dict_get data "license_id" = Some (PStr lid)) (Hlid : uuid_of lid = Some lid_n)
  (Hsym : dict_get data "symbol" = Some (PStr sym))
  (Hne : sid <> ""%string /\ lid <> ""%string /\ sym <> ""%string)
  (Hacc : dict_get data "account_id" = None)
  (Hpr : fx_prices s = Some prices) (Hun : fx_unique s = true) :
  let s' := run_state (on_message true msg) [] s in
  exists f, fx_rows s' = upsert_features (mk_feature_row sid_n lid_n sym f) (fx_rows s) /\
    ft_frequency f = length (own_signals lid_n sym (db_now (fx_db s) - 7 * days) s) /\
    fx_extracted s' = S (fx_extracted s) /\ fx_errors s' = fx_errors s.
Proof.
  destruct Hne as (N1 & N2 & N3). cbn zeta. unfold run_state, extractor_on_signal, handle_signal.
  rewrite Hload, Hid, Hlic, Hsym. cbn [default from_option id truthy].
  rewrite !bool_decide_false by done. cbn [negb andb].
  unfold extract_signal_features. rewrite Hacc. cbn -[own_signals].
  unfold volatility_of. cbn -[own_signals]. rewrite Hpr. cbn -[own_signals].
  unfold frequency_of, win_rate_of, correlation_of. cbn -[own_signals]. rewrite !Hlid. cbn -[own_signals].
  rewrite ?Hlid. cbn -[own_signals]. unfold store_features. cbn -[own_signals]. rewrite Hun. cbn -[own_signals].
  rewrite ?Hsid, ?Hlid. cbn -[own_signals]. eexists. by split_and!.
Qed.

End Acks.

Module ExtractorDemo.

Definition uuid_of (s : string) : option nat := if bool_decide (s = "u1"%string) then Some 1%nat else None.
Definition json_loads (b : bytes) : option json :=
  match b with
  | [] => None
  | _ => Some (PDict [("id"%string, PStr "u1"); ("license_id"%string, PStr "u1"); ("symbol"%string, PStr "EURUSD")])
  end.
Definition none (l : list float) : option float := None.
Definition msg : message := mk_message 7 "signals.x" [x00].
Definition state (prices : option (list price_row)) (unique : bool) : fx_state :=
  mk_fx empty_db prices unique [] [] [] 0 0 0 [].

Lemma extractor_acks_and_stores_nothing_witness :
  fx_unique (state None false) = false /\
  fx_rows (run_state (extractor_on_signal uuid_of json_loads none none true msg) [] (state None false)) = [].
Proof.
  split; [reflexivity|].
  apply (extractor_acks_and_stores_nothing uuid_of json_loads none none true msg [] (state None false)). reflexivity.
Defined.

Lemma extractor_stores_row_witness :
  exists f, fx_rows (run_state (extractor_on_signal uuid_of json_loads none none true msg) [] (state (Some []) true)) =
    upsert_features (mk_feature_row 1 1 "EURUSD" f) [].
Proof.
  destruct (extractor_stores_row uuid_of json_loads none none msg
    [("id"%string, PStr "u1"); ("license_id"%string, PStr "u1"); ("symbol"%string, PStr "EURUSD")]
    "u1" "u1" "EURUSD" [] (state (Some []) true) 1 1) as (f & H & _); [try reflexivity; done..|].
  by exists f.
Defined.

End ExtractorDemo.
