(* ===== verification/Analytics.v ===== *)
(** * Analytics: read-only summaries

    apps/analytics/app.py: [signals_summary], [fills_summary] and
    [latency_stats], with the SQL they send ([GROUP BY], [ORDER BY cnt DESC],
    [PERCENTILE_CONT]) as functions on the tables.  Float code is generic in
    [Arith].  A [GROUP BY] returns its groups in order of first appearance. *)

From Stdlib Require Import ZArith QArith Qround SpecFloat Lqa Sorting.Sorted.
From S2P Require Import Prelude Text PyFloat PyVal Prog Db Tasks.
Open Scope Z_scope.

(** ** SQL aggregates *)

Fixpoint bump {K} `{EqDecision K} (k : K) (counts : list (K * nat)) : list (K * nat) :=
  match counts with
  | [] => [(k, 1%nat)]
  | (k', n) :: counts' => if bool_decide (k' = k) then (k', S n) :: counts' else (k', n) :: bump k counts'
  end.

(** [SELECT k, COUNT( * ) ... GROUP BY k]. *)
Definition group_count {K} `{EqDecision K} (l : list K) : list (K * nat) :=
  fold_left (fun c k => bump k c) l [].

(** [ORDER BY cnt DESC LIMIT n]. *)
Definition top {K} (n : nat) (groups : list (K * nat)) : list (K * nat) :=
  take n (sort_by (fun a b => (b.2 <? a.2)%nat) groups).

(** [counts.get(k, 0)] on the dict built from the rows. *)
Fixpoint count_of (counts : list (string * nat)) (k : string) : nat :=
  match counts with
  | [] => 0
  | (k', n) :: counts' => if bool_decide (k' = k) then n else count_of counts' k
  end.

Definition sum_counts (counts : list (string * nat)) : nat := sum_list (map snd counts).

Section Numbers.
Context {F : Type} {A : Arith F}.
Open Scope pyf_scope.

(** [PERCENTILE_CONT(p)]: linear interpolation between the two rows around
    position [p * (n - 1)]; NULL on no rows. *)
Definition percentile_cont (p : F) (xs : list F) : option F :=
  match sort_by f_ltb xs with
  | [] => None
  | x :: l =>
      let h := p * f_int (Z.of_nat (length l)) in
      match f_floor h with
      | None => None
      | Some k =>
          let lo := nth (Z.to_nat k) (x :: l) f_zero in
          let frac := h - f_int k in
          if frac =? f_zero then Some lo
          else let hi := nth (S (Z.to_nat k)) (x :: l) f_zero in Some (lo + frac * (hi - lo))
      end
  end.

(** [ROUND(x)::bigint]: halves away from zero. *)
Definition sql_round (x : F) : option Z :=
  if x <? f_zero then Z.opp <$> f_floor (f_zero - x + f_dec 5 (-1)) else f_floor (x + f_dec 5 (-1)).

Definition sql_avg (xs : list F) : option F :=
  match xs with [] => None | _ => Some (f_quot (fold_left f_add xs f_zero) (f_int (Z.of_nat (length xs)))) end.

(** [round(float(v), 1) if v is not None else None]. *)
Definition _ms (v : option F) : option F := f_round 1 <$> v.

(** [round(filled / attempts * 100, 2) if attempts > 0 else 0.0]. *)
Definition attempts_of (counts : list (string * nat)) : Z :=
  Z.of_nat (sum_counts counts) - Z.of_nat (count_of counts "placed") - Z.of_nat (count_of counts "cancelled").

Definition fill_rate (counts : list (string * nat)) : F :=
  if (0 <? attempts_of counts)%Z
  then f_round 2 (f_quot (f_int (Z.of_nat (count_of counts "filled"))) (f_int (attempts_of counts)) * f_int 100)
  else f_zero.

(** [EXTRACT(EPOCH FROM (f.created_at - s.received_at)) * 1000]. *)
Definition latency_ms (s : accepted) (f : fill) : F :=
  f_quot (f_int (fill_created f - Z.of_N (acc_received s))) (f_int 1000000).

End Numbers.

(** ** Endpoints *)

(** [accepted_signals s JOIN fills f ON f.trace_id = s.trace_id], filled only. *)
Definition filled_pairs (keep : accepted -> bool) (d : Db) : list (accepted * fill) :=
  flat_map (fun s => map (fun f => (s, f))
    (List.filter (fun f => bool_decide (fill_trace f = acc_trace s) &&
                           bool_decide (fill_status f = "filled"%string)) (db_fills d)))
    (List.filter keep (db_accepted d)).

Section Endpoints.
Context (uuid_of : string -> option nat).

(** [get_pool()]: 503 while there is no pool. *)
Definition get_pool (pool : bool) : prog Db exn unit :=
  if pool then ret tt else raise (HTTPException 503 "db unavailable").

(** The optional license filter: an empty string is no filter, another text must
    be a UUID to be bound. *)
Definition license_arg (license_id : option string) : result exn (option nat) :=
  match license_id with
  | None => Ok None
  | Some s =>
      if bool_decide (s = ""%string) then Ok None
      else match uuid_of s with Some n => Ok (Some n) | None => Err DataError end
  end.

Definition lquery {A} (license_id : option string) (f : option nat -> Db -> A) : prog Db exn A :=
  stmt_r DbError (fun d => (rbind (license_arg license_id) (fun lic => Ok (f lic d)), d)).

Definition of_license (lic : option nat) (id : nat) : bool :=
  match lic with None => true | Some n => bool_decide (id = n) end.

(** [Query(24, ge=1, le=8760)]: 422 otherwise. *)
Definition hours_arg (window_hours : Z) : prog Db exn unit :=
  if (1 <=? window_hours) && (window_hours <=? 8760) then ret tt
  else raise (HTTPException 422 "window_hours").

(** [t >= NOW() - (h || ' hours')::interval]. *)
Definition within (window_hours : Z) (t : Z) (d : Db) : bool := db_now d - window_hours * 3600 * seconds <=? t.

Definition recent_signals (window_hours : Z) (lic : option nat) (d : Db) : list accepted :=
  List.filter (fun s => within window_hours (Z.of_N (acc_received s)) d && of_license lic (acc_license s))
              (db_accepted d).

Record signals_summary_row := mk_signals_summary {
  ss_window : Z; ss_total : nat; ss_by_command : list (string * nat); ss_by_symbol : list (string * nat) }.

Definition signals_summary (pool : bool) (license_id : option string) (window_hours : Z)
  : prog Db exn signals_summary_row :=
  hours_arg window_hours ;;; get_pool pool ;;;
  total <- lquery license_id (fun lic d => length (recent_signals window_hours lic d)) ;;
  by_command <- lquery license_id (fun lic d =>
    top 20 (group_count (map acc_command (recent_signals window_hours lic d)))) ;;
  by_symbol <- lquery license_id (fun lic d =>
    top 20 (group_count (map acc_symbol (recent_signals window_hours lic d)))) ;;
  ret (mk_signals_summary window_hours total by_command by_symbol).

Definition recent_fills (window_hours : Z) (lic : option nat) (d : Db) : list fill :=
  List.filter (fun f => within window_hours (fill_created f) d && of_license lic (fill_license f)) (db_fills d).

Context {F : Type} {A : Arith F}.

Record fills_summary_row := mk_fills_summary {
  fs_window : Z; fs_total : nat; fs_attempts : Z; fs_rate : F; fs_by_status : list (string * nat) }.

Definition fills_summary (pool : bool) (license_id : option string) (window_hours : Z)
  : prog Db exn fills_summary_row :=
  hours_arg window_hours ;;; get_pool pool ;;;
  counts <- lquery license_id (fun lic d => group_count (map fill_status (recent_fills window_hours lic d))) ;;
  ret (mk_fills_summary window_hours (sum_counts counts) (attempts_of counts) (fill_rate counts) counts).

Definition latencies (window_hours : Z) (lic : option nat) (d : Db) : list F :=
  map (fun sf => latency_ms sf.1 sf.2)
    (filled_pairs (fun s => within window_hours (Z.of_N (acc_received s)) d && of_license lic (acc_license s)) d).

Record latency_row := mk_latency {
  lt_window : Z; lt_count : nat; lt_avg : option F; lt_p50 : option F; lt_p95 : option F; lt_p99 : option F }.

(** The aggregate row of the statement. *)
Definition latency_aggregate (window_hours : Z) (xs : list F) : latency_row :=
  mk_latency window_hours (length xs)
    (f_int <$> (sql_avg xs ≫= sql_round))
    (percentile_cont (f_dec 50 (-2)) xs) (percentile_cont (f_dec 95 (-2)) xs)
    (percentile_cont (f_dec 99 (-2)) xs).

(** No sample: only the window and a zero count are returned. *)
Definition latency_stats (pool : bool) (license_id : option string) (window_hours : Z)
  : prog Db exn latency_row :=
  hours_arg window_hours ;;; get_pool pool ;;;
  row <- lquery license_id (fun lic d => latency_aggregate window_hours (latencies window_hours lic d)) ;;
  if (lt_count row =? 0)%nat then ret (mk_latency window_hours 0 None None None None)
  else ret (mk_latency window_hours (lt_count row) (_ms (lt_avg row)) (_ms (lt_p50 row))
                       (_ms (lt_p95 row)) (_ms (lt_p99 row))).

End Endpoints.

(** ** Counting by group *)

Lemma count_bump k k' counts :
  count_of (bump k counts) k' = (count_of counts k' + if bool_decide (k = k') then 1 else 0)%nat.
Proof.
  induction counts as [|[k0 n] counts IH]; simpl.
  - by destruct (bool_decide (k = k')).
  - destruct (decide (k0 = k)) as [->|Hk].
    + rewrite (bool_decide_true (k = k)) by done. simpl. destruct (bool_decide (k = k')); lia.
    + rewrite (bool_decide_false (k0 = k)) by done. simpl.
      destruct (decide (k0 = k')) as [->|Hk'].
      * rewrite (bool_decide_true (k' = k')) by done. rewrite (bool_decide_false (k = k')) by done. lia.
      * rewrite (bool_decide_false (k0 = k')) by done. apply IH.
Qed.

Lemma sum_bump k counts : sum_counts (bump k counts) = S (sum_counts counts).
Proof.
  unfold sum_counts. induction counts as [|[k0 n] counts IH]; simpl; [done|].
  destruct (bool_decide (k0 = k)); simpl; lia.
Qed.

Lemma group_count_fold l c k :
  count_of (fold_left (fun c k => bump k c) l c) k =
    (count_of c k + length (List.filter (fun x => bool_decide (x = k)) l))%nat /\
  sum_counts (fold_left (fun c k => bump k c) l c) = (sum_counts c + length l)%nat.
Proof.
  revert c. induction l as [|x l IH]; intros c; simpl; [lia|].
  destruct (IH (bump x c)) as [-> ->]. rewrite count_bump, sum_bump.
  destruct (bool_decide (x = k)); simpl; lia.
Qed.

Lemma count_group (l : list string) k :
  count_of (group_count l) k = length (List.filter (fun x => bool_decide (x = k)) l).
Proof. apply (group_count_fold l [] k). Qed.

Lemma sum_group (l : list string) : sum_counts (group_count l) = length l.
Proof. apply (group_count_fold l [] ""%string). Qed.

(** The fills that attempted execution. *)
Definition attempted (status : string) : bool :=
  negb (bool_decide (status = "placed"%string)) && negb (bool_decide (status = "cancelled"%string)).

Lemma attempts_group l : attempts_of (group_count l) = Z.of_nat (length (List.filter attempted l)).
Proof.
  unfold attempts_of. rewrite sum_group, !count_group. unfold attempted.
  induction l as [|x l IH]; [done|]. cbn [List.filter length].
  destruct (bool_decide (x = "placed"%string)) eqn:E1; destruct (bool_decide (x = "cancelled"%string)) eqn:E2;
    cbn [andb negb length]; try lia.
  apply bool_decide_eq_true in E1, E2. congruence.
Qed.

Lemma filled_le_attempts l :
  (length (List.filter (fun x => bool_decide (x = "filled"%string)) l) <= length (List.filter attempted l))%nat.
Proof.
  apply filter_length_mono. intros x _ Hx%bool_decide_eq_true. by subst.
Qed.

Lemma ratio_bounds (a b : Z) : 0 <= a <= b -> 0 < b ->
  (0 <= inject_Z a / inject_Z b * 100 <= 100)%Q.
Proof.
  intros Ha Hb. assert (0 < inject_Z b)%Q as Hq by (change 0%Q with (inject_Z 0); by rewrite <- Zlt_Qlt).
  assert (0 <= inject_Z a / inject_Z b <= 1)%Q; [|lra]. split.
  - apply Qle_shift_div_l; [done|]. rewrite Qmult_0_l. change 0%Q with (inject_Z 0). rewrite <- Zle_Qle; lia.
  - apply Qle_shift_div_r; [done|]. rewrite Qmult_1_l. rewrite <- Zle_Qle; lia.
Qed.

Lemma fill_rate_bounds l : (0 <= fill_rate (F:=Q) (group_count l) <= 100)%Q.
Proof.
  unfold fill_rate. rewrite attempts_group, count_group.
  destruct (Z.ltb_spec 0 (Z.of_nat (length (List.filter attempted l)))) as [Hp|_];
    [|split; unfold f_zero; rewrite f_int_q; done].
  pose proof (filled_le_attempts l) as Hle. cbn [f_round f_mul f_quot ArithQ].
  set (b := Z.of_nat (length (List.filter attempted l))) in *.
  set (a := Z.of_nat (length (List.filter (fun x => bool_decide (x = "filled"%string)) l))) in *.
  assert (0 <= f_int (F:=Q) a / f_int b * f_int 100 <= 100)%Q as [B1 B2].
  { rewrite !f_int_q. apply ratio_bounds; lia. }
  split.
  - apply Qle_trans with (q_round 2 (inject_Z 0)); [by rewrite q_round_int|apply q_round_mono, B1].
  - eapply Qle_trans; [by apply (q_round_mono 2 _ (inject_Z 100))|]. by rewrite q_round_int.
Qed.

Section Answers.
Context (uuid_of : string -> option nat).

(** The fill summary counts.  With a pool, a legal window and a license filter
    that is absent or a UUID, an undisturbed request answers: the total is the
    number of fills of the window, each status is counted exactly, the attempts are
    the fills that are neither placed nor cancelled, and the rate is a percentage
    (in exact arithmetic). *)
Theorem fills_summary_counts license_id lic w d
  (Hw : 1 <= w <= 8760) (Hl : license_arg uuid_of license_id = Ok lic) :
  exists s, run_result (fills_summary uuid_of (F:=Q) true license_id w) [] d = Ok s /\
    let fills := recent_fills w lic d in
    fs_total s = length fills /\
    (forall k, count_of (fs_by_status s) k =
       length (List.filter (fun f => bool_decide (fill_status f = k)) fills)) /\
    fs_attempts s = Z.of_nat (length (List.filter (fun f => attempted (fill_status f)) fills)) /\
    (0 <= fs_rate s <= 100)%Q.
Proof.
  assert (forall (p : string -> bool) l, length (List.filter p (map fill_status l)) =
    length (List.filter (fun f => p (fill_status f)) l)) as Hmap.
  { intros p l. induction l as [|f l IH]; [done|]. simpl. destruct (p (fill_status f)); simpl; by rewrite IH. }
  unfold run_result, fills_summary, hours_arg. rewrite (proj2 (Z.leb_le 1 w)), (proj2 (Z.leb_le w 8760)) by lia.
  simpl. rewrite Hl. simpl. eexists. split; [reflexivity|]. simpl.
  rewrite sum_group, length_map, attempts_group. split_and!; [done| | |apply fill_rate_bounds..].
  - intros k. by rewrite count_group, Hmap.
  - by rewrite Hmap.
Qed.

(** ** Percentiles in exact arithmetic *)

Lemma sorted_nth (l : list Q) i j :
  StronglySorted Qle l -> (i <= j < length l)%nat -> (nth i l 0 <= nth j l 0)%Q.
Proof.
  intros Hs. revert i j. induction Hs as [|x l Hs IH Hf]; intros i j Hij; simpl in *; [lia|].
  destruct i as [|i], j as [|j]; try lia; [apply Qle_refl| |apply IH; lia].
  rewrite Stdlib.Lists.List.Forall_forall in Hf. apply Hf, nth_In. lia.
Qed.

Lemma q_sorted (xs : list Q) : StronglySorted Qle (sort_by f_ltb xs).
Proof.
  apply sort_by_sorted; [exact Qle_trans|]. intros x y. cbn [f_ltb ArithQ].
  destruct (q_ltb x y) eqn:E; q_tests; lra.
Qed.

(** The interpolation at position [h] of a sorted list. *)
Definition interpolate (l : list Q) (h : Q) : Q :=
  let k := Qfloor h in
  let lo := nth (Z.to_nat k) l f_zero in
  if Qeq_bool (h - f_int k)%Q f_zero then lo
  else (lo + (h - f_int k) * (nth (S (Z.to_nat k)) l f_zero - lo))%Q.

Lemma percentile_interpolate p xs : xs <> [] ->
  percentile_cont p xs = Some (interpolate (sort_by f_ltb xs) (p * f_int (Z.of_nat (length xs - 1)))%Q).
Proof.
  intros Hx. unfold percentile_cont.
  assert (length (sort_by f_ltb xs) = length xs) as Hlen by (by rewrite sort_by_perm).
  destruct (sort_by f_ltb xs) as [|x l] eqn:E; [destruct xs; simpl in Hlen; congruence|].
  simpl in Hlen. rewrite <- Hlen. replace (S (length l) - 1)%nat with (length l) by lia.
  cbn [f_floor f_mul f_sub f_eqb f_add ArithQ]. unfold interpolate. by destruct (Qeq_bool _ _).
Qed.

(** Between its two rows. *)
Lemma interpolate_between l h :
  StronglySorted Qle l -> (0 <= h)%Q -> (h <= inject_Z (Z.of_nat (length l - 1)))%Q -> l <> [] ->
  let k := Z.to_nat (Qfloor h) in
  (k < length l)%nat /\ (nth k l 0 <= interpolate l h)%Q /\
  (interpolate l h <= nth (Nat.min (S k) (length l - 1)) l 0)%Q.
Proof.
  intros Hs H0 Hn Hl. cbn zeta. destruct (q_floor_spec h) as [F1 F2].
  assert (0 <= Qfloor h)%Z as Hk0 by (apply (Qfloor_resp_le 0 h H0)).
  assert (Qfloor h <= Z.of_nat (length l - 1))%Z as HkN.
  { rewrite Zle_Qle. lra. }
  destruct l as [|x0 l0] eqn:El; [done|]. rewrite <- El in *. assert (0 < length l)%nat by (rewrite El; simpl; lia).
  set (k := Z.to_nat (Qfloor h)). assert (k < length l)%nat as Hk by lia. split; [done|].
  unfold interpolate. fold k. change (f_zero (F:=Q)) with (f_int (F:=Q) 0).
  replace (nth k l (f_int 0)) with (nth k l 0%Q) by (apply nth_indep; lia).
  destruct (Qeq_bool _ _) eqn:E; q_tests; rewrite ?f_int_q in E.
  - split; [apply Qle_refl|]. apply sorted_nth; [done|lia].
  - assert (S k <= length l - 1)%nat as HS.
    { destruct (Z.eq_dec (Qfloor h) (Z.of_nat (length l - 1))) as [Ee|Ne]; [|lia].
      exfalso. apply E. rewrite <- Ee in Hn. change (inject_Z 0) with 0%Q. lra. }
    rewrite Nat.min_l by done. rewrite (nth_indep l (f_int 0) 0%Q) by lia.
    assert (nth k l 0 <= nth (S k) l 0)%Q as Hinc by (apply sorted_nth; [done|lia]).
    rewrite f_int_q. rewrite inject_Z_plus in F2. change (inject_Z 1) with 1%Q in F2. split; nra.
Qed.

Lemma interpolate_mono l h1 h2 :
  StronglySorted Qle l -> l <> [] -> (0 <= h1)%Q -> (h1 <= h2)%Q ->
  (h2 <= inject_Z (Z.of_nat (length l - 1)))%Q -> (interpolate l h1 <= interpolate l h2)%Q.
Proof.
  intros Hs Hl H0 H12 Hn.
  destruct (interpolate_between l h1 Hs H0) as (K1 & L1 & U1); [lra|done|].
  destruct (interpolate_between l h2 Hs) as (K2 & L2 & U2); [lra|done|done|].
  pose proof (Qfloor_resp_le h1 h2 H12) as Hf.
  assert (0 <= Qfloor h1)%Z as Hk0 by (apply (Qfloor_resp_le 0 h1 H0)).
  destruct (Z.eq_dec (Qfloor h1) (Qfloor h2)) as [Ek|Nk].
  - destruct (q_floor_spec h1) as [F1 F1']. destruct (q_floor_spec h2) as [F2 F2'].
    unfold interpolate in *. rewrite Ek in *. set (k := Z.to_nat (Qfloor h2)) in *.
    destruct (Qeq_bool (h1 - _) _) eqn:E1; destruct (Qeq_bool (h2 - _) _) eqn:E2; q_tests;
      unfold f_zero in E1, E2; rewrite ?f_int_q in E1; rewrite ?f_int_q in E2.
    + apply Qle_refl.
    + rewrite (nth_indep l f_zero 0%Q) at 1 by lia. exact L2.
    + exfalso. apply E1. change (inject_Z 0) with 0%Q in *. lra.
    + assert (S k < length l)%nat.
      { destruct (Nat.lt_ge_cases (S k) (length l)); [done|]. exfalso. apply E2. change (inject_Z 0) with 0%Q.
        assert (inject_Z (Z.of_nat (length l - 1)) <= inject_Z (Qfloor h2))%Q by (rewrite <- Zle_Qle; lia). lra. }
      rewrite !(nth_indep l f_zero 0%Q) by lia.
      assert (nth k l 0 <= nth (S k) l 0)%Q by (apply sorted_nth; [done|lia]). rewrite !f_int_q. nra.
  - eapply Qle_trans; [exact U1|]. eapply Qle_trans; [|exact L2]. apply sorted_nth; [done|]. lia.
Qed.

(** A percentile lies between any bounds of the samples. *)
Lemma interpolate_range l h lo hi :
  StronglySorted Qle l -> l <> [] -> (0 <= h)%Q -> (h <= inject_Z (Z.of_nat (length l - 1)))%Q ->
  (forall x, x ∈ l -> (lo <= x <= hi)%Q) -> (lo <= interpolate l h <= hi)%Q.
Proof.
  intros Hs Hl H0 Hn Hb. destruct (interpolate_between l h Hs H0 Hn Hl) as (K & L & U).
  assert (forall i, (i < length l)%nat -> (lo <= nth i l 0 <= hi)%Q) as Hnth.
  { intros i Hi. apply Hb, list_elem_of_In, nth_In, Hi. }
  split; [eapply Qle_trans; [apply Hnth, K|exact L]|eapply Qle_trans; [exact U|apply Hnth; lia]].
Qed.

(** Latency percentiles are ordered.  An undisturbed request with samples
    reports their number and p50 <= p95 <= p99, each within the rounded bounds of
    the samples (in exact arithmetic). *)
Theorem latency_percentiles_ordered license_id lic w d lo hi
  (Hw : 1 <= w <= 8760) (Hl : license_arg uuid_of license_id = Ok lic)
  (Hne : latencies (F:=Q) w lic d <> [])
  (Hb : forall x, x ∈ latencies (F:=Q) w lic d -> (lo <= x <= hi)%Q) :
  exists r p50 p95 p99,
    run_result (latency_stats uuid_of (F:=Q) true license_id w) [] d = Ok r /\
    lt_count r = length (latencies (F:=Q) w lic d) /\
    lt_p50 r = Some p50 /\ lt_p95 r = Some p95 /\ lt_p99 r = Some p99 /\
    (q_round 1 lo <= p50)%Q /\ (p50 <= p95)%Q /\ (p95 <= p99)%Q /\ (p99 <= q_round 1 hi)%Q.
Proof.
  set (xs := latencies (F:=Q) w lic d) in *. set (l := sort_by f_ltb xs).
  assert (length l = length xs) as Hlen by (unfold l; by rewrite sort_by_perm).
  assert (0 < length xs)%nat as Hpos by (destruct xs; [done|simpl; lia]).
  assert (l <> []) as Hln by (intros E; rewrite E in Hlen; simpl in Hlen; lia).
  set (n := inject_Z (Z.of_nat (length l - 1))).
  assert (0 <= n)%Q as Hn0 by (unfold n; change 0%Q with (inject_Z 0); rewrite <- Zle_Qle; lia).
  set (at_ := fun p => interpolate l (p * f_int (Z.of_nat (length xs - 1)))%Q).
  assert (forall p q, (0 <= p)%Q -> (p <= q)%Q -> (q <= 1)%Q -> (at_ p <= at_ q)%Q) as Hmono.
  { intros p q H0 H1 H2. unfold at_. rewrite <- Hlen.
    apply interpolate_mono; [apply q_sorted|done|rewrite f_int_q; fold n; nra..]. }
  assert (forall p, (0 <= p)%Q -> (p <= 1)%Q -> (lo <= at_ p <= hi)%Q) as Hrange.
  { intros p H0 H1. unfold at_. rewrite <- Hlen.
    apply interpolate_range; [apply q_sorted|done|rewrite f_int_q; fold n; nra..|].
    intros x Hx. apply Hb. unfold l in Hx. by rewrite elem_sort_by in Hx. }
  exists (mk_latency w (length xs) (_ms (lt_avg (latency_aggregate w xs))) (Some (q_round 1 (at_ (f_dec 50 (-2)))))
    (Some (q_round 1 (at_ (f_dec 95 (-2))))) (Some (q_round 1 (at_ (f_dec 99 (-2)))))).
  do 3 eexists. split.
  { unfold run_result, latency_stats, hours_arg.
    rewrite (proj2 (Z.leb_le 1 w)), (proj2 (Z.leb_le w 8760)) by lia. simpl. rewrite Hl. simpl. fold xs.
    destruct (Nat.eqb_spec (length xs) 0); [lia|]. simpl. by rewrite !percentile_interpolate by done. }
  simpl. split_and!; try reflexivity; apply q_round_mono; try apply Hmono; try apply Hrange; done.
Qed.

End Answers.

(** ** A concrete hour *)

Module AnalyticsDemo.

Definition uuid_of (s : string) : option nat := if bool_decide (s = "u1"%string) then Some 1%nat else None.
Definition sig (id : nat) (trace : string) : accepted :=
  mk_accepted id 0 1 None trace "eu" "buy" "EURUSD" PNone None.
Definition fill_of (id : nat) (trace status : string) (at_ms : Z) : fill :=
  mk_fill id None 1 None trace status None None None PNone (at_ms * 1000000).
Definition d0 : Db := mk_db (3600 * seconds) 10 [] [] [] []
  [sig 1 "a"; sig 2 "b"; sig 3 "c"]
  [fill_of 4 "a" "placed" 5; fill_of 5 "a" "filled" 20; fill_of 6 "b" "filled" 40; fill_of 7 "c" "rejected" 7]
  [] [] [] [] [] [] [] [] [] [].

Example fills_summary_d0 :
  run_result (fills_summary uuid_of (F:=Q) true None 24) [] d0 =
  Ok (mk_fills_summary 24 4 3 (6667 # 100) [("placed", 1); ("filled", 2); ("rejected", 1)]%nat%string).
Proof. reflexivity. Qed.

Lemma fills_summary_counts_witness :
  exists s, run_result (fills_summary uuid_of (F:=Q) true (Some "u1"%string) 24) [] d0 = Ok s /\
    fs_total s = 4%nat /\ (0 <= fs_rate s <= 100)%Q.
Proof.
  destruct (fills_summary_counts uuid_of (Some "u1"%string) (Some 1%nat) 24 d0) as (s & H & H1 & _ & _ & H4);
    [lia|reflexivity|]. by exists s.
Defined.

Lemma latency_percentiles_ordered_witness :
  exists r p50 p95 p99,
    run_result (latency_stats uuid_of (F:=Q) true None 24) [] d0 = Ok r /\ lt_count r = 2%nat /\
    lt_p50 r = Some p50 /\ lt_p95 r = Some p95 /\ lt_p99 r = Some p99 /\
    (q_round 1 20 <= p50)%Q /\ (p50 <= p95)%Q /\ (p95 <= p99)%Q /\ (p99 <= q_round 1 40)%Q.
Proof.
  apply (latency_percentiles_ordered uuid_of None None 24 d0 20 40); [lia|reflexivity|done|].
  intros x Hx. apply list_elem_of_In in Hx.
  assert (forallb (fun x => Qle_bool 20 x && Qle_bool x 40) (latencies (F:=Q) 24 None d0) = true) as Hall
    by reflexivity.
  rewrite forallb_forall in Hall. specialize (Hall x Hx). bool_hyps. by q_tests.
Defined.

End AnalyticsDemo.
