(* ===== verification/EaShim.v ===== *)
(** * EaShim: executing signals in the MT5 terminal

    scripts/ea_shim.py: $-risk sizing, market and pending orders, closing and
    amending positions, the [execute] dispatcher with the fill report, and the
    position monitor with one-cancels-other and breakeven.

    The terminal is third-party code: the record [Broker] holds the [mt5]
    functions the script calls, over an abstract terminal state that every call
    may change (prices move, orders fill).  The trade store is the record
    [Store].  Each call is written to [trace], in order, so that properties of
    what the script sends are properties of the trace.  A Python exception is
    [Err]; the requests sent before it stay in the trace. *)

From Stdlib Require Import ZArith QArith Qround Qabs Lqa SpecFloat Ascii.
From S2P Require Import Prelude Text PyFloat PyVal.
Open Scope Z_scope.

(** ** The terminal *)

Inductive side := Buy | Sell.
#[export] Instance side_eq_dec : EqDecision side.
Proof. solve_decision. Defined.

Inductive pending_kind := BuyLimit | SellLimit | BuyStop | SellStop.
Inductive filling := IOC | FOK | RETURN.

(** [TRADE_RETCODE_*] as far as the script distinguishes them. *)
Inductive retcode := DONE | INVALID_FILL | INVALID_PRICE | OtherCode (n : Z).
#[export] Instance retcode_eq_dec : EqDecision retcode.
Proof. solve_decision. Defined.

(** [DEAL_REASON_*]. *)
Inductive deal_reason := REASON_TP | REASON_SL | OtherReason (n : Z).
#[export] Instance deal_reason_eq_dec : EqDecision deal_reason.
Proof. solve_decision. Defined.

(** [ArithError] is a [ValueError], [OverflowError] or [ZeroDivisionError] of the
    float arithmetic. *)
Inductive exn := AttributeError | TypeError | ArithError | StoreError.

Section Shim.
Context {F : Type} {A : Arith F}.
Open Scope pyf_scope.

Record sym_info := mk_sym {
  trade_tick_value : F; trade_tick_size : F; volume_step : F; volume_min : F; volume_max : F }.

Record tick := mk_tick { ask : F; bid : F }.

Record position := mk_position {
  p_ticket : Z; p_symbol : string; p_type : side; p_magic : Z; p_volume : F;
  p_price_open : F; p_sl : F; p_tp : F; p_comment : string }.

Record resting := mk_resting { o_ticket : Z; o_magic : Z }.

Record deal := mk_deal {
  d_entry_in : bool; d_profit : F; d_commission : F; d_swap : F; d_price : F;
  d_reason : option deal_reason }.

Record account := mk_account {
  a_login : Z; a_company : string; a_balance : F; a_equity : F; a_margin_free : F; a_demo : bool }.

(** The [order_send] requests; an omitted [sl] or [tp] key is [None].  Deviation
    and time in force are constants. *)
Inductive request :=
| ReqDeal (symbol : string) (volume : F) (type : side) (close_of : option Z) (price : F)
          (sl tp : option F) (magic : Z) (comment : string) (fill : filling)
| ReqPending (symbol : string) (volume : F) (type : pending_kind) (price : F)
             (sl tp : option F) (magic : Z) (comment : string) (fill : filling)
| ReqSltp (symbol : string) (position : Z) (sl tp : F) (magic : Z)
| ReqRemove (order : Z).

Record send_result := mk_sent { r_retcode : retcode; r_order : Z; r_comment : string }.

Record Broker (T : Type) := mk_broker {
  symbol_info : string -> T -> option sym_info * T;
  symbol_info_tick : string -> T -> option tick * T;
  symbol_select : string -> T -> T;
  positions_get : option string -> T -> list position * T;
  orders_get : T -> list resting * T;
  history_deals_get : Z -> T -> list deal * T;
  order_send : request -> T -> option send_result * T;
  account_info : T -> option account * T;
  last_error : T -> string }.
Arguments symbol_info {T}. Arguments symbol_info_tick {T}. Arguments symbol_select {T}.
Arguments positions_get {T}. Arguments orders_get {T}. Arguments history_deals_get {T}.
Arguments order_send {T}. Arguments account_info {T}. Arguments last_error {T}.

(** An order row of the trade store, as [sibling_order_rows] returns it. *)
Record order_row := mk_row {
  w_order_id : option string; w_tp : pyval F; w_command : option string; w_channel : option string }.

(** The trade store functions used here; [Err] is an exception. *)
Record Store := mk_store {
  get_symbol_map : string -> option string;
  sibling_broker_order_ids : string -> result exn (list string);
  sibling_order_rows : string -> result exn (list order_row);
  breakeven_flag : option string -> result exn bool }.

(** What the script did, in order. *)
Inductive event :=
| Listed (ps : list position)
| ListedOrders (os : list resting)
| Sent (req : request) (res : option send_result)
| ClosedTrade (ticket : Z) (symbol : string) (type : side) (close_price profit : F)
| EquitySnapshot (balance equity floating : F)
| Heartbeat (a : option account).

(** Why an order or a change was refused. *)
Inductive exec_error :=
| NoMarketData (symbol : string)
| SendReturnedNone (err : string)
| BadRetcode (rc : retcode) (comment : string)
| CloseFailed (ticket : Z) (rc : option retcode) (err : string)
| ModifyFailed (ticket : Z) (rc : option retcode) (err : string)
| RiskTooSmall (symbol : string) (risk sl ref : F)
| EntryRequired
| FallbackFailed (merr : exec_error)
| SltpRequiresLevel
| UnknownCommand (command : string).

(** ** State and exceptions *)

Record state (T : Type) := mk_state { term : T; trace : list event }.
Arguments mk_state {T}. Arguments term {T}. Arguments trace {T}.

Context {T : Type} (B : Broker T) (store : Store).

Definition shim (X : Type) : Type := state T -> result exn X * state T.

Definition pure {X} (x : X) : shim X := fun s => (Ok x, s).
Definition throw {X} (e : exn) : shim X := fun s => (Err e, s).
Definition andthen {X Y} (m : shim X) (k : X -> shim Y) : shim Y := fun s =>
  match m s with (Ok x, s') => k x s' | (Err e, s') => (Err e, s') end.

#[local] Notation "x <~ m ;; k" := (andthen m (fun x => k))
  (at level 100, m at next level, right associativity).
#[local] Notation "m ~;; k" := (andthen m (fun _ => k)) (at level 100, right associativity).

(** [try: m except Exception: log]. *)
Definition swallow (m : shim unit) : shim unit := fun s =>
  match m s with (_, s') => (Ok tt, s') end.

Definition lift {X} (r : result exn X) : shim X := fun s => (r, s).
Definition emit (e : event) : shim unit := fun s => (Ok tt, mk_state (term s) (trace s ++ [e])).

(** A read of the terminal that leaves no event. *)
Definition peek {X} (f : T -> X * T) : shim X := fun s =>
  let '(x, t) := f (term s) in (Ok x, mk_state t (trace s)).

Definition list_positions (symbol : option string) : shim (list position) := fun s =>
  let '(ps, t) := positions_get B symbol (term s) in (Ok ps, mk_state t (trace s ++ [Listed ps])).

Definition list_orders : shim (list resting) := fun s =>
  let '(os, t) := orders_get B (term s) in (Ok os, mk_state t (trace s ++ [ListedOrders os])).

Definition send (req : request) : shim (option send_result) := fun s =>
  let '(r, t) := order_send B req (term s) in (Ok r, mk_state t (trace s ++ [Sent req r])).

Definition error_text : shim string := fun s => (Ok (last_error B (term s)), s).

(** ** Configuration *)

Context (MAGIC : Z) (PENDING_FALLBACK CANCEL_SIBLINGS_ON_CLOSE : bool) (RISK_USD : F).

Definition show_ticket (t : Z) : string := pretty t.

(** ** Sizing *)

(** The first key that holds a number. *)
Fixpoint fnum (params : pydict F) (keys : list string) (dflt : F) : F :=
  match keys with
  | [] => dflt
  | k :: keys' =>
      match get params k with
      | PNone | PStr ""%string => fnum params keys' dflt
      | v => match to_float v with Some x => x | None => fnum params keys' dflt end
      end
  end.

(** The volume for a budget, once the specification of the symbol is known.
    [None] is an exception of the arithmetic (a NaN or infinite quotient, a zero
    loss per lot). *)
Definition size_for (info : sym_info) (distance risk_usd : F) : option F :=
  q ← f_div distance (trade_tick_size info);
  let loss_per_lot := q * trade_tick_value info in
  let step := if f_truthy (volume_step info) then volume_step info else f_dec 1 (-2) in
  per ← f_div risk_usd loss_per_lot;
  steps ← f_div per step;
  n ← f_floor steps;
  let vol := f_round 8 (f_int n * step) in
  Some (if vol <? volume_min info then f_zero else py_min vol (volume_max info)).

Definition sized_volume (symbol : string) (ref_price sl requested risk_usd : F) : shim F :=
  if (risk_usd <=? f_zero) || (sl <=? f_zero) || (ref_price <=? f_zero) then pure requested
  else
    info <~ peek (symbol_info B symbol) ;;
    match info with
    | None => pure requested
    | Some i =>
        if (trade_tick_value i <=? f_zero) || (trade_tick_size i <=? f_zero) then pure requested
        else
          let distance := f_abs (ref_price - sl) in
          if distance <=? f_zero then pure requested
          else match size_for i distance risk_usd with
               | Some v => pure v
               | None => throw ArithError
               end
    end.

(** ** Closed positions, siblings, breakeven *)

Definition last_deal (out : list deal) : option deal := List.last (map Some out) None.

(** Realized result, close price and the broker's own reason. *)
Definition _closed_result (ticket : Z) : shim (F * F * option deal_reason) :=
  deals <~ peek (history_deals_get B ticket) ;;
  let out := List.filter (fun d => negb (d_entry_in d)) deals in
  let profit := py_sum (map (fun d => d_profit d + d_commission d + d_swap d) out) in
  pure (profit, default f_zero (d_price <$> last_deal out), last_deal out ≫= d_reason).

Definition done (res : option send_result) : bool :=
  match res with Some r => bool_decide (r_retcode r = DONE) | None => false end.

Definition elem (s : string) (l : list string) : bool := existsb (fun x => bool_decide (x = s)) l.

Fixpoint cancel_loop (wanted : list string) (os : list resting) (removed failures : list string)
  : shim (list string * list string) :=
  match os with
  | [] => pure (removed, failures)
  | o :: os' =>
      if negb (elem (show_ticket (o_ticket o)) wanted) || negb (o_magic o =? MAGIC)%Z
      then cancel_loop wanted os' removed failures
      else
        res <~ send (ReqRemove (o_ticket o)) ;;
        if done res then cancel_loop wanted os' (removed ++ [show_ticket (o_ticket o)]) failures
        else cancel_loop wanted os' removed (failures ++ [show_ticket (o_ticket o)])
  end.

Definition cancel_pending_orders (tickets : list string) : shim (list string * list string) :=
  match tickets with
  | [] => pure ([], [])
  | _ => os <~ list_orders ;; cancel_loop tickets os [] []
  end.

Definition _cancel_siblings_after_close (ticket : Z) : shim unit :=
  swallow (siblings <~ lift (sibling_broker_order_ids store (show_ticket ticket)) ;;
           match siblings with
           | [] => pure tt
           | _ => cancel_pending_orders siblings ~;; pure tt
           end).

Inductive tp_kind := Half | Full.

Definition own_row (ticket : Z) (r : order_row) : bool :=
  bool_decide (default "None"%string (w_order_id r) = show_ticket ticket).

(** Some sibling's target lies further in the direction of profit. *)
Definition further (profit_is_up : bool) (own_tp : F) (r : order_row) : bool :=
  match w_tp r with
  | PNone => false
  | v => match to_float v with
         | Some sib => if profit_is_up then own_tp <? sib else sib <? own_tp
         | None => false
         end
  end.

Definition _classify_tp_close (ticket : Z) (rows : list order_row) : option (tp_kind * option string) :=
  match List.find (own_row ticket) rows with
  | None => None
  | Some own =>
      match w_tp own with
      | PNone => None
      | v =>
          match to_float v with
          | None => None
          | Some own_tp =>
              let command := lower (default ""%string (w_command own)) in
              let up := contains command "buy" in
              if negb up && negb (contains command "sell") then None
              else
                let siblings := List.filter (fun r => negb (own_row ticket r)) rows in
                Some (if existsb (further up own_tp) siblings then Half else Full, w_channel own)
          end
      end
  end.

Fixpoint breakeven_loop (wanted : list string) (ps : list position) : shim unit :=
  match ps with
  | [] => pure tt
  | p :: ps' =>
      if negb (p_magic p =? MAGIC)%Z || negb (elem (show_ticket (p_ticket p)) wanted)
      then breakeven_loop wanted ps'
      else
        send (ReqSltp (p_symbol p) (p_ticket p) (p_price_open p) (p_tp p) MAGIC) ~;;
        breakeven_loop wanted ps'
  end.

Definition _move_siblings_to_breakeven (sibling_ids : list string) : shim unit :=
  let wanted := List.filter (fun s => negb (bool_decide (s = ""%string))) sibling_ids in
  swallow (match wanted with
           | [] => pure tt
           | _ => ps <~ list_positions None ;; breakeven_loop wanted ps
           end).

(** The other legs of the signal, by their broker order id. *)
Definition sibling_ids_of (ticket : Z) (rows : list order_row) : list string :=
  List.filter (fun s => negb (bool_decide (s = ""%string)) && negb (bool_decide (s = show_ticket ticket)))
    (omap w_order_id rows).

Definition _handle_close_oco (ticket : Z) (close_reason : deal_reason) : shim unit :=
  match close_reason with
  | REASON_SL => _cancel_siblings_after_close ticket
  | REASON_TP =>
      let rows := match sibling_order_rows store (show_ticket ticket) with Ok r => r | Err _ => [] end in
      match rows with
      | [] => _cancel_siblings_after_close ticket
      | _ =>
          match _classify_tp_close ticket rows with
          | Some (Half, channel) =>
              be <~ lift (breakeven_flag store channel) ;;
              if negb be then pure tt else _move_siblings_to_breakeven (sibling_ids_of ticket rows)
          | _ => _cancel_siblings_after_close ticket
          end
      end
  | OtherReason _ => pure tt
  end.

(** ** Position monitor *)

Definition EQUITY_SNAPSHOT_EVERY : nat := 60.
Definition HEARTBEAT_EVERY : nat := 6.

(** One position that left the book. *)
Definition handle_closed (p : position) : shim unit :=
  r <~ _closed_result (p_ticket p) ;;
  let '(profit, close_price, reason) := r in
  emit (ClosedTrade (p_ticket p) (p_symbol p) (p_type p) close_price (f_round 2 profit)) ~;;
  if CANCEL_SIBLINGS_ON_CLOSE then
    match reason with
    | Some REASON_TP => _handle_close_oco (p_ticket p) REASON_TP
    | Some REASON_SL => _handle_close_oco (p_ticket p) REASON_SL
    | _ => pure tt
    end
  else pure tt.

Fixpoint handle_all_closed (ps : list position) : shim unit :=
  match ps with
  | [] => pure tt
  | p :: ps' => handle_closed p ~;; handle_all_closed ps'
  end.

Definition gone_from (current known : list position) : list position :=
  List.filter (fun p => negb (existsb (fun q => (p_ticket q =? p_ticket p)%Z) current)) known.

(** The periodic part of an iteration. *)
Definition housekeeping (iteration : nat) : shim unit :=
  (if (iteration mod EQUITY_SNAPSHOT_EVERY =? 0)%nat then
     a <~ peek (account_info B) ;;
     match a with
     | Some a => emit (EquitySnapshot (a_balance a) (a_equity a) (f_round 2 (a_equity a - a_balance a)))
     | None => pure tt
     end
   else pure tt) ~;;
  (if (iteration mod HEARTBEAT_EVERY =? 0)%nat then
     a <~ peek (account_info B) ;; emit (Heartbeat a)
   else pure tt).

(** The monitor's local variables; [None] before the first listing. *)
Record monitor := mk_monitor { known : option (list position); iteration : nat }.

(** One turn of the loop.  An exception leaves the variables as they were when
    it was raised: before [known = current], the closed positions are seen again
    next time. *)
Definition monitor_step (m : monitor) (s : state T) : monitor * state T :=
  let '(r, s1) := list_positions None s in
  match r with
  | Err _ => (m, s1)
  | Ok ps =>
      let current := List.filter (fun p => (p_magic p =? MAGIC)%Z) ps in
      let '(r2, s2) := handle_all_closed (gone_from current (default [] (known m))) s1 in
      match r2 with
      | Err _ => (m, s2)
      | Ok _ =>
          let m' := mk_monitor (Some current) (S (iteration m)) in
          (m', snd (housekeeping (iteration m') s2))
      end
  end.

(** ** Sending orders *)

(** [(comment or "execrelay-shim")[:26]]. *)
Definition order_comment (comment : pyval F) : shim string :=
  match py_or comment (PStr "execrelay-shim") with
  | PStr s => pure (str_take 26 s)
  | _ => throw TypeError
  end.

Definition if_positive (x : F) : option F := if f_zero <? x then Some x else None.

Definition send_market (action_type : side) (symbol : string) (volume : F) (comment : pyval F) (sl tp : F)
  : shim (option send_result * option exec_error) :=
  t <~ peek (symbol_info_tick B symbol) ;;
  match t with
  | None => pure (None, Some (NoMarketData symbol))
  | Some t =>
      text <~ order_comment comment ;;
      let req := ReqDeal symbol volume action_type None
                   (match action_type with Buy => ask t | Sell => bid t end)
                   (if_positive sl) (if_positive tp) MAGIC text in
      res <~ send (req IOC) ;;
      match res with
      | None => err <~ error_text ;; pure (None, Some (SendReturnedNone err))
      | Some r =>
          res <~ (if bool_decide (r_retcode r = INVALID_FILL) then send (req FOK) else pure (Some r)) ;;
          match res with
          | None => throw AttributeError
          | Some r =>
              if bool_decide (r_retcode r = DONE) then pure (Some r, None)
              else pure (None, Some (BadRetcode (r_retcode r) (r_comment r)))
          end
      end
  end.

(** Result, error and return code; [None] stands for the code -1. *)
Definition send_pending (type : pending_kind) (symbol : string) (volume entry sl tp : F)
    (comment : pyval F) : shim (option send_result * option exec_error * option retcode) :=
  text <~ order_comment comment ;;
  res <~ send (ReqPending symbol volume type entry (if_positive sl) (if_positive tp) MAGIC text RETURN) ;;
  match res with
  | None => err <~ error_text ;; pure (None, Some (SendReturnedNone err), None)
  | Some r =>
      if bool_decide (r_retcode r = DONE) then pure (Some r, None, Some (r_retcode r))
      else pure (None, Some (BadRetcode (r_retcode r) (r_comment r)), Some (r_retcode r))
  end.

Definition opposite (t : side) : side := match t with Buy => Sell | Sell => Buy end.

Fixpoint close_loop (symbol : string) (pos_type : side) (ps : list position) (closed : list string)
  : shim (list string * option exec_error) :=
  match ps with
  | [] => pure (closed, None)
  | p :: ps' =>
      if negb (p_magic p =? MAGIC)%Z || negb (bool_decide (p_type p = pos_type))
      then close_loop symbol pos_type ps' closed
      else
        t <~ peek (symbol_info_tick B symbol) ;;
        match t with
        | None => pure (closed, Some (NoMarketData symbol))
        | Some t =>
            let opp := opposite (p_type p) in
            let req := ReqDeal symbol (p_volume p) opp (Some (p_ticket p))
                         (match opp with Sell => bid t | Buy => ask t end) None None MAGIC
                         "execrelay-close" in
            res <~ send (req IOC) ;;
            res <~ (match res with
                    | Some r => if bool_decide (r_retcode r = INVALID_FILL) then send (req FOK) else pure res
                    | None => pure res
                    end) ;;
            match res with
            | Some r =>
                if bool_decide (r_retcode r = DONE)
                then close_loop symbol pos_type ps' (closed ++ [show_ticket (r_order r)])
                else err <~ error_text ;;
                     pure (closed, Some (CloseFailed (p_ticket p) (Some (r_retcode r)) err))
            | None => err <~ error_text ;; pure (closed, Some (CloseFailed (p_ticket p) None err))
            end
        end
  end.

Definition close_positions (symbol : string) (pos_type : side) : shim (list string * option exec_error) :=
  ps <~ list_positions (Some symbol) ;; close_loop symbol pos_type ps [].

(** [not comment_scope or comment.startswith(comment_scope)]. *)
Definition in_scope (scope : string) (p : position) : bool :=
  bool_decide (scope = ""%string) || startswith (p_comment p) scope.

Fixpoint modify_loop (symbol : string) (pos_type : side) (tp sl : F) (scope : string)
    (ps : list position) (changed : list string) : shim (list string * option exec_error) :=
  match ps with
  | [] => pure (changed, None)
  | p :: ps' =>
      if negb (p_magic p =? MAGIC)%Z || negb (bool_decide (p_type p = pos_type)) || negb (in_scope scope p)
      then modify_loop symbol pos_type tp sl scope ps' changed
      else
        res <~ send (ReqSltp symbol (p_ticket p) (if f_zero <? sl then sl else p_sl p)
                       (if f_zero <? tp then tp else p_tp p) MAGIC) ;;
        if done res then modify_loop symbol pos_type tp sl scope ps' (changed ++ [show_ticket (p_ticket p)])
        else err <~ error_text ;; pure (changed, Some (ModifyFailed (p_ticket p) (r_retcode <$> res) err))
  end.

Definition modify_positions_sltp (symbol : string) (pos_type : side) (tp sl : F) (scope : string)
  : shim (list string * option exec_error) :=
  ps <~ list_positions (Some symbol) ;; modify_loop symbol pos_type tp sl scope ps [].

(** ** The dispatcher *)

Inductive fill_status := Filled | Placed | Rejected.
#[local] Instance fill_status_eq_dec : EqDecision fill_status.
Proof. solve_decision. Defined.

Record outcome := mk_outcome {
  x_status : fill_status; x_order : string; x_err : option exec_error; x_volume : F }.

Definition pending_of (cmd : string) : option (pending_kind * side) :=
  if bool_decide (cmd = "buylimit"%string) then Some (BuyLimit, Buy)
  else if bool_decide (cmd = "selllimit"%string) then Some (SellLimit, Sell)
  else if bool_decide (cmd = "buystop"%string) then Some (BuyStop, Buy)
  else if bool_decide (cmd = "sellstop"%string) then Some (SellStop, Sell)
  else None.

(** The side a market-opening command takes. *)
Definition opens (cmd : string) : option side :=
  if bool_decide (cmd = "buy"%string) || bool_decide (cmd = "closeshortopenlong"%string) then Some Buy
  else if bool_decide (cmd = "sell"%string) || bool_decide (cmd = "closelongopenshort"%string) then Some Sell
  else None.

(** Alias map first, then the broker's suffix variants. *)
Fixpoint try_variants (symbol : string) (suffixes : list string) : shim string :=
  match suffixes with
  | [] => pure symbol
  | sfx :: rest =>
      i <~ peek (symbol_info B (symbol +:+ sfx)%string) ;;
      match i with Some _ => pure (symbol +:+ sfx)%string | None => try_variants symbol rest end
  end.

Definition resolve_symbol (symbol : string) : shim string :=
  let alias := default symbol (get_symbol_map store (upper (strip symbol))) in
  let symbol := if bool_decide (alias = ""%string) then symbol else alias in
  i <~ peek (symbol_info B symbol) ;;
  match i with
  | Some _ => pure symbol
  | None => try_variants symbol ["_"; "."; "m"]%string
  end.

Definition ref_price (cmd symbol : string) (params : pydict F) : shim F :=
  match pending_of cmd, opens cmd with
  | Some _, _ => pure (fnum params ["entry"; "entry_price"]%string f_zero)
  | None, Some sd =>
      t <~ peek (symbol_info_tick B symbol) ;;
      pure (match t with Some t => match sd with Buy => ask t | Sell => bid t end | None => f_zero end)
  | None, None => pure f_zero
  end.

(** The final volume, or the refusal of the sizing. *)
Definition size_order (cmd symbol : string) (params : pydict F) (sl volume : F)
  : shim (result (exec_error * F) F) :=
  match pending_of cmd, opens cmd with
  | None, None => pure (Ok volume)
  | _, _ =>
      let risk_usd := fnum params ["risk"%string] RISK_USD in
      ref <~ ref_price cmd symbol params ;;
      sized <~ sized_volume symbol ref sl volume risk_usd ;;
      if sized <=? f_zero then pure (Err (RiskTooSmall symbol risk_usd sl ref, sized))
      else pure (Ok sized)
  end.

Definition order_text (res : option send_result) : string :=
  match res with Some r => show_ticket (r_order r) | None => ""%string end.

Definition market_outcome (volume : F) (r : option send_result * option exec_error) : outcome :=
  mk_outcome (match fst r with Some _ => Filled | None => Rejected end) (order_text (fst r)) (snd r) volume.

(** [f"{comment}_M"]; a value that is neither text nor falsy has already raised
    in [send_pending]. *)
Definition tag_market (comment : pyval F) : pyval F :=
  PStr ((match comment with
         | PStr s => s
         | PNone => "None"
         | PBool b => if b then "True" else "False"
         | PInt z => pretty z
         | PFloat _ => "0.0"
         | PList _ => "[]"
         | PDict _ => "{}"
         end) +:+ "_M").

Definition execute_pending (type : pending_kind) (fallback : side) (symbol : string) (volume : F)
    (params : pydict F) (comment : pyval F) (sl tp : F) : shim outcome :=
  let entry := fnum params ["entry"; "entry_price"]%string f_zero in
  if entry <=? f_zero then pure (mk_outcome Rejected "" (Some EntryRequired) volume)
  else
    r <~ send_pending type symbol volume entry sl tp comment ;;
    let '(res, err, rc) := r in
    match res with
    | Some r => pure (mk_outcome Placed (show_ticket (r_order r)) None volume)
    | None =>
        if PENDING_FALLBACK && bool_decide (rc = Some INVALID_PRICE) then
          r <~ send_market fallback symbol volume (tag_market comment) sl tp ;;
          match r with
          | (Some r, _) => pure (mk_outcome Filled (show_ticket (r_order r)) None volume)
          | (None, Some merr) => pure (mk_outcome Filled "" (Some (FallbackFailed merr)) volume)
          | (None, None) => pure (mk_outcome Filled "" None volume)
          end
        else pure (mk_outcome Filled "" err volume)
    end.

(** Close one side, then open the other unless a close failed. *)
Definition execute_reverse (close_side open_side : side) (symbol : string) (volume : F)
    (comment : pyval F) (sl tp : F) : shim outcome :=
  c <~ close_positions symbol close_side ;;
  let '(orders, err) := c in
  match err with
  | Some e => pure (mk_outcome Filled (join "," orders) (Some e) volume)
  | None =>
      r <~ send_market open_side symbol volume comment sl tp ;;
      pure (mk_outcome Filled
        (join "," (orders ++ match fst r with Some x => [show_ticket (r_order x)] | None => [] end))
        (snd r) volume)
  end.

Definition execute_newsltp (pos_type : side) (symbol : string) (volume : F) (params : pydict F) (sl tp : F)
  : shim outcome :=
  if (tp <=? f_zero) && (sl <=? f_zero) then pure (mk_outcome Rejected "" (Some SltpRequiresLevel) volume)
  else
    scope <~ match py_or (get params "comment") (PStr "") with PStr s => pure s | _ => throw TypeError end ;;
    r <~ modify_positions_sltp symbol pos_type tp sl scope ;;
    let '(tickets, err) := r in
    match err with
    | Some e => pure (mk_outcome Rejected (join "," tickets) (Some e) volume)
    | None => pure (mk_outcome Filled (join "," tickets) None volume)
    end.

Definition dispatch (command symbol : string) (params : pydict F) (comment : pyval F) (sl tp volume : F)
  : shim outcome :=
  let cmd := lower command in
  if bool_decide (cmd = "buy"%string) then
    r <~ send_market Buy symbol volume comment sl tp ;; pure (market_outcome volume r)
  else if bool_decide (cmd = "sell"%string) then
    r <~ send_market Sell symbol volume comment sl tp ;; pure (market_outcome volume r)
  else match pending_of cmd with
  | Some (type, fallback) => execute_pending type fallback symbol volume params comment sl tp
  | None =>
      if bool_decide (cmd = "closelong"%string) then
        c <~ close_positions symbol Buy ;; pure (mk_outcome Filled (join "," (fst c)) (snd c) volume)
      else if bool_decide (cmd = "closeshort"%string) then
        c <~ close_positions symbol Sell ;; pure (mk_outcome Filled (join "," (fst c)) (snd c) volume)
      else if bool_decide (cmd = "closelongopenshort"%string) then
        execute_reverse Buy Sell symbol volume comment sl tp
      else if bool_decide (cmd = "closeshortopenlong"%string) then
        execute_reverse Sell Buy symbol volume comment sl tp
      else if bool_decide (cmd = "newsltplong"%string) then execute_newsltp Buy symbol volume params sl tp
      else if bool_decide (cmd = "newsltpshort"%string) then execute_newsltp Sell symbol volume params sl tp
      else pure (mk_outcome Rejected "" (Some (UnknownCommand command)) volume)
  end.

Definition execute (command symbol : string) (params : pydict F) : shim outcome :=
  symbol <~ resolve_symbol symbol ;;
  peek (fun t => (tt, symbol_select B symbol t)) ~;;
  let volume := fnum params ["volume"; "vol_lots"]%string (f_dec 1 (-2)) in
  let comment := get_or params "comment" (PStr "execrelay-shim") in
  let sl := fnum params ["sl"%string] f_zero in
  let tp := fnum params ["tp"%string] f_zero in
  sized <~ size_order (lower command) symbol params sl volume ;;
  match sized with
  | Err (e, v) => pure (mk_outcome Rejected "" (Some e) v)
  | Ok volume => dispatch command symbol params comment sl tp volume
  end.

(** The fill message reported to the bridge. *)
Record fill_report := mk_report { f_status : fill_status; f_order : string; f_error : option exec_error }.

Definition report_fill (x : outcome) : fill_report :=
  mk_report (match x_err x with Some _ => Rejected | None => x_status x end) (x_order x) (x_err x).

End Shim.

Arguments symbol_info {F T}. Arguments symbol_info_tick {F T}. Arguments symbol_select {F T}.
Arguments positions_get {F T}. Arguments orders_get {F T}. Arguments history_deals_get {F T}.
Arguments order_send {F T}. Arguments account_info {F T}. Arguments last_error {F T}.
Arguments mk_state {F T}. Arguments term {F T}. Arguments trace {F T}.
Arguments state F T : clear implicits.
Arguments sym_info F : clear implicits. Arguments tick F : clear implicits.
Arguments position F : clear implicits. Arguments deal F : clear implicits.
Arguments account F : clear implicits. Arguments request F : clear implicits.
Arguments Broker F T : clear implicits. Arguments Store F : clear implicits.
Arguments order_row F : clear implicits. Arguments event F : clear implicits.
Arguments exec_error F : clear implicits. Arguments outcome F : clear implicits.
Arguments monitor F : clear implicits.
Arguments shim F T X : clear implicits.

(** ** Reasoning about the trace *)

Section Trace.
Context {F : Type} {A : Arith F} {T : Type} (B : Broker F T) (store : Store F).
Context (MAGIC : Z) (PENDING_FALLBACK CANCEL_SIBLINGS : bool) (RISK_USD : F).

(** Every event a computation adds satisfies [P]. *)
Definition emits {X} (P : event F -> Prop) (m : shim F T X) : Prop :=
  forall s, exists l, trace (snd (m s)) = trace s ++ l /\ Forall P l.

Lemma emits_silent {X} P (m : shim F T X) : (forall s, trace (snd (m s)) = trace s) -> emits P m.
Proof. intros H s. exists []. rewrite H, app_nil_r. auto. Qed.

Lemma emits_one {X} P (m : shim F T X) :
  (forall s, exists e, trace (snd (m s)) = trace s ++ [e] /\ P e) -> emits P m.
Proof. intros H s. destruct (H s) as (e & E & He). exists [e]. auto. Qed.

Lemma emits_andthen {X Y} P (m : shim F T X) (k : X -> shim F T Y) :
  emits P m -> (forall x, emits P (k x)) -> emits P (andthen m k).
Proof.
  intros Hm Hk s. unfold andthen. destruct (Hm s) as (l & E & Hl).
  destruct (m s) as [[x|e] s']; simpl in *; [|eauto].
  destruct (Hk x s') as (l' & E' & Hl'). exists (l ++ l'). split; [|by apply Forall_app].
  rewrite E', E. by rewrite app_assoc.
Qed.

Lemma emits_swallow P (m : shim F T unit) : emits P m -> emits P (swallow m).
Proof. intros H s. specialize (H s). unfold swallow. by destruct (m s). Qed.

Lemma emits_peek {X} P (f : T -> X * T) : emits P (peek f).
Proof. apply emits_silent. intros s. unfold peek. by destruct (f (term s)). Qed.

Lemma emits_list_positions P sym : (forall ps, P (Listed ps)) -> emits P (list_positions B sym).
Proof.
  intros H. apply emits_one. intros s. unfold list_positions.
  destruct (positions_get B sym (term s)) as [ps t]. simpl. eauto.
Qed.

Lemma emits_list_orders P : (forall os, P (ListedOrders os)) -> emits P (list_orders B).
Proof.
  intros H. apply emits_one. intros s. unfold list_orders.
  destruct (orders_get B (term s)) as [os t]. simpl. eauto.
Qed.

Lemma emits_send (P : event F -> Prop) req : (forall res, P (Sent req res)) -> emits P (send B req).
Proof.
  intros H. apply emits_one. intros s. unfold send.
  destruct (order_send B req (term s)) as [r t]. simpl. eauto.
Qed.

(** Invariants of the whole trace. *)
Definition keeps {X} (I : list (event F) -> Prop) (m : shim F T X) : Prop :=
  forall s, I (trace s) -> I (trace (snd (m s))).

Lemma keeps_andthen {X Y} I (m : shim F T X) (k : X -> shim F T Y) :
  keeps I m -> (forall x, keeps I (k x)) -> keeps I (andthen m k).
Proof.
  intros Hm Hk s Hs. unfold andthen. specialize (Hm s Hs).
  destruct (m s) as [[x|e] s']; simpl in *; [|done]. by apply Hk.
Qed.

Lemma keeps_swallow I (m : shim F T unit) : keeps I m -> keeps I (swallow m).
Proof. intros H s Hs. specialize (H s Hs). unfold swallow. by destruct (m s). Qed.

Lemma keeps_silent {X} I (m : shim F T X) : (forall s, trace (snd (m s)) = trace s) -> keeps I m.
Proof. intros H s Hs. by rewrite H. Qed.

Lemma keeps_peek {X} I (f : T -> X * T) : keeps I (peek f).
Proof. apply keeps_silent. intros s. unfold peek. by destruct (f (term s)). Qed.

Lemma keeps_send I req :
  (forall evs res, I evs -> I (evs ++ [Sent req res])) -> keeps I (send B req).
Proof.
  intros H s Hs. unfold send. destruct (order_send B req (term s)) as [r t]. simpl. auto.
Qed.

Lemma keeps_emit (I : list (event F) -> Prop) e : (forall evs, I evs -> I (evs ++ [e])) -> keeps I (@emit F T e).
Proof. intros H s Hs. apply H, Hs. Qed.

End Trace.

(** Walk a program: sequence, branch, and leave the sends to the caller. *)
Ltac shim_walk :=
  repeat match goal with
  | |- emits _ (andthen _ _) => apply emits_andthen; [|intros]
  | |- emits _ (swallow _) => apply emits_swallow
  | |- emits _ (peek _) => apply emits_peek
  | |- emits _ (pure _) => by apply emits_silent
  | |- emits _ (throw _) => by apply emits_silent
  | |- emits _ (lift _) => by apply emits_silent
  | |- emits _ (error_text _) => by apply emits_silent
  | |- keeps _ (andthen _ _) => apply keeps_andthen; [|intros]
  | |- keeps _ (swallow _) => apply keeps_swallow
  | |- keeps _ (peek _) => apply keeps_peek
  | |- keeps _ (pure _) => by apply keeps_silent
  | |- keeps _ (throw _) => by apply keeps_silent
  | |- keeps _ (lift _) => by apply keeps_silent
  | |- keeps _ (error_text _) => by apply keeps_silent
  | |- emits _ (match ?x with _ => _ end) => destruct x eqn:?
  | |- keeps _ (match ?x with _ => _ end) => destruct x eqn:?
  end.

(** ** Traces that follow a policy *)

Section Obedience.
Context {F : Type} {T : Type} (B : Broker F T) (P : list (event F) -> request F -> Prop).

(** Every request sent is allowed by what came before it. *)
Definition obeying (evs : list (event F)) : Prop :=
  forall pre req res post, evs = pre ++ Sent req res :: post -> P pre req.

Lemma obey_nil : obeying [].
Proof. intros pre req res post H. by destruct pre. Qed.

Lemma obey_snoc evs e : obeying evs -> (forall req res, e = Sent req res -> P evs req) -> obeying (evs ++ [e]).
Proof.
  intros Hs He pre req res post E.
  destruct post as [|e' post _] using rev_ind.
  - apply app_inj_tail in E as [-> ->]. eauto.
  - rewrite app_comm_cons, app_assoc in E. apply app_inj_tail in E as [-> _]. eauto.
Qed.

Lemma obey_quiet_event e : (forall req res, e <> Sent req res) -> keeps obeying (@emit F T e).
Proof. intros H. apply keeps_emit. intros evs Hs. apply obey_snoc; [done|]. intros req res ->. by destruct (H req res). Qed.

Lemma obey_send req : (forall evs, P evs req) -> keeps obeying (send B req).
Proof. intros H. apply keeps_send. intros evs res Hs. apply obey_snoc; [done|]. by intros ? ? [= <- <-]. Qed.

(** After a listing, the rest may rely on it. *)
Lemma obey_list_positions {X} sym (k : list (position F) -> shim F T X) :
  (forall ps, keeps (fun evs => obeying evs /\ Listed ps ∈ evs) (k ps)) ->
  keeps obeying (andthen (list_positions B sym) k).
Proof.
  intros Hk s Hs. unfold andthen, list_positions.
  destruct (positions_get B sym (term s)) as [ps t]. apply (Hk ps). simpl. split.
  - apply obey_snoc; [done|]. by intros.
  - apply elem_of_app. right. by apply list_elem_of_singleton.
Qed.

Lemma obey_list_orders {X} (k : list resting -> shim F T X) :
  (forall os, keeps (fun evs => obeying evs /\ ListedOrders os ∈ evs) (k os)) ->
  keeps obeying (andthen (list_orders B) k).
Proof.
  intros Hk s Hs. unfold andthen, list_orders.
  destruct (orders_get B (term s)) as [os t]. apply (Hk os). simpl. split.
  - apply obey_snoc; [done|]. by intros.
  - apply elem_of_app. right. by apply list_elem_of_singleton.
Qed.

Lemma obey_listed_send e0 req :
  (forall evs, e0 ∈ evs -> P evs req) ->
  keeps (fun evs => obeying evs /\ e0 ∈ evs) (send B req).
Proof.
  intros H. apply keeps_send. intros evs res [Hs He]. split; [|set_solver].
  apply obey_snoc; [done|]. intros ? ? [= <- <-]. by apply H.
Qed.

End Obedience.

(** ** Only the script's own orders and positions are touched *)

Section Ownership.
Context {F : Type} {A : Arith F} {T : Type} (B : Broker F T) (store : Store F).
Context (MAGIC : Z) (PENDING_FALLBACK CANCEL_SIBLINGS : bool) (RISK_USD : F).

(** A position listed earlier as the script's own. *)
Definition listed_own (evs : list (event F)) (p : position F) : Prop :=
  p_magic p = MAGIC /\ exists ps, Listed ps ∈ evs /\ p ∈ ps.

(** A request is authorized by what was listed before it: new orders carry the
    script's magic number; a close reverses exactly one own position in full; a
    change of levels targets an own position and gives each level either a
    positive value or the one the position has, except that breakeven moves the
    stop to the entry price and keeps the target; only an own resting order is
    removed. *)
Definition authorized (evs : list (event F)) (req : request F) : Prop :=
  match req with
  | ReqDeal _ v ty close_of _ _ _ m _ _ =>
      m = MAGIC /\
      match close_of with
      | None => True
      | Some k => exists p, listed_own evs p /\ p_ticket p = k /\ ty = opposite (p_type p) /\ v = p_volume p
      end
  | ReqPending _ _ _ _ _ _ m _ _ => m = MAGIC
  | ReqSltp _ k sl tp m =>
      m = MAGIC /\ exists p, listed_own evs p /\ p_ticket p = k /\
        (f_ltb f_zero sl = true \/ sl = p_sl p \/ (sl = p_price_open p /\ tp = p_tp p)) /\
        (f_ltb f_zero tp = true \/ tp = p_tp p)
  | ReqRemove k =>
      exists o os, ListedOrders os ∈ evs /\ o ∈ os /\ o_ticket o = k /\ o_magic o = MAGIC
  end.

Definition safe_trace : list (event F) -> Prop := obeying authorized.

Lemma safe_nil : safe_trace [].
Proof. apply obey_nil. Qed.

Lemma own_listed evs p all : p_magic p = MAGIC -> Listed all ∈ evs -> p ∈ all -> listed_own evs p.
Proof. intros. split; [done|]. by exists all. Qed.

Lemma cancel_loop_safe all wanted os removed failures :
  (forall o, o ∈ os -> o ∈ all) ->
  keeps (fun evs => safe_trace evs /\ ListedOrders all ∈ evs) (cancel_loop B MAGIC wanted os removed failures).
Proof.
  revert removed failures. induction os as [|o os IH]; intros removed failures Hsub; simpl; [by apply keeps_silent|].
  assert (forall o', o' ∈ os -> o' ∈ all) by (intros; apply Hsub; by right).
  destruct (_ || _) eqn:E; [by apply IH|]. bool_hyps. apply keeps_andthen.
  - apply obey_listed_send. intros evs He. exists o, all. split_and!; try done; try lia. apply Hsub. left.
  - intros res. destruct (done res); by apply IH.
Qed.

Lemma cancel_safe tickets : keeps safe_trace (cancel_pending_orders B MAGIC tickets).
Proof.
  unfold cancel_pending_orders. destruct tickets; [by apply keeps_silent|].
  apply obey_list_orders. intros os. by apply cancel_loop_safe.
Qed.

Lemma breakeven_loop_safe all wanted ps :
  (forall p, p ∈ ps -> p ∈ all) ->
  keeps (fun evs => safe_trace evs /\ Listed all ∈ evs) (breakeven_loop B MAGIC wanted ps).
Proof.
  induction ps as [|p ps IH]; intros Hsub; simpl; [by apply keeps_silent|].
  assert (forall p', p' ∈ ps -> p' ∈ all) by (intros; apply Hsub; by right).
  destruct (_ || _) eqn:E; [by apply IH|]. bool_hyps. apply keeps_andthen; [|intros; by apply IH].
  apply obey_listed_send. intros evs He. split; [done|]. exists p.
  split_and!; try done; try tauto. apply (own_listed _ _ all); [lia|done|]. apply Hsub. left.
Qed.

(** The parts that only read the terminal. *)
Lemma sized_volume_silent symbol ref sl v r s : trace (snd (sized_volume B symbol ref sl v r s)) = trace s.
Proof.
  unfold sized_volume. destruct (_ || _); [done|]. unfold andthen, peek.
  destruct (symbol_info B symbol (term s)) as [[i|] t]; [|done]. simpl. by repeat case_match.
Qed.

Lemma try_variants_silent symbol sfx : forall s, trace (snd (try_variants B symbol sfx s)) = trace s.
Proof.
  induction sfx as [|x sfx IH]; intros s; [done|]. simpl. unfold andthen, peek.
  destruct (symbol_info B _ (term s)) as [[i|] t]; [done|]. by rewrite IH.
Qed.

Lemma resolve_symbol_silent symbol s : trace (snd (resolve_symbol B store symbol s)) = trace s.
Proof.
  unfold resolve_symbol, andthen, peek. destruct (symbol_info B _ (term s)) as [[i|] t]; [done|].
  by rewrite try_variants_silent.
Qed.

Lemma ref_price_silent cmd symbol params s : trace (snd (ref_price B cmd symbol params s)) = trace s.
Proof.
  unfold ref_price, andthen, peek. destruct (pending_of cmd), (opens cmd); try done.
  by destruct (symbol_info_tick B symbol (term s)).
Qed.

Lemma size_order_silent cmd symbol params sl v s :
  trace (snd (size_order B RISK_USD cmd symbol params sl v s)) = trace s.
Proof.
  assert (forall s, trace (snd (andthen (ref_price B cmd symbol params) (fun ref =>
    andthen (sized_volume B symbol ref sl v (fnum params ["risk"%string] RISK_USD)) (fun sized =>
      if f_leb sized f_zero then pure (Err (RiskTooSmall symbol (fnum params ["risk"%string] RISK_USD) sl ref, sized))
      else pure (Ok sized))) s)) = trace s) as K.
  { intros s0. unfold andthen. pose proof (ref_price_silent cmd symbol params s0) as H1.
    destruct (ref_price B cmd symbol params s0) as [[ref|e] s1]; simpl in *; [|done].
    pose proof (sized_volume_silent symbol ref sl v (fnum params ["risk"%string] RISK_USD) s1) as H2.
    destruct (sized_volume _ _ _ _ _ _ s1) as [[sz|e] s2]; simpl in *; [|congruence].
    by destruct (f_leb sz f_zero); simpl; congruence. }
  unfold size_order. by destruct (pending_of cmd), (opens cmd); auto.
Qed.

Lemma try_variants_ok symbol sfx : forall s, exists y, fst (try_variants B symbol sfx s) = Ok y.
Proof.
  induction sfx as [|x sfx IH]; intros s; [by exists symbol|]. simpl. unfold andthen, peek.
  destruct (symbol_info B _ (term s)) as [[i|] t]; [by eexists|]. apply IH.
Qed.

Lemma resolve_symbol_ok symbol s : exists y, fst (resolve_symbol B store symbol s) = Ok y.
Proof.
  unfold resolve_symbol, andthen, peek. destruct (symbol_info B _ (term s)) as [[i|] t]; [by eexists|]. apply try_variants_ok.
Qed.

(** ** What a command allows *)

(** The side a command closes, and the side it amends. *)
Definition closes (cmd : string) : option side :=
  if bool_decide (cmd = "closelong"%string) || bool_decide (cmd = "closelongopenshort"%string) then Some Buy
  else if bool_decide (cmd = "closeshort"%string) || bool_decide (cmd = "closeshortopenlong"%string) then Some Sell
  else None.

Definition amends (cmd : string) : option side :=
  if bool_decide (cmd = "newsltplong"%string) then Some Buy
  else if bool_decide (cmd = "newsltpshort"%string) then Some Sell else None.

(** The signal channel an amendment is confined to. *)
Definition scope_of (params : pydict F) : string :=
  match py_or (get params "comment") (PStr "") with PStr t => t | _ => ""%string end.

(** A request the command [cmd] on the symbol [y] allows, given what was listed
    before: an opening deal of the command's side (a pending command falls back to
    its market side), the command's own kind of pending order, the full close of a
    listed own position of the side the command closes, the amendment of a listed
    own position of the side it amends, in its scope, that keeps a level not given.
    Nothing is withdrawn. *)
Definition commanded (cmd y : string) (params : pydict F) (evs : list (event F)) (req : request F) : Prop :=
  match req with
  | ReqDeal sym v ty None _ _ _ m _ _ =>
      m = MAGIC /\ sym = y /\ (opens cmd = Some ty \/ exists k, pending_of cmd = Some (k, ty))
  | ReqDeal sym v ty (Some k) _ _ _ m _ _ =>
      m = MAGIC /\ sym = y /\ exists p, listed_own evs p /\ p_ticket p = k /\ closes cmd = Some (p_type p) /\
        ty = opposite (p_type p) /\ v = p_volume p
  | ReqPending sym _ kind _ _ _ m _ _ => m = MAGIC /\ sym = y /\ exists sd, pending_of cmd = Some (kind, sd)
  | ReqSltp sym k sl tp m =>
      m = MAGIC /\ sym = y /\ exists p, listed_own evs p /\ p_ticket p = k /\ amends cmd = Some (p_type p) /\
        in_scope (scope_of params) p = true /\
        (let given := fnum params ["sl"%string] f_zero in sl = if f_ltb f_zero given then given else p_sl p) /\
        (let given := fnum params ["tp"%string] f_zero in tp = if f_ltb f_zero given then given else p_tp p)
  | ReqRemove _ => False
  end.

Lemma commanded_authorized cmd y params evs req : commanded cmd y params evs req -> authorized evs req.
Proof.
  destruct req as [sym v ty [k|] pr sl tp m c fl|sym v ty pr sl tp m c fl|sym k sl tp m|k]; cbn [commanded authorized]; try tauto.
  - intros (-> & _ & p & H1 & H2 & _ & H3 & H4). split; [done|]. by exists p.
  - intros (-> & _ & p & H1 & H2 & _ & _ & H3 & H4). split; [done|]. exists p. split_and!; try done.
    + rewrite H3. by destruct (f_ltb f_zero (fnum params ["sl"%string] f_zero)) eqn:E; auto.
    + rewrite H4. by destruct (f_ltb f_zero (fnum params ["tp"%string] f_zero)) eqn:E; auto.
Qed.

(** From the trace [t0] on, a policy holds of what is sent. *)
Definition since (t0 : list (event F)) (P : list (event F) -> request F -> Prop) (evs : list (event F)) (req : request F) : Prop :=
  t0 `prefix_of` evs -> P evs req.

Lemma since_start t0 P : obeying (since t0 P) t0.
Proof.
  intros pre req res post E [l Hl]. exfalso. apply (f_equal length) in E, Hl. rewrite length_app in E, Hl. simpl in E. lia.
Qed.

Section Commanded.
Context (cmd y : string) (params : pydict F) (policy : list (event F) -> request F -> Prop).
Context (allowed : forall evs req, commanded cmd y params evs req -> policy evs req).
Abbreviation sl := (fnum params ["sl"%string] f_zero).
Abbreviation tp := (fnum params ["tp"%string] f_zero).

Lemma close_loop_obeys all ty ps closed :
  closes cmd = Some ty -> (forall p, p ∈ ps -> p ∈ all) ->
  keeps (fun evs => obeying policy evs /\ Listed all ∈ evs) (close_loop B MAGIC y ty ps closed).
Proof.
  intros Hc. revert closed. induction ps as [|p ps IH]; intros closed Hsub; simpl; [by apply keeps_silent|].
  assert (forall p', p' ∈ ps -> p' ∈ all) by (intros; apply Hsub; by right).
  destruct (_ || _) eqn:E; [by apply IH|]. bool_hyps.
  assert (forall price fl, keeps (fun evs => obeying policy evs /\ Listed all ∈ evs)
    (send B (ReqDeal y (p_volume p) (opposite (p_type p)) (Some (p_ticket p)) price None None MAGIC
       "execrelay-close" fl))) as Hsend.
  { intros. apply obey_listed_send. intros evs He. apply allowed. split; [done|]. split; [done|]. exists p.
    split_and!; try done; [apply (own_listed _ _ all); [lia|done|apply Hsub; left]|].
    by match goal with H : bool_decide (p_type p = ty) = true |- _ => apply bool_decide_eq_true in H as -> end. }
  shim_walk; auto.
Qed.

Lemma close_positions_obeys ty : closes cmd = Some ty -> keeps (obeying policy) (close_positions B MAGIC y ty).
Proof. intros Hc. apply obey_list_positions. intros ps. by apply close_loop_obeys. Qed.

Lemma modify_loop_obeys all ty ps changed :
  amends cmd = Some ty -> (forall p, p ∈ ps -> p ∈ all) ->
  keeps (fun evs => obeying policy evs /\ Listed all ∈ evs)
    (modify_loop B MAGIC y ty tp sl (scope_of params) ps changed).
Proof.
  intros Hc. revert changed. induction ps as [|p ps IH]; intros changed Hsub; simpl; [by apply keeps_silent|].
  assert (forall p', p' ∈ ps -> p' ∈ all) by (intros; apply Hsub; by right).
  destruct (_ || _) eqn:E; [by apply IH|]. bool_hyps. shim_walk; auto.
  apply obey_listed_send. intros evs He. apply allowed. split; [done|]. split; [done|]. exists p.
  split_and!; try done; [apply (own_listed _ _ all); [lia|done|apply Hsub; left]|].
  by match goal with H : bool_decide (p_type p = ty) = true |- _ => apply bool_decide_eq_true in H as -> end.
Qed.

Lemma modify_positions_obeys ty : amends cmd = Some ty ->
  keeps (obeying policy) (modify_positions_sltp B MAGIC y ty tp sl (scope_of params)).
Proof. intros Hc. apply obey_list_positions. intros ps. by apply modify_loop_obeys. Qed.

Lemma send_market_obeys ty v c a b : (opens cmd = Some ty \/ exists k, pending_of cmd = Some (k, ty)) ->
  keeps (obeying policy) (send_market B MAGIC ty y v c a b).
Proof. intros Ho. unfold send_market, order_comment. shim_walk; apply obey_send; intros evs; by apply allowed. Qed.

Lemma send_pending_obeys ty sd v e c a b : pending_of cmd = Some (ty, sd) ->
  keeps (obeying policy) (send_pending B MAGIC ty y v e a b c).
Proof. intros Ho. unfold send_pending, order_comment. shim_walk; apply obey_send; intros evs; apply allowed; split_and!; eauto. Qed.

Lemma execute_newsltp_obeys ty v : amends cmd = Some ty ->
  keeps (obeying policy) (execute_newsltp B MAGIC ty y v params sl tp).
Proof.
  intros Hc. pose proof (modify_positions_obeys ty Hc) as H. unfold execute_newsltp, scope_of in *.
  destruct (_ && _); [by apply keeps_silent|].
  destruct (py_or (get params "comment") (PStr "")); try (by apply keeps_silent).
  lazymatch goal with |- keeps ?I (andthen (pure ?t) ?k) => change (keeps I (k t)) end.
  cbn beta. shim_walk; exact H.
Qed.

Lemma dispatch_obeys command c v : lower command = cmd ->
  keeps (obeying policy) (dispatch B MAGIC PENDING_FALLBACK command y params c sl tp v).
Proof using allowed.
  intros Hcmd. unfold dispatch, execute_pending, execute_reverse. rewrite Hcmd. shim_walk;
    repeat match goal with H : bool_decide _ = true |- _ => apply bool_decide_eq_true in H end;
    first
      [ apply execute_newsltp_obeys; by match goal with H : cmd = _ |- _ => rewrite H end
      | apply close_positions_obeys; by match goal with H : cmd = _ |- _ => rewrite H end
      | eapply send_pending_obeys; eassumption
      | apply send_market_obeys; right; by eexists
      | apply send_market_obeys; left; by match goal with H : cmd = _ |- _ => rewrite H end ].
Qed.

End Commanded.

(** Everything [execute] sends is allowed by its command. *)
Lemma execute_obeys command symbol params (policy : list (event F) -> request F -> Prop) s y :
  fst (resolve_symbol B store symbol s) = Ok y ->
  (forall evs req, commanded (lower command) y params evs req -> policy evs req) ->
  obeying policy (trace s) ->
  obeying policy (trace (snd (execute B store MAGIC PENDING_FALLBACK RISK_USD command symbol params s))).
Proof.
  intros Hy Hp. unfold execute. unfold andthen at 1. pose proof (resolve_symbol_silent symbol s) as Hs.
  destruct (resolve_symbol B store symbol s) as [[y'|e] s1]; simpl in Hy, Hs; [|done]. injection Hy as ->.
  rewrite <- Hs. apply (fun H : keeps (obeying policy) _ => H s1).
  shim_walk; [apply keeps_silent, size_order_silent|by eapply dispatch_obeys].
Qed.

Lemma execute_safe command symbol params :
  keeps safe_trace (execute B store MAGIC PENDING_FALLBACK RISK_USD command symbol params).
Proof.
  intros s. destruct (resolve_symbol_ok symbol s) as [y Hy]. eapply execute_obeys; [exact Hy|].
  intros. by eapply commanded_authorized.
Qed.

(** C2: the executor only does what its command says, to what is its own.  Whatever
    the terminal, the store and the signal, every request [execute] sends carries the
    script's magic number and the symbol the signal's symbol resolves to, and is one
    the command allows: it opens on the command's side; it closes, in full, a position
    listed before under the script's magic number and of the side the command closes;
    or it amends a listed own position of the side the command amends, within the
    signal's comment scope, to the given levels, keeping each level not given; it
    withdraws nothing.  With a trace that was authorized before, the whole trace is. *)
Theorem execute_touches_only_own command symbol params s
  (H : safe_trace (trace s)) :
  let s' := snd (execute B store MAGIC PENDING_FALLBACK RISK_USD command symbol params s) in
  safe_trace (trace s') /\
  exists y, fst (resolve_symbol B store symbol s) = Ok y /\
    forall pre req res post, trace s' = pre ++ Sent req res :: post -> trace s `prefix_of` pre ->
      commanded (lower command) y params pre req.
Proof.
  split; [by apply execute_safe|]. destruct (resolve_symbol_ok symbol s) as [y Hy]. exists y. split; [done|].
  refine (execute_obeys command symbol params (since (trace s) (commanded (lower command) y params)) s y Hy _ (since_start _ _)).
  by intros evs req Hc _.
Qed.

Lemma cancel_siblings_safe ticket : keeps safe_trace (_cancel_siblings_after_close B store MAGIC ticket).
Proof. unfold _cancel_siblings_after_close. shim_walk. apply cancel_safe. Qed.

Lemma breakeven_safe ids : keeps safe_trace (_move_siblings_to_breakeven B MAGIC ids).
Proof.
  unfold _move_siblings_to_breakeven. apply keeps_swallow.
  destruct (List.filter _ ids); [by apply keeps_silent|].
  apply obey_list_positions. intros ps. by apply breakeven_loop_safe.
Qed.

Lemma handle_close_oco_safe ticket reason : keeps safe_trace (_handle_close_oco B store MAGIC ticket reason).
Proof. unfold _handle_close_oco. shim_walk; auto using cancel_siblings_safe, breakeven_safe. Qed.

Lemma handle_closed_safe p : keeps safe_trace (handle_closed B store MAGIC CANCEL_SIBLINGS p).
Proof.
  unfold handle_closed, _closed_result. shim_walk; auto using handle_close_oco_safe;
    by apply obey_quiet_event.
Qed.

Lemma handle_all_closed_safe ps : keeps safe_trace (handle_all_closed B store MAGIC CANCEL_SIBLINGS ps).
Proof. induction ps as [|p ps IH]; simpl; shim_walk; auto using handle_closed_safe. Qed.

Lemma housekeeping_safe n : keeps safe_trace (housekeeping B n).
Proof. unfold housekeeping. shim_walk; by apply obey_quiet_event. Qed.

Lemma monitor_step_safe m s : safe_trace (trace s) ->
  safe_trace (trace (snd (monitor_step B store MAGIC CANCEL_SIBLINGS m s))).
Proof.
  intros H. unfold monitor_step, list_positions.
  destruct (positions_get B None (term s)) as [ps t]. cbn zeta.
  pose proof (handle_all_closed_safe (gone_from (List.filter (fun p => p_magic p =? MAGIC) ps)
    (default [] (known m))) (mk_state t (trace s ++ [Listed ps]))) as K.
  destruct (handle_all_closed _ _ _ _ _ _) as [[[]|e] s2]; simpl in *.
  - apply housekeeping_safe, K. apply obey_snoc; [done|]. by intros.
  - apply K. apply obey_snoc; [done|]. by intros.
Qed.

(** Being authorized by what came before is kept when other events come between,
    so two threads that send only authorized requests do so together. *)
Lemma authorized_mono evs evs' req : evs ⊆ evs' -> authorized evs req -> authorized evs' req.
Proof.
  intros Hs. assert (forall p, listed_own evs p -> listed_own evs' p) as Hl.
  { intros p (Hm & all & Ha & Hp). split; [done|]. exists all. auto. }
  destruct req as [sym v ty [k|] pr sl tp m c fl|sym v ty pr sl tp m c fl|sym k sl tp m|k]; cbn [authorized]; try done.
  - intros (Hm & p & Hp & H). split; [done|]. exists p. auto.
  - intros (Hm & p & Hp & H). split; [done|]. exists p. auto.
  - intros (o & os & H1 & H2). exists o, os. auto.
Qed.

Lemma safe_interleaved evs evs' all : interleaved evs evs' all -> safe_trace evs -> safe_trace evs' -> safe_trace all.
Proof.
  intros Hi H1 H2 pre req res post ->.
  destruct (interleaved_split _ _ _ _ _ Hi) as [(pre1 & post1 & -> & Hs)|(pre1 & post1 & -> & Hs)];
    eapply authorized_mono; eauto.
Qed.

(** C10: so does the monitor.  Every iteration of the position monitor, with its
    one-cancels-other and breakeven actions, sends only authorized requests,
    whatever the terminal, the history and the trade store answer. *)
Theorem monitor_touches_only_own m s
  (H : safe_trace (trace s)) :
  safe_trace (trace (snd (monitor_step B store MAGIC CANCEL_SIBLINGS m s))).
Proof. by apply monitor_step_safe. Qed.

End Ownership.

(** ** $-risk sizing, in exact arithmetic *)

Section Sizing.
Open Scope Q_scope.

Lemma round_half_even_exact z (d : positive) : round_half_even (z * Zpos d) d = z.
Proof.
  unfold round_half_even. rewrite Z.div_mul by done. rewrite Z.mod_mul by done. done.
Qed.

(** A multiple of 10^-8 survives [round(x, 8)]. *)
Lemma q_round8_exact (x : Q) z : x == z # 100000000 -> q_round 8 x == z # 100000000.
Proof.
  intros H. unfold q_round. change (Z.to_pos (10 ^ Z.of_nat 8)) with 100000000%positive.
  unfold Qeq in H. cbn [Qnum Qden] in H.
  replace (Qnum x * 100000000)%Z with (z * Zpos (Qden x))%Z by lia.
  by rewrite round_half_even_exact.
Qed.

Lemma f_div_pos (a b : Q) : 0 < b -> f_div a b = Some (a / b).
Proof.
  intros H. unfold f_div. cbn [f_eqb ArithQ f_quot].
  destruct (Qeq_bool b f_zero) eqn:E; [|done]. q_tests. rewrite f_zero_q in E. lra.
Qed.

Lemma q_leb_true a b : f_leb a b = true <-> a <= b.
Proof. apply q_leb_le. Qed.
Lemma q_leb_false a b : f_leb a b = false <-> b < a.
Proof. apply q_leb_gt. Qed.

Lemma floor_bounds (x y : Q) : 0 < y ->
  inject_Z (Qfloor (x / y)) * y <= x /\ x < (inject_Z (Qfloor (x / y)) + 1) * y.
Proof.
  intros Hy. destruct (q_floor_spec (x / y)) as [H1 H2].
  rewrite inject_Z_plus in H2. change (inject_Z 1) with 1 in H2.
  set (n := inject_Z (Qfloor (x / y))) in *.
  assert (x == (x / y) * y) as E by (field; lra).
  split; rewrite E at 1.
  - apply Qmult_le_compat_r; lra.
  - apply Qmult_lt_compat_r; lra.
Qed.

(** Loss of one lot between the entry and the stop. *)
Definition loss_per_lot (i : sym_info Q) (ref sl : Q) : Q :=
  Qabs.Qabs (ref - sl) / trade_tick_size i * trade_tick_value i.

Lemma loss_pos i ref sl :
  ~ ref == sl -> 0 < trade_tick_size i -> 0 < trade_tick_value i -> 0 < loss_per_lot i ref sl.
Proof.
  intros Hne Hs Hv. unfold loss_per_lot.
  assert (0 < Qabs.Qabs (ref - sl)) as Hd.
  { pose proof (Qabs.Qabs_nonneg (ref - sl)) as H0.
    destruct (Qle_lt_or_eq _ _ H0) as [H|H]; [done|]. exfalso. apply Hne.
    revert H. apply (Qabs_case (ref - sl) (fun x => 0 == x -> ref == sl)); intros; lra. }
  apply Qmult_lt_0_compat; [|done]. apply Qlt_shift_div_l; lra.
Qed.

(** The floored number of steps is the largest within the budget. *)
Lemma floor_within_budget (risk loss step : Q) : 0 < loss -> 0 < step ->
  let n := Qfloor (risk / loss / step) in
  inject_Z n * step * loss <= risk /\ risk < (inject_Z n + 1) * step * loss.
Proof.
  intros Hl Hst n. destruct (floor_bounds (risk / loss) step Hst) as [H1 H2]. fold n in H1, H2. clearbody n.
  assert (risk == risk / loss * loss) as E by (field; lra). split; rewrite E at 1.
  - apply Qmult_le_compat_r; lra.
  - apply Qmult_lt_compat_r; lra.
Qed.

(** Fewer steps than the minimum lot: the minimum exceeds what one more step does. *)
Lemma below_minimum (n m : Z) (step loss risk : Q) : 0 < step -> 0 < loss ->
  inject_Z n * step < inject_Z m * step -> risk < (inject_Z n + 1) * step * loss ->
  risk < inject_Z m * step * loss.
Proof.
  intros Hst Hl E Hhi. assert (n < m)%Z as Hnm.
  { destruct (Z_lt_le_dec n m) as [?|Hge]; [done|]. exfalso.
    assert (inject_Z m <= inject_Z n) by (unfold Qle; simpl; lia).
    assert (inject_Z m * step <= inject_Z n * step) by (apply Qmult_le_compat_r; lra). lra. }
  assert (inject_Z n + 1 <= inject_Z m) as Hq.
  { change 1 with (inject_Z 1). rewrite <-inject_Z_plus. unfold Qle. simpl. lia. }
  eapply Qlt_le_trans; [exact Hhi|].
  apply Qmult_le_compat_r; [|lra]. apply Qmult_le_compat_r; lra.
Qed.

Lemma size_for_spec (i : sym_info Q) (ref sl risk : Q) (k m : Z) :
  ~ ref == sl -> 0 < trade_tick_size i -> 0 < trade_tick_value i ->
  volume_step i == k # 100000000 -> (0 < k)%Z -> volume_min i == inject_Z m * volume_step i ->
  volume_min i <= volume_max i -> 0 < risk ->
  exists v, size_for i (Qabs.Qabs (ref - sl)) risk = Some v /\
    let loss := loss_per_lot i ref sl in
    (v == 0 /\ risk < volume_min i * loss) \/
    (volume_min i <= v /\ v <= volume_max i /\ v * loss <= risk /\
     (v == volume_max i \/ ((exists n, v == inject_Z n * volume_step i) /\ risk < (v + volume_step i) * loss))).
Proof.
  intros Hne Hs Hv Hk Hk0 Hm Hmm Hr.
  assert (0 < volume_step i) as Hst by (rewrite Hk; reflexivity || (unfold Qlt; simpl; lia)).
  pose proof (loss_pos i ref sl Hne Hs Hv) as Hl. set (loss := loss_per_lot i ref sl) in *.
  unfold size_for.
  assert (f_truthy (volume_step i) = true) as ->.
  { unfold f_truthy. cbn [f_eqb ArithQ]. destruct (Qeq_bool _ _) eqn:E; [|done]. q_tests.
    rewrite f_zero_q in E. lra. }
  rewrite (f_div_pos _ (trade_tick_size i)) by done. cbn [mbind option_bind f_mul ArithQ].
  change (Qabs.Qabs (ref - sl) / trade_tick_size i * trade_tick_value i) with loss.
  rewrite (f_div_pos _ loss) by done. cbn [mbind option_bind].
  rewrite (f_div_pos _ (volume_step i)) by done. cbn [mbind option_bind f_floor ArithQ].
  set (n := Qfloor (risk / loss / volume_step i)).
  assert (inject_Z n * volume_step i * loss <= risk /\
          risk < (inject_Z n + 1) * volume_step i * loss) as [Hlo Hhi] by (by apply floor_within_budget).
  assert (f_round 8 (f_int n * volume_step i) == inject_Z n * volume_step i) as Hround.
  { change (f_round 8 (f_int n * volume_step i)) with (q_round 8 (f_int n * volume_step i)).
    rewrite (q_round8_exact _ (n * k)).
    - rewrite Hk. unfold Qeq. simpl. lia.
    - rewrite f_int_q, Hk. unfold Qeq. simpl. lia. }
  set (vol := f_round 8 (f_int n * volume_step i)) in *.
  eexists. split; [reflexivity|]. cbn zeta. cbn [f_ltb ArithQ].
  destruct (q_ltb vol (volume_min i)) eqn:E; q_tests.
  - left. split; [apply f_zero_q|]. rewrite Hround, Hm in E. rewrite Hm. by apply (below_minimum n m).
  - right. unfold py_min. cbn [f_ltb ArithQ].
    destruct (q_ltb (volume_max i) vol) eqn:E2; q_tests.
    + split; [lra|]. split; [lra|]. split; [|left; reflexivity].
      apply Qle_trans with (vol * loss); [apply Qmult_le_compat_r; lra|]. by rewrite Hround.
    + split; [lra|]. split; [lra|]. split; [by rewrite Hround|]. right. split; [by exists n|]. rewrite Hround.
      assert ((inject_Z n * volume_step i + volume_step i) * loss ==
              (inject_Z n + 1) * volume_step i * loss) as -> by ring. done.
Qed.

(** C5: $-risk sizing, the formula without rounding errors.  In exact arithmetic,
    with a risk budget, a stop, a price and a symbol whose volume step is a multiple
    of 10^-8 (and whose minimum is a multiple of the step), [sized_volume] returns
    either 0, and then even the minimum lot would lose more than the budget at the
    stop, or a volume within the broker's limits whose loss at the stop is within the
    budget, and which is the broker's maximum or the largest multiple of the step
    with that loss (one more step would exceed the budget). *)
Theorem sized_volume_within_risk {T} (B : Broker Q T) symbol ref sl requested risk s i k m
  (Hi : fst (symbol_info B symbol (term s)) = Some i)
  (Hrisk : 0 < risk) (Hsl : 0 < sl) (Href : 0 < ref) (Hne : ~ ref == sl)
  (Hts : 0 < trade_tick_size i) (Htv : 0 < trade_tick_value i)
  (Hstep : volume_step i == k # 100000000) (Hk : (0 < k)%Z)
  (Hmin : volume_min i == inject_Z m * volume_step i) (Hmax : volume_min i <= volume_max i) :
  exists v, fst (sized_volume B symbol ref sl requested risk s) = Ok v /\
    let loss := loss_per_lot i ref sl in
    (v == 0 /\ risk < volume_min i * loss) \/
    (volume_min i <= v /\ v <= volume_max i /\ v * loss <= risk /\
     (v == volume_max i \/ ((exists n, v == inject_Z n * volume_step i) /\ risk < (v + volume_step i) * loss))).
Proof.
  destruct (size_for_spec i ref sl risk k m Hne Hts Htv Hstep Hk Hmin Hmax Hrisk) as (v & Hv & Hspec).
  exists v. split; [|exact Hspec].
  unfold sized_volume, andthen, peek.
  rewrite !(proj2 (q_leb_false _ f_zero)) by (rewrite f_zero_q; done). cbn [orb].
  destruct (symbol_info B symbol (term s)) as [oi t]. simpl in Hi. subst oi.
  rewrite !(proj2 (q_leb_false _ f_zero)) by (rewrite f_zero_q; done). cbn [orb].
  change (f_abs (f_sub ref sl)) with (Qabs.Qabs (ref - sl)).
  assert (0 < Qabs.Qabs (ref - sl)) as Hd.
  { pose proof (loss_pos i ref sl Hne Hts Htv) as Hl. unfold loss_per_lot in Hl.
    pose proof (Qabs.Qabs_nonneg (ref - sl)) as H0. destruct (Qle_lt_or_eq _ _ H0) as [H|H]; [done|].
    exfalso. rewrite <-H in Hl. unfold Qdiv in Hl. rewrite !Qmult_0_l in Hl. lra. }
  rewrite (proj2 (q_leb_false _ f_zero)) by (rewrite f_zero_q; done). by rewrite Hv.
Qed.

End Sizing.

(** ** What is reported is what the broker confirmed *)

Section Reports.
Context {F : Type} {A : Arith F} {T : Type} (B : Broker F T) (store : Store F).
Context (MAGIC : Z) (PENDING_FALLBACK CANCEL_SIBLINGS : bool) (RISK_USD : F).

(** The volume of a request that opens exposure. *)
Definition opening_volume (req : request F) : option F :=
  match req with
  | ReqDeal _ v _ None _ _ _ _ _ _ => Some v
  | ReqPending _ v _ _ _ _ _ _ _ => Some v
  | _ => None
  end.

Definition confirmed (l : list (event F)) (v : F) (r : send_result) : Prop :=
  exists req, Sent req (Some r) ∈ l /\ r_retcode r = DONE /\ opening_volume req = Some v.

(** Errors raised before anything is sent. *)
Definition refusal (e : exec_error F) : bool :=
  match e with
  | RiskTooSmall _ _ _ _ | EntryRequired | SltpRequiresLevel | UnknownCommand _ => true
  | _ => false
  end.

Definition grew (s s' : state F T) (P : list (event F) -> Prop) : Prop :=
  exists l, trace s' = trace s ++ l /\ P l.

Lemma grew_refl s (P : list (event F) -> Prop) : P [] -> grew s s P.
Proof. exists []. by rewrite app_nil_r. Qed.

Lemma grew_trans s1 s2 s3 P Q R :
  grew s1 s2 P -> grew s2 s3 Q -> (forall l1 l2, P l1 -> Q l2 -> R (l1 ++ l2)) -> grew s1 s3 R.
Proof.
  intros (l1 & E1 & H1) (l2 & E2 & H2) H. exists (l1 ++ l2). rewrite E2, E1, app_assoc. auto.
Qed.

Lemma grew_impl s s' P Q : grew s s' P -> (forall l, P l -> Q l) -> grew s s' Q.
Proof. intros (l & E & H) HI. exists l. auto. Qed.

Lemma confirmed_app l1 l2 v r : confirmed l2 v r -> confirmed (l1 ++ l2) v r.
Proof. intros (req & H1 & H2 & H3). exists req. split; [|done]. apply elem_of_app. by right. Qed.

Definition order_result (v : F) (s : state F T)
    (o : result exn (option send_result * option (exec_error F)) * state F T) : Prop :=
  match o with
  | (Ok (Some r, err), s') => err = None /\ grew s s' (fun l => confirmed l v r)
  | (Ok (None, err), s') => (exists e, err = Some e /\ refusal e = false) /\ grew s s' (fun _ => True)
  | (Err _, s') => grew s s' (fun _ => True)
  end.

Lemma send_run req s : exists res t, send B req s = (Ok res, mk_state t (trace s ++ [Sent req res])).
Proof. unfold send. destruct (order_send B req (term s)) as [res t]. by exists res, t. Qed.

(** Close a goal about the growth of a concrete trace. *)
Ltac grow :=
  first [ exists []; rewrite app_nil_r; split; [reflexivity|exact I]
        | eexists; rewrite <-?app_assoc; split; [reflexivity|exact I] ].
Ltac grow_confirmed :=
  eexists; rewrite <-?app_assoc; split; [reflexivity|];
  eexists; split;
    [ first [ apply elem_of_app; right; apply list_elem_of_singleton; reflexivity
            | apply list_elem_of_singleton; reflexivity ]
    | split; [done|reflexivity] ].

Lemma send_market_result ty symbol v c sl tp s :
  order_result v s (send_market B MAGIC ty symbol v c sl tp s).
Proof.
  unfold send_market, andthen, peek. destruct (symbol_info_tick B symbol (term s)) as [[tk|] t0].
  2: { simpl. split; [by eexists|grow]. }
  unfold order_comment. destruct (py_or c _); simpl; try grow.
  match goal with |- context [send B ?q _] => destruct (send_run q (mk_state t0 (trace s))) as (res & t1 & ->) end.
  destruct res as [r|]; simpl; [|split; [by eexists|grow]].
  case_bool_decide as E1.
  - match goal with |- context [send B ?q ?s1] => destruct (send_run q s1) as (res2 & t2 & ->) end. simpl.
    destruct res2 as [r2|]; simpl; [|grow].
    case_bool_decide as E2; simpl; (split; [by eauto|]); [grow_confirmed|grow].
  - simpl. case_bool_decide as E2; simpl; (split; [by eauto|]); [grow_confirmed|grow].
Qed.

Lemma send_pending_result ty symbol v e sl tp c s :
  match send_pending B MAGIC ty symbol v e sl tp c s with
  | (Ok (Some r, err, _), s') => err = None /\ grew s s' (fun l => confirmed l v r)
  | (Ok (None, err, _), s') => (exists e, err = Some e /\ refusal e = false) /\ grew s s' (fun _ => True)
  | (Err _, s') => grew s s' (fun _ => True)
  end.
Proof.
  unfold send_pending, andthen, order_comment. destruct (py_or c _); simpl; try grow.
  match goal with |- context [send B ?q _] => destruct (send_run q s) as (res & t1 & ->) end.
  destruct res as [r|]; simpl; [|split; [by eexists|grow]].
  case_bool_decide; simpl; (split; [by eauto|]); [grow_confirmed|grow].
Qed.

(** Closing and amending grow the trace and fail with their own errors. *)
Definition batch_result (s : state F T) (o : result exn (list string * option (exec_error F)) * state F T) : Prop :=
  grew s (snd o) (fun _ => True) /\
  forall x e, fst o = Ok (x, Some e) -> refusal e = false.

Lemma batch_errors {X} (m : shim F T (list X * option (exec_error F))) s :
  emits (fun _ => True) m -> grew s (snd (m s)) (fun _ => True).
Proof. intros H. destruct (H s) as (l & E & _). by exists l. Qed.

Lemma close_loop_emits symbol ty ps closed : emits (fun _ => True) (close_loop B MAGIC symbol ty ps closed).
Proof.
  revert closed. induction ps as [|p ps IH]; intros closed; simpl; [by apply emits_silent|].
  shim_walk; auto; by apply emits_send.
Qed.

Lemma modify_loop_emits symbol ty tp sl scope ps changed :
  emits (fun _ => True) (modify_loop B MAGIC symbol ty tp sl scope ps changed).
Proof.
  revert changed. induction ps as [|p ps IH]; intros changed; simpl; [by apply emits_silent|].
  shim_walk; auto; by apply emits_send.
Qed.

Lemma close_loop_error symbol ty ps : forall closed s x e,
  fst (close_loop B MAGIC symbol ty ps closed s) = Ok (x, Some e) -> refusal e = false.
Proof.
  induction ps as [|p ps IH]; intros closed s x e; simpl; [done|].
  destruct (_ || _); [apply IH|]. unfold andthen, peek.
  destruct (symbol_info_tick B symbol (term s)) as [[tk|] t0]; simpl; [|by intros [= _ <-]].
  match goal with |- context [send B ?q ?s1] => destruct (send_run q s1) as (res & t1 & ->) end.
  assert (forall o s2, fst (match o with
    | Some r => if bool_decide (r_retcode r = DONE)
                then close_loop B MAGIC symbol ty ps (closed ++ [show_ticket (r_order r)])
                else fun s => (Ok (closed, Some (CloseFailed (p_ticket p) (Some (r_retcode r)) (last_error B (term s)))), s)
    | None => fun s => (Ok (closed, Some (CloseFailed (p_ticket p) None (last_error B (term s)))), s)
    end s2) = Ok (x, Some e) -> refusal e = false) as K.
  { intros [r|] s2; [case_bool_decide; [apply IH|]|]; by intros [= _ <-]. }
  destruct res as [r|]; [|apply (K None)].
  case_bool_decide; [|apply (K (Some r))].
  match goal with |- context [send B ?q ?s1] => destruct (send_run q s1) as (res2 & t2 & ->) end.
  apply (K res2).
Qed.

Lemma modify_loop_error symbol ty tp sl scope ps : forall changed s x e,
  fst (modify_loop B MAGIC symbol ty tp sl scope ps changed s) = Ok (x, Some e) -> refusal e = false.
Proof.
  induction ps as [|p ps IH]; intros changed s x e; simpl; [done|].
  destruct (_ || _); [apply IH|]. unfold andthen.
  match goal with |- context [send B ?q ?s1] => destruct (send_run q s1) as (res & t1 & ->) end.
  destruct (done res); [apply IH|]. by intros [= _ <-].
Qed.

Lemma close_positions_result symbol ty s : batch_result s (close_positions B MAGIC symbol ty s).
Proof.
  split.
  - apply batch_errors. unfold close_positions.
    apply emits_andthen; [by apply emits_list_positions|]. intros. apply close_loop_emits.
  - intros x e. unfold close_positions, andthen, list_positions.
    destruct (positions_get B _ (term s)) as [ps t]. apply close_loop_error.
Qed.

Lemma modify_positions_result symbol ty tp sl scope s :
  batch_result s (modify_positions_sltp B MAGIC symbol ty tp sl scope s).
Proof.
  split.
  - apply batch_errors. unfold modify_positions_sltp.
    apply emits_andthen; [by apply emits_list_positions|]. intros. apply modify_loop_emits.
  - intros x e. unfold modify_positions_sltp, andthen, list_positions.
    destruct (positions_get B _ (term s)) as [ps t]. apply modify_loop_error.
Qed.

(** What [dispatch] guarantees of an outcome. *)
Definition dispatch_ok (cmd : string) (v : F) (s : state F T)
    (o : result exn (outcome F) * state F T) : Prop :=
  match o with
  | (Err _, s') => grew s s' (fun _ => True)
  | (Ok x, s') =>
      x_volume x = v /\ grew s s' (fun _ => True) /\
      (forall e, x_err x = Some e -> refusal e = true -> trace s' = trace s /\ x_status x = Rejected) /\
      (opens cmd <> None \/ pending_of cmd <> None -> x_err x = None ->
       exists r pre, x_order x = join "," (pre ++ [show_ticket (r_order r)]) /\
         grew s s' (fun l => confirmed l v r))
  end.

Lemma execute_pending_ok cmd ty fb symbol v params c sl tp s :
  dispatch_ok cmd v s (execute_pending B MAGIC PENDING_FALLBACK ty fb symbol v params c sl tp s).
Proof.
  unfold execute_pending. destruct (f_leb _ _).
  { simpl. split_and!; [done|grow|done|done]. }
  unfold andthen. match goal with |- context [send_pending B MAGIC ty symbol v ?e sl tp c s] =>
    pose proof (send_pending_result ty symbol v e sl tp c s) as HP;
    destruct (send_pending B MAGIC ty symbol v e sl tp c s) as [[[[[r|] err] rc]|e1] s1] end; simpl in HP |- *.
  - destruct HP as [-> HP]. split_and!; [done|by eapply grew_impl|done|]. intros _ _. by exists r, [].
  - destruct HP as [(e & -> & He) HP]. destruct (_ && _).
    + pose proof (send_market_result fb symbol v (tag_market c) sl tp s1) as HM.
      destruct (send_market B MAGIC fb symbol v (tag_market c) sl tp s1) as [[[[r|] merr]|e1] s2]; simpl in HM |- *.
      * destruct HM as [-> HM]. split_and!; [done|by eapply grew_trans|done|]. intros _ _. exists r, [].
        split; [done|]. eapply grew_trans; [done..|]. intros. by apply confirmed_app.
      * destruct HM as [(e' & -> & He') HM]. simpl. split_and!; [done|by eapply grew_trans| |done].
        by intros ? [= <-].
      * by eapply grew_trans.
    + simpl. split_and!; [done|done| |done]. intros ? [= <-]. congruence.
  - done.
Qed.

Lemma execute_reverse_ok cmd close_side open_side symbol v c sl tp s :
  dispatch_ok cmd v s (execute_reverse B MAGIC close_side open_side symbol v c sl tp s).
Proof.
  unfold execute_reverse, andthen. pose proof (close_positions_result symbol close_side s) as [HG HE].
  destruct (close_positions B MAGIC symbol close_side s) as [[[orders [e|]]|e1] s1]; simpl in *.
  - specialize (HE _ _ eq_refl). split_and!; try done. intros ? [= <-]. congruence.
  - pose proof (send_market_result open_side symbol v c sl tp s1) as HM.
    destruct (send_market B MAGIC open_side symbol v c sl tp s1) as [[[[r|] merr]|e1] s2]; simpl in HM |- *.
    + destruct HM as [-> HM]. split_and!; [done|by eapply grew_trans|done|]. intros _ _. exists r, orders.
      split; [done|]. eapply grew_trans; [done..|]. intros. by apply confirmed_app.
    + destruct HM as [(e' & -> & He') HM]. split_and!; [done|by eapply grew_trans| |done].
      intros ? [= <-]. congruence.
    + by eapply grew_trans.
  - done.
Qed.

Lemma market_ok cmd ty symbol v c sl tp s :
  dispatch_ok cmd v s
    (andthen (send_market B MAGIC ty symbol v c sl tp) (fun r => pure (market_outcome v r)) s).
Proof.
  unfold andthen. pose proof (send_market_result ty symbol v c sl tp s) as HM.
  destruct (send_market B MAGIC ty symbol v c sl tp s) as [[[[r|] err]|e1] s1]; simpl in HM |- *.
  - destruct HM as [-> HM]. split_and!; [done|by eapply grew_impl|done|]. intros _ _. by exists r, [].
  - destruct HM as [(e & -> & He) HM]. split_and!; try done. intros ? [= <-]. congruence.
  - done.
Qed.

Lemma close_only_ok cmd ty symbol v s :
  opens cmd = None -> pending_of cmd = None ->
  dispatch_ok cmd v s (andthen (close_positions B MAGIC symbol ty)
    (fun c => pure (mk_outcome Filled (join "," (fst c)) (snd c) v)) s).
Proof.
  intros Ho Hp. unfold andthen. pose proof (close_positions_result symbol ty s) as [HG HE].
  destruct (close_positions B MAGIC symbol ty s) as [[[orders oe]|e1] s1]; simpl in *; [|done].
  split_and!; try done; [|intros [?|?]; done]. intros e ->. specialize (HE _ _ eq_refl). congruence.
Qed.

Lemma execute_newsltp_ok cmd ty symbol v params sl tp s :
  opens cmd = None -> pending_of cmd = None ->
  dispatch_ok cmd v s (execute_newsltp B MAGIC ty symbol v params sl tp s).
Proof.
  intros Ho Hp. unfold execute_newsltp. destruct (_ && _).
  { simpl. split_and!; [done|grow|done|done]. }
  unfold andthen. destruct (py_or _ _); simpl; try grow.
  match goal with |- context [modify_positions_sltp B MAGIC symbol ty tp sl ?sc s] =>
    pose proof (modify_positions_result symbol ty tp sl sc s) as [HG HE];
    destruct (modify_positions_sltp B MAGIC symbol ty tp sl sc s) as [[[tickets [e|]]|e1] s1] end; simpl in *.
  - specialize (HE _ _ eq_refl). split_and!; try done. intros ? [= <-]. congruence.
  - split_and!; try done. by intros [?|?].
  - done.
Qed.

Lemma dispatch_spec command symbol params c sl tp v s :
  dispatch_ok (lower command) v s
    (dispatch B MAGIC PENDING_FALLBACK command symbol params c sl tp v s).
Proof.
  unfold dispatch. case_bool_decide as E1; [apply market_ok|]. case_bool_decide as E2; [apply market_ok|].
  destruct (pending_of (lower command)) as [[ty fb]|] eqn:Ep; [apply execute_pending_ok|].
  case_bool_decide as E3; [rewrite E3; by apply close_only_ok|].
  case_bool_decide as E4; [rewrite E4; by apply close_only_ok|].
  case_bool_decide as E5; [apply execute_reverse_ok|].
  case_bool_decide as E6; [apply execute_reverse_ok|].
  case_bool_decide as E7; [rewrite E7; by apply execute_newsltp_ok|].
  case_bool_decide as E8; [rewrite E8; by apply execute_newsltp_ok|].
  simpl. split_and!; [done|grow|done|done].
Qed.

Lemma execute_cases command symbol params s x s' :
  execute B store MAGIC PENDING_FALLBACK RISK_USD command symbol params s = (Ok x, s') ->
  (trace s' = trace s /\ x_status x = Rejected /\ exists e, x_err x = Some e) \/
  (exists s1, trace s1 = trace s /\ dispatch_ok (lower command) (x_volume x) s1 (Ok x, s')).
Proof.
  unfold execute, andthen, peek. pose proof (resolve_symbol_silent B store symbol s) as HS.
  destruct (resolve_symbol B store symbol s) as [[sym|e] s1]; [|done]. simpl in HS.
  match goal with |- context [size_order B RISK_USD ?c0 ?y ?p0 ?sl0 ?v0 ?st] =>
    pose proof (size_order_silent B RISK_USD c0 y p0 sl0 v0 st) as HZ;
    destruct (size_order B RISK_USD c0 y p0 sl0 v0 st) as [[[vol|[e v]]|e] s2]; [| |done] end; simpl in HZ.
  - intros H. right. exists s2. split; [congruence|].
    match type of H with dispatch _ _ _ _ ?y ?p0 ?c0 ?sl0 ?tp0 ?v0 ?st = _ =>
      pose proof (dispatch_spec command y p0 c0 sl0 tp0 v0 st) as HD end.
    rewrite H in HD. pose proof HD as HD'. simpl in HD. destruct HD as [-> _]. exact HD'.
  - intros [= <- <-]. left. split_and!; [congruence|done|]. by eexists.
Qed.

(** C9: a reported fill is a confirmed fill.  When the fill report of a command
    that opens exposure (buy, sell, the pending orders and the reversals) is not
    "rejected", the broker answered DONE to an opening request of this execution
    for exactly the reported volume, and the last order id reported is that
    answer's. *)
Theorem reported_fill_is_confirmed command symbol params s x s'
  (H : execute B store MAGIC PENDING_FALLBACK RISK_USD command symbol params s = (Ok x, s'))
  (Hcmd : opens (lower command) <> None \/ pending_of (lower command) <> None)
  (Hst : f_status (report_fill x) <> Rejected) :
  exists r pre l, trace s' = trace s ++ l /\ confirmed l (x_volume x) r /\
    f_order (report_fill x) = join "," (pre ++ [show_ticket (r_order r)]).
Proof.
  destruct (execute_cases _ _ _ _ _ _ H) as [(_ & _ & e & He)|(s1 & E & HD)].
  - unfold report_fill in Hst. rewrite He in Hst. done.
  - destruct HD as (_ & _ & _ & HD).
    assert (x_err x = None) as Hx by (unfold report_fill in Hst; by destruct (x_err x)).
    destruct (HD Hcmd Hx) as (r & pre & Ho & l & El & Hl).
    exists r, pre, l. rewrite El, E. done.
Qed.

(** A refused signal sends nothing.  When [execute] reports a risk budget too
    small for the minimum lot, a pending order without an entry, an amendment
    without a level or an unknown command, the status is "rejected" and the
    terminal received no request at all. *)
Theorem refused_sends_nothing command symbol params s x s' e
  (H : execute B store MAGIC PENDING_FALLBACK RISK_USD command symbol params s = (Ok x, s'))
  (He : x_err x = Some e) (Hr : refusal e = true) :
  x_status x = Rejected /\ trace s' = trace s.
Proof.
  destruct (execute_cases _ _ _ _ _ _ H) as [(E & Hx & _)|(s1 & E & HD)]; [done|].
  destruct HD as (_ & _ & HD & _). destruct (HD e He Hr) as [E' Hx]. split; [done|congruence].
Qed.

End Reports.

(** ** One cancels other, breakeven *)

Section Oco.
Context {F : Type} {A : Arith F} {T : Type} (B : Broker F T) (store : Store F) (MAGIC : Z).

(** The requests of a piece of trace, in order. *)
Definition sent_requests (l : list (event F)) : list (request F) :=
  omap (fun e => match e with Sent req _ => Some req | _ => None end) l.

(** [m] started in [s] sends exactly the requests [reqs], in this order. *)
Definition sends_exactly {X} (m : shim F T X) (s : state F T) (reqs : list (request F)) : Prop :=
  exists l, trace (snd (m s)) = trace s ++ l /\ sent_requests l = reqs.

Lemma sends_nothing {X} (m : shim F T X) s : trace (snd (m s)) = trace s -> sends_exactly m s [].
Proof. intros H. exists []. by rewrite H, app_nil_r. Qed.

Lemma sends_andthen {X Y} (m : shim F T X) (k : X -> shim F T Y) s x s1 rs1 rs2 :
  m s = (Ok x, s1) -> sends_exactly m s rs1 -> sends_exactly (k x) s1 rs2 ->
  sends_exactly (andthen m k) s (rs1 ++ rs2).
Proof.
  unfold sends_exactly, andthen. intros Hm (l1 & E1 & H1) (l2 & E2 & H2). rewrite Hm in *. simpl in *.
  exists (l1 ++ l2). rewrite E2, E1, app_assoc. split; [done|]. unfold sent_requests in *.
  by rewrite omap_app, H1, H2.
Qed.

Lemma sends_swallow (m : shim F T unit) s rs : sends_exactly m s rs -> sends_exactly (swallow m) s rs.
Proof. unfold sends_exactly, swallow. by destruct (m s). Qed.

Lemma send_sends req s : exists r t, send B req s = (Ok r, mk_state t (trace s ++ [Sent req r])).
Proof. unfold send. destruct (order_send B req (term s)) as [r t]. eauto. Qed.

(** Sending one request and going on. *)
Lemma sends_cons {X} req (k : option send_result -> shim F T X) s rs :
  (forall r s1, sends_exactly (k r) s1 rs) -> sends_exactly (andthen (send B req) k) s (req :: rs).
Proof.
  intros H. destruct (send_sends req s) as (r & t & E).
  apply (sends_andthen _ _ _ _ _ [req] rs E); [|apply H]. exists [Sent req r]. by rewrite E.
Qed.

(** A resting order of the script among the given tickets, and its withdrawal. *)
Definition own_resting (ids : list string) (o : resting) : bool :=
  elem (show_ticket (o_ticket o)) ids && (o_magic o =? MAGIC)%Z.
Definition withdraw (o : resting) : request F := ReqRemove (o_ticket o).

(** An open position of the script among the given tickets, and the move of its
    stop to its own entry, its target kept. *)
Definition own_position (ids : list string) (p : position F) : bool :=
  (p_magic p =? MAGIC)%Z && elem (show_ticket (p_ticket p)) ids.
Definition to_breakeven (p : position F) : request F :=
  ReqSltp (p_symbol p) (p_ticket p) (p_price_open p) (p_tp p) MAGIC.

Lemma cancel_loop_sends ids os : forall removed failures s,
  sends_exactly (cancel_loop B MAGIC ids os removed failures) s
    (map withdraw (List.filter (own_resting ids) os)).
Proof.
  induction os as [|o os IH]; intros removed failures s; [by apply sends_nothing|].
  cbn [cancel_loop List.filter]. rewrite <-negb_andb. fold (own_resting ids o).
  destruct (own_resting ids o); [|apply IH]. simpl. apply sends_cons. intros r s1. destruct (done r); apply IH.
Qed.

Lemma breakeven_loop_sends ids ps : forall s,
  sends_exactly (breakeven_loop B MAGIC ids ps) s (map to_breakeven (List.filter (own_position ids) ps)).
Proof.
  induction ps as [|p ps IH]; intros s; [by apply sends_nothing|].
  cbn [breakeven_loop List.filter]. rewrite <-negb_andb. fold (own_position ids p).
  destruct (own_position ids p); [|apply IH]. simpl. apply sends_cons. intros r s1. apply IH.
Qed.

Lemma filter_none {X} (f : X -> bool) (l : list X) : (forall x, f x = false) -> List.filter f l = [].
Proof. intros H. induction l as [|x l IH]; simpl; [done|]. by rewrite H. Qed.

Lemma cancel_siblings_sends ticket ids s :
  sibling_broker_order_ids store (show_ticket ticket) = Ok ids ->
  sends_exactly (_cancel_siblings_after_close B store MAGIC ticket) s
    (map withdraw (List.filter (own_resting ids) (fst (orders_get B (term s))))).
Proof.
  intros Hids. unfold _cancel_siblings_after_close. rewrite Hids. apply sends_swallow.
  change (sends_exactly (match ids with [] => pure tt
    | _ => andthen (cancel_pending_orders B MAGIC ids) (fun _ => pure tt) end) s
    (map withdraw (List.filter (own_resting ids) (fst (orders_get B (term s)))))).
  destruct ids as [|i ids].
  - rewrite (filter_none (own_resting [])) by done. by apply sends_nothing.
  - unfold cancel_pending_orders, list_orders, sends_exactly, andthen at 1 2.
    destruct (orders_get B (term s)) as [os t]. cbn [fst].
    destruct (cancel_loop_sends (i :: ids) os [] [] (mk_state t (trace s ++ [ListedOrders os]))) as (l & E & H).
    exists (ListedOrders os :: l). split; [|done].
    destruct (cancel_loop _ _ _ _ _ _ _) as [[]]; simpl in *; by rewrite E, <-app_assoc.
Qed.

Lemma sibling_ids_nonempty ticket rows :
  List.filter (fun s => negb (bool_decide (s = ""%string))) (@sibling_ids_of F ticket rows) =
  sibling_ids_of ticket rows.
Proof.
  unfold sibling_ids_of. induction (omap w_order_id rows) as [|x l IH]; [done|].
  simpl. destruct (bool_decide (x = ""%string)) eqn:E; [done|]. simpl.
  case_match; simpl; rewrite ?E; simpl; by rewrite IH.
Qed.

Lemma breakeven_sends ticket (rows : list (order_row F)) s :
  sends_exactly (_move_siblings_to_breakeven B MAGIC (sibling_ids_of ticket rows)) s
    (map to_breakeven (List.filter (own_position (sibling_ids_of ticket rows)) (fst (positions_get B None (term s))))).
Proof.
  unfold _move_siblings_to_breakeven. rewrite sibling_ids_nonempty. apply sends_swallow.
  destruct (sibling_ids_of ticket rows) as [|i ids].
  - rewrite (filter_none (own_position [])) by (intros; apply andb_false_r). by apply sends_nothing.
  - unfold list_positions, sends_exactly, andthen. destruct (positions_get B None (term s)) as [ps t]. cbn [fst].
    destruct (breakeven_loop_sends (i :: ids) ps (mk_state t (trace s ++ [Listed ps]))) as (l & E & H).
    exists (Listed ps :: l). split; [|done]. rewrite E. cbn [trace]. by rewrite <-app_assoc.
Qed.

(** The half leg of a split signal, as the store sees it. *)
Definition is_half (ticket : Z) (rows : list (order_row F)) : bool :=
  match _classify_tp_close ticket rows with Some (Half, _) => true | _ => false end.

(** One cancels other.  A leg closed at its stop withdraws exactly the script's
    resting orders of the same signal, or nothing when the store cannot resolve
    them.  A half leg at its target withdraws nothing: with breakeven off nothing
    is sent, with breakeven on the stops of exactly the script's open positions of
    the same signal move to their entry, targets kept.  Any other close at a
    target does what a stop does; a close for any other reason sends nothing. *)
Theorem oco_dispatch ticket s :
  let close reason := _handle_close_oco B store MAGIC ticket reason in
  (forall ids, sibling_broker_order_ids store (show_ticket ticket) = Ok ids ->
     sends_exactly (close REASON_SL) s
       (map withdraw (List.filter (own_resting ids) (fst (orders_get B (term s)))))) /\
  (forall e, sibling_broker_order_ids store (show_ticket ticket) = Err e -> close REASON_SL s = (Ok tt, s)) /\
  (forall rows channel be, sibling_order_rows store (show_ticket ticket) = Ok rows ->
     _classify_tp_close ticket rows = Some (Half, channel) -> breakeven_flag store channel = Ok be ->
     sends_exactly (close REASON_TP) s
       (if be then map to_breakeven (List.filter (own_position (sibling_ids_of ticket rows))
                                       (fst (positions_get B None (term s))))
        else [])) /\
  ((forall rows, sibling_order_rows store (show_ticket ticket) = Ok rows -> is_half ticket rows = false) ->
     close REASON_TP s = close REASON_SL s) /\
  (forall n, close (OtherReason n) s = (Ok tt, s)).
Proof.
  cbn zeta. split_and!.
  - intros ids H. by apply cancel_siblings_sends.
  - intros e H. simpl. unfold _cancel_siblings_after_close. by rewrite H.
  - intros rows channel be Hr Hc Hb. unfold _handle_close_oco. rewrite Hr.
    destruct rows as [|r rows]; [done|]. rewrite Hc, Hb. destruct be; [|by apply sends_nothing].
    apply (breakeven_sends ticket (r :: rows)).
  - intros H. unfold _handle_close_oco. destruct (sibling_order_rows store _) as [rows|]; [|done].
    specialize (H rows eq_refl). unfold is_half in H. destruct rows as [|r rows]; [done|].
    by destruct (_classify_tp_close ticket (r :: rows)) as [[[] c]|].
  - done.
Qed.

End Oco.

(** ** Comments are cut to 26 characters *)

Lemma encode_length (s : string) : length (encode_utf8 s) = String.length s.
Proof. unfold encode_utf8, String.list_byte_of_string. rewrite List.length_map. induction s; simpl; auto. Qed.

Lemma prefix_length (p s : string) : String.prefix p s = true -> (String.length p <= String.length s)%nat.
Proof.
  revert s. induction p as [|a p IH]; intros [|b s]; simpl; try lia; try done.
  destruct (ascii_dec a b); [|done]. intros H. apply IH in H. lia.
Qed.

Lemma str_take_shorter n (s : string) : (n < str_len s)%nat ->
  (String.length (str_take n s) < String.length s)%nat.
Proof.
  intros H. rewrite <-!encode_length. unfold str_take. rewrite encode_string_of.
  destruct (take_points_prefix n (encode_utf8 s)) as [r E]. rewrite E at 2. rewrite length_app.
  destruct r as [|b r]; [|simpl; lia]. exfalso. rewrite app_nil_r in E.
  pose proof (take_points_len n (encode_utf8 s)) as HL. rewrite <-E in HL. unfold str_len in H. lia.
Qed.

(** Long channel comments cannot be amended.  Orders are sent with their
    comment cut to 26 characters, while an amendment matches the comment of the
    signal in full: for a comment of more than 26 characters, positions opened
    under it are never in its scope, so the amendment changes nothing and is
    reported as filled with no order. *)
Theorem long_comment_never_amended {F} {A : Arith F} {T} (B : Broker F T) MAGIC
    symbol ty (tp sl v : F) params c ps s
  (Hc : (26 < str_len c)%nat)
  (Hps : Forall (fun p => p_comment p = str_take 26 c) ps)
  (Hl : fst (positions_get B (Some symbol) (term s)) = ps)
  (Hp : get params "comment" = PStr c)
  (Hlev : f_leb tp f_zero && f_leb sl f_zero = false) :
  fst (execute_newsltp B MAGIC ty symbol v params sl tp s) = Ok (mk_outcome Filled "" None v).
Proof.
  assert (c <> ""%string) as Hne by (intros ->; vm_compute in Hc; lia).
  assert (forall ps, Forall (fun p => p_comment p = str_take 26 c) ps -> forall changed s,
    modify_loop B MAGIC symbol ty tp sl c ps changed s = (Ok (changed, None), s)) as K.
  { induction 1 as [|p l Hpc _ IH]; intros changed s0; [done|]. simpl.
    assert (in_scope c p = false) as ->.
    { unfold in_scope, startswith. rewrite bool_decide_false by done. simpl. rewrite Hpc.
      destruct (String.prefix c (str_take 26 c)) eqn:E; [|done].
      apply prefix_length in E. pose proof (str_take_shorter 26 c Hc). lia. }
    rewrite orb_true_r. apply IH. }
  unfold execute_newsltp. rewrite Hlev. unfold andthen.
  assert (py_or (get params "comment") (PStr "") = PStr c) as ->.
  { rewrite Hp. unfold py_or. simpl. by rewrite bool_decide_false. }
  unfold pure, modify_positions_sltp, andthen, list_positions.
  destruct (positions_get B (Some symbol) (term s)) as [ps' t]. simpl in Hl. subst ps'.
  by rewrite K.
Qed.

(** ** A concrete terminal *)

Module Terminal.
Open Scope Q_scope.
Definition info : sym_info Q := mk_sym 1 (1 # 100) (1 # 100) (1 # 100) 100.
(** One own long position and one foreign one. *)
Definition own : position Q := mk_position 7 "EURUSD" Buy 42 (3 # 10) (11 # 10) 1 2 "tg-VGTA".
Definition foreign : position Q := mk_position 8 "EURUSD" Buy 99 1 1 1 2 "manual".
(** [reply n] is the answer to the n-th request. *)
Definition broker (reply : nat -> option send_result) : Broker Q nat := mk_broker nat
  (fun sym t => (if bool_decide (sym = "EURUSD"%string) then Some info else None, t))
  (fun _ t => (Some (mk_tick (12 # 10) (11 # 10)), t))
  (fun _ t => t)
  (fun _ t => ([own; foreign], t))
  (fun t => ([mk_resting 21 42; mk_resting 22 42; mk_resting 23 99], t))
  (fun _ t => ([], t))
  (fun _ t => (reply t, S t))
  (fun t => (None, t))
  (fun _ => "err"%string).
Definition accepting : Broker Q nat := broker (fun n => Some (mk_sent DONE (Z.of_nat n) "ok")).
(** Refuses IOC, then returns nothing to the FOK retry. *)
Definition fussy : Broker Q nat :=
  broker (fun n => match n with O => Some (mk_sent INVALID_FILL 0 "") | _ => None end).
Definition row (id tp cmd : string) : order_row Q := mk_row (Some id) (PStr tp) (Some cmd) (Some "VGTA"%string).
Definition store : Store Q := mk_store (fun _ => None) (fun _ => Ok ["21"%string; "7"%string])
  (fun _ => Ok [row "5" "1.5" "buy"; row "7" "2" "buy"]) (fun _ => Ok true).
Definition start : state Q nat := mk_state 0%nat [].
Definition params (sl : string) : pydict Q :=
  [("sl"%string, PStr sl); ("risk"%string, PStr "20"); ("vol_lots"%string, PStr "5")].
Definition long_comment : string := "a-telegram-channel-with-a-long-name".
Definition run (B : Broker Q nat) (command : string) (p : pydict Q) :=
  execute B store 42 true 0 command "EURUSD" p start.
Definition outcome_of (r : result exn (outcome Q) * state Q nat) : option (outcome Q) :=
  match fst r with Ok x => Some x | Err _ => None end.
End Terminal.

(** A missing answer to the fill-mode retry escapes as an exception.  Whatever
    the terminal, when it refuses the IOC filling of a market order and returns
    nothing to the FOK retry, the dispatcher raises [AttributeError] instead of
    answering "rejected": no fill report is built, although both requests went
    out. *)
Theorem fok_retry_none_raises {F} {A : Arith F} {T} (B : Broker F T) MAGIC fallback command symbol params
    text sl tp volume s t0 t1 t2 tk r
  (req := fun fill => ReqDeal symbol volume Buy None (ask tk) (if_positive sl) (if_positive tp) MAGIC
                        (str_take 26 text) fill)
  (Hc : lower command = "buy"%string) (Htext : text <> ""%string)
  (Ht : symbol_info_tick B symbol (term s) = (Some tk, t0))
  (H1 : order_send B (req IOC) t0 = (Some r, t1)) (Hr : r_retcode r = INVALID_FILL)
  (H2 : order_send B (req FOK) t1 = (None, t2)) :
  dispatch B MAGIC fallback command symbol params (PStr text) sl tp volume s =
    (Err AttributeError, mk_state t2 (trace s ++ [Sent (req IOC) (Some r); Sent (req FOK) None])).
Proof.
  subst req. unfold dispatch, send_market, order_comment, send, peek, andthen, py_or. simpl.
  rewrite Hc, bool_decide_true, Ht by done. cbn [truthy]. rewrite bool_decide_false by done.
  cbn [negb pure term trace]. cbn. rewrite H1. cbn. rewrite bool_decide_true by done. cbn. rewrite H2. cbn.
  by rewrite <-app_assoc.
Qed.

Lemma fok_retry_none_raises_witness :
  fst (dispatch Terminal.fussy 42 true "Buy" "EURUSD" [] (PStr "tg") 1%Q 2%Q 1%Q Terminal.start) =
  Err AttributeError.
Proof.
  erewrite (fok_retry_none_raises Terminal.fussy 42 true "Buy" "EURUSD" [] "tg" 1%Q 2%Q 1%Q Terminal.start
    0%nat 1%nat 2%nat); try reflexivity. discriminate.
Defined.

Lemma execute_touches_only_own_witness :
  safe_trace 42 (trace Terminal.start) /\
  safe_trace 42 (trace (snd (Terminal.run Terminal.accepting "closelong" []))) /\
  length (trace (snd (Terminal.run Terminal.accepting "closelong" []))) = 2%nat.
Proof.
  split; [apply safe_nil|]. split; [|vm_compute; reflexivity].
  apply (execute_touches_only_own Terminal.accepting Terminal.store 42 true 0%Q "closelong" "EURUSD" []).
  apply safe_nil.
Defined.

Definition demo_monitor : monitor Q * state Q nat :=
  monitor_step Terminal.accepting Terminal.store 42 true
    (mk_monitor (Some [Terminal.own; mk_position 5 "EURUSD" Buy 42 1%Q 1%Q 1%Q 2%Q "tg"]) 0) Terminal.start.

Lemma monitor_touches_only_own_witness :
  safe_trace 42 (trace Terminal.start) /\ safe_trace 42 (trace (snd demo_monitor)) /\
  length (trace (snd demo_monitor)) = 2%nat.
Proof.
  split; [apply safe_nil|]. split; [|vm_compute; reflexivity].
  apply (monitor_touches_only_own Terminal.accepting Terminal.store 42 true). apply safe_nil.
Defined.

(** In binary64 the quotient may fall just short of a whole number of steps:
    [0.29 / 0.01] is below 29, and the sized volume is one step less than the budget
    allows. *)
Example float_sizing_one_step_less :
  let info := mk_sym (b64_dec 100 0) (b64_dec 1 0) (b64_dec 1 (-2)) (b64_dec 1 (-2)) (b64_dec 100 0) in
  size_for (A := Arith64) info (b64_dec 1 0) (b64_dec 29 0) = Some (b64_dec 28 (-2)) /\
  size_for (A := ArithQ) (mk_sym 100%Q 1%Q (1 # 100)%Q (1 # 100)%Q 100%Q) 1%Q 29%Q = Some (29000000 # 100000000)%Q.
Proof. split; vm_compute; reflexivity. Qed.

Lemma sized_volume_within_risk_witness :
  exists v, fst (sized_volume Terminal.accepting "EURUSD" (12 # 10)%Q 1%Q 5%Q 3%Q Terminal.start) = Ok v /\
    (v * loss_per_lot Terminal.info (12 # 10) 1 <= 3)%Q.
Proof.
  destruct (sized_volume_within_risk Terminal.accepting "EURUSD" (12 # 10)%Q 1%Q 5%Q 3%Q Terminal.start
    Terminal.info 1000000 1) as (v & H1 & H2); try reflexivity; try (vm_compute; discriminate).
  exists v. split; [exact H1|]. destruct H2 as [[H2 _]|(_ & _ & H2 & _)]; [|exact H2].
  rewrite H2. vm_compute. discriminate.
Defined.

Lemma reported_fill_is_confirmed_witness :
  exists x s' r pre l, Terminal.run Terminal.accepting "buy" (Terminal.params "1.0") = (Ok x, s') /\
    trace s' = trace Terminal.start ++ l /\ confirmed l (x_volume x) r /\
    f_order (report_fill x) = join "," (pre ++ [show_ticket (r_order r)]).
Proof.
  destruct (Terminal.run Terminal.accepting "buy" (Terminal.params "1.0")) as [[x|e] s'] eqn:E;
    [|vm_compute in E; discriminate E].
  assert (Terminal.outcome_of (Terminal.run Terminal.accepting "buy" (Terminal.params "1.0")) = Some x) as Ex
    by (rewrite E; reflexivity).
  destruct (reported_fill_is_confirmed Terminal.accepting Terminal.store 42 true 0%Q "buy" "EURUSD"
    (Terminal.params "1.0") Terminal.start x s' E) as (r & pre & l & H).
  - left. vm_compute. discriminate.
  - vm_compute in Ex. injection Ex as <-. vm_compute. discriminate.
  - exists x, s', r, pre, l. split; [reflexivity|exact H].
Defined.

Lemma refused_sends_nothing_witness :
  exists x s', Terminal.run Terminal.accepting "buylimit" [] = (Ok x, s') /\
    x_status x = Rejected /\ trace s' = trace Terminal.start.
Proof.
  destruct (Terminal.run Terminal.accepting "buylimit" []) as [[x|e] s'] eqn:E;
    [|vm_compute in E; discriminate E].
  exists x, s'. split; [reflexivity|].
  apply (refused_sends_nothing Terminal.accepting Terminal.store 42 true 0%Q "buylimit" "EURUSD" []
    Terminal.start x s' EntryRequired E); [|reflexivity].
  assert (Terminal.outcome_of (Terminal.run Terminal.accepting "buylimit" []) = Some x) as Ex
    by (rewrite E; reflexivity).
  vm_compute in Ex. injection Ex as <-. reflexivity.
Defined.

Definition cut_position : position Q :=
  mk_position 7 "EURUSD" Buy 42 1%Q 1%Q 1%Q 2%Q (str_take 26 Terminal.long_comment).
Definition cut_broker : Broker Q nat := mk_broker nat
  (fun _ t => (None, t)) (fun _ t => (None, t)) (fun _ t => t) (fun _ t => ([cut_position], t))
  (fun t => ([], t)) (fun _ t => ([], t)) (fun _ t => (None, t)) (fun t => (None, t)) (fun _ => "err"%string).

Lemma long_comment_never_amended_witness :
  fst (execute_newsltp cut_broker 42 Buy "EURUSD" (1 # 100)%Q [("comment"%string, PStr Terminal.long_comment)]
    0%Q 2%Q Terminal.start) = Ok (mk_outcome Filled "" None (1 # 100)%Q).
Proof.
  apply (long_comment_never_amended cut_broker 42 "EURUSD" Buy 2%Q 0%Q (1 # 100)%Q
    [("comment"%string, PStr Terminal.long_comment)] Terminal.long_comment [cut_position] Terminal.start).
  - vm_compute. lia.
  - repeat constructor.
  - reflexivity.
  - reflexivity.
  - vm_compute. reflexivity.
Defined.
