(* ===== verification/Json.v ===== *)
(** * Json: [json.dumps] and [json.loads]

    The Standard Library's codec with its default settings, as far as the trade
    store uses it: ASCII output with escapes, separators of a comma or a colon
    and a space, the last of two equal keys winning, [NaN] and infinities read.
    Texts are UTF-8 bytes; a lone surrogate escape is kept as its three-byte
    form.  [None] stands for [JSONDecodeError].  The recursion limit and the
    limit on digits of an integer are not modelled.  [float.__repr__] is an
    argument; [float_ok] is what it promises of a finite float.

    The parser carries fuel; [loads] gives it twice the length of the text plus
    two, and [value_fuel_enough] shows that more never changes the answer. *)

From Stdlib Require Import ZArith ZifyN SpecFloat Strings.Byte.
From S2P Require Import Prelude Text PyFloat PyVal.
Open Scope N_scope.

#[export] Instance byte_eq_decision : EqDecision byte := Byte.byte_eq_dec.

(** ** Code points *)

(** Value of a code point from its lead byte and the bytes that continue it. *)
Definition cont_bits (acc : N) (b : byte) : N := acc * 64 + (byte_val b - 0x80).

Definition lead_bits (b : N) : N :=
  if b <? 0x80 then b else if b <? 0xE0 then b - 0xC0 else if b <? 0xF0 then b - 0xE0 else b - 0xF0.

Definition extra_bytes (b : N) : nat :=
  if b <? 0x80 then 0 else if b <? 0xE0 then 1 else if b <? 0xF0 then 2 else 3.

Fixpoint points_loop (fuel : nat) (d : bytes) : list N :=
  match fuel, d with
  | S f, b :: d' =>
      let k := extra_bytes (byte_val b) in
      fold_left cont_bits (take k d') (lead_bits (byte_val b)) :: points_loop f (drop k d')
  | _, _ => []
  end.

Definition points (d : bytes) : list N := points_loop (length d) d.

Definition cont_byte_of (n : N) : byte := byte_of (0x80 + n mod 64).

Definition utf8_of_point (p : N) : bytes :=
  if p <? 0x80 then [byte_of p]
  else if p <? 0x800 then [byte_of (0xC0 + p / 64); cont_byte_of p]
  else if p <? 0x10000 then [byte_of (0xE0 + p / 4096); cont_byte_of (p / 64); cont_byte_of p]
  else [byte_of (0xF0 + p / 262144); cont_byte_of (p / 4096); cont_byte_of (p / 64); cont_byte_of p].

(** ** Printing *)

Definition hex_digit (n : N) : byte := byte_of (if n <? 10 then 48 + n else 87 + n).

Definition u_escape (n : N) : bytes :=
  ["\"%byte; "u"%byte; hex_digit (n / 4096); hex_digit (n / 256 mod 16); hex_digit (n / 16 mod 16);
   hex_digit (n mod 16)].

(** The short escape of a code point, if it has one. *)
Definition short_escape (p : N) : option byte :=
  if p =? 34 then Some x22 else if p =? 92 then Some "\"%byte
  else if p =? 10 then Some "n"%byte else if p =? 13 then Some "r"%byte else if p =? 9 then Some "t"%byte
  else if p =? 12 then Some "f"%byte else if p =? 8 then Some "b"%byte else None.

Definition escape_point (p : N) : bytes :=
  match short_escape p with
  | Some b => ["\"%byte; b]
  | None =>
      if (32 <=? p) && (p <=? 126) then [byte_of p]
      else if p <? 0x10000 then u_escape p
      else u_escape (0xD800 + (p - 0x10000) / 1024) ++ u_escape (0xDC00 + (p - 0x10000) mod 1024)
  end.

Definition dump_str (s : string) : bytes :=
  x22 :: concat (map escape_point (points (encode_utf8 s))) ++ [x22].

Fixpoint digits_loop (fuel : nat) (n : N) (acc : bytes) : bytes :=
  match fuel with
  | O => acc
  | S f => let acc' := byte_of (48 + n mod 10) :: acc in
           if n <? 10 then acc' else digits_loop f (n / 10) acc'
  end.

(** [str(z)]. *)
Definition dump_int (z : Z) : bytes :=
  (if (z <? 0)%Z then ["-"%byte] else []) ++
  let n := Z.to_N (Z.abs z) in digits_loop (S (N.size_nat n)) n [].

Fixpoint sep_by (sep : bytes) (l : list bytes) : bytes :=
  match l with
  | [] => []
  | [x] => x
  | x :: l' => x ++ sep ++ sep_by sep l'
  end.

Definition comma_space : bytes := [","%byte; " "%byte].
Definition colon_space : bytes := [":"%byte; " "%byte].

Section Codec.
Context {F : Type} {A : Arith F} (float_repr : F -> bytes).

Fixpoint dump (v : pyval F) : bytes :=
  match v with
  | PNone => encode_utf8 "null"
  | PBool b => encode_utf8 (if b then "true" else "false")
  | PInt z => dump_int z
  | PFloat f => float_repr f
  | PStr s => dump_str s
  | PList l => "["%byte :: sep_by comma_space (map dump l) ++ ["]"%byte]
  | PDict d =>
      "{"%byte :: sep_by comma_space (map (fun kv => dump_str kv.1 ++ colon_space ++ dump kv.2) d) ++ ["}"%byte]
  end.

Definition dumps (v : pyval F) : string := string_of_bytes (dump v).

(** ** Reading *)

Definition is_ws (b : byte) : bool :=
  Byte.eqb b " " || Byte.eqb b x09 || Byte.eqb b x0a || Byte.eqb b x0d.

Fixpoint skip_ws (l : bytes) : bytes :=
  match l with b :: l' => if is_ws b then skip_ws l' else l | [] => [] end.

Definition hex_val (b : byte) : option N :=
  let n := byte_val b in
  if (48 <=? n) && (n <=? 57) then Some (n - 48)
  else if (97 <=? n) && (n <=? 102) then Some (n - 87)
  else if (65 <=? n) && (n <=? 70) then Some (n - 55)
  else None.

Definition hex4 (l : bytes) : option (N * bytes) :=
  match l with
  | a :: b :: c :: d :: l' =>
      x ← hex_val a; y ← hex_val b; z ← hex_val c; w ← hex_val d;
      Some (x * 4096 + y * 256 + z * 16 + w, l')
  | _ => None
  end.

(** After a backslash and a [u]: one code unit, or two that form a pair. *)
Definition read_unicode (l : bytes) : option (N * bytes) :=
  '(u, l1) ← hex4 l;
  if (0xD800 <=? u) && (u <=? 0xDBFF) then
    match l1 with
    | b1 :: b2 :: l2 =>
        if Byte.eqb b1 "\" && Byte.eqb b2 "u" then
          '(w, l3) ← hex4 l2;
          if (0xDC00 <=? w) && (w <=? 0xDFFF)
          then Some (0x10000 + (u - 0xD800) * 1024 + (w - 0xDC00), l3)
          else Some (u, l1)
        else Some (u, l1)
    | _ => Some (u, l1)
    end
  else Some (u, l1).

Definition simple_escape (b : byte) : option byte :=
  if Byte.eqb b x22 then Some x22 else if Byte.eqb b "\" then Some "\"%byte
  else if Byte.eqb b "/" then Some "/"%byte else if Byte.eqb b "b" then Some x08
  else if Byte.eqb b "f" then Some x0c else if Byte.eqb b "n" then Some x0a
  else if Byte.eqb b "r" then Some x0d else if Byte.eqb b "t" then Some x09 else None.

(** The rest of a string literal, after its opening quote. *)
Fixpoint scan_string (fuel : nat) (l : bytes) (acc : bytes) : option (string * bytes) :=
  match fuel, l with
  | S f, b :: l' =>
      if Byte.eqb b x22 then Some (string_of_bytes acc, l')
      else if Byte.eqb b "\" then
        match l' with
        | [] => None
        | e :: l'' =>
            if Byte.eqb e "u" then
              '(p, l3) ← read_unicode l''; scan_string f l3 (acc ++ utf8_of_point p)
            else c ← simple_escape e; scan_string f l'' (acc ++ [c])
        end
      else if byte_val b <? 32 then None
      else scan_string f l' (acc ++ [b])
  | _, _ => None
  end.

Definition is_digit (b : byte) : bool := (48 <=? byte_val b) && (byte_val b <=? 57).

Fixpoint span_digits (l : bytes) : bytes * bytes :=
  match l with
  | b :: l' => if is_digit b then let '(ds, r) := span_digits l' in (b :: ds, r) else ([], l)
  | [] => ([], [])
  end.

Definition digits_val (ds : bytes) : N := fold_left (fun a b => a * 10 + (byte_val b - 48)) ds 0.

(** The optional fraction and exponent: the text consumed and the rest. *)
Definition fraction (l : bytes) : bytes * bytes :=
  match l with
  | b :: d :: _ => if Byte.eqb b "." && is_digit d
                   then let '(ds, r) := span_digits (tail l) in (b :: ds, r) else ([], l)
  | _ => ([], l)
  end.

Definition exponent (l : bytes) : bytes * bytes :=
  match l with
  | e :: l1 =>
      if Byte.eqb e "e" || Byte.eqb e "E" then
        let '(sign, l2) := match l1 with
          | s :: l2 => if Byte.eqb s "+" || Byte.eqb s "-" then ([s], l2) else ([], l1)
          | [] => ([], l1)
          end in
        let '(ds, r) := span_digits l2 in
        match ds with [] => ([], l) | _ => (e :: sign ++ ds, r) end
      else ([], l)
  | [] => ([], l)
  end.

Definition number (l : bytes) : option (pyval F * bytes) :=
  let '(neg, l1) := match l with b :: l' => if Byte.eqb b "-" then (true, l') else (false, l) | [] => (false, l) end in
  match l1 with
  | [] => None
  | b :: l2 =>
      if negb (is_digit b) then None
      else
        let '(ds, l3) := if Byte.eqb b "0" then ([b], l2) else span_digits l1 in
        let '(fr, l4) := fraction l3 in
        let '(ex, l5) := exponent l4 in
        match fr ++ ex with
        | [] => let z := Z.of_N (digits_val ds) in Some (PInt (if neg then - z else z)%Z, l5)
        | _ => f ← parse_float (string_of_bytes ((if neg then ["-"%byte] else []) ++ ds ++ fr ++ ex));
               Some (PFloat f, l5)
        end
  end.

Definition literal (w : string) (v : option (pyval F)) (l : bytes) : option (pyval F * bytes) :=
  let n := length (encode_utf8 w) in
  if bool_decide (take n l = encode_utf8 w) then x ← v; Some (x, drop n l) else None.

(** The first alternative that applies; a number comes last. *)
Definition scalar (l : bytes) : option (pyval F * bytes) :=
  match literal "null" (Some PNone) l with Some r => Some r | None =>
  match literal "true" (Some (PBool true)) l with Some r => Some r | None =>
  match literal "false" (Some (PBool false)) l with Some r => Some r | None =>
  match literal "NaN" (PFloat <$> f_nan) l with Some r => Some r | None =>
  match literal "Infinity" (PFloat <$> f_inf false) l with Some r => Some r | None =>
  match literal "-Infinity" (PFloat <$> f_inf true) l with Some r => Some r | None => number l
  end end end end end end.

Fixpoint value (n : nat) (l : bytes) {struct n} : option (pyval F * bytes) :=
  match n, l with
  | S n, b :: l' =>
      if Byte.eqb b x22 then '(s, r) ← scan_string (length l') l' []; Some (PStr s, r)
      else if Byte.eqb b "[" then
        match skip_ws l' with
        | c :: r => if Byte.eqb c "]" then Some (PList [], r) else elements n (c :: r) []
        | [] => None
        end
      else if Byte.eqb b "{" then
        match skip_ws l' with
        | c :: r => if Byte.eqb c "}" then Some (PDict [], r) else members n (c :: r) []
        | [] => None
        end
      else scalar l
  | _, _ => None
  end
with elements (n : nat) (l : bytes) (acc : list (pyval F)) {struct n} : option (pyval F * bytes) :=
  match n with
  | O => None
  | S n =>
      '(v, r) ← value n l;
      match skip_ws r with
      | c :: r' => if Byte.eqb c "," then elements n (skip_ws r') (acc ++ [v])
                   else if Byte.eqb c "]" then Some (PList (acc ++ [v]), r') else None
      | [] => None
      end
  end
with members (n : nat) (l : bytes) (acc : pydict F) {struct n} : option (pyval F * bytes) :=
  match n, l with
  | S n, q :: l' =>
      if negb (Byte.eqb q x22) then None
      else
        '(k, r) ← scan_string (length l') l' [];
        match skip_ws r with
        | c :: r1 =>
            if negb (Byte.eqb c ":") then None
            else
              '(v, r2) ← value n (skip_ws r1);
              match skip_ws r2 with
              | c :: r3 => if Byte.eqb c "," then members n (skip_ws r3) (dict_set acc k v)
                           else if Byte.eqb c "}" then Some (PDict (dict_set acc k v), r3) else None
              | [] => None
              end
        | [] => None
        end
  | _, _ => None
  end.

(** A text starting with a byte order mark is refused. *)
Definition bom : bytes := [xef; xbb; xbf].

Definition loads (s : string) : option (pyval F) :=
  let l := encode_utf8 s in
  if bool_decide (take 3 l = bom) then None
  else
    '(v, r) ← value (2 * length l + 2) (skip_ws l);
    match skip_ws r with [] => Some v | _ => None end.

End Codec.

(** ** Code points and their encoding *)

#[local] Ltac Zify.zify_post_hook ::= Z.div_mod_to_equations.

Lemma byte_val_lt b : byte_val b < 256.
Proof. unfold byte_val. pose proof (Byte.to_N_bounded b). lia. Qed.

Lemma byte_of_val b : byte_of (byte_val b) = b.
Proof. unfold byte_of, byte_val. by rewrite Byte.of_to_N. Qed.

Lemma byte_of_eq n b : n = byte_val b -> byte_of n = b.
Proof. intros ->. apply byte_of_val. Qed.

Definition point_ok (p : N) : Prop := p < 0xD800 \/ 0xE000 <= p < 0x110000.

(** Turn the byte tests of the context into inequalities. *)
Ltac byte_bounds :=
  unfold in_range, is_cont, in_range in *; bool_hyps;
  repeat match goal with
  | H : (_ <=? _) = true |- _ => apply N.leb_le in H
  | H : (_ <=? _) = false |- _ => apply N.leb_gt in H
  | H : (_ <? _) = true |- _ => apply N.ltb_lt in H
  | H : (_ <? _) = false |- _ => apply N.ltb_ge in H
  | H : (_ =? _) = true |- _ => apply N.eqb_eq in H
  | H : (_ =? _) = false |- _ => apply N.eqb_neq in H
  end.

(** Decide the next test of the goal from the bounds in the context. *)
Ltac decide_test :=
  match goal with
  | |- context [?a <? ?b] => destruct (a <? b) eqn:?; byte_bounds; try (exfalso; lia)
  | |- context [?a <=? ?b] => destruct (a <=? b) eqn:?; byte_bounds; try (exfalso; lia)
  | |- context [?a =? ?b] => destruct (a =? b) eqn:?; byte_bounds; try (exfalso; lia)
  end.

Lemma point_1 b : byte_val b < 0x80 ->
  extra_bytes (byte_val b) = 0%nat /\ utf8_of_point (lead_bits (byte_val b)) = [b] /\
  point_ok (lead_bits (byte_val b)).
Proof.
  intros H. unfold extra_bytes, lead_bits, utf8_of_point. repeat decide_test.
  split_and!; [done|by rewrite byte_of_val|left; lia].
Qed.

Lemma point_2 b c : 0xC2 <= byte_val b <= 0xDF -> 0x80 <= byte_val c <= 0xBF ->
  let p := fold_left cont_bits [c] (lead_bits (byte_val b)) in
  extra_bytes (byte_val b) = 1%nat /\ utf8_of_point p = [b; c] /\ point_ok p.
Proof.
  intros Hb Hc. unfold extra_bytes, lead_bits. repeat decide_test. cbn [fold_left]. unfold cont_bits.
  set (x := byte_val b) in *. set (y := byte_val c) in *. cbn zeta.
  unfold utf8_of_point. repeat decide_test. unfold cont_byte_of.
  split_and!; [done| |left; lia]. repeat f_equal; apply byte_of_eq; fold x y; lia.
Qed.

Lemma point_3 b c d :
  0xE0 <= byte_val b <= 0xEF -> 0x80 <= byte_val c <= 0xBF -> 0x80 <= byte_val d <= 0xBF ->
  (byte_val b = 0xE0 -> 0xA0 <= byte_val c) -> (byte_val b = 0xED -> byte_val c <= 0x9F) ->
  let p := fold_left cont_bits [c; d] (lead_bits (byte_val b)) in
  extra_bytes (byte_val b) = 2%nat /\ utf8_of_point p = [b; c; d] /\ point_ok p.
Proof.
  intros Hb Hc Hd H1 H2. unfold extra_bytes, lead_bits. repeat decide_test. cbn [fold_left]. unfold cont_bits.
  set (x := byte_val b) in *. set (y := byte_val c) in *. set (z := byte_val d) in *. cbn zeta.
  assert (x <> 0xE0 \/ 0xA0 <= y) as H1' by (destruct (N.eq_dec x 0xE0); tauto).
  assert (x <> 0xED \/ y <= 0x9F) as H2' by (destruct (N.eq_dec x 0xED); tauto). clear H1 H2.
  unfold utf8_of_point. repeat decide_test. unfold cont_byte_of.
  split_and!; [done| |unfold point_ok; lia]. repeat f_equal; apply byte_of_eq; fold x y z; lia.
Qed.

Lemma point_4 b c d e :
  0xF0 <= byte_val b <= 0xF4 -> 0x80 <= byte_val c <= 0xBF -> 0x80 <= byte_val d <= 0xBF ->
  0x80 <= byte_val e <= 0xBF ->
  (byte_val b = 0xF0 -> 0x90 <= byte_val c) -> (byte_val b = 0xF4 -> byte_val c <= 0x8F) ->
  let p := fold_left cont_bits [c; d; e] (lead_bits (byte_val b)) in
  extra_bytes (byte_val b) = 3%nat /\ utf8_of_point p = [b; c; d; e] /\ point_ok p.
Proof.
  intros Hb Hc Hd He H1 H2. unfold extra_bytes, lead_bits. repeat decide_test. cbn [fold_left]. unfold cont_bits.
  set (x := byte_val b) in *. set (y := byte_val c) in *. set (z := byte_val d) in *. set (w := byte_val e) in *.
  cbn zeta.
  assert (x <> 0xF0 \/ 0x90 <= y) as H1' by (destruct (N.eq_dec x 0xF0); tauto).
  assert (x <> 0xF4 \/ y <= 0x8F) as H2' by (destruct (N.eq_dec x 0xF4); tauto). clear H1 H2.
  unfold utf8_of_point. repeat decide_test. unfold cont_byte_of.
  split_and!; [done| |unfold point_ok; lia]. repeat f_equal; apply byte_of_eq; fold x y z w; lia.
Qed.

Lemma conts_exact k d : conts k d = k -> (k <= length d)%nat /\ Forall (fun b => 0x80 <= byte_val b <= 0xBF) (take k d).
Proof.
  revert d. induction k as [|k IH]; intros d H; [split; [lia|constructor]|].
  destruct d as [|b d]; [done|]. simpl in H. destruct (is_cont (byte_val b)) eqn:E; [|done].
  injection H as H. destruct (IH d H). byte_bounds. split; [simpl; lia|]. simpl. by constructor.
Qed.

(** A decoding step reads exactly one code point. *)
Lemma step_point b d k : utf8_step b d = (true, k) ->
  let p := fold_left cont_bits (take k d) (lead_bits (byte_val b)) in
  extra_bytes (byte_val b) = k /\ utf8_of_point p = b :: take k d /\ point_ok p /\ (k <= length d)%nat.
Proof.
  unfold utf8_step. destruct (byte_val b <? 0x80) eqn:Eb.
  { intros [= <-]. byte_bounds. destruct (point_1 b Eb) as (H1 & H2 & H3). split_and!; try done. lia. }
  destruct (lead_spec (byte_val b)) as [[[lo hi] n]|] eqn:El; [|done].
  destruct d as [|c d]; [done|]. destruct (in_range lo hi (byte_val c)) eqn:Ec; [|done].
  intros [= Hn <-]. apply Nat.eqb_eq in Hn. destruct (conts_exact _ _ Hn) as [Hlen Hall]. rewrite Hn.
  unfold lead_spec in El.
  repeat match type of El with context [if ?x then _ else _] => destruct x eqn:?; byte_bounds end;
    try discriminate El; injection El as <- <- <-; simpl in Hlen, Hall |- *.
  all: repeat match goal with H : Forall _ (take (S _) ?d) |- _ =>
         destruct d as [|? ?]; simpl in *; [exfalso; lia|]; inversion_clear H as [|? ? ? H1_]; rename H1_ into H end.
  all: rewrite ?take_0 in *; cbn [fold_left].
  all: match goal with
       | |- context [utf8_of_point _ = [?x; ?y]] => edestruct (point_2 x y) as (? & ? & ?)
       | |- context [utf8_of_point _ = [?x; ?y; ?z]] => edestruct (point_3 x y z) as (? & ? & ?)
       | |- context [utf8_of_point _ = [?x; ?y; ?z; ?w]] => edestruct (point_4 x y z w) as (? & ? & ?)
       end; try lia; split_and!; try done; simpl; lia.
Qed.

(** The code points of a well-formed string spell it. *)
Lemma points_spell f d : utf8_valid_loop f d = true ->
  concat (map utf8_of_point (points_loop f d)) = d /\ Forall point_ok (points_loop f d) /\
  (length (points_loop f d) <= length d)%nat.
Proof.
  revert d. induction f as [|f IH]; intros [|b d] H; try done.
  cbn [utf8_valid_loop] in H. destruct (utf8_step b d) as [ok k] eqn:E. bool_hyps. subst ok.
  destruct (step_point b d k E) as (H1 & H2 & H3 & H4). cbn [points_loop]. rewrite H1.
  destruct (IH _ H0) as (H5 & H6 & H7). cbn [map concat]. rewrite H2, H5. split_and!.
  - cbn [app]. by rewrite take_drop.
  - by constructor.
  - rewrite length_drop in H7. simpl. lia.
Qed.

(** ** Reading back a printed string *)

Lemma hex_val_digit n : n < 16 -> hex_val (hex_digit n) = Some n.
Proof.
  intros H. unfold hex_val, hex_digit. destruct (n <? 10) eqn:E; byte_bounds;
    rewrite byte_val_of by lia; repeat decide_test; simpl; f_equal; lia.
Qed.

Lemma hex4_escape n rest : n < 0x10000 -> hex4 (drop 2 (u_escape n) ++ rest) = Some (n, rest).
Proof.
  intros H. unfold u_escape. cbn [drop app hex4]. rewrite !hex_val_digit by lia. simpl. repeat f_equal. lia.
Qed.

Lemma byte_eqb_of n b : n < 256 -> Byte.eqb (byte_of n) b = (n =? byte_val b).
Proof.
  intros H. destruct (Byte.eqb (byte_of n) b) eqn:E.
  - apply Byte.byte_dec_bl in E. subst b. rewrite byte_val_of by done. by rewrite N.eqb_refl.
  - symmetry. apply N.eqb_neq. intros ->. rewrite byte_of_val in E. by rewrite Byte.byte_dec_lb in E.
Qed.

Lemma scan_point p f rest acc : point_ok p ->
  scan_string (S f) (escape_point p ++ rest) acc = scan_string f rest (acc ++ utf8_of_point p).
Proof.
  intros Hp. unfold escape_point, short_escape.
  repeat match goal with |- context [if ?a =? ?b then _ else _] =>
    destruct (a =? b) eqn:?; [byte_bounds; subst p; reflexivity|byte_bounds] end.
  destruct ((32 <=? p) && (p <=? 126)) eqn:E.
  - byte_bounds. cbn [app scan_string]. rewrite !byte_eqb_of by lia.
    rewrite byte_val_of by lia. change (byte_val x22) with 34. change (byte_val "\"%byte) with 92.
    repeat decide_test. unfold utf8_of_point. by repeat decide_test.
  - clear E. unfold point_ok in Hp. destruct (p <? 0x10000) eqn:E1; byte_bounds.
    + change (u_escape p ++ rest) with ("\"%byte :: "u"%byte :: (drop 2 (u_escape p) ++ rest)).
      cbn [scan_string]. change (Byte.eqb "\" x22) with false. change (Byte.eqb "\" "\") with true.
      change (Byte.eqb "u" "u") with true. cbn match. unfold read_unicode. rewrite hex4_escape by done. cbn [mbind option_bind].
      replace ((0xD800 <=? p) && (p <=? 0xDBFF)) with false; [done|].
      symmetry. apply andb_false_iff. rewrite !N.leb_gt. lia.
    + set (hi := 0xD800 + (p - 0x10000) / 1024). set (lo := 0xDC00 + (p - 0x10000) mod 1024).
      change ((u_escape hi ++ u_escape lo) ++ rest) with
        ("\"%byte :: "u"%byte :: (drop 2 (u_escape hi) ++ ("\"%byte :: "u"%byte :: (drop 2 (u_escape lo) ++ rest)))).
      cbn [scan_string]. change (Byte.eqb "\" x22) with false. change (Byte.eqb "\" "\") with true.
      change (Byte.eqb "u" "u") with true. cbn match. unfold read_unicode.
      rewrite hex4_escape by lia. cbn [mbind option_bind].
      replace ((0xD800 <=? hi) && (hi <=? 0xDBFF)) with true by (symmetry; apply andb_true_iff; rewrite !N.leb_le; lia).
      change (Byte.eqb "\" "\" && Byte.eqb "u" "u") with true. cbn match. rewrite hex4_escape by lia. cbn [mbind option_bind].
      replace ((0xDC00 <=? lo) && (lo <=? 0xDFFF)) with true by (symmetry; apply andb_true_iff; rewrite !N.leb_le; lia).
      replace (0x10000 + (hi - 0xD800) * 1024 + (lo - 0xDC00)) with p by lia. done.
Qed.

Lemma scan_points ps : forall f rest acc, Forall point_ok ps -> (length ps < f)%nat ->
  scan_string f (concat (map escape_point ps) ++ x22 :: rest) acc =
  Some (string_of_bytes (acc ++ concat (map utf8_of_point ps)), rest).
Proof.
  induction ps as [|p ps IH]; intros f rest acc Hps Hf; (destruct f as [|f]; [simpl in Hf; lia|]).
  - cbn. by rewrite app_nil_r.
  - inversion_clear Hps as [|? ? Hp Hps2]; rename Hps2 into Hps. cbn [map concat]. rewrite <-app_assoc, scan_point by done.
    simpl in Hf. rewrite IH by (done || lia). by rewrite <-app_assoc.
Qed.

Lemma escape_point_length p : (1 <= length (escape_point p))%nat.
Proof. unfold escape_point. repeat case_match; simpl; lia. Qed.

Lemma escapes_length ps : (length ps <= length (concat (map escape_point ps)))%nat.
Proof.
  induction ps as [|p ps IH]; simpl; [lia|]. rewrite length_app. pose proof (escape_point_length p). lia.
Qed.

Lemma scan_dump_str s f rest : wf_str s = true -> (length (dump_str s) <= S f)%nat ->
  scan_string f (tail (dump_str s) ++ rest) [] = Some (s, rest).
Proof.
  intros Hs Hf. unfold dump_str in *. cbn [tail]. rewrite <-app_assoc. cbn [app].
  destruct (points_spell _ _ Hs) as (H1 & H2 & H3). rewrite scan_points; try done.
  - cbn [app]. unfold points. rewrite H1. by rewrite string_of_encode.
  - unfold points in *. simpl in Hf. rewrite length_app in Hf. simpl in Hf.
    pose proof (escapes_length (points_loop (length (encode_utf8 s)) (encode_utf8 s))). lia.
Qed.

(** ** Reading back a printed number *)

Lemma digits_val_snoc ds b : digits_val (ds ++ [b]) = digits_val ds * 10 + (byte_val b - 48).
Proof. unfold digits_val. by rewrite fold_left_app. Qed.

Lemma is_digit_of n : n < 10 -> is_digit (byte_of (48 + n)) = true.
Proof. intros H. unfold is_digit. rewrite byte_val_of by lia. by repeat decide_test. Qed.

(** The decimal digits of [n]: all digits, no leading zero, worth [n]. *)
Record spells (n : N) (ds : bytes) : Prop := {
  spells_digits : forallb is_digit ds = true;
  spells_val : digits_val ds = n;
  spells_head : exists b ds', ds = b :: ds' /\ (b = byte_of 48 -> ds' = []) }.

Lemma digits_loop_spells f : forall n acc, n < 2 ^ N.of_nat f ->
  exists ds, digits_loop (S f) n acc = ds ++ acc /\ spells n ds /\ (0 < n -> exists b ds', ds = b :: ds' /\ b <> byte_of 48).
Proof.
  induction f as [|f IH]; intros n acc Hn.
  - assert (n = 0) as -> by (simpl in Hn; lia). exists [byte_of 48]. split; [done|].
    split; [|lia]. split; [done|done|]. by eexists _, [].
  - cbn [digits_loop]. destruct (n <? 10) eqn:E; byte_bounds.
    + exists [byte_of (48 + n mod 10)]. rewrite N.mod_small by lia. split; [done|]. split; [split|].
      * simpl. by rewrite is_digit_of.
      * unfold digits_val. simpl. rewrite byte_val_of by lia. lia.
      * by eexists _, [].
      * intros Hp. eexists _, []. split; [done|]. intros H. apply (f_equal byte_val) in H.
        rewrite !byte_val_of in H by lia. lia.
    + destruct (IH (n / 10) (byte_of (48 + n mod 10) :: acc)) as (ds & E1 & [H1 H2 H3] & H4).
      { rewrite Nat2N.inj_succ, N.pow_succ_r' in Hn. lia. }
      exists (ds ++ [byte_of (48 + n mod 10)]). cbn [digits_loop] in E1. rewrite E1, <-app_assoc. split; [done|].
      destruct (H4 ltac:(lia)) as (b & ds' & -> & Hb). split; [split|].
      * rewrite forallb_app, H1. simpl. by rewrite is_digit_of by lia.
      * rewrite digits_val_snoc, H2, byte_val_of by lia. lia.
      * eexists _, _. split; [done|]. done.
      * intros _. by eexists _, _.
Qed.

(** What may follow a printed value. *)
Definition stops (rest : bytes) : Prop :=
  match rest with
  | [] => True
  | b :: _ => b = ","%byte \/ b = "]"%byte \/ b = "}"%byte
  end.

Lemma span_digits_app ds rest : forallb is_digit ds = true -> stops rest -> span_digits (ds ++ rest) = (ds, rest).
Proof.
  intros H Hr. induction ds as [|b ds IH]; simpl in *.
  - destruct rest as [|b rest]; [done|]. destruct Hr as [->|[->| ->]]; done.
  - bool_hyps. rewrite H. by rewrite IH.
Qed.

Lemma no_fraction rest : stops rest -> fraction rest = ([], rest) /\ exponent rest = ([], rest).
Proof. destruct rest as [|b [|c rest]]; [done| |]; intros [->|[->| ->]]; done. Qed.

Section Roundtrip.
Context {F : Type} {A : Arith F} (float_repr : F -> bytes).

Lemma number_digits (neg : bool) n ds rest : spells n ds -> stops rest ->
  @number F A ((if neg then ["-"%byte] else []) ++ ds ++ rest) =
  Some (PInt (if neg then - Z.of_N n else Z.of_N n)%Z, rest).
Proof.
  intros [H1 H2 (b & ds' & -> & H3)] Hr. unfold number.
  assert (is_digit b = true) as Hb by (simpl in H1; by bool_hyps).
  assert (Byte.eqb b "-" = false) as Hm by (destruct (Byte.eqb b "-") eqn:E; [|done]; apply Byte.byte_dec_bl in E; by subst b).
  destruct (no_fraction rest Hr) as [Hf He].
  assert ((if Byte.eqb b "0" then ([b], ds' ++ rest) else span_digits (b :: ds' ++ rest)) = (b :: ds', rest)) as Hspan.
  { destruct (Byte.eqb b "0") eqn:E.
    - apply Byte.byte_dec_bl in E. subst b. by rewrite H3.
    - change (b :: ds' ++ rest) with ((b :: ds') ++ rest). by apply span_digits_app. }
  destruct neg; cbn [app].
  - change (Byte.eqb "-" "-") with true. cbn match. rewrite Hb. cbn [negb]. rewrite Hspan, Hf, He. cbn [app].
    by rewrite H2.
  - rewrite Hm, Hb. cbn [negb]. rewrite Hspan, Hf, He. cbn [app]. by rewrite H2.
Qed.

Lemma literal_other w (v : option (pyval F)) b l :
  match encode_utf8 w with c :: _ => b <> c | [] => False end -> literal w v (b :: l) = None.
Proof.
  unfold literal. destruct (encode_utf8 w) as [|c w']; [done|]. intros Hb. cbn [length take].
  by rewrite bool_decide_false by congruence.
Qed.

(** ** Reading back a printed float *)

Definition digit_text (ds : bytes) : Prop := forallb is_digit ds = true /\ ds <> [].

(** The texts of [float.__repr__] for finite floats: a sign, an integer part
    without leading zeros, a fraction or an exponent or both. *)
Definition float_text (t : bytes) : Prop := exists (neg : bool) b ip fr ex,
  t = (if neg then ["-"%byte] else []) ++ (b :: ip) ++ fr ++ ex /\
  forallb is_digit (b :: ip) = true /\ (b = "0"%byte -> ip = []) /\
  (fr = [] \/ exists ds, fr = "."%byte :: ds /\ digit_text ds) /\
  (ex = [] \/ exists sign ds, ex = "e"%byte :: sign ++ ds /\ sign ∈ [[]; ["-"%byte]; ["+"%byte]] /\ digit_text ds) /\
  fr ++ ex <> [].

(** [float(repr(x)) == x]. *)
Definition float_ok (f : F) : Prop :=
  float_text (float_repr f) /\ parse_float (string_of_bytes (float_repr f)) = Some f.

Definition no_digit (rest : bytes) : Prop := match rest with b :: _ => is_digit b = false | [] => True end.

Lemma span_digits_stop ds rest : forallb is_digit ds = true -> no_digit rest -> span_digits (ds ++ rest) = (ds, rest).
Proof.
  intros H Hr. induction ds as [|b ds IH]; simpl in *.
  - destruct rest as [|b rest]; [done|]. cbn. by rewrite Hr.
  - bool_hyps. rewrite H. by rewrite IH.
Qed.

Lemma stops_no_digit rest : stops rest -> no_digit rest.
Proof. destruct rest as [|b rest]; [done|]. by intros [->|[->| ->]]. Qed.

Lemma is_digit_not b (c : byte) : is_digit b = true -> (byte_val c < 48 \/ 57 < byte_val c) -> Byte.eqb b c = false.
Proof.
  intros H Hc. unfold is_digit in H. byte_bounds. destruct (Byte.eqb b c) eqn:E; [|done].
  apply Byte.byte_dec_bl in E. subst c. lia.
Qed.

Lemma exponent_read ex rest : stops rest ->
  (ex = [] \/ exists sign ds, ex = "e"%byte :: sign ++ ds /\ sign ∈ [[]; ["-"%byte]; ["+"%byte]] /\ digit_text ds) ->
  exponent (ex ++ rest) = (ex, rest) /\ no_digit (ex ++ rest).
Proof.
  intros Hr [->|(sign & ds & -> & Hs & Hd & Hne)]; [split; [by apply no_fraction|by apply stops_no_digit]|].
  split; [|done]. pose proof (span_digits_stop ds rest Hd (stops_no_digit _ Hr)) as K.
  destruct ds as [|d ds]; [done|]. assert (is_digit d = true) as Hdd by (simpl in Hd; by bool_hyps).
  unfold exponent. cbn [app]. change (Byte.eqb "e" "e") with true. cbn [orb].
  rewrite !elem_of_cons in Hs. destruct Hs as [->|[->|[->|[]%not_elem_of_nil]]]; cbn [app].
  - rewrite !(is_digit_not d) by (done || (cbn; lia)). cbn [orb]. cbn match.
    change (d :: ds ++ rest) with ((d :: ds) ++ rest). by rewrite K.
  - change (Byte.eqb "-" "+" || Byte.eqb "-" "-") with true. cbn match.
    change (d :: ds ++ rest) with ((d :: ds) ++ rest). by rewrite K.
  - change (Byte.eqb "+" "+" || Byte.eqb "+" "-") with true. cbn match.
    change (d :: ds ++ rest) with ((d :: ds) ++ rest). by rewrite K.
Qed.

Lemma fraction_read fr tl : (fr = [] \/ exists ds, fr = "."%byte :: ds /\ digit_text ds) -> no_digit tl ->
  (fr = [] -> match tl with b :: _ => Byte.eqb b "." = false | [] => True end) ->
  fraction (fr ++ tl) = (fr, tl) /\ (fr <> [] -> no_digit (fr ++ tl)).
Proof.
  intros [->|(ds & -> & Hd & Hne)] Htl H.
  - split; [|done]. specialize (H eq_refl). destruct tl as [|b [|d tl]]; cbn in *; by rewrite ?H.
  - split; [|done]. pose proof (span_digits_stop ds tl Hd Htl) as K.
    destruct ds as [|d ds]; [done|]. assert (is_digit d = true) as Hdd by (simpl in Hd; by bool_hyps).
    unfold fraction. cbn [app]. rewrite Hdd. change (Byte.eqb "." ".") with true. cbn [andb tail].
    change (d :: ds ++ tl) with ((d :: ds) ++ tl). by rewrite K.
Qed.

Lemma number_float (neg : bool) b ip fr ex rest f :
  forallb is_digit (b :: ip) = true -> (b = "0"%byte -> ip = []) ->
  (fr = [] \/ exists ds, fr = "."%byte :: ds /\ digit_text ds) ->
  (ex = [] \/ exists sign ds, ex = "e"%byte :: sign ++ ds /\ sign ∈ [[]; ["-"%byte]; ["+"%byte]] /\ digit_text ds) ->
  fr ++ ex <> [] -> stops rest ->
  parse_float (string_of_bytes ((if neg then ["-"%byte] else []) ++ (b :: ip) ++ fr ++ ex)) = Some f ->
  @number F A ((if neg then ["-"%byte] else []) ++ (b :: ip) ++ fr ++ ex ++ rest) = Some (PFloat f, rest).
Proof.
  intros Hd H0 Hf He Hne Hr Hp. destruct (exponent_read ex rest Hr He) as [K1 K2].
  destruct (fraction_read fr (ex ++ rest) Hf K2) as [K3 K4].
  { intros _. destruct He as [->|(? & ? & -> & _)]; [|done]. destruct rest as [|c rest]; [done|].
    by destruct Hr as [->|[->| ->]]. }
  assert (no_digit (fr ++ ex ++ rest)) as Hn by (destruct fr; [done|by apply K4]).
  assert (is_digit b = true) as Hb by (simpl in Hd; by bool_hyps).
  assert ((if Byte.eqb b "0" then ([b], ip ++ fr ++ ex ++ rest) else span_digits (b :: ip ++ fr ++ ex ++ rest)) =
          (b :: ip, fr ++ ex ++ rest)) as Hspan.
  { destruct (Byte.eqb b "0") eqn:E.
    - apply Byte.byte_dec_bl in E. by rewrite H0.
    - change (b :: ip ++ fr ++ ex ++ rest) with ((b :: ip) ++ fr ++ ex ++ rest). by apply span_digits_stop. }
  unfold number. destruct neg; cbn [app] in *.
  - change (Byte.eqb "-" "-") with true. cbn match. rewrite Hb. cbn [negb]. rewrite Hspan, K3, K1.
    destruct (fr ++ ex) as [|c l] eqn:E; [done|]. cbn [app]. by rewrite Hp.
  - rewrite (is_digit_not b) by (done || (cbn; lia)). rewrite Hb. cbn [negb]. rewrite Hspan, K3, K1.
    destruct (fr ++ ex) as [|c l] eqn:E; [done|]. cbn [app]. by rewrite Hp.
Qed.

(** A text that starts like a number is read as one. *)
Lemma scalar_number (neg : bool) b l : is_digit b = true ->
  @scalar F A ((if neg then ["-"%byte] else []) ++ b :: l) = number ((if neg then ["-"%byte] else []) ++ b :: l).
Proof.
  intros H. assert (forall c : byte, (byte_val c < 48 \/ 57 < byte_val c) -> b <> c) as Hne.
  { intros c Hc ->. unfold is_digit in H. byte_bounds. lia. }
  unfold scalar. destruct neg; cbn [app].
  - rewrite (literal_other "null"), (literal_other "true"), (literal_other "false"), (literal_other "NaN"),
      (literal_other "Infinity") by done.
    unfold literal. rewrite bool_decide_false; [done|]. cbn. intros [= E2 _]. by apply (Hne "I"%byte); [cbn; lia|].
  - rewrite (literal_other "null"), (literal_other "true"), (literal_other "false"), (literal_other "NaN"),
      (literal_other "Infinity"), (literal_other "-Infinity") by (apply Hne; cbn; lia). done.
Qed.

Lemma scalar_int z rest : stops rest -> @scalar F A (dump_int z ++ rest) = Some (PInt z, rest).
Proof.
  intros Hr. set (n := Z.to_N (Z.abs z)).
  destruct (digits_loop_spells _ n [] (size_nat_bound n)) as (ds & E & Hds & _).
  assert (dump_int z ++ rest = (if (z <? 0)%Z then ["-"%byte] else []) ++ ds ++ rest) as ->.
  { unfold dump_int. fold n. rewrite E, app_nil_r. by rewrite <-app_assoc. }
  pose proof Hds as [H1 _ (b & ds' & -> & _)]. simpl in H1. bool_hyps.
  cbn [app]. rewrite scalar_number by done.
  change (b :: ds' ++ rest) with ((b :: ds') ++ rest). rewrite (number_digits _ n) by done.
  do 3 f_equal. unfold n. destruct (z <? 0)%Z eqn:?; lia.
Qed.

Lemma scalar_float f rest : float_ok f -> stops rest -> scalar (float_repr f ++ rest) = Some (PFloat f, rest).
Proof.
  intros [(neg & b & ip & fr & ex & E & Hd & H0 & Hf & He & Hne) Hp] Hr. rewrite E in *. rewrite <-!app_assoc. cbn [app].
  assert (is_digit b = true) as Hb by (simpl in Hd; by bool_hyps).
  rewrite scalar_number by done. by apply number_float.
Qed.

(** ** Reading back a printed value *)

Lemma pyval_deep_ind (P : pyval F -> Prop) :
  P PNone -> (forall b, P (PBool b)) -> (forall z, P (PInt z)) -> (forall f, P (PFloat f)) ->
  (forall s, P (PStr s)) -> (forall l, Forall P l -> P (PList l)) ->
  (forall d, Forall (fun kv => P kv.2) d -> P (PDict d)) -> forall v, P v.
Proof.
  intros Hn Hb Hz Hf Hs Hl Hd. fix IH 1. intros [|b|z|f|s|l|d]; [apply Hn|apply Hb|apply Hz|apply Hf|apply Hs|apply Hl|apply Hd].
  - induction l as [|x l IHl]; constructor; [apply IH|exact IHl].
  - induction d as [|[k x] d IHd]; constructor; [apply IH|exact IHd].
Qed.

(** Values that print and read back: finite floats whose text reads back,
    well-formed text, distinct keys. *)
Fixpoint json_ok (v : pyval F) : Prop :=
  match v with
  | PFloat f => float_ok f
  | PStr s => wf_str s = true
  | PList l => (fix all l := match l with [] => True | x :: l' => json_ok x /\ all l' end) l
  | PDict d => NoDup (map fst d) /\
      (fix all d := match d with [] => True | (k, x) :: d' => wf_str k = true /\ json_ok x /\ all d' end) d
  | _ => True
  end.

Lemma json_ok_list l : json_ok (PList l) <-> Forall json_ok l.
Proof.
  induction l as [|x l IH]; [by split|]. rewrite Forall_cons_iff, <-IH. done.
Qed.

Lemma json_ok_dict d :
  json_ok (PDict d) <-> NoDup (map fst d) /\ Forall (fun kv => wf_str kv.1 = true /\ json_ok kv.2) d.
Proof.
  simpl. apply and_iff_compat_l. induction d as [|[k x] d IH]; [by split|].
  rewrite Forall_cons_iff, <-IH. simpl. tauto.
Qed.

(** A printed value starts with a byte that is neither space nor bracket. *)
Definition starts (l : bytes) : Prop :=
  exists b l', l = b :: l' /\ is_ws b = false /\ Byte.eqb b "]" = false /\ Byte.eqb b "}" = false /\
    byte_val b < 0x80.

Lemma starts_cons b l : is_ws b = false -> Byte.eqb b "]" = false -> Byte.eqb b "}" = false ->
  byte_val b < 0x80 -> starts (b :: l).
Proof. intros. by exists b, l. Qed.

Lemma starts_digit b l : is_digit b = true -> starts (b :: l).
Proof.
  intros H. unfold is_digit in H. byte_bounds. exists b, l.
  assert (forall c : byte, (byte_val c < 48 \/ 57 < byte_val c) -> Byte.eqb b c = false) as K.
  { intros c Hc. destruct (Byte.eqb b c) eqn:E; [|done]. apply Byte.byte_dec_bl in E. subst c. lia. }
  unfold is_ws. rewrite !K by (cbn; lia). split_and!; try done; lia.
Qed.

Lemma dump_starts v rest : json_ok v -> starts (dump float_repr v ++ rest).
Proof.
  destruct v as [|[]|z|f|s|l|d]; intros H; try done;
    try (by match goal with |- starts ?x => let y := eval hnf in x in change x with y end; apply starts_cons).
  - cbn [dump]. set (n := Z.to_N (Z.abs z)).
    destruct (digits_loop_spells _ n [] (size_nat_bound n)) as (ds & E & [H1 _ (b & ds' & -> & _)] & _).
    unfold dump_int. fold n. rewrite E. destruct (z <? 0)%Z; [by apply starts_cons|].
    cbn [app]. apply starts_digit. simpl in H1. by bool_hyps.
  - destruct H as [(neg & b & ip & fr & ex & E & Hd & _) _]. cbn [dump]. rewrite E. destruct neg; [by apply starts_cons|].
    cbn [app]. apply starts_digit. simpl in Hd. by bool_hyps.
Qed.

Lemma starts_skip l : starts l -> skip_ws l = l.
Proof. intros (b & l' & -> & H & _). simpl. by rewrite H. Qed.

Lemma dump_length v : json_ok v -> (1 <= length (dump float_repr v))%nat.
Proof.
  intros H. destruct (dump_starts v [] H) as (b & l' & E & _). rewrite app_nil_r in E. rewrite E. simpl. lia.
Qed.

(** The reader inverts the printer at [v], wherever its text stands. *)
Definition reads (v : pyval F) : Prop := forall n rest, json_ok v -> stops rest ->
  (2 * length (dump float_repr v) <= n)%nat -> value n (dump float_repr v ++ rest) = Some (v, rest).

Lemma elements_read l : forall n acc rest, l <> [] -> Forall reads l -> Forall json_ok l ->
  (2 * length (sep_by comma_space (map (dump float_repr) l)) + 3 <= n)%nat ->
  elements n (sep_by comma_space (map (dump float_repr) l) ++ "]"%byte :: rest) acc = Some (PList (acc ++ l), rest).
Proof.
  induction l as [|x l IH]; intros n acc rest Hne Hr Hok Hn; [done|].
  apply Forall_cons_iff in Hr as [Hx Hr]. apply Forall_cons_iff in Hok as [Ox Hok].
  destruct n as [|n]; [lia|]. destruct l as [|y l].
  - cbn [map sep_by elements] in *. rewrite Hx by (done || (by right; left) || lia). done.
  - set (tl := sep_by comma_space (map (dump float_repr) (y :: l))) in *.
    assert (sep_by comma_space (map (dump float_repr) (x :: y :: l)) = dump float_repr x ++ comma_space ++ tl) as E by done.
    rewrite E in *. rewrite !length_app in Hn. cbn [elements]. rewrite <-!app_assoc.
    rewrite Hx by (done || (by left) || lia). cbn [mbind option_bind comma_space app skip_ws].
    assert (starts (tl ++ "]"%byte :: rest)) as Hs.
    { unfold tl. cbn [map]. apply Forall_cons_iff in Hok as [Oy _].
      destruct l; cbn [map sep_by]; rewrite <-?app_assoc; by apply dump_starts. }
    change (is_ws ",") with false. cbn match. change (Byte.eqb "," ",") with true. cbn [skip_ws].
    change (is_ws " ") with true. cbn match. rewrite (starts_skip _ Hs). unfold tl. rewrite IH; try done.
    + by rewrite <-app_assoc.
    + fold tl. simpl in Hn. pose proof (dump_length x Ox). lia.
Qed.

Lemma dict_set_new (d : pydict F) k v : k ∉ map fst d -> dict_set d k v = d ++ [(k, v)].
Proof.
  induction d as [|[k' v'] d IH]; intros H; [done|]. simpl in *.
  rewrite bool_decide_false by (intros ->; apply H; left). rewrite IH; [done|]. intros Hin. apply H. by right.
Qed.

Definition member_text (kv : string * pyval F) : bytes := dump_str kv.1 ++ colon_space ++ dump float_repr kv.2.

Lemma members_read d : forall n acc rest, d <> [] -> Forall (fun kv => reads kv.2) d ->
  Forall (fun kv => wf_str kv.1 = true /\ json_ok kv.2) d -> NoDup (map fst (acc ++ d)) ->
  (2 * length (sep_by comma_space (map member_text d)) + 3 <= n)%nat ->
  members n (sep_by comma_space (map member_text d) ++ "}"%byte :: rest) acc = Some (PDict (acc ++ d), rest).
Proof.
  induction d as [|[k x] d IH]; intros n acc rest Hne Hr Hok Hnd Hn; [done|].
  apply Forall_cons_iff in Hr as [Hx Hr]. apply Forall_cons_iff in Hok as [[Ok Ox] Hok]. cbn [fst snd] in *.
  assert (k ∉ map fst acc) as Hk.
  { rewrite map_app in Hnd. apply list.NoDup_app in Hnd as (_ & H & _). intros Hin. apply (H k Hin). left. }
  destruct n as [|n]; [lia|]. set (after := match d with [] => [] | _ => comma_space ++ sep_by comma_space (map member_text d) end).
  assert (sep_by comma_space (map member_text ((k, x) :: d)) = dump_str k ++ colon_space ++ dump float_repr x ++ after) as E.
  { unfold after. destruct d; cbn [map sep_by]; unfold member_text at 1; cbn [fst snd]; rewrite <-?app_assoc; by rewrite ?app_nil_r. }
  rewrite E in *. rewrite !length_app in Hn.
  assert (exists q, dump_str k = x22 :: q) as [q Hq] by (by eexists). rewrite <-!app_assoc.
  rewrite Hq at 1. cbn [app members]. change (Byte.eqb x22 x22) with true. cbn [negb].
  assert (q = tail (dump_str k)) as -> by (by rewrite Hq).
  rewrite scan_dump_str by (done || (rewrite Hq; simpl; rewrite !length_app; lia)).
  cbn [mbind option_bind colon_space app skip_ws]. change (is_ws ":") with false. cbn match.
  change (Byte.eqb ":" ":") with true. cbn [negb skip_ws]. change (is_ws " ") with true. cbn match.
  rewrite starts_skip by (by apply dump_starts).
  assert (stops (after ++ "}"%byte :: rest)) as Hst by (unfold after; destruct d; [by right; right|by left]).
  rewrite Hx by (done || lia). cbn [mbind option_bind]. rewrite (dict_set_new acc k x Hk).
  unfold after in *. destruct d as [|kv d]; [done|].
  cbn [comma_space app skip_ws]. change (is_ws ",") with false. change (is_ws " ") with true. cbn match.
  change (Byte.eqb "," ",") with true. cbn [skip_ws]. change (is_ws " ") with true. cbn match.
  assert (starts (sep_by comma_space (map member_text (kv :: d)) ++ "}"%byte :: rest)) as Hs
    by (destruct d; by apply starts_cons).
  rewrite starts_skip by done. rewrite IH; try done.
  - by rewrite <-app_assoc.
  - by rewrite <-app_assoc.
  - rewrite !length_app in Hn. change (length comma_space) with 2%nat in Hn. lia.
Qed.

(** A text that starts like a number is a scalar. *)
Lemma value_number n (neg : bool) b l : is_digit b = true ->
  @value F A (S n) ((if neg then ["-"%byte] else []) ++ b :: l) = scalar ((if neg then ["-"%byte] else []) ++ b :: l).
Proof.
  intros H. destruct neg; [done|]. cbn [app value]. by rewrite !(is_digit_not b) by (done || (cbn; lia)).
Qed.

Lemma value_read v : reads v.
Proof.
  induction v as [|b|z|f|s|l IH|d IH] using pyval_deep_ind; intros n rest Hok Hst Hn;
    try (pose proof (dump_length _ Hok)); try (destruct n as [|n]; [lia|]); try done.
  - by destruct b.
  - rewrite <-(scalar_int z rest Hst). cbn [dump]. set (m := Z.to_N (Z.abs z)).
    destruct (digits_loop_spells _ m [] (size_nat_bound m)) as (ds & E1 & [H1 _ (c & ds' & -> & _)] & _).
    unfold dump_int. fold m. rewrite E1, app_nil_r, <-!app_assoc. apply value_number. simpl in H1. by bool_hyps.
  - rewrite <-(scalar_float f rest Hok Hst). destruct Hok as [(neg & b & ip & fr & ex & E & Hd & _) _].
    cbn [dump]. rewrite E, <-!app_assoc. apply value_number. simpl in Hd. by bool_hyps.
  - assert (exists q, dump_str s = x22 :: q) as [q Hq] by (by eexists). cbn [dump] in *. rewrite Hq at 1.
    cbn [app value]. change (Byte.eqb x22 x22) with true. cbn match.
    assert (q = tail (dump_str s)) as -> by (by rewrite Hq).
    rewrite scan_dump_str by (done || (rewrite length_app, Hq; simpl; lia)). done.
  - apply json_ok_list in Hok. cbn [dump app value] in *. change (Byte.eqb "[" x22) with false.
    change (Byte.eqb "[" "[") with true. cbn match. rewrite <-app_assoc. cbn [app].
    destruct l as [|x l]; [done|].
    assert (starts (sep_by comma_space (map (dump float_repr) (x :: l)) ++ "]"%byte :: rest)) as Hs.
    { apply Forall_cons_iff in Hok as [Ox _]. destruct l; cbn [map sep_by]; rewrite <-?app_assoc; by apply dump_starts. }
    pose proof (starts_skip _ Hs) as Hsk. rewrite Hsk. destruct Hs as (b & l' & E & _ & Hb & _). rewrite E, Hb, <-E.
    rewrite elements_read; try done. cbn [length] in Hn. rewrite length_app in Hn. cbn [length] in Hn. lia.
  - apply json_ok_dict in Hok as [Hnd Hok]. cbn [dump app value] in *. change (Byte.eqb "{" x22) with false.
    change (Byte.eqb "{" "[") with false. change (Byte.eqb "{" "{") with true. cbn match. rewrite <-app_assoc. cbn [app].
    destruct d as [|x d]; [done|]. fold member_text in *.
    assert (starts (sep_by comma_space (map member_text (x :: d)) ++ "}"%byte :: rest)) as Hs
      by (destruct d; by apply starts_cons).
    pose proof (starts_skip _ Hs) as Hsk.
    change (map _ (x :: d)) with (map member_text (x :: d)) in Hn |- *.
    rewrite Hsk. destruct Hs as (b & l' & E & _ & _ & Hb & _). rewrite E, Hb, <-E.
    rewrite members_read; try done. cbn [length] in Hn. rewrite length_app in Hn. cbn [length] in Hn. lia.
Qed.

(** Whatever is printed is read back. *)
Lemma loads_dumps v : json_ok v -> loads (dumps float_repr v) = Some v.
Proof.
  intros Hok. unfold loads, dumps. rewrite encode_string_of.
  pose proof (dump_starts v [] Hok) as Hs. rewrite app_nil_r in Hs.
  rewrite bool_decide_false.
  - rewrite starts_skip by done. rewrite <-(app_nil_r (dump float_repr v)) at 2.
    rewrite value_read by (done || lia). done.
  - destruct Hs as (b & l' & -> & _ & _ & _ & Hb). intros E. injection E as -> _. cbn in Hb. lia.
Qed.

(** ** Fuel *)

Lemma skip_ws_length l : (length (skip_ws l) <= length l)%nat.
Proof. induction l as [|b l IH]; simpl; [lia|]. destruct (is_ws b); simpl; lia. Qed.

Lemma hex4_length l u r : hex4 l = Some (u, r) -> (length r < length l)%nat.
Proof.
  destruct l as [|a [|b [|c [|d l]]]]; try done. simpl. intros H.
  repeat (apply bind_Some in H as (? & _ & H)). injection H as _ <-. lia.
Qed.

Lemma read_unicode_length l u r : read_unicode l = Some (u, r) -> (length r < length l)%nat.
Proof.
  unfold read_unicode. intros H. apply bind_Some in H as ([w l1] & H1 & H). apply hex4_length in H1.
  destruct (_ && _); [|by injection H as _ <-].
  destruct l1 as [|b1 [|b2 l2]]; try (injection H as _ <-; simpl in *; lia).
  destruct (_ && _); [|injection H as _ <-; simpl in *; lia].
  apply bind_Some in H as ([w' l3] & H2 & H). apply hex4_length in H2.
  destruct (_ && _); injection H as _ <-; simpl in *; lia.
Qed.

Lemma scan_string_length f : forall l acc s r, scan_string f l acc = Some (s, r) -> (length r < length l)%nat.
Proof.
  induction f as [|f IH]; intros [|b l] acc s r H; try done. cbn [scan_string] in H.
  destruct (Byte.eqb b x22); [injection H as _ <-; simpl; lia|]. destruct (Byte.eqb b "\").
  - destruct l as [|e l]; [done|]. destruct (Byte.eqb e "u").
    + apply bind_Some in H as ([p l3] & H1 & H). apply read_unicode_length in H1. apply IH in H. simpl. lia.
    + apply bind_Some in H as (c & _ & H). apply IH in H. simpl. lia.
  - destruct (_ <? _); [done|]. apply IH in H. simpl. lia.
Qed.

Lemma span_digits_length l ds r : span_digits l = (ds, r) -> (length ds + length r = length l)%nat.
Proof.
  revert ds r. induction l as [|b l IH]; intros ds r H; simpl in H; [by injection H as <- <-|].
  destruct (is_digit b); [|by injection H as <- <-].
  destruct (span_digits l) as [ds' r'] eqn:E. injection H as <- <-. specialize (IH _ _ eq_refl). simpl. lia.
Qed.

Lemma fraction_length l x r : fraction l = (x, r) -> (length r <= length l)%nat.
Proof.
  unfold fraction. destruct l as [|b [|d l]]; try (intros [= _ <-]; done).
  destruct (_ && _); [|by intros [= _ <-]]. destruct (span_digits _) as [ds r'] eqn:E. intros [= _ <-].
  apply span_digits_length in E. simpl in *. lia.
Qed.

Lemma exponent_length l x r : exponent l = (x, r) -> (length r <= length l)%nat.
Proof.
  unfold exponent. destruct l as [|e l1]; [by intros [= _ <-]|]. destruct (_ || _); [|by intros [= _ <-]].
  match goal with |- context [let '(_, _) := ?x in _] => destruct x as [sign l2] eqn:E1 end.
  assert (length l2 <= length l1)%nat as H2.
  { destruct l1 as [|s l1]; [by injection E1 as _ <-|]. destruct (_ || _); injection E1 as _ <-; simpl; lia. }
  destruct (span_digits l2) as [ds r'] eqn:E. apply span_digits_length in E.
  destruct ds; intros [= _ <-]; simpl in *; lia.
Qed.

Lemma number_length l v r : @number F A l = Some (v, r) -> (length r < length l)%nat.
Proof.
  unfold number. match goal with |- context [let '(_, _) := ?x in _] => destruct x as [neg l1] eqn:E1 end.
  assert (length l1 <= length l)%nat as H1.
  { destruct l as [|b l]; [by injection E1 as _ <-|]. destruct (Byte.eqb b "-"); injection E1 as _ <-; simpl; lia. }
  destruct l1 as [|b l2]; [done|]. destruct (negb (is_digit b)) eqn:Hd; [done|].
  match goal with |- context [let '(_, _) := ?x in _] => destruct x as [ds l3] eqn:E2 end.
  assert (length l3 < length (b :: l2))%nat as H2.
  { destruct (Byte.eqb b "0"); [injection E2 as _ <-; simpl; lia|].
    bool_hyps. simpl in E2. rewrite Hd in E2. destruct (span_digits l2) as [ds' r'] eqn:E3.
    injection E2 as _ <-. apply span_digits_length in E3. simpl. lia. }
  destruct (fraction l3) as [fr l4] eqn:E3. apply fraction_length in E3.
  destruct (exponent l4) as [ex l5] eqn:E4. apply exponent_length in E4.
  intros H. destruct (fr ++ ex); [injection H as _ <-; lia|].
  apply bind_Some in H as (f & _ & H). injection H as _ <-. lia.
Qed.

Lemma literal_length w (v : option (pyval F)) l x r :
  (0 < length (encode_utf8 w))%nat -> literal w v l = Some (x, r) -> (length r < length l)%nat.
Proof.
  intros Hw. unfold literal. case_bool_decide as E; [|done]. intros H. apply bind_Some in H as (y & _ & H).
  injection H as _ <-. apply (f_equal length) in E. rewrite length_take in E. rewrite length_drop. lia.
Qed.

Lemma scalar_length l v r : @scalar F A l = Some (v, r) -> (length r < length l)%nat.
Proof.
  unfold scalar.
  repeat match goal with |- context [literal ?w ?x l] =>
    destruct (literal w x l) as [[? ?]|] eqn:?; [intros [= _ <-]; eapply (literal_length w); [simpl; lia|eassumption]|] end.
  apply number_length.
Qed.

(** One step of the loops. *)
Lemma elements_S n l acc : @elements F A (S n) l acc =
  ('(v, r) ← value n l;
   match skip_ws r with
   | c :: r' => if Byte.eqb c "," then elements n (skip_ws r') (acc ++ [v])
                else if Byte.eqb c "]" then Some (PList (acc ++ [v]), r') else None
   | [] => None
   end).
Proof. done. Qed.

Lemma members_S n q l acc : @members F A (S n) (q :: l) acc =
  (if negb (Byte.eqb q x22) then None
   else
     '(k, r) ← scan_string (length l) l [];
     match skip_ws r with
     | c :: r1 =>
         if negb (Byte.eqb c ":") then None
         else
           '(v, r2) ← value n (skip_ws r1);
           match skip_ws r2 with
           | c :: r3 => if Byte.eqb c "," then members n (skip_ws r3) (dict_set acc k v)
                        else if Byte.eqb c "}" then Some (PDict (dict_set acc k v), r3) else None
           | [] => None
           end
     | [] => None
     end).
Proof. done. Qed.

(** A success does not depend on the fuel, once it covers the text. *)
Definition settled {X} (p : nat -> option (X * bytes)) (l : bytes) (least n : nat) : Prop :=
  forall x r, p n = Some (x, r) -> (length r < length l)%nat /\ forall m, (least <= m)%nat -> p m = Some (x, r).

Definition value_settled n : Prop := forall l, settled (fun n => @value F A n l) l (2 * length l) n.
Definition elements_settled n : Prop :=
  forall l acc, settled (fun n => @elements F A n l acc) l (2 * length l + 1) n.
Definition members_settled n : Prop := forall l acc, settled (fun n => @members F A n l acc) l (2 * length l) n.

Lemma value_step n : elements_settled n -> members_settled n -> value_settled (S n).
Proof.
  intros IHe IHm.
  intros [|b l] x r H; [done|]. cbn [value] in H.
  enough ((length r < length (b :: l))%nat /\ forall m, (2 * length l + 1 <= m)%nat -> value (S m) (b :: l) = Some (x, r)) as [H1 H2].
  { split; [done|]. intros [|m] Hm; simpl in Hm; [lia|]. apply H2. lia. }
  cbn [value]. destruct (Byte.eqb b x22).
  { split; [|intros; exact H]. apply bind_Some in H as ([s r'] & H1 & H). injection H as _ <-.
    apply scan_string_length in H1. simpl. lia. }
  pose proof (skip_ws_length l) as Hw. destruct (Byte.eqb b "[").
  { destruct (skip_ws l) as [|c r'] eqn:E; [done|]. destruct (Byte.eqb c "]").
    - injection H as <- <-. split; [simpl in *; lia|done].
    - destruct (IHe _ _ _ _ H) as [H1 H2]. split; [simpl in *; lia|]. intros m Hm. apply H2. lia. }
  destruct (Byte.eqb b "{").
  { destruct (skip_ws l) as [|c r'] eqn:E; [done|]. destruct (Byte.eqb c "}").
    - injection H as <- <-. split; [simpl in *; lia|done].
    - destruct (IHm _ _ _ _ H) as [H1 H2]. split; [simpl in *; lia|]. intros m Hm. apply H2. lia. }
  split; [by apply scalar_length in H|intros; exact H].
Qed.

Lemma elements_step n : value_settled n -> elements_settled n -> elements_settled (S n).
Proof.
  intros IHv IHe.
  intros l acc x r H. rewrite elements_S in H. apply bind_Some in H as ([v r1] & Hv & H).
  destruct (IHv _ _ _ Hv) as [H1 H2]; cbv beta in H2. pose proof (skip_ws_length r1) as Hw.
  enough ((length r < length l)%nat /\ forall m, (2 * length l <= m)%nat -> elements (S m) l acc = Some (x, r)) as [H3 H4].
  { split; [done|]. intros [|m] Hm; [lia|]. apply H4. lia. }
  setoid_rewrite elements_S. destruct (skip_ws r1) as [|c r2] eqn:E; [done|]. pose proof (skip_ws_length r2) as Hw2.
  simpl in Hw. destruct (Byte.eqb c ",") eqn:Ec.
  + destruct (IHe _ _ _ _ H) as [H3 H4]. split; [lia|]. intros m Hm. rewrite (H2 m) by lia. cbn [mbind option_bind].
    rewrite E, Ec. apply H4. lia.
  + destruct (Byte.eqb c "]") eqn:Ec2; [|done]. injection H as <- <-. split; [lia|]. intros m Hm.
    rewrite (H2 m) by lia. cbn [mbind option_bind]. by rewrite E, Ec, Ec2.
Qed.

Lemma members_step n : value_settled n -> members_settled n -> members_settled (S n).
Proof.
  intros IHv IHm.
  intros [|q l] acc x r H; [done|]. rewrite members_S in H.
  destruct (negb (Byte.eqb q x22)) eqn:Eq; [done|]. apply bind_Some in H as ([k r0] & Hk & H).
  pose proof (scan_string_length _ _ _ _ _ Hk) as H0. pose proof (skip_ws_length r0) as Hw0.
  destruct (skip_ws r0) as [|c r1] eqn:E0; [done|]. simpl in Hw0. destruct (negb (Byte.eqb c ":")) eqn:Ec; [done|].
  apply bind_Some in H as ([v r2] & Hv & H). destruct (IHv _ _ _ Hv) as [H1 H2]; cbv beta in H2.
  pose proof (skip_ws_length r1) as Hw1. pose proof (skip_ws_length r2) as Hw2.
  enough ((length r < length (q :: l))%nat /\ forall m, (2 * length l + 1 <= m)%nat -> members (S m) (q :: l) acc = Some (x, r)) as [H3 H4].
  { split; [done|]. intros [|m] Hm; simpl in Hm; [lia|]. apply H4. lia. }
  setoid_rewrite members_S. cbn [length]. rewrite Eq, Hk. cbn [mbind option_bind]. rewrite E0, Ec.
  destruct (skip_ws r2) as [|c2 r3] eqn:E2; [done|]. pose proof (skip_ws_length r3) as Hw3. simpl in Hw2.
  destruct (Byte.eqb c2 ",") eqn:Ec2.
  + destruct (IHm _ _ _ _ H) as [H3 H4]. split; [lia|]. intros m Hm. rewrite (H2 m) by lia. cbn [mbind option_bind].
    rewrite E2, Ec2. apply H4. lia.
  + destruct (Byte.eqb c2 "}") eqn:Ec3; [|done]. injection H as <- <-. split; [lia|]. intros m Hm.
    rewrite (H2 m) by lia. cbn [mbind option_bind]. by rewrite E2, Ec2, Ec3.
Qed.

Lemma parse_settled n : value_settled n /\ elements_settled n /\ members_settled n.
Proof.
  induction n as [|n (IHv & IHe & IHm)]; [by split_and!|].
  split_and!; [by apply value_step|by apply elements_step|by apply members_step].
Qed.

(** More fuel than [loads] gives never changes the answer. *)
Lemma value_fuel_enough l n : (2 * length l <= n)%nat -> @value F A n l = value (2 * length l) l.
Proof.
  intros Hn. destruct (value n l) as [[x r]|] eqn:E.
  - destruct (parse_settled n) as [H _]. symmetry. by apply (H l x r E).
  - destruct (value (2 * length l) l) as [[x r]|] eqn:E2; [|done].
    destruct (parse_settled (2 * length l)) as [H _]. destruct (H l x r E2) as [_ K]. cbv beta in K. rewrite K in E by done. done.
Qed.

End Roundtrip.

Example dumps_ex : dumps (fun _ : spec_float => []) (PList [PStr "a"; PInt (-12); PNone]) =
  string_of_bytes (["["%byte; x22; "a"%byte; x22] ++ comma_space ++ encode_utf8 "-12, null]").
Proof. vm_compute. reflexivity. Qed.
Example loads_ex : @loads _ Arith64 " [1, {}, [ ], -0.5e1 ] " = Some (PList [PInt 1; PDict []; PList []; PFloat (b64_dec (-5) 0)]).
Proof. vm_compute. reflexivity. Qed.
