(* ===== verification/Reports.v ===== *)
(** * Reports: stored daily and weekly reports

    apps/reports/app.py: [list_reports], [get_report], [generate_report] with
    its two builders.  A date is the number of days since the epoch, a time is in
    nanoseconds.  ISO formatting, the text of a UUID, [repr] of a float and
    SHA-256 are arguments.  A [jsonb] column keeps the value it is given. *)

From Stdlib Require Import ZArith SpecFloat.
From S2P Require Import Prelude Text PyFloat PyVal Prog Db Persist Json Tasks Analytics.
Open Scope Z_scope.

Definition REPORT_TYPES : list string := ["daily_signal_summary"; "weekly_performance"]%string.

Section Service.
Context (uuid_of : string -> option nat) (uuid_text : nat -> string).
Context (date_iso : Z -> string) (datetime_iso : Z -> string).
Context (float_repr : spec_float -> bytes) (sha256_hex : string -> string).

(** ** Listing *)

Record report_item := mk_item {
  it_id : string; it_type : string; it_as_of : string; it_status : string; it_created : string }.

Definition item_of (r : report_row) : report_item :=
  mk_item (uuid_text (rep_id r)) (rep_type r) (datetime_iso (rep_as_of r)) (rep_status r)
          (datetime_iso (rep_created r)).

(** [limit] is validated to 1..100. *)
Definition list_reports (pool : bool) (report_type : option string) (limit : Z) : prog Db exn (list report_item) :=
  if negb ((1 <=? limit) && (limit <=? 100)) then raise (HTTPException 422 "limit") else
  get_pool pool ;;;
  let by_type r := match report_type with
    | Some t => bool_decide (t = ""%string) || bool_decide (rep_type r = t)
    | None => true
    end in
  rows <- query DbError (fun d => take (Z.to_nat limit)
    (sort_by (fun a b => rep_created b <? rep_created a) (List.filter by_type (db_reports d)))) ;;
  ret (map item_of rows).

Definition get_report (pool : bool) (report_id : string) : prog Db exn (report_item * json) :=
  get_pool pool ;;;
  row <- stmt_r DbError (fun d =>
    (match uuid_of report_id with
     | None => Err DataError
     | Some id => Ok (first_where (fun r => bool_decide (rep_id r = id)) (db_reports d))
     end, d)) ;;
  match row with
  | None => raise (HTTPException 404 "report not found")
  | Some r => ret (item_of r, rep_payload r)
  end.

(** ** Builders *)

Definition between (a b : Z) (t : Z) : bool := (a <=? t) && (t <? b).

Definition signals_between (a b : Z) (d : Db) : list accepted :=
  List.filter (fun s => between a b (Z.of_N (acc_received s))) (db_accepted d).

Definition fills_between (a b : Z) (d : Db) : list fill :=
  List.filter (fun f => between a b (fill_created f)) (db_fills d).

Definition count_item (key : string) (r : string * nat) : json :=
  PDict [(key, PStr r.1); ("count"%string, PInt (Z.of_nat r.2))].

(** The report computes the rate itself, from its own counts. *)
Definition daily_fill_rate (fills_by_status : list (string * nat)) : spec_float :=
  let total_fills := Z.of_nat (sum_counts fills_by_status) in
  let get status := Z.of_nat (count_of fills_by_status status) in
  let attempts := total_fills - get "placed"%string - get "cancelled"%string in
  if 0 <? attempts
  then f_round 2 (f_mul (f_quot (f_int (get "filled"%string)) (f_int attempts)) (f_int 100))
  else f_zero.

(** The first fetch only says whether there is a fill at all. *)
Definition _build_daily_signal_summary (target_date : Z) : prog Db exn json :=
  let day_start := target_date * days in
  let day_end := day_start + days in
  total_signals <- query DbError (fun d => length (signals_between day_start day_end d)) ;;
  by_command <- query DbError (fun d =>
    let groups := group_count (map acc_command (signals_between day_start day_end d)) in top (length groups) groups) ;;
  by_symbol <- query DbError (fun d => top 20 (group_count (map acc_symbol (signals_between day_start day_end d)))) ;;
  fill_row <- query DbError (fun d => head (group_count (map fill_status (fills_between day_start day_end d)))) ;;
  fills_by_status <- match fill_row with
    | None => ret []
    | Some _ => query DbError (fun d => group_count (map fill_status (fills_between day_start day_end d)))
    end ;;
  ret (PDict [
    ("date"%string, PStr (date_iso target_date));
    ("total_signals"%string, PInt (Z.of_nat total_signals));
    ("total_fills"%string, PInt (Z.of_nat (sum_counts fills_by_status)));
    ("fill_rate_pct"%string, PFloat (daily_fill_rate fills_by_status));
    ("fills_by_status"%string, PDict (map (fun r => (r.1, PInt (Z.of_nat r.2))) fills_by_status));
    ("signals_by_command"%string, PList (map (count_item "command") by_command));
    ("signals_by_symbol"%string, PList (map (count_item "symbol") by_symbol))]).

(** [round(float(v), 1)] or null. *)
Definition ms_json (v : option spec_float) : json :=
  match _ms v with Some x => PFloat x | None => PNone end.

Definition truthy_license (license_id : option string) : option string :=
  match license_id with Some s => if bool_decide (s = ""%string) then None else Some s | None => None end.

Definition _build_weekly_performance (target_date : Z) (license_id : option string) : prog Db exn json :=
  let week_end := target_date * days + days in
  let week_start := week_end - 7 * days in
  let keep lic s := between week_start week_end (Z.of_N (acc_received s)) && of_license lic (acc_license s) in
  latency_row <- lquery uuid_of license_id (fun lic d =>
    let xs := map (fun sf => latency_ms (F:=spec_float) sf.1 sf.2) (filled_pairs (keep lic) d) in
    (length xs, percentile_cont (f_dec 50 (-2)) xs, percentile_cont (f_dec 95 (-2)) xs,
     percentile_cont (f_dec 99 (-2)) xs)) ;;
  daily_rows <- lquery uuid_of license_id (fun lic d =>
    sort_by (fun a b : Z * nat => a.1 <? b.1)
      (group_count (map (fun s => Z.of_N (acc_received s) / days) (List.filter (keep lic) (db_accepted d))))) ;;
  let '(cnt, p50, p95, p99) := latency_row in
  ret (PDict ([
    ("week_start"%string, PStr (date_iso (week_start / days)));
    ("week_end"%string, PStr (date_iso ((week_end - seconds) / days)));
    ("sample_count"%string, PInt (Z.of_nat cnt));
    ("latency_p50_ms"%string, ms_json p50);
    ("latency_p95_ms"%string, ms_json p95);
    ("latency_p99_ms"%string, ms_json p99);
    ("daily_signal_counts"%string, PList (map (fun r : Z * nat =>
       PDict [("date"%string, PStr (date_iso r.1)); ("count"%string, PInt (Z.of_nat r.2))]) daily_rows))]
    ++ match truthy_license license_id with Some s => [("license_id"%string, PStr s)] | None => [] end)).

(** ** Generation *)

Definition same_report (ty : string) (as_of : Z) (hash : string) (r : report_row) : bool :=
  bool_decide (rep_type r = ty) && bool_decide (rep_as_of r = as_of) && bool_decide (rep_hash r = hash).

Definition complete (r : report_row) : report_row :=
  mk_report (rep_id r) (rep_type r) (rep_as_of r) (rep_hash r) "completed" (rep_payload r) (rep_created r).

(** [INSERT ... ON CONFLICT (report_type, data_as_of, content_hash) DO UPDATE SET
    status = 'completed' RETURNING id, created_at]. *)
Definition upsert_report (ty : string) (as_of : Z) (hash : string) (payload : json) (d : Db) : (nat * Z) * Db :=
  match first_where (same_report ty as_of hash) (db_reports d) with
  | Some r => ((rep_id r, rep_created r),
      on_reports (map (fun r => if same_report ty as_of hash r then complete r else r)) d)
  | None => ((db_next d, db_now d),
      take_id (on_reports (fun l => l ++ [mk_report (db_next d) ty as_of hash "completed" payload (db_now d)]) d))
  end.

Definition build (report_type : string) (target_date : Z) (license_id : option string) : prog Db exn json :=
  if bool_decide (report_type = "daily_signal_summary"%string) then _build_daily_signal_summary target_date
  else _build_weekly_performance target_date license_id.

Definition as_of (target_date : Z) : Z := target_date * days + 86399 * seconds.

Definition content_hash (payload : json) : string := sha256_hex (dumps float_repr payload).

Definition generate_report (pool : bool) (report_type : string) (target_date : Z) (license_id : option string)
  : prog Db exn report_item :=
  if negb (existsb (fun t => bool_decide (t = report_type)) REPORT_TYPES)
  then raise (HTTPException 400 "report_type must be one of: daily_signal_summary, weekly_performance")
  else
    get_pool pool ;;;
    payload <- build report_type target_date license_id ;;
    row <- stmt DbError (upsert_report report_type (as_of target_date) (content_hash payload) payload) ;;
    ret (mk_item (uuid_text row.1) report_type (datetime_iso (as_of target_date)) "completed" (datetime_iso row.2)).

End Service.

(** ** One row per report *)

Definition report_key (r : report_row) : string * Z * string := (rep_type r, rep_as_of r, rep_hash r).

Lemma same_report_key ty t h r : same_report ty t h r = true <-> report_key r = (ty, t, h).
Proof.
  unfold same_report, report_key. rewrite !andb_true_iff, !bool_decide_eq_true. split; [intros [[] ]|]; naive_solver.
Qed.

Lemma complete_key ty t h l :
  map report_key (map (fun r => if same_report ty t h r then complete r else r) l) = map report_key l.
Proof. rewrite map_map. apply map_ext. intros r. by destruct (same_report ty t h r). Qed.

(** Keys stay unique and no stored report is lost or altered. *)
Definition reports_kept (d d' : Db) : Prop :=
  (NoDup (map report_key (db_reports d)) -> NoDup (map report_key (db_reports d'))) /\
  forall r, r ∈ db_reports d -> exists r', r' ∈ db_reports d' /\
    report_key r' = report_key r /\ rep_id r' = rep_id r /\ rep_payload r' = rep_payload r.

Lemma reports_kept_refl : reflexive Db reports_kept.
Proof. intros d. split; [done|]. intros r Hr. by exists r. Qed.

Lemma reports_kept_trans : transitive Db reports_kept.
Proof.
  intros d1 d2 d3 [N1 K1] [N2 K2]. split; [auto|]. intros r Hr.
  destruct (K1 r Hr) as (r' & Hr' & E1 & E2 & E3). destruct (K2 r' Hr') as (r'' & Hr'' & E4 & E5 & E6).
  exists r''. split_and!; congruence.
Qed.

Lemma first_where_None {A} (p : A -> bool) l x : first_where p l = None -> x ∈ l -> p x = false.
Proof. intros H Hx. apply (List.find_none _ _ H), list_elem_of_In, Hx. Qed.

Lemma upsert_kept ty t h p d : reports_kept d (upsert_report ty t h p d).2.
Proof.
  unfold upsert_report. destruct (first_where _ _) as [r|] eqn:E; simpl.
  - split; simpl; [by rewrite complete_key|]. intros r' Hr'.
    exists (if same_report ty t h r' then complete r' else r'). split; [|by destruct (same_report ty t h r')].
    apply list_elem_of_fmap. by exists r'.
  - split; simpl.
    + rewrite map_app. intros Hn. apply list.NoDup_app. split_and!; [done| |apply NoDup_singleton].
      intros k Hk ->%list_elem_of_singleton. apply list_elem_of_fmap in Hk as (r & Ek & Hr).
      pose proof (first_where_None _ _ _ E Hr) as Hf. rewrite (proj2 (same_report_key ty t h r)) in Hf; done.
    + intros r Hr. exists r. set_solver.
Qed.

Section Generated.
Context (uuid_of : string -> option nat) (uuid_text : nat -> string).
Context (date_iso : Z -> string) (datetime_iso : Z -> string).
Context (float_repr : spec_float -> bytes) (sha256_hex : string -> string).

Abbreviation generate := (generate_report uuid_of uuid_text date_iso datetime_iso float_repr sha256_hex).
Abbreviation builder := (build uuid_of date_iso).

Lemma lquery_steps {A} R lic (f : option nat -> Db -> A) : reflexive Db R -> steps_in R (lquery uuid_of lic f).
Proof. intros HR. repeat split. apply HR. Qed.

Lemma build_steps R ty date lic : reflexive Db R -> steps_in R (builder ty date lic).
Proof.
  intros HR. unfold build. destruct (bool_decide _).
  - unfold _build_daily_signal_summary. do 4 (apply steps_in_bind; [by apply steps_in_query|intros ?]).
    apply steps_in_bind; [|done]. destruct a2; [by apply steps_in_query|done].
  - unfold _build_weekly_performance. do 2 (apply steps_in_bind; [by apply lquery_steps|intros ?]).
    by destruct a as [[[] ?] ?].
Qed.

Lemma generate_steps pool ty date lic : steps_in reports_kept (generate pool ty date lic).
Proof.
  unfold generate_report. destruct (negb _); [done|]. apply steps_in_bind; [by destruct pool|]. intros _.
  apply steps_in_bind; [apply build_steps, reports_kept_refl|]. intros p.
  apply steps_in_bind; [|done]. apply steps_in_stmt. intros d. apply upsert_kept.
Qed.

(** C25: stored reports are unique and permanent.  Any number of generations,
    interleaved and failing anywhere, keep one row per report type, date and
    content hash, and never drop a stored report or change its id or payload. *)
Theorem reports_unique_and_permanent ps ps' d d'
  (Hps : Forall (fun p => exists pool ty date lic, p = generate pool ty date lic) ps)
  (Hrun : rtc istep (ps, d) (ps', d'))
  (Hnd : NoDup (map report_key (db_reports d))) :
  NoDup (map report_key (db_reports d')) /\
  forall r, r ∈ db_reports d -> exists r', r' ∈ db_reports d' /\
    report_key r' = report_key r /\ rep_id r' = rep_id r /\ rep_payload r' = rep_payload r.
Proof.
  destruct (interleave_steps_in reports_kept ps ps' d d' reports_kept_refl reports_kept_trans) as [[H1 H2] _]; auto.
  eapply Forall_impl; [|exact Hps]. intros p (pool & ty & date & lic & ->). apply generate_steps.
Qed.

(** ** Regeneration *)

(** The payload depends on the signals and fills alone, and building it changes
    nothing. *)
Lemma build_run ty date lic d d' :
  db_accepted d' = db_accepted d -> db_fills d' = db_fills d ->
  run (builder ty date lic) [] d' = (run_result (builder ty date lic) [] d, d', []).
Proof.
  intros Ha Hf. unfold run_result, build. destruct (bool_decide _).
  - unfold _build_daily_signal_summary. simpl. unfold signals_between, fills_between. rewrite Ha, Hf.
    destruct (head _); simpl; by rewrite ?Hf.
  - unfold _build_weekly_performance. simpl. unfold filled_pairs. rewrite Ha, Hf.
    destruct (license_arg uuid_of lic); simpl; by rewrite ?Ha.
Qed.

Lemma first_where_ext {A} (p : A -> bool) f l :
  (forall x, p (f x) = p x) -> first_where p (map f l) = f <$> first_where p l.
Proof. intros H. induction l as [|x l IH]; simpl; [done|]. rewrite H. by destruct (p x). Qed.

Lemma complete_same ty t h r : same_report ty t h (complete r) = same_report ty t h r.
Proof. done. Qed.

(** Once stored, the same report is found again at any later time. *)
Lemma upsert_again ty t h p d now :
  let d1 := on_now (fun _ => now) (upsert_report ty t h p d).2 in
  upsert_report ty t h p d1 = ((upsert_report ty t h p d).1, d1).
Proof.
  cbn zeta. unfold upsert_report at 2 3 4. destruct (first_where _ (db_reports d)) as [r|] eqn:E; simpl.
  - unfold upsert_report. simpl. rewrite first_where_ext, E; simpl.
    + destruct (first_where_Some _ _ _ E) as [_ ->]. simpl. f_equal.
      unfold on_reports, on_now. simpl. f_equal. rewrite map_map. apply map_ext. intros x.
      destruct (same_report ty t h x) eqn:Ex; [rewrite complete_same, Ex; done|by rewrite Ex].
    + intros x. by destruct (same_report ty t h x) eqn:Ex; rewrite ?complete_same, ?Ex.
  - set (new := mk_report _ _ _ _ _ _ _). unfold upsert_report. simpl.
    assert (same_report ty t h new = true) as Hnew by (by apply same_report_key).
    assert (first_where (same_report ty t h) (db_reports d ++ [new]) = Some new) as ->.
    { clear -E Hnew. induction (db_reports d) as [|x l IH]; simpl in *; [by rewrite Hnew|].
      destruct (same_report ty t h x); [done|auto]. }
    f_equal. unfold on_reports, take_id, on_next, on_now. simpl. f_equal. rewrite map_app. simpl. rewrite Hnew.
    f_equal. clear -E. induction (db_reports d) as [|x l IH]; simpl in *; [done|].
    destruct (same_report ty t h x); [done|]. by rewrite IH.
Qed.

Lemma generate_run ty date lic d :
  existsb (fun t => bool_decide (t = ty)) REPORT_TYPES = true ->
  run (generate true ty date lic) [] d =
  match run_result (builder ty date lic) [] d with
  | Ok p => let u := upsert_report ty (as_of date) (content_hash float_repr sha256_hex p) p d in
      (Ok (mk_item (uuid_text u.1.1) ty (datetime_iso (as_of date)) "completed" (datetime_iso u.1.2)), u.2, [])
  | Err e => (Err e, d, [])
  end.
Proof.
  intros Ht. unfold generate_report. rewrite Ht. cbn [negb]. rewrite run_bind. simpl.
  rewrite run_bind, (build_run ty date lic d d) by done. by destruct (run_result _ _ _).
Qed.

(** Generating a report again is idempotent.  If a generation answered, then
    whenever it is repeated over the same signals and fills it gives the same
    answer, the same id and creation time included, and stores nothing new. *)
Theorem regeneration_is_idempotent ty date lic d now item
  (Hok : run_result (generate true ty date lic) [] d = Ok item) :
  let d1 := on_now (fun _ => now) (run_state (generate true ty date lic) [] d) in
  run_result (generate true ty date lic) [] d1 = Ok item /\
  run_state (generate true ty date lic) [] d1 = d1.
Proof.
  cbn zeta. destruct (existsb (fun t => bool_decide (t = ty)) REPORT_TYPES) eqn:Ht;
    [|unfold run_result, generate_report in Hok; by rewrite Ht in Hok].
  destruct (run_result (builder ty date lic) [] d) as [p|e] eqn:Hp;
    [|unfold run_result in Hok; rewrite generate_run, Hp in Hok; done].
  set (h := content_hash float_repr sha256_hex p). set (u := upsert_report ty (as_of date) h p d).
  assert (run_state (generate true ty date lic) [] d = u.2) as ->
    by (unfold run_state; rewrite generate_run, Hp; done).
  assert (item = mk_item (uuid_text u.1.1) ty (datetime_iso (as_of date)) "completed" (datetime_iso u.1.2)) as ->
    by (unfold run_result in Hok; rewrite generate_run, Hp in Hok by done; by injection Hok as <-).
  assert (run_result (builder ty date lic) [] (on_now (fun _ => now) u.2) = Ok p) as Hp'.
  { assert (db_accepted (on_now (fun _ => now) u.2) = db_accepted d /\ db_fills (on_now (fun _ => now) u.2) = db_fills d)
      as [E1 E2] by (unfold u, upsert_report; by destruct (first_where _ _)).
    unfold run_result. by rewrite (build_run ty date lic d), Hp by done. }
  pose proof (upsert_again ty (as_of date) h p d now) as Hu. cbn zeta in Hu. fold u in Hu.
  unfold run_result at 1, run_state. rewrite !generate_run, Hp' by done. fold h. by rewrite Hu.
Qed.

End Generated.

(** ** Agreement with the analytics service *)

(** The two copies of the formula give one number. *)
Lemma rates_agree counts : daily_fill_rate counts = fill_rate counts.
Proof. reflexivity. Qed.

(** C29: the two services agree.  At midnight after a day, with no fill dated
    later, the daily report and the analytics summary of the last 24 hours give the
    same counts by status, the same total and the same fill rate, to the bit. *)
Theorem daily_report_matches_analytics uuid_of date_iso date d
  (Hnow : db_now d = (date + 1) * days)
  (Hpast : Forall (fun f => fill_created f < db_now d) (db_fills d)) :
  exists p s,
    run_result (_build_daily_signal_summary date_iso date) [] d = Ok (PDict p) /\
    run_result (fills_summary uuid_of (F:=spec_float) true None 24) [] d = Ok s /\
    dict_get p "fill_rate_pct" = Some (PFloat (fs_rate s)) /\
    dict_get p "total_fills" = Some (PInt (Z.of_nat (fs_total s))) /\
    dict_get p "fills_by_status" = Some (PDict (map (fun r => (r.1, PInt (Z.of_nat r.2))) (fs_by_status s))).
Proof.
  assert (fills_between (date * days) (date * days + days) d = recent_fills 24 None d) as E.
  { unfold fills_between, recent_fills. apply List.filter_ext_in. intros f Hf.
    pose proof (proj1 (List.Forall_forall _ _) Hpast f Hf) as Hlt. cbn beta in Hlt.
    unfold between, within, of_license. rewrite andb_true_r, Hnow in *.
    assert (days = 24 * 3600 * seconds) as Ed by reflexivity.
    rewrite (proj2 (Z.ltb_lt _ _)), andb_true_r by lia. f_equal. lia. }
  unfold run_result. do 2 eexists. split; [|split].
  - unfold _build_daily_signal_summary. simpl. rewrite E.
    destruct (head (group_count (map fill_status (recent_fills 24 None d)))) eqn:Eh; simpl; rewrite ?E;
      [reflexivity|].
    destruct (group_count (map fill_status (recent_fills 24 None d))) eqn:Eg; [|done]. reflexivity.
  - reflexivity.
  - cbn [dict_get fs_rate fs_total fs_by_status]. rewrite rates_agree.
    destruct (group_count (map fill_status (recent_fills 24 None d))) eqn:Eg; done.
Qed.

(** ** A concrete day *)

Module ReportsDemo.
Import AnalyticsDemo.

Definition date_iso (n : Z) : string := pretty n.
Definition uuid_text (n : nat) : string := pretty n.
Definition float_repr (f : spec_float) : bytes := [].
Definition sha256_hex (s : string) : string := s.

Abbreviation generate := (generate_report uuid_of uuid_text date_iso date_iso float_repr sha256_hex).

(** The demo hour of the analytics service, seen at the midnight after it. *)
Definition midnight : Db := on_now (fun _ => days) d0.

Lemma daily_report_matches_analytics_witness :
  exists p s,
    run_result (_build_daily_signal_summary date_iso 0) [] midnight = Ok (PDict p) /\
    run_result (fills_summary uuid_of (F:=spec_float) true None 24) [] midnight = Ok s /\
    dict_get p "fill_rate_pct" = Some (PFloat (fs_rate s)) /\
    dict_get p "total_fills" = Some (PInt (Z.of_nat (fs_total s))) /\
    dict_get p "fills_by_status" = Some (PDict (map (fun r => (r.1, PInt (Z.of_nat r.2))) (fs_by_status s))).
Proof.
  apply (daily_report_matches_analytics uuid_of date_iso 0 midnight); [reflexivity|].
  repeat constructor.
Defined.

Lemma regeneration_is_idempotent_witness :
  exists item, run_result (generate true "daily_signal_summary" 0 None) [] midnight = Ok item /\
    run_result (generate true "daily_signal_summary" 0 None) []
      (on_now (fun _ => 2 * days) (run_state (generate true "daily_signal_summary" 0 None) [] midnight)) = Ok item.
Proof.
  eexists. split; [reflexivity|].
  apply (regeneration_is_idempotent uuid_of uuid_text date_iso date_iso float_repr sha256_hex
    "daily_signal_summary" 0 None midnight (2 * days)). reflexivity.
Defined.

Lemma reports_unique_and_permanent_witness :
  let p := generate true "daily_signal_summary" 0 None in
  let c := fold_left pick (repeat (0%nat, false) 6 ++ repeat (1%nat, false) 6) ([p; p], midnight) in
  NoDup (map report_key (db_reports c.2)).
Proof.
  set (p := generate true "daily_signal_summary" 0 None).
  set (c := fold_left pick (repeat (0%nat, false) 6 ++ repeat (1%nat, false) 6) ([p; p], midnight)).
  apply (reports_unique_and_permanent uuid_of uuid_text date_iso date_iso float_repr sha256_hex
    [p; p] c.1 midnight c.2).
  - repeat constructor; by exists true, "daily_signal_summary"%string, 0, None.
  - rewrite <- surjective_pairing. apply sched_rtc.
  - constructor.
Defined.

Example two_generations_one_row :
  let p := generate true "daily_signal_summary" 0 None in
  length (db_reports (fold_left pick (repeat (0%nat, false) 6 ++ repeat (1%nat, false) 6) ([p; p], midnight)).2) = 1%nat.
Proof. vm_compute. reflexivity. Qed.

End ReportsDemo.
