(* ===== verification/TradeStore.v ===== *)
(** * TradeStore: the executor's SQLite store

    scripts/_tradestore.py: schema migrations, the recording helpers, the walk
    from a broker ticket to the legs of its signal, channel flags, the dry-run
    switch and the symbol map.  Every helper opens its own connection
    ([get_conn], which migrates the schema) and swallows its exceptions.  A
    transaction is one statement of the [prog]; row ids are left out.  A TEXT
    value is a [string], a REAL one a float, NULL is [None].

    [store_at] makes the store an implementation of the interface the executor
    is written against, and the last theorem joins the two. *)

From Stdlib Require Import ZArith SpecFloat QArith Ascii Strings.Byte.
From S2P Require Import Prelude Text PyFloat PyVal Json Prog EaShim.
Open Scope Z_scope.

(** ** Tables *)

Section Tables.
Context {F : Type}.

Record sig_row := mk_sig {
  sig_ts : string; sig_chat : Z; sig_msg : Z; sig_channel : option string; sig_outcome : string;
  sig_symbol : option string; sig_side : option string; sig_entry : option F; sig_sl : option F;
  sig_tp : option F; sig_n : Z; sig_traces : option string; sig_raw : option string }.

Record ord_row := mk_ord {
  ord_ts : string; ord_trace : string; ord_source : option string; ord_command : option string;
  ord_symbol : option string; ord_risk : option F; ord_volume : option F; ord_sl : option F;
  ord_tp : option F; ord_entry : option F; ord_status : option string; ord_broker : option string;
  ord_comment : option string; ord_error : option string }.

Record closed_row := mk_closed {
  cls_position : string; cls_ts : string; cls_symbol : string; cls_side : string; cls_volume : F;
  cls_entry : option F; cls_price : F; cls_profit : F; cls_magic : Z; cls_comment : option string;
  cls_source : string }.

Record equity_row := mk_equity {
  eq_ts : string; eq_balance : F; eq_equity : F; eq_margin : F; eq_free : F; eq_floating : F }.

Record channel_row := mk_channel {
  chn_id : string; chn_title : option string; chn_spec : option string; chn_enabled : Z;
  chn_added : option string; chn_updated : option string; chn_note : option string;
  chn_partial : Z; chn_breakeven : Z }.

(** [s_cols]: whether the channels table exists and has its two flag columns. *)
Record sdb := mk_sdb {
  s_meta : list (string * option string);
  s_signals : list sig_row;
  s_orders : list ord_row;
  s_closed : list closed_row;
  s_equity : list equity_row;
  s_channels : list channel_row;
  s_cols : option (bool * bool) }.

Definition on_meta f d := mk_sdb (f (s_meta d)) (s_signals d) (s_orders d) (s_closed d) (s_equity d) (s_channels d) (s_cols d).
Definition on_signals f d := mk_sdb (s_meta d) (f (s_signals d)) (s_orders d) (s_closed d) (s_equity d) (s_channels d) (s_cols d).
Definition on_orders f d := mk_sdb (s_meta d) (s_signals d) (f (s_orders d)) (s_closed d) (s_equity d) (s_channels d) (s_cols d).
Definition on_closed f d := mk_sdb (s_meta d) (s_signals d) (s_orders d) (f (s_closed d)) (s_equity d) (s_channels d) (s_cols d).
Definition on_equity f d := mk_sdb (s_meta d) (s_signals d) (s_orders d) (s_closed d) (f (s_equity d)) (s_channels d) (s_cols d).
Definition on_channels f d := mk_sdb (s_meta d) (s_signals d) (s_orders d) (s_closed d) (s_equity d) (f (s_channels d)) (s_cols d).
Definition on_cols f d := mk_sdb (s_meta d) (s_signals d) (s_orders d) (s_closed d) (s_equity d) (s_channels d) (f (s_cols d)).

End Tables.
Arguments sig_row F : clear implicits. Arguments ord_row F : clear implicits.
Arguments closed_row F : clear implicits. Arguments equity_row F : clear implicits.
Arguments sdb F : clear implicits.

(** [INSERT ... ON CONFLICT(key) DO UPDATE SET]: the merged row replaces the one
    with the same key, in its place. *)
Definition upsert {R} (same : R -> bool) (merge : R -> R) (new : R) (l : list R) : list R :=
  if existsb same l then map (fun r => if same r then merge r else r) l else l ++ [new].

(** [INSERT OR IGNORE]. *)
Definition insert_or_ignore {R} (same : R -> bool) (new : R) (l : list R) : list R :=
  if existsb same l then l else l ++ [new].

Definition same_key (k : string) (kv : string * option string) : bool := bool_decide (kv.1 = k).

Definition meta_put (k v : string) : list (string * option string) -> list (string * option string) :=
  upsert (same_key k) (fun _ => (k, Some v)) (k, Some v).

(** The value of a meta key: [None] when there is no row. *)
Definition meta_row (k : string) (m : list (string * option string)) : option (option string) :=
  snd <$> List.find (same_key k) m.

(** [COALESCE(excluded.x, orders.x)]. *)
Definition coalesce {X} (new old : option X) : option X := match new with Some _ => new | None => old end.

(** ** Environment file *)

Definition line_break (c : ascii) : bool :=
  let n := nat_of_ascii c in (Nat.leb 10 n && Nat.leb n 13) || (Nat.leb 28 n && Nat.leb n 30).

(** [str.splitlines], ASCII breaks; empty lines may be duplicated. *)
Fixpoint lines_of (l cur : chars) : list chars :=
  match l with
  | [] => [rev cur]
  | c :: l' => if line_break c then rev cur :: lines_of l' [] else lines_of l' (c :: cur)
  end.

(** [line.partition("=")] of a line that holds the sign. *)
Fixpoint partition_eq (l : chars) : chars * chars :=
  match l with
  | [] => ([], [])
  | c :: l' => if bool_decide (c = "="%char) then ([], l') else let '(a, b) := partition_eq l' in (c :: a, b)
  end.

Fixpoint dotenv_find (key : string) (ls : list chars) : string :=
  match ls with
  | [] => ""
  | l :: ls' =>
      let l := strip_chars l in
      match l with
      | [] => dotenv_find key ls'
      | c :: _ =>
          if bool_decide (c = "#"%char) || negb (existsb (fun x => bool_decide (x = "="%char)) l)
          then dotenv_find key ls'
          else let '(k, v) := partition_eq l in
               if bool_decide (string_of_chars (strip_chars k) = key) then string_of_chars (strip_chars v)
               else dotenv_find key ls'
      end
  end.

(** The environment wins; [None] is an unreadable file. *)
Definition _env_dotenv_value (environ file : option string) (key : string) : string :=
  match environ with
  | Some v => if bool_decide (v = "")
              then match file with Some t => dotenv_find key (lines_of (chars_of t) []) | None => "" end
              else v
  | None => match file with Some t => dotenv_find key (lines_of (chars_of t) []) | None => "" end
  end.

Section Store.
Context {F : Type} {A : Arith F}.
Context (float_repr : F -> bytes) (py_str : pyval F -> string).
(** The setting that seeds the channel registry, and the clock. *)
Context (source_chats : string) (now : string).

Abbreviation store X := (prog (sdb F) exn X).

(** ** Migrations *)

Fixpoint drop_while (p : ascii -> bool) (l : chars) : chars :=
  match l with c :: l' => if p c then drop_while p l' else l | [] => [] end.

(** [part.lstrip("-").isdigit()]. *)
Definition numeric_spec (part : chars) : bool :=
  match drop_while (fun c => bool_decide (c = "-"%char)) part with
  | [] => false
  | ds => forallb (fun c => match digit_of c with Some _ => true | None => false end) ds
  end.

Definition channel_key (part : chars) : chars :=
  if numeric_spec part then part else drop_while (fun c => bool_decide (c = "@"%char)) part.

(** The rows seeded by the migration to version 2. *)
Definition seed_row (key : string) (title : option string) (spec : string) : channel_row :=
  mk_channel key title (Some spec) 1 (Some now) (Some now) None 0 0.

Definition seed_rows : list channel_row :=
  seed_row "direct" (Some "Direct to bot"%string) "direct" ::
  map (fun part => seed_row (string_of_chars (channel_key part)) None (string_of_chars part))
    (List.filter (fun part => match part with [] => false | _ => true end)
       (map (fun s => chars_of (strip s)) (split ","%char source_chats))).

(** Inserts of one transaction, each of which may fail: the rows inserted until
    then, which the version bump commits. *)
Fixpoint _migrate_v2_seed_channels (rows : list channel_row) : store (list channel_row) :=
  match rows with
  | [] => ret []
  | r :: rows' =>
      ok <- try_ (query StoreError (fun _ => true)) (fun _ => ret false) ;;
      if ok then done <- _migrate_v2_seed_channels rows' ;; ret (r :: done) else ret []
  end.

Definition same_channel (r : channel_row) (x : channel_row) : bool := bool_decide (chn_id x = chn_id r).

Definition seed (rows : list channel_row) (l : list channel_row) : list channel_row :=
  fold_left (fun l r => insert_or_ignore (same_channel r) r l) rows l.

Definition set_version (v : string) : sdb F -> sdb F := on_meta (meta_put "schema_version" v).

(** [ALTER TABLE ... ADD COLUMN] raises when the column exists. *)
Definition add_partial (d : sdb F) : result exn unit * sdb F :=
  match s_cols d with
  | Some (false, b) => (Ok tt, on_cols (fun _ => Some (true, b)) d)
  | _ => (Err StoreError, d)
  end.
Definition add_breakeven (d : sdb F) : result exn unit * sdb F :=
  match s_cols d with
  | Some (a, false) => (Ok tt, on_cols (fun _ => Some (a, true)) d)
  | _ => (Err StoreError, d)
  end.

Definition migrate_v4 : store unit :=
  cols <- query StoreError (fun d => default (false, false) (s_cols d)) ;;
  (if fst cols then ret tt else stmt_r StoreError add_partial) ;;;
  (if snd cols then ret tt else stmt_r StoreError add_breakeven).

Definition stored_version (d : sdb F) : Z :=
  match meta_row "schema_version" (s_meta d) with
  | Some (Some v) => default 1 (parse_int v)
  | _ => 1
  end.

Definition _ensure_schema : store unit :=
  exec StoreError (on_cols (fun c => Some (default (true, true) c))) ;;;
  exec StoreError (on_meta (insert_or_ignore (same_key "schema_version") ("schema_version"%string, Some "1"%string))) ;;;
  current <- query StoreError stored_version ;;
  (if current <? 2 then
     rows <- _migrate_v2_seed_channels seed_rows ;;
     exec StoreError (fun d => set_version "2" (on_channels (seed rows) d))
   else ret tt) ;;;
  (if current <? 3 then exec StoreError (set_version "3") else ret tt) ;;;
  (if current <? 4 then
     try_ migrate_v4 (fun _ => ret tt) ;;; exec StoreError (set_version "4")
   else ret tt).

(** Whether a connection could be opened and brought up to date. *)
Definition get_conn : store bool :=
  try_ (query StoreError (fun _ => tt) ;;; _ensure_schema ;;; ret true) (fun _ => ret false).

(** A read query; no rows on any failure. *)
Definition squery {X} (f : sdb F -> result exn (list X)) : store (list X) :=
  try_ (ok <- get_conn ;; if ok then stmt_r StoreError (fun d => (f d, d)) else ret []) (fun _ => ret []).

(** A write and its commit; no effect on any failure. *)
Definition swrite (f : sdb F -> sdb F) : store unit :=
  try_ (ok <- get_conn ;; if ok then exec StoreError f else ret tt) (fun _ => ret tt).

(** ** Recording *)

Definition same_signal (chat msg : Z) (r : sig_row F) : bool := (sig_chat r =? chat) && (sig_msg r =? msg).

(** A repeated message refreshes everything but its trace ids. *)
Definition record_signal (chat msg : Z) (channel : option string) (outcome : string) (symbol side : option string)
    (entry sl tp : option F) (n_commands : Z) (raw : option string) : store unit :=
  let new := mk_sig now chat msg channel outcome symbol side entry sl tp n_commands (Some "[]"%string) raw in
  swrite (on_signals (upsert (same_signal chat msg)
    (fun old => mk_sig now chat msg channel outcome symbol side entry sl tp n_commands (sig_traces old) raw) new)).

Definition is_text (t : string) (v : pyval F) : bool :=
  match v with PStr s => bool_decide (s = t) | _ => false end.

(** [json.loads(text or "[]")], a non-list or an error counting as empty. *)
Definition trace_list (text : option string) : list (pyval F) :=
  let text := default ""%string text in
  match loads (if bool_decide (text = "")%string then "[]" else text) with
  | Some (PList l) => l
  | _ => []
  end.

Definition add_trace (trace : string) (r : sig_row F) : sig_row F :=
  let ids := trace_list (sig_traces r) in
  let ids := if existsb (is_text trace) ids then ids else ids ++ [PStr trace] in
  mk_sig (sig_ts r) (sig_chat r) (sig_msg r) (sig_channel r) (sig_outcome r) (sig_symbol r) (sig_side r)
    (sig_entry r) (sig_sl r) (sig_tp r) (sig_n r) (Some (dumps float_repr (PList ids))) (sig_raw r).

(** The read and the update run under one immediate transaction; a missing row
    is rolled back. *)
Definition append_signal_trace (chat msg : Z) (trace : string) : store unit :=
  swrite (on_signals (map (fun r => if same_signal chat msg r then add_trace trace r else r))).

Definition merge_order (new old : ord_row F) : ord_row F :=
  mk_ord (ord_ts new) (ord_trace old) (coalesce (ord_source new) (ord_source old))
    (coalesce (ord_command new) (ord_command old)) (coalesce (ord_symbol new) (ord_symbol old))
    (coalesce (ord_risk new) (ord_risk old)) (coalesce (ord_volume new) (ord_volume old))
    (coalesce (ord_sl new) (ord_sl old)) (coalesce (ord_tp new) (ord_tp old))
    (coalesce (ord_entry new) (ord_entry old)) (coalesce (ord_status new) (ord_status old))
    (coalesce (ord_broker new) (ord_broker old)) (coalesce (ord_comment new) (ord_comment old))
    (coalesce (ord_error new) (ord_error old)).

Definition same_trace (t : string) (r : ord_row F) : bool := bool_decide (ord_trace r = t).

(** [new] carries the arguments, its time being [now]. *)
Definition record_order (new : ord_row F) : store unit :=
  swrite (on_orders (upsert (same_trace (ord_trace new)) (merge_order new) new)).

Definition record_closed_trade (new : closed_row F) : store unit :=
  swrite (on_closed (upsert (fun r => bool_decide (cls_position r = cls_position new)) (fun _ => new) new)).

Definition record_equity (balance equity margin margin_free floating : F) : store unit :=
  let new := mk_equity now balance equity margin margin_free floating in
  swrite (on_equity (upsert (fun r => bool_decide (eq_ts r = now)) (fun _ => new) new)).

Definition meta_set (key value : string) : store unit := swrite (on_meta (meta_put key value)).

(** ** Channel flags *)

Definition nocase (a b : string) : bool := bool_decide (lower a = lower b).

(** [SELECT partial_book, breakeven]: an error while a column is missing. *)
Definition select_flags (p : channel_row -> bool) (d : sdb F) : result exn (list (Z * Z)) :=
  match s_cols d with
  | Some (true, true) => Ok (map (fun r => (chn_partial r, chn_breakeven r)) (List.filter p (s_channels d)))
  | _ => Err StoreError
  end.

Record flags := mk_flags { partial_book : bool; breakeven : bool }.

Definition channel_flags (channel_name : option string) : store flags :=
  let name := default ""%string channel_name in
  rows <- (if bool_decide (name = "")%string
           then squery (select_flags (fun r => bool_decide (chn_id r = "direct"%string)))
           else squery (select_flags (fun r => match chn_title r with Some t => nocase t name | None => false end))) ;;
  ret (match rows with
       | [] => mk_flags false false
       | (p, b) :: _ => mk_flags (negb (p =? 0)) (negb (b =? 0))
       end).

(** ** The legs of a signal *)

(** Continuation bytes of the character just read. *)
Fixpoint skip_conts (l : bytes) : bytes :=
  match l with b :: l' => if is_start b then l else skip_conts l' | [] => [] end.

Definition fold_case (b : byte) : N :=
  let n := byte_val b in if ((65 <=? n) && (n <=? 90))%N then (n + 32)%N else n.

(** SQLite's [LIKE]: percent and underscore are wildcards, ASCII letters match
    in either case. *)
Fixpoint like (p : bytes) : bytes -> bool :=
  match p with
  | [] => fun s => match s with [] => true | _ => false end
  | c :: p' =>
      if Byte.eqb c "%" then
        fix any (s : bytes) : bool := like p' s || match s with [] => false | _ :: s' => any s' end
      else if Byte.eqb c "_" then
        fun s => match s with [] => false | b :: s' => is_start b && like p' (skip_conts s') end
      else fun s => match s with [] => false | b :: s' => (fold_case c =? fold_case b)%N && like p' s' end
  end.

Definition trace_pattern (trace : string) : bytes :=
  "%"%byte :: x22 :: encode_utf8 trace ++ [x22; "%"%byte].

Definition like_trace (trace : string) (r : sig_row F) : bool :=
  match sig_traces r with Some t => like (trace_pattern trace) (encode_utf8 t) | None => false end.

(** [trace in ids] and [tuple(ids)] of a parsed document. *)
Definition py_in (trace : string) (ids : pyval F) : result exn bool :=
  match ids with
  | PList l => Ok (existsb (is_text trace) l)
  | PDict d => Ok (existsb (fun kv => bool_decide (kv.1 = trace)) d)
  | PStr s => Ok (contains s trace)
  | _ => Err TypeError
  end.

Definition py_tuple (ids : pyval F) : list (pyval F) :=
  match ids with
  | PList l => l
  | PDict d => map (fun kv => PStr kv.1) d
  | PStr s => map (fun p => PStr (string_of_bytes (utf8_of_point p))) (points (encode_utf8 s))
  | _ => []
  end.

(** The first signal whose array holds the trace. *)
Fixpoint find_signal (trace : string) (rows : list (sig_row F)) : result exn (option (list (pyval F) * option string)) :=
  match rows with
  | [] => Ok None
  | r :: rows' =>
      let text := default ""%string (sig_traces r) in
      match loads (if bool_decide (text = "")%string then "[]" else text) with
      | None => find_signal trace rows'
      | Some ids =>
          let! found := py_in trace ids in
          if found then Ok (Some (py_tuple ids, sig_channel r)) else find_signal trace rows'
      end
  end.

(** A value bound to a parameter and compared with a TEXT column; lists and
    dicts cannot be bound. *)
Definition bind_text (v : pyval F) : result exn (option string) :=
  match v with
  | PStr s => Ok (Some s)
  | PNone => Ok None
  | PInt z => if (- 2 ^ 63 <=? z) && (z <? 2 ^ 63) then Ok (Some (pretty z)) else Err StoreError
  | PBool b => Ok (Some (if b then "1" else "0")%string)
  | PFloat f => Ok (Some (string_of_bytes (float_repr f)))
  | PList _ | PDict _ => Err StoreError
  end.

Fixpoint bind_all (vs : list (pyval F)) : result exn (list string) :=
  match vs with
  | [] => Ok []
  | v :: vs' =>
      let! o := bind_text v in
      let! l := bind_all vs' in
      Ok (match o with Some s => s :: l | None => l end)
  end.

Definition has_broker (r : ord_row F) : bool :=
  match ord_broker r with Some b => negb (bool_decide (b = "")%string) | None => false end.

Definition leg_row (channel : option string) (r : ord_row F) : order_row F :=
  mk_row (ord_broker r) (match ord_tp r with Some x => PFloat x | None => PNone end) (ord_command r) channel.

(** The orders of these traces that reached the broker. *)
Definition select_legs (ids : list (pyval F)) (channel : option string) (d : sdb F)
  : result exn (list (order_row F)) :=
  let! texts := bind_all ids in
  Ok (map (leg_row channel)
       (List.filter (fun r => existsb (fun t => bool_decide (t = ord_trace r)) texts && has_broker r) (s_orders d))).

Definition sibling_order_rows (broker_order_id : string) : store (list (order_row F)) :=
  if bool_decide (broker_order_id = "")%string then ret []
  else
    rows <- squery (fun d => Ok (map ord_trace
              (List.filter (fun r => bool_decide (ord_broker r = Some broker_order_id)) (s_orders d)))) ;;
    let trace := match rows with t :: _ => t | [] => ""%string end in
    if bool_decide (trace = "")%string then ret []
    else
      sig_rows <- squery (fun d => Ok (List.filter (like_trace trace) (s_signals d))) ;;
      found <- Done (find_signal trace sig_rows) ;;
      match found with
      | None | Some ([], _) => ret []
      | Some (ids, channel) => squery (select_legs ids channel)
      end.

Definition sibling_broker_order_ids (broker_order_id : string) : store (list string) :=
  rows <- sibling_order_rows broker_order_id ;;
  ret (List.filter (fun b => negb (bool_decide (b = "")%string) && negb (bool_decide (b = broker_order_id)))
         (omap w_order_id rows)).

(** ** Settings *)

Definition read_meta (key : string) : store (list (option string)) :=
  squery (fun d => Ok (map snd (List.filter (same_key key) (s_meta d)))).

Definition setting (rows : list (option string)) : string :=
  match rows with v :: _ => default ""%string v | [] => ""%string end.

Definition in_words (w : string) (ws : list string) : bool := existsb (fun x => bool_decide (x = w)) ws.

Definition dry_run_of (rows : list (option string)) (dflt : bool) : bool :=
  match rows with
  | [] => dflt
  | _ =>
      let val := lower (strip (setting rows)) in
      if in_words val ["1"; "true"; "yes"; "on"]%string then true
      else if in_words val ["0"; "false"; "no"; "off"]%string then false
      else dflt
  end.

Definition get_dry_run (dflt : bool) : store bool :=
  rows <- read_meta "dry_run" ;; ret (dry_run_of rows dflt).

Record dry_run_meta := mk_dry { dry_run : bool; dry_override : bool; dry_updated : option string }.

Definition get_dry_run_meta (dflt : bool) : store dry_run_meta :=
  rows <- read_meta "dry_run" ;;
  ts_rows <- read_meta "dry_run_updated_ts" ;;
  v <- get_dry_run dflt ;;
  ret (mk_dry v (match rows with [] => false | _ => true end)
         (match ts_rows with ts :: _ => ts | [] => None end)).

Definition set_dry_run (enabled : bool) : store unit :=
  swrite (on_meta (fun m => meta_put "dry_run_updated_ts" now
                              (meta_put "dry_run" (if enabled then "1" else "0") m))).

(** [{str(k).strip().upper(): str(v).strip() for k, v in items if ...}]. *)
Definition clean_item (d : pydict F) (kv : string * string) : pydict F :=
  let k := upper (strip kv.1) in
  let v := strip kv.2 in
  if bool_decide (strip kv.1 = "")%string || bool_decide (v = "")%string then d else dict_set d k (PStr v).

Definition clean (items : list (string * string)) : pydict F := fold_left clean_item items [].

Definition get_symbol_map : store (pydict F) :=
  rows <- read_meta "symbol_map" ;;
  ret (match rows with
       | [] => []
       | _ =>
           let text := setting rows in
           match loads (if bool_decide (text = "")%string then "{}" else text) with
           | Some (PDict d) => clean (map (fun kv => (kv.1, match kv.2 with PStr s => s | v => py_str v end)) d)
           | _ => []
           end
       end).

(** [sort_keys=True]: by code points, which is the order of the bytes. *)
Fixpoint insert_item (kv : string * pyval F) (d : pydict F) : pydict F :=
  match d with
  | [] => [kv]
  | kv' :: d' => if String.ltb kv.1 kv'.1 then kv :: d else kv' :: insert_item kv d'
  end.

Definition sort_items (d : pydict F) : pydict F := fold_right insert_item [] d.

Definition set_symbol_map (mapping : list (string * string)) : store unit :=
  swrite (on_meta (fun m => meta_put "symbol_map_updated_ts" now
                              (meta_put "symbol_map" (dumps float_repr (PDict (sort_items (clean mapping)))) m))).

End Store.

(** ** Connections *)

Section Connections.
Context {F : Type} {A : Arith F} (source_chats now : string).

Abbreviation store X := (prog (sdb F) exn X).
Abbreviation conn := (get_conn source_chats now).

(** Everything but the meta and channels tables. *)
Definition same_book (d d' : sdb F) : Prop :=
  s_signals d' = s_signals d /\ s_orders d' = s_orders d /\ s_closed d' = s_closed d /\ s_equity d' = s_equity d.

(** Nor any setting other than the schema version. *)
Definition same_settings (d d' : sdb F) : Prop :=
  same_book d d' /\ forall k, k <> "schema_version"%string ->
    List.filter (same_key k) (s_meta d') = List.filter (same_key k) (s_meta d).

Lemma same_settings_refl : reflexive _ same_settings.
Proof. by split. Qed.
Lemma same_settings_trans : transitive _ same_settings.
Proof.
  intros d1 d2 d3 [(A1 & A2 & A3 & A4) H1] [(B1 & B2 & B3 & B4) H2]. split; [split_and!; congruence|].
  intros k Hk. by rewrite H2, H1.
Qed.

Lemma filter_upsert {R} (p same : R -> bool) merge new (l : list R) :
  p new = false -> (forall r, same r = true -> p r = false /\ p (merge r) = false) ->
  List.filter p (upsert same merge new l) = List.filter p l.
Proof.
  intros Hn Hs. unfold upsert. destruct (existsb same l).
  - induction l as [|r l IH]; [done|]. simpl. destruct (same r) eqn:E.
    + destruct (Hs r E) as [-> ->]. done.
    + destruct (p r); by rewrite IH.
  - rewrite List.filter_app. simpl. by rewrite Hn, app_nil_r.
Qed.

Lemma filter_meta_put k k' v m : k' <> k -> List.filter (same_key k') (meta_put k v m) = List.filter (same_key k') m.
Proof.
  intros H. apply filter_upsert; unfold same_key.
  - by rewrite bool_decide_false.
  - intros [k2 v2] E. apply bool_decide_eq_true in E. simpl in *. subst k2. by rewrite !bool_decide_false.
Qed.

Lemma set_version_settings v d : same_settings d (set_version v d).
Proof. split; [done|]. intros k Hk. by apply filter_meta_put. Qed.

Lemma steps_in_stmt_r {X} R e (f : sdb F -> result exn X * sdb F) :
  (forall d, R d (f d).2) -> steps_in R (stmt_r e f).
Proof. intros H. by repeat split. Qed.

Lemma steps_exec R (f : sdb F -> sdb F) : (forall d, R d (f d)) -> steps_in R (exec StoreError f).
Proof. intros H. by repeat split. Qed.

Lemma seed_channels_steps R rows : reflexive (sdb F) R -> steps_in R (_migrate_v2_seed_channels rows).
Proof.
  intros HR. induction rows as [|r rows IH]; [done|]. cbn [_migrate_v2_seed_channels].
  apply steps_in_bind; [by repeat split|]. intros []; [|done]. apply steps_in_bind; [done|]. done.
Qed.

Lemma insert_version_settings d :
  same_settings d (on_meta (insert_or_ignore (same_key "schema_version") ("schema_version"%string, Some "1"%string)) d).
Proof.
  split; [done|]. intros k Hk. simpl. unfold insert_or_ignore. destruct (existsb _ _); [done|].
  rewrite List.filter_app. simpl. unfold same_key at 2. simpl. rewrite bool_decide_false by done. by rewrite app_nil_r.
Qed.

Lemma ensure_schema_steps : steps_in same_settings (_ensure_schema source_chats now).
Proof.
  unfold _ensure_schema, migrate_v4.
  repeat first
    [ apply seed_channels_steps, same_settings_refl
    | apply steps_in_bind; [|intros]
    | apply steps_in_try; [|intros]
    | apply steps_in_query; apply same_settings_refl
    | apply steps_in_ret
    | match goal with |- steps_in _ (if ?x then _ else _) => destruct x end ].
  - by apply steps_exec.
  - apply steps_exec, insert_version_settings.
  - apply steps_exec. intros d. match goal with |- same_settings _ (set_version _ ?x) => exact (set_version_settings "2" x) end.
  - apply steps_exec, set_version_settings.
  - apply steps_in_stmt_r. intros d. unfold add_partial. by destruct (s_cols d) as [[[] ?]|].
  - apply steps_in_stmt_r. intros d. unfold add_breakeven. by destruct (s_cols d) as [[? []]|].
  - apply steps_exec, set_version_settings.
Qed.

Lemma get_conn_steps : steps_in same_settings conn.
Proof.
  unfold get_conn. apply steps_in_try; [|done].
  apply steps_in_bind; [apply steps_in_query, same_settings_refl|intros].
  by apply steps_in_bind; [apply ensure_schema_steps|].
Qed.

Lemma squery_steps {X} (f : sdb F -> result exn (list X)) : steps_in same_settings (squery source_chats now f).
Proof.
  apply steps_in_try; [|done]. apply steps_in_bind; [apply get_conn_steps|]. intros []; [|done].
  apply steps_in_stmt_r. intros d. apply same_settings_refl.
Qed.

Lemma swrite_steps (R : sdb F -> sdb F -> Prop) f :
  (forall d d', same_settings d d' -> R d d') -> (forall d, R d (f d)) -> steps_in R (swrite source_chats now f).
Proof.
  intros HR Hf. apply steps_in_try; [|done].
  apply steps_in_bind; [by eapply steps_in_mono; [|apply get_conn_steps]|]. intros []; [|done]. by apply steps_exec.
Qed.

(** Opening a connection never raises and touches only the schema. *)
Lemma get_conn_run fs d : exists b d' fs', run conn fs d = (Ok b, d', fs') /\ same_settings d d'.
Proof.
  pose proof (run_steps_in _ conn fs d same_settings_refl same_settings_trans get_conn_steps) as HS. unfold run_state in HS.
  assert (exists b, (run conn fs d).1.1 = Ok b) as [b Hb].
  { clear HS. unfold get_conn. rewrite run_try. destruct (run _ fs d) as [[[b|e] d'] fs']; [by exists b|by exists false]. }
  destruct (run conn fs d) as [[r d'] fs']. simpl in *. subst r. by exists b, d', fs'.
Qed.

(** A query returns what the table holds, or nothing. *)
Lemma squery_run {X} (f : sdb F -> result exn (list X)) fs d :
  exists rows d' fs', run (squery source_chats now f) fs d = (Ok rows, d', fs') /\ same_settings d d' /\
    (rows = [] \/ f d' = Ok rows).
Proof.
  unfold squery. rewrite run_try, run_bind. destruct (get_conn_run fs d) as (b & d' & fs' & -> & HS).
  destruct b; [|by eexists [], d', fs'; split_and!; [|done|left]].
  destruct fs' as [|[] fs']; cbn [stmt_r run].
  - destruct (f d') as [rows|] eqn:E; cbn [run fst snd]; rewrite ?E; cbn; eexists _, d', _; split_and!; try done; [by right|by left].
  - eexists [], d', _. split_and!; [done|done|by left].
  - destruct (f d') as [rows|] eqn:E; cbn [run fst snd]; rewrite ?E; cbn; eexists _, d', _; split_and!; try done; [by right|by left].
Qed.

(** A store that needs no migration. *)
Record ready (d : sdb F) : Prop := {
  ready_version : 4 <= stored_version d;
  ready_row : existsb (same_key "schema_version") (s_meta d) = true;
  ready_cols : s_cols d = Some (true, true) }.

Lemma get_conn_current (d : sdb F) cols : 4 <= stored_version d ->
  existsb (same_key "schema_version") (s_meta d) = true -> s_cols d = Some cols -> run conn [] d = (Ok true, d, []).
Proof.
  intros H1 H2 H3.
  assert (on_cols (fun c => Some (default (true, true) c)) d = d) as E1 by (destruct d; cbn in *; by subst).
  assert (on_meta (insert_or_ignore (same_key "schema_version") ("schema_version"%string, Some "1"%string)) d = d) as E2
    by (unfold on_meta, insert_or_ignore; rewrite H2; by destruct d).
  unfold get_conn, _ensure_schema. cbn [query exec stmt bind try_ run ret fst snd]. rewrite E1, E2.
  replace (stored_version d <? 2) with false by (symmetry; apply Z.ltb_ge; lia).
  replace (stored_version d <? 3) with false by (symmetry; apply Z.ltb_ge; lia).
  replace (stored_version d <? 4) with false by (symmetry; apply Z.ltb_ge; lia). done.
Qed.

Lemma get_conn_ready (d : sdb F) : ready d -> run conn [] d = (Ok true, d, []).
Proof. intros [H1 H2 H3]. by apply (get_conn_current d (true, true)). Qed.

Lemma squery_ready {X} (f : sdb F -> result exn (list X)) d :
  ready d -> run (squery source_chats now f) [] d = (Ok (match f d with Ok rows => rows | Err _ => [] end), d, []).
Proof.
  intros H. unfold squery. rewrite run_try, run_bind, get_conn_ready by done. cbn [stmt_r run fst snd].
  by destruct (f d).
Qed.

Lemma swrite_ready f d : ready d -> run (swrite source_chats now f) [] d = (Ok tt, f d, []).
Proof. intros H. unfold swrite. by rewrite run_try, run_bind, get_conn_ready. Qed.

End Connections.

(** ** The legs of a signal *)

Section Legs.
Context {F : Type} {A : Arith F} (float_repr : F -> bytes) (source_chats now : string).

Abbreviation legs := (sibling_order_rows float_repr source_chats now).

(** Some signal's array holds the traces of both orders. *)
Definition share_signal (d : sdb F) (o o' : ord_row F) (channel : option string) : Prop :=
  exists g ids texts, g ∈ s_signals d /\ sig_channel g = channel /\
    (let text := default ""%string (sig_traces g) in
     loads (if bool_decide (text = "")%string then "[]" else text) = Some ids) /\
    py_in (ord_trace o) ids = Ok true /\ bind_all float_repr (py_tuple ids) = Ok texts /\ ord_trace o' ∈ texts.

Lemma find_signal_inv trace (rows : list (sig_row F)) ids channel :
  find_signal trace rows = Ok (Some (ids, channel)) ->
  exists g v, g ∈ rows /\ sig_channel g = channel /\
    (let text := default ""%string (sig_traces g) in
     loads (if bool_decide (text = "")%string then "[]" else text) = Some v) /\
    py_in trace v = Ok true /\ ids = py_tuple v.
Proof.
  induction rows as [|g rows IH]; [done|]. cbn [find_signal]. cbn zeta.
  destruct (loads _) as [v|] eqn:E.
  - intros H. apply rbind_Ok in H as ([] & Hin & H).
    + injection H as <- <-. exists g, v. split_and!; try done. left.
    + destruct (IH H) as (g' & v' & H1 & H2). exists g', v'. split; [by right|done].
  - intros H. destruct (IH H) as (g' & v' & H1 & H2). exists g', v'. split; [by right|done].
Qed.

Lemma filter_elem {X} (p : X -> bool) l x : x ∈ List.filter p l -> x ∈ l /\ p x = true.
Proof. intros H. apply list_elem_of_In, List.filter_In in H as [H1 H2]. by rewrite list_elem_of_In. Qed.

Lemma select_legs_inv ids channel d rows r :
  select_legs float_repr ids channel d = Ok rows -> r ∈ rows ->
  exists texts o, bind_all float_repr ids = Ok texts /\ o ∈ s_orders d /\ ord_trace o ∈ texts /\
    has_broker o = true /\ r = leg_row channel o.
Proof.
  unfold select_legs. intros H Hr. apply rbind_Ok in H as (texts & Ht & H). injection H as <-.
  apply list_elem_of_fmap in Hr as (o & -> & Ho). apply filter_elem in Ho as [Ho1 Ho2]. bool_hyps.
  exists texts, o. split_and!; try done. apply existsb_exists in H as (t & Hin & E).
  apply bool_decide_eq_true in E as ->. by apply list_elem_of_In.
Qed.

(** What the walk returns are legs of the signal asked about. *)
Lemma legs_share b faults d rows r :
  run_result (legs b) faults d = Ok rows -> r ∈ rows ->
  exists o o', o ∈ s_orders d /\ ord_broker o = Some b /\ o' ∈ s_orders d /\ has_broker o' = true /\
    share_signal d o o' (w_channel r) /\ r = leg_row (w_channel r) o'.
Proof.
  unfold sibling_order_rows, run_result. destruct (bool_decide (b = "")%string).
  { intros [= <-] H. by apply not_elem_of_nil in H. }
  rewrite run_bind. match goal with |- context [squery _ _ ?f] => destruct (squery_run source_chats now f faults d)
    as (rows1 & d1 & fs1 & -> & [(A1 & A2 & _ & _) _] & H1) end. cbn zeta.
  destruct rows1 as [|t rows1]; [cbn; intros [= <-] H; by apply not_elem_of_nil in H|].
  destruct H1 as [?|H1]; [done|]. injection H1 as H1.
  assert (exists o, o ∈ s_orders d /\ ord_broker o = Some b /\ ord_trace o = t) as (o & Ho & Hb & Et).
  { assert (t ∈ map ord_trace (List.filter (fun r0 => bool_decide (ord_broker r0 = Some b)) (s_orders d1))) as Hin
      by (rewrite H1; left).
    apply list_elem_of_fmap in Hin as (o & -> & Ho). apply filter_elem in Ho as [Ho Hb].
    apply bool_decide_eq_true in Hb. exists o. by rewrite <-A2. }
  destruct (bool_decide (t = "")%string); [cbn; intros [= <-] H; by apply not_elem_of_nil in H|].
  rewrite run_bind. match goal with |- context [squery _ _ ?f] => destruct (squery_run source_chats now f fs1 d1)
    as (rows2 & d2 & fs2 & -> & [(B1 & B2 & _ & _) _] & H2) end.
  rewrite run_bind. cbn [run]. destruct (find_signal t rows2) as [[[ids ch]|]|] eqn:Ef; try done;
    [|cbn; intros [= <-] H; by apply not_elem_of_nil in H].
  apply find_signal_inv in Ef as (g & v & Hg & Hch & Hl & Hin & Hids).
  assert (g ∈ s_signals d) as Hgd.
  { destruct H2 as [->|H2]; [by apply not_elem_of_nil in Hg|]. injection H2 as <-.
    apply filter_elem in Hg as [Hg _]. congruence. }
  destruct ids as [|i ids]; [cbn; intros [= <-] H; by apply not_elem_of_nil in H|].
  match goal with |- context [squery _ _ ?f] => destruct (squery_run source_chats now f fs2 d2)
    as (rows3 & d3 & fs3 & -> & [(C1 & C2 & _ & _) _] & H3) end. cbn [fst]. intros [= <-] Hr.
  destruct H3 as [->|H3]; [by apply not_elem_of_nil in Hr|].
  destruct (select_legs_inv _ _ _ _ _ H3 Hr) as (texts & o' & Ht & Ho' & Htr & Hbr & ->).
  exists o, o'. cbn [w_channel leg_row]. split_and!; try done; [congruence|].
  exists g, v, texts. rewrite <-Hids, Et. split_and!; try done. 
Qed.

(** ** Resolution in a well-kept store *)

(** Printable ASCII without quote or backslash: what a trace id looks like. *)
Definition plain_byte (b : byte) : bool :=
  ((32 <=? byte_val b) && (byte_val b <=? 126) && negb (byte_val b =? 34) && negb (byte_val b =? 92))%N.
Definition plain (t : string) : bool := forallb plain_byte (encode_utf8 t).

Lemma plain_points f l : forallb plain_byte l = true -> (length l <= f)%nat ->
  concat (map escape_point (points_loop f l)) = l.
Proof.
  revert l. induction f as [|f IH]; intros [|b l] H Hf; try done; [simpl in Hf; lia|].
  simpl in H. bool_hyps. unfold plain_byte in H. bool_hyps.
  repeat match goal with
  | H : (_ <=? _)%N = true |- _ => apply N.leb_le in H
  | H : (_ =? _)%N = false |- _ => apply N.eqb_neq in H end.
  cbn [points_loop]. unfold extra_bytes, lead_bits. replace (byte_val b <? 128)%N with true by (symmetry; apply N.ltb_lt; lia).
  cbn [take drop fold_left map concat]. rewrite drop_0, take_0. cbn [fold_left].
  rewrite IH by (done || (simpl in Hf; lia)).
  assert (escape_point (byte_val b) = [b]) as ->; [|done].
  unfold escape_point, short_escape.
  repeat match goal with |- context [(?a =? ?c)%N] => replace (a =? c)%N with false by (symmetry; apply N.eqb_neq; lia) end.
  replace (32 <=? byte_val b)%N with true by (symmetry; apply N.leb_le; lia).
  replace (byte_val b <=? 126)%N with true by (symmetry; apply N.leb_le; lia). cbn [andb]. by rewrite byte_of_val.
Qed.

Lemma dump_str_plain t : plain t = true -> dump_str t = x22 :: encode_utf8 t ++ [x22].
Proof. intros H. unfold dump_str, points. by rewrite plain_points. Qed.

Lemma byte_eqb_refl b : Byte.eqb b b = true.
Proof. by apply Byte.byte_dec_lb. Qed.

Lemma plain_start b : plain_byte b = true -> is_start b = true.
Proof.
  unfold plain_byte, is_start, is_cont, in_range. intros H. bool_hyps. apply N.leb_le in H, H2.
  apply negb_true_iff, andb_false_iff. left. apply N.leb_gt. lia.
Qed.

(** Text matches itself as a pattern, wildcards included. *)
Lemma like_self t : forall p s, forallb plain_byte t = true -> like p s = true ->
  (exists b s', s = b :: s' /\ is_start b = true) -> like (t ++ p) (t ++ s) = true.
Proof.
  induction t as [|b t IH]; intros p s Ht Hl Hs; [done|]. simpl in Ht. bool_hyps.
  specialize (IH p s H0 Hl Hs). cbn [app like]. destruct (Byte.eqb b "%").
  - cbn [app]. apply orb_true_iff. right. destruct (t ++ s) eqn:E; by rewrite IH.
  - assert (skip_conts (t ++ s) = t ++ s) as E.
    { destruct Hs as (c & s' & -> & Hc). destruct t as [|c' t]; simpl; [by rewrite Hc|].
      simpl in H0. bool_hyps. by rewrite plain_start. }
    destruct (Byte.eqb b "_").
    + rewrite E, IH. by rewrite plain_start.
    + by rewrite N.eqb_refl, IH.
Qed.

Lemma like_percent p s :
  like ("%"%byte :: p) s = like p s || match s with [] => false | _ :: s' => like ("%"%byte :: p) s' end.
Proof. by destruct s. Qed.

Lemma like_any p s pre : like p s = true -> like ("%"%byte :: p) (pre ++ s) = true.
Proof.
  intros H. induction pre as [|b pre IH]; rewrite like_percent; cbn [app]; [by rewrite H|].
  by rewrite IH, orb_true_r.
Qed.

Lemma like_lit c p s : Byte.eqb c "%" = false -> Byte.eqb c "_" = false -> like (c :: p) (c :: s) = like p s.
Proof. intros H1 H2. cbn [like]. rewrite H1, H2. by rewrite N.eqb_refl. Qed.

Lemma like_trace_found t pre post : plain t = true ->
  like (trace_pattern t) (pre ++ dump_str t ++ post) = true.
Proof.
  intros Ht. unfold trace_pattern. rewrite dump_str_plain by done. apply like_any.
  cbn [app]. rewrite like_lit by done. rewrite <-app_assoc. apply like_self; [done| |by eexists _, _].
  cbn [app]. rewrite like_lit by done. rewrite <-(app_nil_r post). by apply like_any.
Qed.

Lemma sep_by_elem x l sep : x ∈ l -> exists pre post, sep_by sep l = pre ++ x ++ post.
Proof.
  induction l as [|y l IH]; intros H; [by apply not_elem_of_nil in H|].
  destruct l as [|z l].
  - apply list_elem_of_singleton in H as ->. exists [], []. by rewrite app_nil_r.
  - apply elem_of_cons in H as [<-|H]; [by eexists [], _|]. destruct (IH H) as (pre & post & E).
    exists (y ++ sep ++ pre), post. cbn [sep_by] in *. rewrite E. by rewrite !app_assoc.
Qed.

(** The row holds the array of these ids, as [append_signal_trace] writes it. *)
Definition lists_traces (g : sig_row F) (ids : list string) : Prop :=
  sig_traces g = Some (dumps float_repr (PList (map PStr ids))) /\ Forall (fun t => wf_str t = true) ids.

Lemma texts_ok (ids : list string) : Forall (fun t => wf_str t = true) ids -> json_ok float_repr (PList (map PStr ids)).
Proof. intros H. apply json_ok_list. induction H; simpl; by constructor. Qed.

Lemma dumps_not_empty (v : list (pyval F)) : bool_decide (dumps float_repr (PList v) = ""%string) = false.
Proof. by apply bool_decide_false. Qed.

Lemma lists_traces_loads g ids : lists_traces g ids ->
  (let text := default ""%string (sig_traces g) in
   loads (if bool_decide (text = "")%string then "[]" else text) = Some (PList (map PStr ids) : pyval F)).
Proof. intros [-> H]. cbn [from_option id]. cbn zeta. rewrite dumps_not_empty. by apply loads_dumps, texts_ok. Qed.

Lemma is_text_elem t (ids : list string) : existsb (is_text t) (map PStr ids : list (pyval F)) = bool_decide (t ∈ ids).
Proof.
  apply eq_true_iff_eq. rewrite existsb_exists, bool_decide_eq_true. split.
  - intros (v & Hv & E). apply in_map_iff in Hv as (x & <- & Hx). simpl in E. apply bool_decide_eq_true in E as ->.
    by apply list_elem_of_In.
  - intros H. exists (PStr t). split; [by apply in_map, list_elem_of_In|]. by apply bool_decide_true.
Qed.

Lemma lists_traces_like g ids t : lists_traces g ids -> t ∈ ids -> plain t = true -> like_trace t g = true.
Proof.
  intros [E0 _] Hin Hp. unfold like_trace, dumps. rewrite E0. unfold dumps. rewrite encode_string_of. cbn [dump].
  destruct (sep_by_elem (dump_str t) (map (dump float_repr) (map PStr ids)) comma_space) as (pre & post & E).
  { rewrite map_map. cbn [dump]. by apply list_elem_of_fmap_2. }
  rewrite E. change ("["%byte :: (pre ++ dump_str t ++ post) ++ ["]"%byte]) with
    (("["%byte :: pre ++ dump_str t ++ post) ++ ["]"%byte]).
  replace (("["%byte :: pre ++ dump_str t ++ post) ++ ["]"%byte]) with
    (("["%byte :: pre) ++ dump_str t ++ (post ++ ["]"%byte])) by (cbn [app]; by rewrite <-!app_assoc).
  by apply like_trace_found.
Qed.

Lemma find_signal_unique t g ids (rows : list (sig_row F)) : plain t = true -> g ∈ rows -> lists_traces g ids -> t ∈ ids ->
  (forall g', g' ∈ rows -> exists ids', lists_traces g' ids' /\ (t ∈ ids' -> g' = g)) ->
  find_signal t (List.filter (like_trace t) rows) = Ok (Some (map PStr ids, sig_channel g)).
Proof.
  intros Hp Hg Hl Hin Hall. induction rows as [|g' rows IH]; [by apply not_elem_of_nil in Hg|].
  destruct (Hall g') as (ids' & Hl' & Hu); [left|].
  assert (g' = g \/ ((t ∈ ids' -> False) /\ g ∈ rows)) as Hcase.
  { destruct (decide (t ∈ ids')) as [H|H]; [left; by apply Hu|]. right. split; [done|].
    apply elem_of_cons in Hg as [->|Hg]; [|done]. exfalso. destruct Hl as [E1 W1], Hl' as [E2 W2].
    assert (loads (dumps float_repr (PList (map PStr ids))) = loads (dumps float_repr (PList (map PStr ids')))) as E3
      by congruence.
    rewrite !loads_dumps in E3 by (by apply texts_ok).
    assert (existsb (is_text t) (map PStr ids) = existsb (is_text t) (map PStr ids')) as E4
      by (injection E3 as E3; by rewrite E3).
    rewrite !is_text_elem, bool_decide_true, bool_decide_false in E4 by done. done. }
  cbn [List.filter]. destruct Hcase as [->|[Hno Hg']].
  - rewrite (lists_traces_like g ids t) by done. cbn [find_signal]. pose proof (lists_traces_loads g ids Hl) as HL.
    cbn zeta in HL. rewrite HL. cbn [py_in rbind]. rewrite is_text_elem, bool_decide_true by done. done.
  - specialize (IH Hg'). assert (find_signal t (List.filter (like_trace t) rows) = Ok (Some (map PStr ids, sig_channel g))) as IH'.
    { apply IH. intros g2 H2. apply Hall. by right. }
    destruct (like_trace t g'); [|done]. cbn [find_signal]. pose proof (lists_traces_loads g' ids' Hl') as HL.
    cbn zeta in HL. rewrite HL. cbn [py_in rbind]. by rewrite is_text_elem, bool_decide_false.
Qed.

Lemma bind_all_texts ids : bind_all float_repr (map PStr ids) = Ok ids.
Proof. induction ids as [|t ids IH]; [done|]. cbn [map bind_all bind_text rbind]. by rewrite IH. Qed.

Lemma find_filter {X} (p : X -> bool) l x : List.find p l = Some x -> exists l', List.filter p l = x :: l'.
Proof.
  induction l as [|y l IH]; [done|]. simpl. destruct (p y); [intros [= ->]; by eexists|done].
Qed.

(** The orders of these traces that reached the broker. *)
Definition legs_of (ids : list string) (d : sdb F) : list (ord_row F) :=
  List.filter (fun r => existsb (fun t => bool_decide (t = ord_trace r)) ids && has_broker r) (s_orders d).

Lemma legs_resolved b d o g ids : ready d -> b <> ""%string ->
  List.find (fun r => bool_decide (ord_broker r = Some b)) (s_orders d) = Some o ->
  plain (ord_trace o) = true -> ord_trace o <> ""%string -> g ∈ s_signals d -> lists_traces g ids -> ord_trace o ∈ ids ->
  (forall g', g' ∈ s_signals d -> exists ids', lists_traces g' ids' /\ (ord_trace o ∈ ids' -> g' = g)) ->
  run (legs b) [] d = (Ok (map (leg_row (sig_channel g)) (legs_of ids d)), d, []).
Proof.
  intros Hr Hb Ho Hp Hne Hg Hl Hin Hall. unfold sibling_order_rows. rewrite bool_decide_false by done.
  rewrite run_bind, squery_ready by done. cbn [fst snd]. destruct (find_filter _ _ _ Ho) as (l' & ->). cbn [map]. cbn zeta.
  rewrite bool_decide_false by done. rewrite run_bind, squery_ready by done. rewrite run_bind. cbn [run].
  rewrite (find_signal_unique _ g ids) by done.
  destruct ids as [|i ids]; [by apply not_elem_of_nil in Hin|]. cbn [map].
  rewrite squery_ready by done. unfold select_legs. change (PStr i :: map PStr ids) with (map (@PStr F) (i :: ids)).
  by rewrite bind_all_texts.
Qed.

(** A ticket resolves to all legs of its signal.  In an up-to-date store whose
    signals hold printed arrays of trace ids, and whose array with the order's
    trace is one signal's only, the store walk returns exactly the orders of that
    signal that reached the broker, with the signal's channel; and the sibling
    tickets are exactly those orders' tickets other than the one asked about. *)
Theorem siblings_resolved b d o g ids
  (Hr : ready d) (Hb : b <> ""%string)
  (Ho : List.find (fun r => bool_decide (ord_broker r = Some b)) (s_orders d) = Some o)
  (Hp : plain (ord_trace o) = true) (Hne : ord_trace o <> ""%string)
  (Hg : g ∈ s_signals d) (Hl : lists_traces g ids) (Hin : ord_trace o ∈ ids)
  (Hall : forall g', g' ∈ s_signals d -> exists ids', lists_traces g' ids' /\ (ord_trace o ∈ ids' -> g' = g)) :
  run_result (legs b) [] d = Ok (map (leg_row (sig_channel g)) (legs_of ids d)) /\
  exists tickets, run_result (sibling_broker_order_ids float_repr source_chats now b) [] d = Ok tickets /\
    forall x, x ∈ tickets <-> exists o', o' ∈ s_orders d /\ ord_trace o' ∈ ids /\ ord_broker o' = Some x /\
                                   x <> ""%string /\ x <> b.
Proof.
  pose proof (legs_resolved b d o g ids Hr Hb Ho Hp Hne Hg Hl Hin Hall) as HR.
  unfold run_result, sibling_broker_order_ids. rewrite run_bind, HR. cbn [run ret fst]. split; [done|].
  eexists. split; [done|]. intros x. rewrite list_elem_of_In, List.filter_In, <-list_elem_of_In, list_elem_of_omap.
  split.
  - intros [(r & Hr1 & Hx) Hx2]. apply list_elem_of_fmap in Hr1 as (o' & -> & Ho'). cbn [w_order_id leg_row] in Hx.
    apply filter_elem in Ho' as [Ho1 Ho2]. bool_hyps. exists o'. apply existsb_exists in H1 as (t & Ht & E).
    apply bool_decide_eq_true in E as ->. apply list_elem_of_In in Ht. apply bool_decide_eq_false in H, H0. done.
  - intros (o' & Ho1 & Ho2 & Ho3 & Hx1 & Hx2). split; [|by rewrite !bool_decide_false].
    exists (leg_row (sig_channel g) o'). split; [|done]. apply list_elem_of_fmap_2. apply list_elem_of_In, List.filter_In.
    split; [by apply list_elem_of_In|]. apply andb_true_iff. split.
    + apply existsb_exists. exists (ord_trace o'). split; [by apply list_elem_of_In|by apply bool_decide_true].
    + unfold has_broker. rewrite Ho3. by rewrite bool_decide_false.
Qed.

End Legs.

(** ** Recording *)

Section Recording.
Context {F : Type} {A : Arith F} (float_repr : F -> bytes) (source_chats now : string).

Lemma trace_list_of g ids : lists_traces float_repr g ids -> trace_list (sig_traces g) = map (@PStr F) ids.
Proof. intros H. unfold trace_list. pose proof (lists_traces_loads float_repr g ids H) as HL. cbn zeta in HL. by rewrite HL. Qed.

Lemma add_trace_lists t g ids : wf_str t = true -> lists_traces float_repr g ids ->
  lists_traces float_repr (add_trace float_repr t g) (if bool_decide (t ∈ ids) then ids else ids ++ [t]).
Proof.
  intros Ht H. unfold add_trace. rewrite (trace_list_of g ids H), is_text_elem. destruct H as [_ Hw].
  destruct (bool_decide (t ∈ ids)); split; cbn [sig_traces]; try done.
  - by rewrite map_app.
  - apply Forall_app. by repeat constructor.
Qed.

(** Rewriting the rows a test selects. *)
Lemma map_if_elem {R} (same : R -> bool) (f : R -> R) l :
  (forall r, same r = true -> same (f r) = true) ->
  let l' := map (fun r => if same r then f r else r) l in
  (forall x, same x = false -> (x ∈ l' <-> x ∈ l)) /\ (forall r, r ∈ l -> same r = true -> f r ∈ l').
Proof.
  intros Hf. cbn zeta. split.
  - intros x Hx. rewrite list_elem_of_fmap. split.
    + intros (r & -> & Hr). destruct (same r) eqn:E; [rewrite Hf in Hx by done; done|done].
    + intros Hin. exists x. by rewrite Hx.
  - intros r Hr E. apply list_elem_of_fmap. exists r. by rewrite E.
Qed.

(** The row with the key is the merged or the new one; the others stay. *)
Lemma upsert_elem {R} (same : R -> bool) merge new l :
  same new = true -> (forall r, same r = true -> same (merge r) = true) ->
  (forall x, same x = false -> (x ∈ upsert same merge new l <-> x ∈ l)) /\
  exists r, r ∈ upsert same merge new l /\ same r = true /\
    ((exists r0, r0 ∈ l /\ same r0 = true /\ r = merge r0) \/
     ((forall r0, r0 ∈ l -> same r0 = false) /\ r = new)).
Proof.
  intros Hn Hm. unfold upsert. destruct (existsb same l) eqn:E.
  - destruct (map_if_elem same merge l Hm) as [H1 H2]. split; [done|].
    apply existsb_exists in E as (r0 & Hin & E). apply list_elem_of_In in Hin.
    exists (merge r0). split_and!; [by apply H2|by apply Hm|left; by exists r0].
  - split.
    + intros x Hx. rewrite elem_of_app, list_elem_of_singleton. split; [|by left]. intros [?| ->]; congruence.
    + exists new. split_and!; [apply elem_of_app; right; left|done|]. right. split; [|done].
      intros r0 Hin. destruct (same r0) eqn:E0; [|done]. exfalso.
      assert (existsb same l = true); [|congruence]. apply existsb_exists. exists r0. by rewrite <-list_elem_of_In.
Qed.

(** Trace bookkeeping.  In an up-to-date store, recording a message and then
    appending the trace of one of its orders leaves the message's row holding
    exactly the ids it held before, none for a new message, plus the new one
    once; every other signal row is untouched. *)
Theorem signal_trace_recorded chat msg channel outcome symbol side entry sl tp n raw t d
  (Hr : ready d) (Hw : wf_str t = true)
  (Hd : forall g, g ∈ s_signals d -> exists ids, lists_traces float_repr g ids) :
  let d1 := run_state (record_signal source_chats now chat msg channel outcome symbol side entry sl tp n raw) [] d in
  let d2 := run_state (append_signal_trace float_repr source_chats now chat msg t) [] d1 in
  (exists g ids, g ∈ s_signals d2 /\ same_signal chat msg g = true /\ sig_outcome g = outcome /\
     lists_traces float_repr g (if bool_decide (t ∈ ids) then ids else ids ++ [t]) /\
     ((exists g0, g0 ∈ s_signals d /\ same_signal chat msg g0 = true /\ lists_traces float_repr g0 ids) \/
      ((forall g0, g0 ∈ s_signals d -> same_signal chat msg g0 = false) /\ ids = []))) /\
  (forall g, same_signal chat msg g = false -> (g ∈ s_signals d2 <-> g ∈ s_signals d)).
Proof.
  cbn zeta. unfold run_state. unfold record_signal at 1 2. rewrite swrite_ready by done. cbn [fst snd].
  unfold append_signal_trace. rewrite swrite_ready by (by destruct Hr). cbn [fst snd on_signals s_signals].
  match goal with |- context [upsert _ ?m ?x _] => set (merge := m); set (new := x) end.
  assert (same_signal chat msg new = true) as Hnew by (unfold same_signal; simpl; by rewrite !Z.eqb_refl).
  assert (forall g, same_signal chat msg (merge g) = true) as Hmerge
    by (intros; unfold same_signal; simpl; by rewrite !Z.eqb_refl).
  destruct (upsert_elem (same_signal chat msg) merge new (s_signals d) Hnew ltac:(auto)) as [U1 (r & Hin & Hs & Hcase)].
  destruct (map_if_elem (same_signal chat msg) (add_trace float_repr t)
    (upsert (same_signal chat msg) merge new (s_signals d)) ltac:(auto)) as [M1 M2].
  split; [|intros g Hg; by rewrite M1, U1].
  destruct Hcase as [(g0 & Hg0 & E0 & ->)|[Hnone ->]].
  - destruct (Hd g0 Hg0) as (ids & Hl0). exists (add_trace float_repr t (merge g0)), ids. split_and!; try done.
    + by apply M2.
    + apply add_trace_lists; [done|]. by destruct Hl0.
    + left. by exists g0.
  - exists (add_trace float_repr t new), []. split_and!; try done.
    + by apply M2.
    + by apply add_trace_lists; [|split].
    + by right.
Qed.

(** Order upserts.  In an up-to-date store with one row per trace, recording an
    order leaves one row per trace; the order's row has every field the call
    supplies and keeps the earlier value of every field it leaves out; every
    other row is untouched. *)
Theorem record_order_spec (new : ord_row F) d
  (Hr : ready d) (Hu : NoDup (map ord_trace (s_orders d))) :
  let d' := run_state (record_order source_chats now new) [] d in
  NoDup (map ord_trace (s_orders d')) /\
  (forall o, ord_trace o <> ord_trace new -> (o ∈ s_orders d' <-> o ∈ s_orders d)) /\
  exists o, o ∈ s_orders d' /\ ord_trace o = ord_trace new /\
    ((exists old, old ∈ s_orders d /\ ord_trace old = ord_trace new /\ o = merge_order new old) \/
     ((forall old, old ∈ s_orders d -> ord_trace old <> ord_trace new) /\ o = new)).
Proof.
  cbn zeta. unfold run_state, record_order. rewrite swrite_ready by done. cbn [fst snd on_orders s_orders].
  assert (forall r : ord_row F, same_trace (ord_trace new) r = true <-> ord_trace r = ord_trace new) as HT
    by (intros; apply bool_decide_eq_true).
  assert (forall r : ord_row F, same_trace (ord_trace new) r = false <-> ord_trace r <> ord_trace new) as HF
    by (intros; apply bool_decide_eq_false).
  destruct (upsert_elem (same_trace (ord_trace new)) (merge_order new) new (s_orders d)) as [U1 (r & Hin & Hs & Hcase)];
    [by apply HT|intros r; by rewrite !HT|].
  split_and!.
  - unfold upsert. destruct (existsb _ _) eqn:E.
    + rewrite map_map. erewrite map_ext; [exact Hu|]. intros r0. by destruct (same_trace (ord_trace new) r0).
    + rewrite map_app. apply list.NoDup_app. split_and!; [done| |apply NoDup_singleton].
      intros x Hx Hx2. apply list_elem_of_singleton in Hx2 as ->. apply list_elem_of_fmap in Hx as (r0 & E0 & Hr0).
      assert (existsb (same_trace (ord_trace new)) (s_orders d) = true); [|congruence].
      apply existsb_exists. exists r0. rewrite <-list_elem_of_In. by rewrite HT.
  - intros o Ho. apply U1. by apply HF.
  - exists r. apply HT in Hs. split_and!; try done. destruct Hcase as [(r0 & H1 & H2 & ->)|[H1 ->]].
    + left. exists r0. by rewrite <-HT.
    + right. split; [|done]. intros old Ho. by apply HF, H1.
Qed.

End Recording.

(** ** Settings *)

Section Settings.
Context {F : Type} {A : Arith F} (float_repr : F -> bytes) (py_str : pyval F -> string).
Context (source_chats now : string).

Lemma read_meta_run key fs d : key <> "schema_version"%string ->
  exists rows d' fs', run (@read_meta F source_chats now key) fs d = (Ok rows, d', fs') /\
    (rows = [] \/ rows = map snd (List.filter (same_key key) (s_meta d))).
Proof.
  intros Hk. unfold read_meta. match goal with |- context [squery _ _ ?f] => destruct (squery_run source_chats now f fs d)
    as (rows & d' & fs' & -> & [_ HS] & H) end.
  exists rows, d', fs'. split; [done|]. destruct H as [->|H]; [by left|]. right. injection H as <-. by rewrite HS.
Qed.

Lemma in_words_elem w ws : in_words w ws = true -> w ∈ ws.
Proof.
  intros H. apply existsb_exists in H as (x & Hin & E). apply bool_decide_eq_true in E as ->. by apply list_elem_of_In.
Qed.

(** A key read back right after it was put. *)
Lemma filter_meta_put_eq k v m : exists l, map snd (List.filter (same_key k) (meta_put k v m)) = Some v :: l.
Proof.
  unfold meta_put, upsert. destruct (existsb (same_key k) m) eqn:E.
  - apply existsb_exists in E as (kv & Hin & E). induction m as [|kv' m IH]; [done|]. simpl.
    destruct (same_key k kv') eqn:E'.
    + unfold same_key at 1. simpl. rewrite bool_decide_true by done. by eexists.
    + rewrite E'. apply IH. by destruct Hin as [->|]; [congruence|].
  - rewrite List.filter_app. simpl. unfold same_key at 2. simpl. rewrite bool_decide_true by done.
    assert (List.filter (same_key k) m = []) as ->; [|by eexists].
    induction m as [|kv m IH]; [done|]. simpl in *. bool_hyps. by rewrite H, IH.
Qed.

Lemma find_head {X} (p : X -> bool) l : List.find p l = head (List.filter p l).
Proof. induction l as [|x l IH]; [done|]. simpl. by destruct (p x). Qed.

Lemma existsb_head {X} (p : X -> bool) l : existsb p l = match List.filter p l with [] => false | _ => true end.
Proof. induction l as [|x l IH]; [done|]. simpl. by destruct (p x). Qed.

(** Settings do not disturb the schema version. *)
Lemma ready_on_meta (d : sdb F) f : ready d ->
  (forall m, List.filter (same_key "schema_version") (f m) = List.filter (same_key "schema_version") m) ->
  ready (on_meta f d).
Proof.
  intros [H1 H2 H3] Hf. split; [..|done].
  - unfold stored_version, meta_row in *. cbn [on_meta s_meta]. by rewrite find_head, Hf, <-find_head.
  - cbn [on_meta s_meta]. by rewrite existsb_head, Hf, <-existsb_head.
Qed.

(** The dry-run switch fails safe.  Whatever fails, a dashboard whose default is
    dry-run is told "live" only if the stored override says so; and in an
    up-to-date store the last choice written is the one read. *)
Theorem dry_run_fail_safe faults d enabled dflt :
  (run_result (@get_dry_run F source_chats now true) faults d = Ok false ->
   exists v, Some v ∈ map snd (List.filter (same_key "dry_run") (s_meta d)) /\
     lower (strip v) ∈ ["0"; "false"; "no"; "off"]%string) /\
  (ready d -> run_result (@get_dry_run F source_chats now dflt) []
                (run_state (@set_dry_run F source_chats now enabled) [] d) = Ok enabled).
Proof.
  split.
  - unfold get_dry_run, run_result. rewrite run_bind.
    destruct (read_meta_run "dry_run" faults d) as (rows & d' & fs' & -> & H); [done|]. cbn [run ret fst].
    intros [= E]. destruct rows as [|r rows]; [done|]. destruct H as [|H]; [done|].
    unfold dry_run_of in E. destruct (in_words _ ["1"; "true"; "yes"; "on"]%string); [done|].
    destruct (in_words _ ["0"; "false"; "no"; "off"]%string) eqn:E2; [|done].
    destruct r as [v|]; [|by vm_compute in E2]. exists v. split; [rewrite <-H; left|]. by apply in_words_elem.
  - intros Hr. unfold run_state, set_dry_run. rewrite swrite_ready by done. cbn [fst snd].
    unfold run_result, get_dry_run, read_meta. rewrite run_bind, squery_ready.
    + cbn [on_meta s_meta]. rewrite filter_meta_put by done.
      destruct (filter_meta_put_eq "dry_run" (if enabled then "1" else "0") (s_meta d)) as [l ->]. by destruct enabled.
    + apply ready_on_meta; [done|]. intros m. by rewrite !filter_meta_put.
Qed.

(** ** Symbol map *)

(** An entry that cleaning leaves as it is. *)
Definition cleaned (kv : string * pyval F) : Prop :=
  exists v, kv.2 = PStr v /\ upper (strip kv.1) = kv.1 /\ strip kv.1 <> ""%string /\ strip v = v /\ v <> ""%string.

Definition clean_dict (d : pydict F) : Prop := Forall cleaned d /\ NoDup (map fst d).

Lemma dict_set_keys (d : pydict F) k v x : x ∈ map fst (dict_set d k v) <-> x = k \/ x ∈ map fst d.
Proof.
  induction d as [|[k' v'] d IH]; simpl; [by rewrite list_elem_of_singleton, elem_of_nil; tauto|].
  case_bool_decide as E; simpl; rewrite !elem_of_cons; [subst; tauto|]. rewrite IH. tauto.
Qed.

Lemma dict_set_clean d k v : clean_dict d -> cleaned (k, v) -> clean_dict (dict_set d k v).
Proof.
  intros [Hc Hn] Hkv. split.
  - induction Hc as [|[k' v'] d H Hc IH]; simpl; [by constructor|]. inversion_clear Hn.
    case_bool_decide; constructor; auto.
  - induction d as [|[k' v'] d IH]; simpl in *; [apply NoDup_singleton|]. inversion_clear Hn. inversion_clear Hc.
    case_bool_decide as E; simpl; [subst; by constructor|]. constructor; [|by apply IH].
    rewrite dict_set_keys. intros [?|?]; congruence || done.
Qed.

Lemma clean_is_clean items : clean_dict (clean items).
Proof.
  unfold clean. assert (forall d, clean_dict d -> clean_dict (fold_left clean_item items d)) as K;
    [|apply K; by split; constructor].
  induction items as [|[k v] items IH]; intros d Hd; [done|]. simpl. apply IH. unfold clean_item. cbn [fst snd].
  destruct (_ || _) eqn:E; [done|]. bool_hyps. apply bool_decide_eq_false in H, H0. apply dict_set_clean; [done|].
  exists (strip v). cbn [fst snd]. rewrite strip_upper, strip_idem, upper_idem. split_and!; try done; [|by rewrite strip_idem].
  by rewrite upper_empty.
Qed.

(** Reading a cleaned map back gives it unchanged. *)
Lemma clean_fixed (d : pydict F) : clean_dict d ->
  clean (map (fun kv => (kv.1, match kv.2 with PStr s => s | v => py_str v end)) d) = d.
Proof.
  intros [Hc Hn]. unfold clean.
  assert (forall acc, NoDup (map fst (acc ++ d)) -> fold_left clean_item
    (map (fun kv => (kv.1, match kv.2 with PStr s => s | v => py_str v end)) d) acc = acc ++ d) as K; [|by apply (K [])].
  clear Hn. induction Hc as [|[k v] d H Hc IH]; intros acc Hn; [by rewrite app_nil_r|].
  destruct H as (s & E & H1 & H2 & H3 & H4). cbn [fst snd] in *. subst v. cbn [map fold_left fst snd].
  unfold clean_item at 2. cbn [fst snd]. rewrite H1, H3, !bool_decide_false by done. cbn [orb].
  rewrite map_app in Hn. pose proof Hn as Hn2. apply list.NoDup_app in Hn2 as (_ & Hk & _).
  rewrite dict_set_new by (intros Hin; apply (Hk k Hin); left). rewrite IH; [by rewrite <-app_assoc|].
  by rewrite <-app_assoc, map_app.
Qed.

Lemma insert_item_keys kv (d : pydict F) x : x ∈ map fst (insert_item kv d) <-> x = kv.1 \/ x ∈ map fst d.
Proof.
  induction d as [|kv' d IH]; simpl; [by rewrite list_elem_of_singleton, elem_of_nil; tauto|].
  destruct (String.ltb _ _); simpl; rewrite !elem_of_cons, ?IH; tauto.
Qed.

Lemma insert_item_clean kv d : cleaned kv -> kv.1 ∉ map fst d -> clean_dict d ->
  clean_dict (insert_item kv d) /\
  forall k, dict_get (insert_item kv d) k = (if bool_decide (kv.1 = k) then Some kv.2 else dict_get d k).
Proof.
  intros Hkv Hk [Hc Hn]. induction d as [|kv' d IH]; simpl in *.
  - destruct kv. split; [|done]. split; [by repeat constructor|apply NoDup_singleton].
  - inversion_clear Hc. inversion_clear Hn. rewrite elem_of_cons in Hk. destruct (String.ltb kv.1 kv'.1).
    + split; [|by destruct kv]. split; [by repeat constructor|]. simpl. constructor; [by rewrite elem_of_cons|by constructor].
    + destruct IH as [[I1 I2] I3]; try done; [tauto|]. split.
      * split; [by constructor|]. simpl. constructor; [|done]. rewrite insert_item_keys. intros [?|?]; [|done]. apply Hk. by left.
      * intros k. destruct kv' as [k' v']. simpl. rewrite I3. cbn [fst] in *. repeat case_bool_decide; try done. exfalso. apply Hk. left. congruence.
Qed.

Lemma sort_items_clean d : clean_dict d ->
  clean_dict (sort_items d) /\ forall k, dict_get (sort_items d) k = dict_get d k.
Proof.
  intros [Hc Hn]. assert (clean_dict (sort_items d) /\ (forall k, dict_get (sort_items d) k = dict_get d k) /\
    forall x, x ∈ map fst (sort_items d) -> x ∈ map fst d) as (? & ? & _); [|done].
  induction d as [|[k v] d IH]; [split_and!; [by split|done|done]|]. inversion_clear Hc. inversion_clear Hn.
  destruct IH as (I1 & I2 & I3); try done. cbn [sort_items fold_right]. fold (sort_items d).
  destruct (insert_item_clean (k, v) (sort_items d)) as [J1 J2]; try done; [intros Hin; by apply H1, I3|].
  split_and!; [done| |].
  - intros x. rewrite J2. simpl. by rewrite I2.
  - intros x. rewrite insert_item_keys. simpl. rewrite elem_of_cons. intros [?|?]; [by left|right; auto].
Qed.

Lemma clean_dict_json_ok d : clean_dict d ->
  Forall (fun kv => wf_str kv.1 = true /\ forall s, kv.2 = PStr s -> wf_str s = true) d -> json_ok float_repr (PDict d).
Proof.
  intros [Hc Hn] Hw. apply json_ok_dict. split; [done|]. clear Hn. induction Hc as [|kv d H Hc IH]; [done|].
  inversion_clear Hw as [|? ? [W1 W2] ?]. constructor; [|by apply IH]. split; [done|].
  destruct H as (s & E & _). rewrite E. by apply W2.
Qed.

Lemma get_symbol_map_ready (d : sdb F) : ready d ->
  exists m, run (get_symbol_map py_str source_chats now) [] d = (Ok m, d, []) /\ clean_dict m.
Proof.
  intros Hr. unfold get_symbol_map, read_meta. rewrite run_bind, squery_ready by done. cbn [run ret].
  eexists. split; [done|]. destruct (map _ _); [by split; constructor|].
  destruct (loads _) as [[]|]; (apply clean_is_clean || by split; constructor).
Qed.

(** What is read right after a map was written. *)
Lemma set_symbol_map_read mapping (d : sdb F) : ready d ->
  Forall (fun kv : string * pyval F => wf_str kv.1 = true /\ forall s, kv.2 = PStr s -> wf_str s = true)
    (sort_items (clean mapping)) ->
  exists d', run (set_symbol_map float_repr source_chats now mapping) [] d = (Ok tt, d', []) /\ ready d' /\
    run (get_symbol_map py_str source_chats now) [] d' = (Ok (sort_items (clean mapping)), d', []).
Proof.
  intros Hr Hw. destruct (sort_items_clean (clean mapping) (clean_is_clean mapping)) as [H1 H2].
  unfold set_symbol_map. rewrite swrite_ready by done. eexists. split; [done|].
  match goal with |- ready ?x /\ _ => assert (ready x) as Hr' end.
  { apply ready_on_meta; [done|]. intros m. by rewrite !filter_meta_put. }
  split; [done|]. unfold get_symbol_map, read_meta. rewrite run_bind, squery_ready by done.
  cbn [on_meta s_meta]. rewrite filter_meta_put by done.
  match goal with |- context [List.filter _ (meta_put "symbol_map" ?t _)] => destruct (filter_meta_put_eq "symbol_map" t (s_meta d)) as [l ->] end.
  cbn [run ret fst setting from_option id]. rewrite bool_decide_false by done.
  rewrite loads_dumps by (by apply clean_dict_json_ok). by rewrite clean_fixed.
Qed.

(** The symbol map round trip.  In an up-to-date store, after the operator's
    aliases were written, the executor reads for every alias exactly the symbol
    the cleaned input gives it: keys stripped and upper-cased, values stripped,
    blank entries dropped, later duplicates winning. *)
Theorem symbol_map_roundtrip mapping d
  (Hr : ready d)
  (Hw : Forall (fun kv : string * pyval F => wf_str kv.1 = true /\ forall s, kv.2 = PStr s -> wf_str s = true)
          (sort_items (clean mapping))) :
  exists m, run_result (get_symbol_map py_str source_chats now) []
      (run_state (set_symbol_map float_repr source_chats now mapping) [] d) = Ok m /\
    forall k, dict_get m k = dict_get (clean mapping) k.
Proof.
  destruct (sort_items_clean (clean mapping) (clean_is_clean mapping)) as [_ H].
  exists (sort_items (clean mapping)). split; [|done].
  destruct (set_symbol_map_read mapping d Hr Hw) as (d' & H1 & _ & H2). unfold run_state, run_result. rewrite H1. cbn [fst snd]. by rewrite H2.
Qed.

End Settings.

(** ** Migrations *)

Section Migrations.
Context {F : Type} {A : Arith F} (source_chats now : string).

Abbreviation conn := (@get_conn F source_chats now).

Lemma meta_row_put k v m : meta_row k (meta_put k v m) = Some (Some v) /\ existsb (same_key k) (meta_put k v m) = true.
Proof.
  destruct (filter_meta_put_eq k v m) as [l E]. unfold meta_row. rewrite find_head, existsb_head.
  destruct (List.filter _ _) as [|[k' v'] l']; [done|]. injection E as -> _. done.
Qed.

Lemma set_version_ready d : s_cols d = Some (true, true) -> ready (set_version "4" d : sdb F).
Proof.
  intros H. destruct (meta_row_put "schema_version" "4" (s_meta d)) as [H1 H2].
  split; [|done|done]. unfold stored_version. cbn [set_version on_meta s_meta]. by rewrite H1.
Qed.

Lemma seed_channels_run rows (d : sdb F) : run (_migrate_v2_seed_channels rows) [] d = (Ok rows, d, []).
Proof.
  induction rows as [|r rows IH]; [done|]. cbn [_migrate_v2_seed_channels]. rewrite run_bind.
  change (run (try_ (query StoreError (fun _ => true)) (fun _ => ret false)) [] d) with (@Ok exn bool true, d, @nil bool).
  cbn match. by rewrite run_bind, IH.
Qed.

Lemma migrate_v4_run (d : sdb F) cols : s_cols d = Some cols ->
  run migrate_v4 [] d = (Ok tt, on_cols (fun _ => Some (true, true)) d, []).
Proof.
  intros H. unfold migrate_v4. cbn [query stmt bind run fst snd]. rewrite H. cbn [from_option id].
  destruct cols as [a b]. destruct d as [m si o c e ch co]. cbn in H. subst co.
  destruct a, b; reflexivity.
Qed.

Lemma insert_version_stored (d : sdb F) :
  stored_version (on_meta (insert_or_ignore (same_key "schema_version") ("schema_version"%string, Some "1"%string)) d) = stored_version d.
Proof.
  unfold stored_version, meta_row, insert_or_ignore. cbn [on_meta s_meta]. destruct (existsb _ _) eqn:E; [done|].
  rewrite !find_head, List.filter_app. rewrite existsb_head in E. by destruct (List.filter _ (s_meta d)).
Qed.

(** The channels never lose a row to a migration. *)
Lemma seed_keeps rows l c : c ∈ l -> c ∈ seed rows l.
Proof.
  unfold seed. revert l. induction rows as [|r rows IH]; intros l H; [done|]. simpl. apply IH.
  unfold insert_or_ignore. destruct (existsb _ _); [done|]. apply elem_of_app. by left.
Qed.

(** The three blocks of the migration, undisturbed. *)
Definition to_v2 (v : Z) (d : sdb F) : sdb F :=
  if v <? 2 then set_version "2" (on_channels (seed (seed_rows source_chats now)) d) else d.
Definition to_v3 (v : Z) (d : sdb F) : sdb F := if v <? 3 then set_version "3" d else d.
Definition to_v4 (d : sdb F) : sdb F := set_version "4" (on_cols (fun _ => Some (true, true)) d).

Lemma blocks_run v (d : sdb F) cols : s_cols d = Some cols ->
  run ((if v <? 2
        then rows <- _migrate_v2_seed_channels (seed_rows source_chats now) ;;
             exec StoreError (fun d0 => set_version "2" (on_channels (seed rows) d0))
        else ret tt) ;;;
       (if v <? 3 then exec StoreError (set_version "3") else ret tt) ;;;
       try_ migrate_v4 (fun _ => ret tt) ;;; exec StoreError (set_version "4")) [] d =
  (Ok tt, to_v4 (to_v3 v (to_v2 v d)), []).
Proof.
  intros Hc. unfold to_v2, to_v3. rewrite run_bind.
  assert (run (if v <? 2
        then rows <- _migrate_v2_seed_channels (seed_rows source_chats now) ;;
             exec StoreError (fun d0 => set_version "2" (on_channels (seed rows) d0))
        else ret tt) [] d =
    (Ok tt, if v <? 2 then set_version "2" (on_channels (seed (seed_rows source_chats now)) d) else d, [])) as ->.
  { destruct (v <? 2); [|done]. by rewrite run_bind, seed_channels_run. }
  rewrite run_bind. destruct (v <? 3); cbn [exec stmt run ret fst snd]; rewrite run_bind, run_try,
    (migrate_v4_run _ cols) by (by destruct (v <? 2)); done.
Qed.

(** C32: migrations.  Opening a connection to any store, a new file included, without
    a failing statement leaves it at version 4 or later, with every row of every
    table and every setting, and opening it again changes nothing.  It is then
    current, flag columns included, exactly when it was older than version 4 or had
    both columns (or no channels table): a store stamped version 4 without the
    columns, as a failed ALTER leaves it ([failed_alter_is_permanent]), is never
    repaired. *)
Theorem schema_migrates (d : sdb F) :
  exists d', run conn [] d = (Ok true, d', []) /\ 4 <= stored_version d' /\ same_settings d d' /\
    (forall c, c ∈ s_channels d -> c ∈ s_channels d') /\ run conn [] d' = (Ok true, d', []) /\
    (ready d' <-> stored_version d < 4 \/ default (true, true) (s_cols d) = (true, true)).
Proof.
  set (d1 := on_cols (fun c => Some (default (true, true) c)) d).
  set (d2 := on_meta (insert_or_ignore (same_key "schema_version") ("schema_version"%string, Some "1"%string)) d1).
  set (cols := default (true, true) (s_cols d)).
  assert (s_cols d2 = Some cols) as Hc by done.
  assert (stored_version d2 = stored_version d) as Hv by apply (insert_version_stored d1).
  assert (existsb (same_key "schema_version") (s_meta d2) = true) as Hrow.
  { unfold d2, insert_or_ignore. cbn [on_meta s_meta]. destruct (existsb _ (s_meta d1)) eqn:E; [done|].
    rewrite existsb_app. apply orb_true_r. }
  enough (exists d' cols', run conn [] d = (Ok true, d', []) /\ 4 <= stored_version d' /\
    existsb (same_key "schema_version") (s_meta d') = true /\ s_cols d' = Some cols' /\
    (cols' = (true, true) <-> stored_version d < 4 \/ cols = (true, true)) /\
    (forall c, c ∈ s_channels d -> c ∈ s_channels d')) as (d' & cols' & HR & H4 & Hm & Hcols & Hiff & Hch).
  { exists d'. split_and!; try done.
    - destruct (get_conn_run source_chats now [] d) as (b & d'' & fs' & HR2 & HS). rewrite HR in HR2. by injection HR2 as _ <- _.
    - by apply (get_conn_current source_chats now d' cols').
    - rewrite <-Hiff. split; [intros [_ _ E]; congruence|intros ->; by split]. }
  destruct (decide (4 <= stored_version d)) as [Hge|Hlt].
  { exists d2, cols. split_and!; [|lia|done|done|intuition lia|done].
    rewrite <-(get_conn_current source_chats now d2 cols) by (done || lia).
    unfold get_conn, _ensure_schema. cbn [query exec stmt bind try_ run ret fst snd]. fold d1. fold d2.
    assert (on_cols (fun c => Some (default (true, true) c)) d2 = d2) as -> by done.
    assert (on_meta (insert_or_ignore (same_key "schema_version") ("schema_version"%string, Some "1"%string)) d2 = d2) as ->
      by (unfold on_meta at 1, insert_or_ignore at 1; by rewrite Hrow). done. }
  exists (to_v4 (to_v3 (stored_version d) (to_v2 (stored_version d) d2))), (true, true).
  assert (ready (to_v4 (to_v3 (stored_version d) (to_v2 (stored_version d) d2)))) as [R1 R2 R3] by (by apply set_version_ready).
  split_and!; try done.
  - unfold get_conn, _ensure_schema. rewrite run_try. cbn [query exec stmt bind run ret fst snd]. fold d1. fold d2.
    rewrite Hv. replace (stored_version d <? 4) with true by (symmetry; apply Z.ltb_lt; lia).
    by rewrite run_bind, (blocks_run _ d2 cols).
  - split; [|done]. intros _. left. lia.
  - intros c Hin. unfold to_v4, to_v3, to_v2. destruct (_ <? 3), (_ <? 2); try done;
      cbn [set_version on_meta on_cols on_channels s_channels]; by apply seed_keeps.
Qed.

(** A failed column migration is never retried.  When adding a flag column
    fails while a version 3 store is opened, the store is stamped version 4 all
    the same: every later connection leaves the columns missing, and the flags of
    every channel read as off. *)
Theorem failed_alter_is_permanent (d : sdb F) channel
  (Hv : stored_version d = 3) (Hrow : existsb (same_key "schema_version") (s_meta d) = true)
  (Hc : s_cols d = Some (false, false)) :
  let faults := [false; false; false; false; false; true] in
  let d' := run_state conn faults d in
  run_result conn faults d = Ok true /\ stored_version d' = 4 /\ s_cols d' = Some (false, false) /\
  run conn [] d' = (Ok true, d', []) /\
  run_result (channel_flags source_chats now channel) [] d' = Ok (mk_flags false false).
Proof.
  cbn zeta.
  assert (run conn [false; false; false; false; false; true] d = (Ok true, set_version "4" d, [])) as HR.
  { unfold get_conn, _ensure_schema, migrate_v4. cbn [query exec stmt stmt_r bind try_ run ret fst snd].
    assert (on_cols (fun c => Some (default (true, true) c)) d = d) as -> by (destruct d; cbn in *; by subst).
    assert (on_meta (insert_or_ignore (same_key "schema_version") ("schema_version"%string, Some "1"%string)) d = d) as ->
      by (unfold on_meta, insert_or_ignore; rewrite Hrow; by destruct d).
    rewrite Hv. cbn. rewrite Hc. done. }
  unfold run_state, run_result. rewrite HR. cbn [fst snd].
  destruct (meta_row_put "schema_version" "4" (s_meta d)) as [H1 H2].
  assert (stored_version (set_version "4" d) = 4) as Hv4 by (unfold stored_version; cbn [set_version on_meta s_meta]; by rewrite H1).
  assert (run conn [] (set_version "4" d) = (Ok true, set_version "4" d, [])) as HR2
    by (apply (get_conn_current source_chats now _ (false, false)); [lia|done|done]).
  split_and!; try done. unfold channel_flags. cbn zeta. rewrite run_bind.
  assert (forall p, run (squery source_chats now (select_flags p)) [] (set_version "4" d) =
    (Ok [], set_version "4" d, [])) as HQ.
  { intros p. unfold squery. rewrite run_try, run_bind, HR2. cbn [stmt_r run fst snd]. unfold select_flags.
    cbn [set_version on_meta s_cols]. by rewrite Hc. }
  by destruct (bool_decide _); rewrite HQ.
Qed.

End Migrations.

(** ** The executor over the store *)

Section Joined.
Context {F : Type} {A : Arith F} {T : Type} (B : Broker F T) (MAGIC : Z).
Context (float_repr : F -> bytes) (py_str : pyval F -> string) (source_chats now : string).

(** The store in state [d], each call under its own schedule of failures. *)
Definition store_at (f_map f_ids f_rows f_flags : list bool) (d : sdb F) : Store F := mk_store
  (fun alias => match run_result (get_symbol_map py_str source_chats now) f_map d with
                | Ok m => match dict_get m alias with Some (PStr v) => Some v | _ => None end
                | Err _ => None
                end)
  (fun ticket => run_result (sibling_broker_order_ids float_repr source_chats now ticket) f_ids d)
  (fun ticket => run_result (sibling_order_rows float_repr source_chats now ticket) f_rows d)
  (fun channel => match run_result (channel_flags source_chats now channel) f_flags d with
                  | Ok f => Ok (breakeven f)
                  | Err e => Err e
                  end).

(** Both tickets are orders of one signal. *)
Definition same_leg (d : sdb F) (ticket k : Z) : Prop :=
  exists o o' channel, o ∈ s_orders d /\ ord_broker o = Some (show_ticket ticket) /\
    o' ∈ s_orders d /\ ord_broker o' = Some (show_ticket k) /\ share_signal float_repr d o o' channel.

(** The existing order or position a request acts on. *)
Definition target (req : request F) : option Z :=
  match req with
  | ReqDeal _ _ _ close_of _ _ _ _ _ _ => close_of
  | ReqPending _ _ _ _ _ _ _ _ _ => None
  | ReqSltp _ k _ _ _ => Some k
  | ReqRemove k => Some k
  end.

Definition in_signal (d : sdb F) (ticket : Z) (req : request F) : Prop :=
  exists k, target req = Some k /\ same_leg d ticket k.

Lemma leg_rows_same d ticket faults rows r k :
  run_result (sibling_order_rows float_repr source_chats now (show_ticket ticket)) faults d = Ok rows ->
  r ∈ rows -> w_order_id r = Some (show_ticket k) -> same_leg d ticket k.
Proof.
  intros H Hr Hk. destruct (legs_share float_repr source_chats now _ _ _ _ _ H Hr) as (o & o' & H1 & H2 & H3 & _ & H5 & E).
  rewrite E in Hk. cbn [w_order_id leg_row] in Hk. by exists o, o', (w_channel r).
Qed.

Lemma sibling_ids_same d ticket faults ids k :
  run_result (sibling_broker_order_ids float_repr source_chats now (show_ticket ticket)) faults d = Ok ids ->
  show_ticket k ∈ ids -> same_leg d ticket k.
Proof.
  unfold sibling_broker_order_ids, run_result. rewrite run_bind.
  destruct (run (sibling_order_rows float_repr source_chats now (show_ticket ticket)) faults d) as [[[rows|e] d'] fs'] eqn:E; [|done].
  cbn [run ret fst]. intros [= <-] Hk. apply filter_elem in Hk as [Hk _].
  apply list_elem_of_omap in Hk as (r & Hr & Hw). apply (leg_rows_same d ticket faults rows r k); [|done|done].
  unfold run_result. by rewrite E.
Qed.

Lemma elem_In s l : elem s l = true -> s ∈ l.
Proof.
  unfold elem. intros H. apply existsb_exists in H as (x & Hin & E).
  apply bool_decide_eq_true in E as ->. by apply list_elem_of_In.
Qed.

Lemma cancel_in_signal f0 f1 f2 f3 d ticket s :
  exists l, trace (snd (_cancel_siblings_after_close B (store_at f0 f1 f2 f3 d) MAGIC ticket s)) = trace s ++ l /\
    Forall (in_signal d ticket) (sent_requests l).
Proof.
  destruct (EaShim.sibling_broker_order_ids (store_at f0 f1 f2 f3 d) (show_ticket ticket)) as [ids|e] eqn:E.
  - destruct (cancel_siblings_sends B (store_at f0 f1 f2 f3 d) MAGIC ticket ids s E) as (l & El & Hl).
    exists l. split; [done|]. rewrite Hl. apply List.Forall_map, List.Forall_forall. intros o Ho.
    apply List.filter_In in Ho as [_ Ho]. unfold own_resting in Ho. bool_hyps. exists (o_ticket o). split; [done|].
    apply (sibling_ids_same d ticket f1 ids); [exact E|by apply elem_In].
  - exists []. unfold _cancel_siblings_after_close. rewrite E. cbn. by rewrite app_nil_r.
Qed.

(** C22: a close acts on its own signal only.  With the executor running over the
    store, whatever the terminal and whichever store statements fail, every order
    withdrawn and every position amended because a position closed is, by the
    store, an order of the same signal as the position that closed. *)
Theorem close_stays_in_signal f0 f1 f2 f3 d ticket reason s :
  exists l, trace (snd (_handle_close_oco B (store_at f0 f1 f2 f3 d) MAGIC ticket reason s)) = trace s ++ l /\
    Forall (in_signal d ticket) (sent_requests l).
Proof.
  destruct reason as [| |n]; cbn [_handle_close_oco].
  - cbn zeta. destruct (EaShim.sibling_order_rows (store_at f0 f1 f2 f3 d) (show_ticket ticket)) as [rows|e] eqn:E;
      [|apply cancel_in_signal].
    destruct rows as [|r rows]; [apply cancel_in_signal|].
    destruct (_classify_tp_close ticket (r :: rows)) as [[[] ch]|]; try apply cancel_in_signal.
    unfold andthen, lift. destruct (breakeven_flag (store_at f0 f1 f2 f3 d) ch) as [be|e];
      [|exists []; by rewrite app_nil_r].
    destruct be; cbn [negb]; [|exists []; by rewrite app_nil_r].
    destruct (breakeven_sends B MAGIC ticket (r :: rows) s) as (l & El & Hl).
    exists l. split; [done|]. rewrite Hl. apply List.Forall_map, List.Forall_forall. intros p Hp.
    apply List.filter_In in Hp as [_ Hp]. unfold own_position in Hp. bool_hyps. exists (p_ticket p). split; [done|].
    apply elem_In in H0. apply filter_elem in H0 as [H0 _]. apply list_elem_of_omap in H0 as (r' & Hr' & Hw).
    apply (leg_rows_same d ticket f2 (r :: rows) r'); [exact E|done|done].
  - apply cancel_in_signal.
  - exists []. by rewrite app_nil_r.
Qed.

End Joined.

(** ** Witnesses *)

Module StoreDemo.
Definition repr (_ : Q) : bytes := [].
Definition order (trace ticket : string) : ord_row Q :=
  mk_ord "t" trace (Some "tradingview"%string) (Some "buy"%string) (Some "EURUSD"%string) None None None
    (Some 1%Q) None (Some "filled"%string) (Some ticket) None None.
Definition ids : list string := ["t-1"; "t-2"]%string.
(** One signal with two legs. *)
Definition signal : sig_row Q :=
  mk_sig "t" 1 2 (Some "VGTA"%string) "ok" None None None None None 2
    (Some (dumps repr (PList (map PStr ids)))) None.
Definition db : sdb Q :=
  mk_sdb [("schema_version"%string, Some "4"%string)] [signal] [order "t-1" "5"; order "t-2" "7"; order "t-3" "9"]
    [] [] [] (Some (true, true)).
Lemma db_ready : ready db.
Proof. by split. Qed.
Lemma signal_lists : lists_traces repr signal ids.
Proof. split; [done|]. by repeat constructor. Qed.
Lemma only_signal g : g ∈ s_signals db -> g = signal.
Proof. intros H. by apply list_elem_of_singleton in H. Qed.
(** A version 3 store, before the flag columns. *)
Definition old : sdb Q := mk_sdb [("schema_version"%string, Some "3"%string)] [] [] [] [] [] (Some (false, false)).
Definition fresh : sdb Q := mk_sdb [] [] [] [] [] [] None.
End StoreDemo.

Lemma siblings_resolved_witness :
  run_result (sibling_order_rows StoreDemo.repr "" "now" "5") [] StoreDemo.db =
    Ok (map (leg_row (Some "VGTA"%string)) [StoreDemo.order "t-1" "5"; StoreDemo.order "t-2" "7"]).
Proof.
  apply (siblings_resolved StoreDemo.repr "" "now" "5" StoreDemo.db (StoreDemo.order "t-1" "5") StoreDemo.signal StoreDemo.ids
    StoreDemo.db_ready); try reflexivity; try discriminate.
  - left.
  - exact StoreDemo.signal_lists.
  - left.
  - intros g Hg. rewrite (StoreDemo.only_signal g Hg). exists StoreDemo.ids. split; [exact StoreDemo.signal_lists|reflexivity].
Defined.

Lemma signal_trace_recorded_witness :
  exists g ids, g ∈ s_signals (run_state (append_signal_trace StoreDemo.repr "" "now" 1 2 "t-9") []
      (run_state (record_signal "" "now" 1 2 None "again" None None None None None 0 None) [] StoreDemo.db)) /\
    sig_outcome g = "again"%string /\
    lists_traces StoreDemo.repr g (if bool_decide ("t-9"%string ∈ ids) then ids else ids ++ ["t-9"%string]).
Proof.
  destruct (signal_trace_recorded StoreDemo.repr "" "now" 1 2 None "again" None None None None None 0 None "t-9" StoreDemo.db
    StoreDemo.db_ready) as [(g & ids & H1 & _ & H2 & H3 & _) _]; [reflexivity| |].
  - intros g Hg. rewrite (StoreDemo.only_signal g Hg). exists StoreDemo.ids. exact StoreDemo.signal_lists.
  - exists g, ids. split; [exact H1|]. split; [exact H2|exact H3].
Defined.

Lemma record_order_spec_witness :
  let d' := run_state (record_order "" "now" (StoreDemo.order "t-2" "8")) [] StoreDemo.db in
  NoDup (map ord_trace (s_orders d')) /\ map ord_broker (s_orders d') = [Some "5"; Some "8"; Some "9"]%string.
Proof.
  split; [|vm_compute; reflexivity].
  apply (record_order_spec "" "now" (StoreDemo.order "t-2" "8") StoreDemo.db StoreDemo.db_ready).
  apply (bool_decide_unpack _). vm_compute. exact I.
Defined.

Lemma symbol_map_roundtrip_witness :
  exists m, run_result (get_symbol_map (fun _ => ""%string) "" "now") []
      (run_state (set_symbol_map StoreDemo.repr "" "now" [(" gold ", "XAUUSD_"); ("b", " ")]%string) [] StoreDemo.db) = Ok m /\
    dict_get m "GOLD" = Some (PStr "XAUUSD_").
Proof.
  destruct (symbol_map_roundtrip StoreDemo.repr (fun _ => ""%string) "" "now" [(" gold ", "XAUUSD_"); ("b", " ")]%string
    StoreDemo.db StoreDemo.db_ready) as (m & H1 & H2).
  - vm_compute. repeat constructor; intros s E; injection E as <-; reflexivity.
  - exists m. split; [exact H1|]. rewrite H2. vm_compute. reflexivity.
Defined.

Lemma schema_migrates_witness :
  exists d', run (@get_conn Q "-100, @gold" "now") [] StoreDemo.fresh = (Ok true, d', []) /\ ready d' /\
    map chn_id (s_channels d') = ["direct"; "-100"; "gold"]%string.
Proof.
  destruct (schema_migrates "-100, @gold" "now" StoreDemo.fresh) as (d' & H1 & _ & _ & _ & _ & H2).
  assert (ready d') as H3 by (apply H2; left; reflexivity).
  exists d'. split; [exact H1|]. split; [exact H3|].
    assert (run_state (@get_conn Q "-100, @gold" "now") [] StoreDemo.fresh = d') as <-
      by (unfold run_state; rewrite H1; reflexivity).
    vm_compute. reflexivity.
Defined.

Lemma failed_alter_is_permanent_witness :
  run_result (channel_flags "" "now" (Some "VGTA"%string)) []
    (run_state (@get_conn Q "" "now") [false; false; false; false; false; true] StoreDemo.old) = Ok (mk_flags false false).
Proof.
  apply (failed_alter_is_permanent "" "now" StoreDemo.old (Some "VGTA"%string)); reflexivity.
Defined.
