(* ===== verification/StoreSpec.v ===== *)
(** * StoreSpec: what the trade store promises

    An abstract specification of scripts/_tradestore.py: the store is five finite
    maps (messages by chat and message id, orders by trace id, closed trades by
    position, snapshots by time, settings by name), and every recording helper is
    one update of one of them.  The theorem is that the helpers of TradeStore.v,
    over lists of rows, with connections that migrate the schema and statements
    that may fail, implement it: each call takes effect as specified or not at
    all, and reads return what the maps hold. *)

From Stdlib Require Import ZArith QArith.
From stdpp Require Import gmap strings.
From S2P Require Import Prelude Text PyFloat PyVal Json Prog EaShim TradeStore.
Open Scope Z_scope.

(** ** Tables as maps *)

Section Tables.
Context {K R : Type} `{Countable K} (key : R -> K).

Definition has_key (k : K) (r : R) : bool := bool_decide (key r = k).

(** The table holds exactly one row for every key of the map and no other. *)
Definition holds (l : list R) (m : gmap K R) : Prop := forall k, List.filter (has_key k) l = option_list (m !! k).

(** The rows of the key itself, and of another key. *)
Lemma upsert_same l o k0 merge new : List.filter (has_key k0) l = option_list o -> key new = k0 ->
  (forall r, key r = k0 -> key (merge r) = k0) ->
  List.filter (has_key k0) (upsert (has_key k0) merge new l) = [match o with Some r => merge r | None => new end].
Proof using Type.
  intros Hl Hn Hm. unfold upsert. rewrite existsb_head, Hl. destruct o as [r|]; cbn.
  - cbn in Hl. change [merge r] with (map merge [r]). rewrite <- Hl. clear - Hm.
    induction l as [|x l IH]; [done|]. cbn. destruct (has_key k0 x) eqn:Ex; cbn; [|by rewrite Ex].
    apply bool_decide_eq_true in Ex. unfold has_key at 1. rewrite bool_decide_true by auto. by rewrite IH.
  - rewrite List.filter_app, Hl. cbn. unfold has_key. by rewrite bool_decide_true.
Qed.

Lemma upsert_other l k k0 merge new : k <> k0 -> key new = k0 -> (forall r, key r = k0 -> key (merge r) = k0) ->
  List.filter (has_key k) (upsert (has_key k0) merge new l) = List.filter (has_key k) l.
Proof using Type.
  intros Hne Hn Hm. apply filter_upsert.
  - unfold has_key. rewrite bool_decide_false; [done|congruence].
  - intros r Hr. apply bool_decide_eq_true in Hr. unfold has_key.
    rewrite !bool_decide_false; [done|rewrite Hm; congruence|congruence].
Qed.

Lemma holds_upsert l m k0 merge new : holds l m -> key new = k0 -> (forall r, key r = k0 -> key (merge r) = k0) ->
  holds (upsert (has_key k0) merge new l) (<[k0 := match m !! k0 with Some r => merge r | None => new end]> m).
Proof using Type.
  intros Hl Hn Hm k. destruct (decide (k = k0)) as [->|Hne].
  - rewrite lookup_insert_eq. by apply upsert_same.
  - rewrite lookup_insert_ne by done. rewrite <- Hl. by apply upsert_other.
Qed.

Lemma holds_alter l m k0 f : holds l m -> (forall r, key (f r) = key r) ->
  holds (map (fun r => if has_key k0 r then f r else r) l) (alter f k0 m).
Proof.
  intros Hl Hf k.
  assert (List.filter (has_key k) (map (fun r => if has_key k0 r then f r else r) l) =
          map (fun r => if has_key k0 r then f r else r) (List.filter (has_key k) l)) as ->.
  { clear Hl. induction l as [|x l IH]; [done|]. cbn [map List.filter]. rewrite IH.
    assert (has_key k (if has_key k0 x then f x else x) = has_key k x) as ->; [|by destruct (has_key k x)].
    unfold has_key. destruct (bool_decide (key x = k0)); by rewrite ?Hf. }
  rewrite Hl. destruct (decide (k = k0)) as [->|Hne].
  - rewrite lookup_alter_eq. specialize (Hl k0). destruct (m !! k0) as [r|]; cbn in *; [|done].
    assert (has_key k0 r = true) as ->; [|done].
    assert (r ∈ List.filter (has_key k0) l) as Hr by (rewrite Hl; by left).
    by apply list_elem_of_In, List.filter_In in Hr as [_ ?].
  - rewrite lookup_alter_ne by done. specialize (Hl k). destruct (m !! k) as [r|]; cbn in *; [|done].
    assert (r ∈ List.filter (has_key k) l) as Hr by (rewrite Hl; by left).
    apply list_elem_of_In, List.filter_In in Hr as [_ Hr%bool_decide_eq_true].
    unfold has_key. rewrite bool_decide_false; [done|congruence].
Qed.

Lemma holds_found l m k : holds l m -> List.find (has_key k) l = m !! k.
Proof. intros Hl. rewrite find_head, (Hl k). by destruct (m !! k). Qed.

End Tables.

(** ** The abstract store *)

Section Spec.
Context {F : Type} {A : Arith F}.

(** Settings are all the rows of the meta table but the schema version. *)
Record book := mk_book {
  b_messages : gmap (Z * Z) (sig_row F);
  b_orders : gmap string (ord_row F);
  b_closed : gmap string (closed_row F);
  b_equity : gmap string (equity_row F);
  b_settings : gmap string (option string) }.

Definition sig_key (r : sig_row F) : Z * Z := (sig_chat r, sig_msg r).

Definition represents (d : sdb F) (b : book) : Prop :=
  holds sig_key (s_signals d) (b_messages b) /\ holds ord_trace (s_orders d) (b_orders b) /\
  holds cls_position (s_closed d) (b_closed b) /\ holds eq_ts (s_equity d) (b_equity b) /\
  forall k, k <> "schema_version"%string ->
    List.filter (same_key k) (s_meta d) = option_list (pair k <$> b_settings b !! k).

(** The calls, each at the time [now]. *)
Inductive call :=
| CallSignal (new : sig_row F)
| CallTrace (chat msg : Z) (trace : string)
| CallOrder (new : ord_row F)
| CallClosed (new : closed_row F)
| CallEquity (new : equity_row F)
| CallSetting (k v : string)
| CallDryRun (now : string) (enabled : bool)
| CallSymbolMap (now : string) (mapping : list (string * string)).

Context (float_repr : F -> bytes).

(** A repeated message keeps its trace ids. *)
Definition refresh (new old : sig_row F) : sig_row F :=
  mk_sig (sig_ts new) (sig_chat new) (sig_msg new) (sig_channel new) (sig_outcome new) (sig_symbol new) (sig_side new)
    (sig_entry new) (sig_sl new) (sig_tp new) (sig_n new) (sig_traces old) (sig_raw new).

Definition merged {K R} `{Countable K} (k : K) (merge : R -> R) (new : R) (m : gmap K R) : gmap K R :=
  <[k := match m !! k with Some r => merge r | None => new end]> m.

Definition on_b_orders f b := mk_book (b_messages b) (f (b_orders b)) (b_closed b) (b_equity b) (b_settings b).
Definition on_b_messages f b := mk_book (f (b_messages b)) (b_orders b) (b_closed b) (b_equity b) (b_settings b).
Definition on_b_closed f b := mk_book (b_messages b) (b_orders b) (f (b_closed b)) (b_equity b) (b_settings b).
Definition on_b_equity f b := mk_book (b_messages b) (b_orders b) (b_closed b) (f (b_equity b)) (b_settings b).
Definition on_b_settings f b := mk_book (b_messages b) (b_orders b) (b_closed b) (b_equity b) (f (b_settings b)).

(** What each call promises. *)
Definition effect (c : call) (b : book) : book :=
  match c with
  | CallSignal new => on_b_messages (merged (sig_key new) (refresh new) new) b
  | CallTrace chat msg trace => on_b_messages (alter (add_trace float_repr trace) (chat, msg)) b
  | CallOrder new => on_b_orders (merged (ord_trace new) (merge_order new) new) b
  | CallClosed new => on_b_closed (insert (cls_position new) new) b
  | CallEquity new => on_b_equity (insert (eq_ts new) new) b
  | CallSetting k v => on_b_settings (insert k (Some v)) b
  | CallDryRun now enabled =>
      on_b_settings (fun m => insert "dry_run_updated_ts"%string (Some now)
        (insert "dry_run"%string (Some (if enabled then "1" else "0")%string) m)) b
  | CallSymbolMap now mapping =>
      on_b_settings (fun m => insert "symbol_map_updated_ts"%string (Some now)
        (insert "symbol_map"%string (Some (dumps float_repr (PDict (sort_items (clean mapping))))) m)) b
  end.

(** The helper a call stands for. *)
Definition perform (source_chats : string) (c : call) : prog (sdb F) exn unit :=
  match c with
  | CallSignal n => record_signal source_chats (sig_ts n) (sig_chat n) (sig_msg n) (sig_channel n) (sig_outcome n)
      (sig_symbol n) (sig_side n) (sig_entry n) (sig_sl n) (sig_tp n) (sig_n n) (sig_raw n)
  | CallTrace chat msg trace => append_signal_trace float_repr source_chats "" chat msg trace
  | CallOrder new => record_order source_chats (ord_ts new) new
  | CallClosed new => record_closed_trade source_chats (cls_ts new) new
  | CallEquity n => record_equity source_chats (eq_ts n) (eq_balance n) (eq_equity n) (eq_margin n) (eq_free n) (eq_floating n)
  | CallSetting k v => meta_set source_chats "" k v
  | CallDryRun now enabled => set_dry_run source_chats now enabled
  | CallSymbolMap now mapping => set_symbol_map float_repr source_chats now mapping
  end.

(** A new message starts without trace ids; the version is not a setting. *)
Definition proper (c : call) : Prop :=
  match c with
  | CallSignal n => sig_traces n = Some "[]"%string
  | CallSetting k _ => k <> "schema_version"%string
  | _ => True
  end.

(** *** The implementation of a call *)

(** The update a helper writes once it has a connection. *)
Definition written (c : call) : sdb F -> sdb F :=
  match c with
  | CallSignal n => on_signals (upsert (same_signal (sig_chat n) (sig_msg n)) (refresh n)
      (mk_sig (sig_ts n) (sig_chat n) (sig_msg n) (sig_channel n) (sig_outcome n) (sig_symbol n) (sig_side n)
         (sig_entry n) (sig_sl n) (sig_tp n) (sig_n n) (Some "[]"%string) (sig_raw n)))
  | CallTrace chat msg trace =>
      on_signals (map (fun r => if same_signal chat msg r then add_trace float_repr trace r else r))
  | CallOrder n => on_orders (upsert (same_trace (ord_trace n)) (merge_order n) n)
  | CallClosed n => on_closed (upsert (has_key cls_position (cls_position n)) (fun _ => n) n)
  | CallEquity n => on_equity (upsert (has_key eq_ts (eq_ts n)) (fun _ => n) n)
  | CallSetting k v => on_meta (meta_put k v)
  | CallDryRun now enabled => on_meta (fun m => meta_put "dry_run_updated_ts" now
      (meta_put "dry_run" (if enabled then "1" else "0") m))
  | CallSymbolMap now mapping => on_meta (fun m => meta_put "symbol_map_updated_ts" now
      (meta_put "symbol_map" (dumps float_repr (PDict (sort_items (clean mapping)))) m))
  end.

Lemma perform_written source_chats c : exists now, perform source_chats c = swrite source_chats now (written c).
Proof. destruct c as [n| | | |[]| | |]; eexists; reflexivity. Qed.

Lemma same_signal_key chat msg (r : sig_row F) : same_signal chat msg r = has_key sig_key (chat, msg) r.
Proof.
  unfold same_signal, has_key, sig_key. destruct (Z.eqb_spec (sig_chat r) chat), (Z.eqb_spec (sig_msg r) msg); cbn;
    symmetry; (apply bool_decide_eq_true || apply bool_decide_eq_false); congruence.
Qed.

Lemma upsert_ext {R} (p q : R -> bool) merge new l : (forall r, p r = q r) -> upsert p merge new l = upsert q merge new l.
Proof.
  intros H. unfold upsert. assert (existsb p l = existsb q l) as ->.
  { induction l as [|r l IH]; cbn; by rewrite ?H, ?IH. }
  destruct (existsb q l); [|done].
  apply map_ext. intros r. by rewrite H.
Qed.

Lemma settings_put k v m (s : gmap string (option string)) : k <> "schema_version"%string ->
  (forall k, k <> "schema_version"%string -> List.filter (same_key k) m = option_list (pair k <$> s !! k)) ->
  forall k', k' <> "schema_version"%string ->
    List.filter (same_key k') (meta_put k v m) = option_list (pair k' <$> <[k := Some v]> s !! k').
Proof.
  intros Hk Hm k' Hk'. destruct (decide (k' = k)) as [->|Hne].
  - rewrite lookup_insert_eq. cbn.
    etrans; [exact (upsert_same fst m (pair k <$> s !! k) k (fun _ => (k, Some v)) (k, Some v) (Hm k Hk) eq_refl (fun _ _ => eq_refl))|].
    by destruct (s !! k).
  - rewrite lookup_insert_ne by done. rewrite filter_meta_put by done. by apply Hm.
Qed.

Lemma written_refines c d b : proper c -> represents d b -> represents (written c d) (effect c b).
Proof.
  intros Hc (H1 & H2 & H3 & H4 & H5). unfold represents.
  destruct c as [n|chat msg t|n|n|n|k v|now enabled|now mapping]; cbn [written effect]; split_and!; try done; cbn.
  - rewrite (upsert_ext _ (has_key sig_key (sig_key n))) by (intros; apply same_signal_key).
    cbn in Hc. replace (mk_sig _ _ _ _ _ _ _ _ _ _ _ _ _) with n by (destruct n; cbn in *; congruence).
    by apply (holds_upsert sig_key).
  - erewrite map_ext; [apply (holds_alter sig_key _ _ (chat, msg) (add_trace float_repr t)); [exact H1|done]|].
    intros r. cbn. by rewrite same_signal_key.
  - by apply (holds_upsert ord_trace).
  - pose proof (holds_upsert cls_position _ _ _ (fun _ => n) n H3 eq_refl (fun _ _ => eq_refl)) as H.
    unfold merged in H. by destruct (b_closed b !! cls_position n).
  - pose proof (holds_upsert eq_ts _ _ _ (fun _ => n) n H4 eq_refl (fun _ _ => eq_refl)) as H.
    by destruct (b_equity b !! eq_ts n).
  - by apply settings_put.
  - by apply settings_put; [|apply settings_put].
  - by apply settings_put; [|apply settings_put].
Qed.

Lemma same_settings_represents d d' b : same_settings d d' -> represents d b -> represents d' b.
Proof.
  intros [(E1 & E2 & E3 & E4) Hm] (H1 & H2 & H3 & H4 & H5). unfold represents. rewrite E1, E2, E3, E4.
  split_and!; try done. intros k Hk. rewrite Hm by done. by apply H5.
Qed.

(** Whatever fails, a write returns; it left its update, or nothing but schema
    work. *)
Lemma swrite_run source_chats now f fs (d : sdb F) :
  run_result (swrite source_chats now f) fs d = Ok tt /\
  exists d1, same_settings d d1 /\
    (run_state (swrite source_chats now f) fs d = f d1 \/ run_state (swrite source_chats now f) fs d = d1).
Proof.
  unfold swrite, run_result, run_state. rewrite run_try, run_bind.
  destruct (get_conn_run source_chats now fs d) as (ok & d1 & fs1 & -> & Hs).
  destruct ok; [destruct fs1 as [|[] fs1]|]; cbn; (split; [done|]); exists d1; auto.
Qed.

Lemma perform_refines source_chats c fs d b : proper c -> represents d b ->
  represents (run_state (perform source_chats c) fs d) (effect c b) \/
  represents (run_state (perform source_chats c) fs d) b.
Proof.
  intros Hc Hr. destruct (perform_written source_chats c) as [now ->].
  destruct (swrite_run source_chats now (written c) fs d) as (_ & d1 & Hs & [-> | ->]).
  - left. apply written_refines; [done|]. by eapply same_settings_represents.
  - right. by eapply same_settings_represents.
Qed.

Lemma written_ready c d : proper c -> ready d -> ready (written c d).
Proof.
  intros Hc Hr. destruct c as [n|chat msg t|n|n|n|k v|now enabled|now mapping]; try (by destruct Hr);
    apply ready_on_meta; try done; intros m; by rewrite ?filter_meta_put.
Qed.

Lemma perform_ready source_chats c d : proper c -> ready d ->
  run_state (perform source_chats c) [] d = written c d.
Proof.
  intros Hc Hr. destruct (perform_written source_chats c) as [now ->]. unfold run_state. by rewrite swrite_ready.
Qed.

(** Calls one after the other, each with its own failures. *)
Definition play (source_chats : string) (h : list (call * list bool)) (d : sdb F) : sdb F :=
  fold_left (fun d p => run_state (perform source_chats p.1) p.2 d) h d.

Definition outcome (cs : list call) (b : book) : book := fold_left (fun b c => effect c b) cs b.

(** C16: the trade store refines its specification.  Play any sequence of calls with
    failures anywhere (opening, migrating, writing): each call returns, and the
    store represents the outcome of those calls that took effect, in order, each
    as specified and none in part.  When nothing fails and the store is up to date
    all of them took effect, and reading a setting returns what the specification
    holds. *)
Theorem store_refines_book source_chats (h : list (call * list bool)) d b
  (Hp : Forall (fun p => proper p.1) h) (Hr : represents d b) :
  (forall c fs d, run_result (perform source_chats c) fs d = Ok tt) /\
  (exists done, sublist done (map fst h) /\ represents (play source_chats h d) (outcome done b)) /\
  (ready d -> Forall (fun p => p.2 = []) h ->
     represents (play source_chats h d) (outcome (map fst h) b) /\
     forall now k, k <> "schema_version"%string ->
       run_result (read_meta source_chats now k) [] (play source_chats h d) =
       Ok (option_list (b_settings (outcome (map fst h) b) !! k))).
Proof.
  split_and!.
  - intros c fs d0. destruct (perform_written source_chats c) as [now ->]. apply swrite_run.
  - clear - Hp Hr. revert d b Hr. induction Hp as [|[c fs] h Hc Hp IH]; intros d b Hr; cbn; [by exists []|].
    destruct (perform_refines source_chats c fs d b Hc Hr) as [H|H]; destruct (IH _ _ H) as (cs & Hs & HR).
    + exists (c :: cs). split; [by constructor|exact HR].
    + exists cs. split; [by constructor|exact HR].
  - clear - Hp Hr. intros Hd Hf.
    assert (represents (play source_chats h d) (outcome (map fst h) b) /\ ready (play source_chats h d)) as [HR Hd'].
    { revert d b Hr Hd. induction Hp as [|[c fs] h Hc Hp IH]; intros d b Hr Hd; cbn; [done|].
      apply Forall_cons_1 in Hf as [Hfs Hf]. cbn in Hfs. subst fs. rewrite perform_ready by done.
      apply IH; [done|by apply written_refines|by apply written_ready]. }
    split; [done|]. intros now k Hk. unfold run_result, read_meta. rewrite squery_ready by done. cbn.
    destruct HR as (_ & _ & _ & _ & HR). rewrite HR by done. by destruct (_ !! k).
Qed.

End Spec.

(** ** Witness *)

Module SpecDemo.
Definition empty : sdb Q := mk_sdb [("schema_version"%string, Some "4"%string)] [] [] [] [] [] (Some (true, true)).
Definition nothing : @book Q := mk_book ∅ ∅ ∅ ∅ ∅.
Definition calls : list (call * list bool) :=
  [(CallOrder (StoreDemo.order "t-1" "77"), []); (CallDryRun "now" true, []); (CallSetting "note" "x", [])].
End SpecDemo.

Lemma store_refines_book_witness :
  represents (play StoreDemo.repr "" SpecDemo.calls SpecDemo.empty)
    (outcome StoreDemo.repr (map fst SpecDemo.calls) SpecDemo.nothing) /\
  run_result (read_meta "" "later" "dry_run") [] (play StoreDemo.repr "" SpecDemo.calls SpecDemo.empty) = Ok [Some "1"%string].
Proof.
  destruct (store_refines_book StoreDemo.repr "" SpecDemo.calls SpecDemo.empty SpecDemo.nothing) as (_ & _ & H).
  - repeat apply Forall_cons_2; try exact I; [discriminate|constructor].
  - split; [|split; [|split; [|split]]]; intros k; cbn; try (rewrite lookup_empty; reflexivity).
    intros Hk. rewrite lookup_empty. cbn. unfold same_key. cbn. rewrite bool_decide_false by congruence. reflexivity.
  - destruct H as [H1 H2]; [split; [vm_compute; discriminate|reflexivity|reflexivity]|repeat constructor|].
    split; [exact H1|]. rewrite H2 by discriminate. vm_compute. reflexivity.
Defined.
