(* ===== verification/Dashboard.v ===== *)
(** * Dashboard: the operator's controls

    scripts/trade_dashboard.py: the HTTP handler with its host, token and
    content-type gates, the dry-run switch, the symbol map editor, the test-signal
    tool, the trading journal and the pipeline status.  The trade store is the one
    of [TradeStore], inside a larger state; the audit logs, what was posted to
    ingress and the journal file are lists.  A log record whose write fails is
    reported on stderr by the logging library.

    The environment settings, [json.loads], [str(v)] of a value that is not text,
    the URL parser, the clock and the ingress of HTTP requests are arguments.
    The text of a 400 for bad JSON is not modelled. *)

From Stdlib Require Import ZArith QArith Ascii Strings.Byte.
From S2P Require Import Prelude Text PyFloat PyVal Json Prog EaShim TradeStore.
Open Scope Z_scope.

(** ** Text helpers *)

(** [",".join(parts)]. *)
Fixpoint join_comma (l : list chars) : chars :=
  match l with [] => [] | [x] => x | x :: l' => x ++ ","%char :: join_comma l' end.

Fixpoint until_comma (l : chars) : chars :=
  match l with [] => [] | c :: l' => if bool_decide (c = ","%char) then l else until_comma l' end.

Definition secret_key : chars := chars_of "secret=".

Definition starts_with (p l : chars) : bool := bool_decide (p = take (length p) l).

(** [re.sub(r"secret=[^,]*", "secret=***", cmd)]. *)
Fixpoint redact_loop (fuel : nat) (l : chars) : chars :=
  match fuel with
  | O => l
  | S fuel' =>
      match l with
      | [] => []
      | c :: l' =>
          if starts_with secret_key l
          then secret_key ++ chars_of "***" ++ redact_loop fuel' (until_comma (drop 7 l))
          else c :: redact_loop fuel' l'
      end
  end.

Definition redact_chars (l : chars) : chars := redact_loop (length l) l.
Definition _redact (cmd : string) : string := string_of_chars (redact_chars (chars_of cmd)).

(** [^[A-Za-z0-9._#-]{1,24}$] on a stripped text. *)
Definition symbol_char (c : ascii) : bool :=
  let n := nat_of_ascii c in
  is_upper c || is_lower c || (Nat.leb 48 n && Nat.leb n 57) ||
  existsb (fun x => bool_decide (x = c)) ["."; "_"; "#"; "-"]%char.

Definition symbol_name_ok (s : string) : bool :=
  let l := chars_of s in
  Nat.leb 1 (length l) && Nat.leb (length l) 24 && forallb symbol_char l.

Definition EMOTIONS : list string :=
  ["calm"; "confident"; "neutral"; "anxious"; "fearful"; "greedy"; "fomo"; "revenge"; "bored"]%string.

Lemma ascii_wf s : forallb (fun c => Nat.ltb (nat_of_ascii c) 128) (chars_of s) = true -> wf_str s = true.
Proof.
  induction s as [|c s IH]; [done|]. simpl. intros H. bool_hyps. change (String c s) with (String c "" +:+ s)%string.
  apply wf_str_app; [|auto]. clear IH. by destruct c as [[] [] [] [] [] [] [] []].
Qed.

Lemma symbol_name_wf s : symbol_name_ok s = true -> wf_str s = true /\ s <> ""%string.
Proof.
  unfold symbol_name_ok. intros H. bool_hyps. split; [|by intros ->]. apply ascii_wf.
  rewrite forallb_forall in *. intros c Hc. specialize (H0 c Hc). clear -H0. by destruct c as [[] [] [] [] [] [] [] []].
Qed.

Section Dashboard.
Context {F : Type} {A : Arith F}.
Context (float_repr : F -> bytes) (py_str : pyval F -> string).
Context (source_chats now : string).
(** [DASHBOARD_DRY_RUN_DEFAULT], [DASHBOARD_LICENSE_ID], [DASHBOARD_WEBHOOK_SECRET]. *)
Context (DRY_RUN_DEFAULT : bool) (LICENSE_ID WEBHOOK_SECRET : string).

(** The store, the control and test logs, the bodies posted to ingress, the
    journal file ([None]: missing or not JSON), and the records [logging] could not
    write, which it reports on stderr. *)
Record dash := mk_dash {
  ds_store : sdb F;
  ds_control : list (pydict F);
  ds_tests : list (pydict F);
  ds_posted : list string;
  ds_journal : option (pydict F);
  ds_stderr : list (pydict F) }.

Definition put_store (st : sdb F) (s : dash) : dash :=
  mk_dash st (ds_control s) (ds_tests s) (ds_posted s) (ds_journal s) (ds_stderr s).
Definition add_control (r : pydict F) (s : dash) : dash :=
  mk_dash (ds_store s) (ds_control s ++ [r]) (ds_tests s) (ds_posted s) (ds_journal s) (ds_stderr s).
Definition add_test (r : pydict F) (s : dash) : dash :=
  mk_dash (ds_store s) (ds_control s) (ds_tests s ++ [r]) (ds_posted s) (ds_journal s) (ds_stderr s).
Definition add_stderr (r : pydict F) (s : dash) : dash :=
  mk_dash (ds_store s) (ds_control s) (ds_tests s) (ds_posted s) (ds_journal s) (ds_stderr s ++ [r]).
Definition post (body : string) (s : dash) : dash :=
  mk_dash (ds_store s) (ds_control s) (ds_tests s) (ds_posted s ++ [body]) (ds_journal s) (ds_stderr s).
Definition write_journal (j : pydict F) (s : dash) : dash :=
  mk_dash (ds_store s) (ds_control s) (ds_tests s) (ds_posted s) (Some j) (ds_stderr s).

Abbreviation page X := (prog dash exn X).
Abbreviation in_store := (zoom ds_store put_store).

(** [log_txn]: the logging handler swallows the error of a record it cannot write
    and reports it on stderr. *)
Definition log_control (r : pydict F) : page unit :=
  Stmt (add_control r) (fun _ => ret tt) (act (add_stderr r)).
Definition log_test (r : pydict F) : page unit :=
  Stmt (add_test r) (fun _ => ret tt) (act (add_stderr r)).

(** A JSON answer: status and body. *)
Abbreviation answer := (Z * pydict F)%type.

Definition get (payload : pydict F) (k : string) : pyval F := default PNone (dict_get payload k).

(** [str(v)]. *)
Definition str_of (v : pyval F) : string :=
  match v with
  | PStr s => s
  | PInt z => pretty z
  | PBool b => if b then "True" else "False"
  | PNone => "None"
  | PFloat f => string_of_bytes (float_repr f)
  | PList _ | PDict _ => py_str v
  end%string.

(** [str(payload.get(k) or "").strip()]. *)
Definition text_field (payload : pydict F) (k : string) : string :=
  strip (str_of (py_or (get payload k) (PStr ""))).

(** ** Dry run *)

Definition effective_dry_run : page bool := in_store (get_dry_run source_chats now DRY_RUN_DEFAULT).

(** [is True] and [is False]: the JSON booleans, nothing else. *)
Definition is_true (v : pyval F) : bool := match v with PBool true => true | _ => false end.

Definition fail_body (error : string) : pydict F := [("ok"%string, PBool false); ("error"%string, PStr error)].

Definition no_license : string :=
  "DASHBOARD_LICENSE_ID is not set — it prefixes every broker command, so going live would emit malformed orders. Set it in .env and restart the stack before switching off dry-run.".

Definition set_dry_run_mode (payload : pydict F) : page answer :=
  match get payload "enabled" with
  | PBool enabled =>
      if negb enabled && negb (is_true (get payload "confirm")) then
        dry <- effective_dry_run ;;
        ret (400, fail_body "confirm must be true to turn dry-run off (this arms live trading)" ++
                  [("dry_run"%string, PBool dry)])
      else if negb enabled && bool_decide (LICENSE_ID = ""%string) then
        dry <- effective_dry_run ;;
        ret (409, fail_body no_license ++ [("dry_run"%string, PBool dry)])
      else
        before <- effective_dry_run ;;
        in_store (set_dry_run source_chats now enabled) ;;;
        after <- effective_dry_run ;;
        let ok := Bool.eqb after enabled in
        log_control [("action"%string, PStr "dry_run"); ("before"%string, PBool before);
               ("after"%string, PBool after); ("requested"%string, PBool enabled); ("ok"%string, PBool ok)] ;;;
        ret (200, [("ok"%string, PBool ok); ("dry_run"%string, PBool after)])
  | _ => ret (400, fail_body "enabled must be true or false")
  end.

(** ** Symbol map *)

(** The entries of a map read from the store are texts. *)
Definition entries (d : pydict F) : list (string * string) := map (fun kv => (kv.1, str_of kv.2)) d.

(** [d.pop(k)]: the rest of the dict. *)
Definition without (k : string) (d : pydict F) : pydict F := List.filter (fun kv => negb (bool_decide (kv.1 = k))) d.

Definition has_key (k : string) (d : pydict F) : bool := existsb (fun kv => bool_decide (kv.1 = k)) d.

Definition read_map : page (pydict F) := in_store (get_symbol_map py_str source_chats now).
Definition write_map (d : pydict F) : page unit := in_store (set_symbol_map float_repr source_chats now (entries d)).

Definition update_symbol_map (payload : pydict F) : page answer :=
  let alias := upper (text_field payload "alias") in
  if negb (symbol_name_ok alias)
  then ret (400, fail_body "alias must be 1-24 characters: letters, digits, . _ - #")
  else
    current <- read_map ;;
    if is_true (get payload "delete") then
      match dict_get current alias with
      | None => ret (404, fail_body ("no mapping for " +:+ alias)%string ++ [("map"%string, PDict current)])
      | Some removed =>
          write_map (without alias current) ;;;
          after <- read_map ;;
          let ok := negb (has_key alias after) in
          log_control [("action"%string, PStr "symbol_map_delete"); ("alias"%string, PStr alias);
                 ("broker"%string, removed); ("ok"%string, PBool ok)] ;;;
          ret (200, [("ok"%string, PBool ok); ("map"%string, PDict after)])
      end
    else
      let broker := text_field payload "broker" in
      if negb (symbol_name_ok broker)
      then ret (400, fail_body "broker symbol must be 1-24 characters: letters, digits, . _ - #")
      else
        let before := default PNone (dict_get current alias) in
        write_map (dict_set current alias (PStr broker)) ;;;
        after <- read_map ;;
        let ok := match dict_get after alias with Some v => is_text broker v | None => false end in
        log_control [("action"%string, PStr "symbol_map_set"); ("alias"%string, PStr alias);
               ("broker"%string, PStr broker); ("before"%string, before); ("ok"%string, PBool ok)] ;;;
        ret (if ok then 200 else 500, [("ok"%string, PBool ok); ("map"%string, PDict after)]).

(** ** Test signals *)

Definition WEBHOOK_TEST_COMMANDS : list string := ["BUY"; "CLOSELONG"; "CLOSESHORT"; "SELL"]%string.
Definition WEBHOOK_TEST_OPENS : list string := ["BUY"; "SELL"]%string.

Definition kv_part (k : string) (v : string) : chars := chars_of (k +:+ "=" +:+ v)%string.

(** The volume, risk and stop parts of an opening command. *)
Definition open_parts (fields : pydict F) : result string (list chars) :=
  let vol_lots := text_field fields "vol_lots" in
  if bool_decide (vol_lots = ""%string) then Err "vol_lots is required for BUY/SELL"%string
  else
    let risk_mode := strip (str_of (py_or (get fields "risk_mode") (PStr "bypass"))) in
    let! risk :=
      (if bool_decide (risk_mode = "bypass"%string) then Ok [kv_part "risk" "0"]
       else if bool_decide (risk_mode = "custom"%string) then
         let risk_val := text_field fields "risk" in
         if bool_decide (risk_val = ""%string) then Err "risk is required when risk_mode is 'custom'"%string
         else Ok [kv_part "risk" risk_val]
       else if bool_decide (risk_mode = "stack"%string) then Ok []
       else Err "risk_mode must be one of bypass, custom, stack"%string) in
    let sl := text_field fields "sl" in
    let tp := text_field fields "tp" in
    if bool_decide (sl = ""%string) || bool_decide (tp = ""%string)
    then Err "sl and tp are required for BUY/SELL"%string
    else Ok (kv_part "vol_lots" vol_lots :: risk ++ [kv_part "sl" sl; kv_part "tp" tp]).

Definition command_parts (fields : pydict F) : result string (list chars) :=
  let command := upper (text_field fields "command") in
  if negb (in_words command WEBHOOK_TEST_COMMANDS)
  then Err ("command must be one of " +:+ join ", " WEBHOOK_TEST_COMMANDS)%string
  else
    let symbol := text_field fields "symbol" in
    if bool_decide (symbol = ""%string) then Err "symbol is required"%string
    else
      let! more := (if in_words command WEBHOOK_TEST_OPENS then open_parts fields else Ok []) in
      let comment := strip (str_of (py_or (get fields "comment") (PStr "webhook-test"))) in
      Ok ([chars_of LICENSE_ID; chars_of command; chars_of symbol] ++ more ++
          (if bool_decide (comment = ""%string) then [] else [kv_part "comment" comment])).

Definition build_test_signal_command (fields : pydict F) : result string string :=
  let! parts := command_parts fields in
  Ok (string_of_chars (join_comma (parts ++
        (if bool_decide (WEBHOOK_SECRET = ""%string) then [] else [kv_part "secret" WEBHOOK_SECRET])))).

(** What [_post_to_ingress] returns for a body, or the text of the exception. *)
Abbreviation posted := (string -> result string (Z * string * string)).

Definition strings (l : list string) : pyval F := PList (map PStr l).

Definition refused : string :=
  "system is in DRY-RUN — test signal refused (turn dry-run off in the pipeline bar to place orders)".

Definition send_test_signal (ingress : posted) (payload : pydict F) : page answer :=
  dry <- effective_dry_run ;;
  let warnings := (if (dry : bool) then ["system is in DRY-RUN"%string] else []) ++
    (if bool_decide (LICENSE_ID = ""%string) then ["DASHBOARD_LICENSE_ID is not set — ingress will reject with license_rejected"%string] else []) in
  match build_test_signal_command payload with
  | Err err => ret (400, [("ok"%string, PBool false); ("commands"%string, PList []);
                          ("warnings"%string, strings warnings); ("errors"%string, strings [err])])
  | Ok command =>
      let redacted := _redact command in
      let preview := [("ok"%string, PBool true); ("commands"%string, strings [redacted]);
                      ("warnings"%string, strings warnings); ("errors"%string, strings [])] in
      if negb (is_true (get payload "confirm")) then ret (200, preview)
      else
        dry <- effective_dry_run ;;
        if (dry : bool) then
          ret (409, fail_body refused ++ [("preview"%string, PDict preview)])
        else
          act (post command) ;;;
          let '(status, resp_text, trace_id) := match ingress command with Ok r => r | Err e => (0, e, ""%string) end in
          let ok := status =? 200 in
          log_test [("command"%string, PStr redacted); ("http_status"%string, PInt status);
                 ("trace_id"%string, PStr trace_id); ("ok"%string, PBool ok)] ;;;
          ret (200, [("ok"%string, PBool ok);
            ("results"%string, PList [PDict [("http_status"%string, PInt status); ("trace_id"%string, PStr trace_id);
               ("response"%string, PStr (str_take 300 resp_text))]]);
            ("warnings"%string, strings warnings)])
  end.

(** ** Journal *)

(** [int(rating) if rating and str(rating).isdigit() and 1 <= int(rating) <= 5]. *)
Definition rating_of (rating : pyval F) : pyval F :=
  let t := str_of rating in
  if truthy rating && negb (bool_decide (t = ""%string)) &&
     forallb (fun c => match digit_of c with Some _ => true | None => false end) (chars_of t)
  then match parse_int t with Some n => if (1 <=? n) && (n <=? 5) then PInt n else PNone | None => PNone end
  else PNone.

Definition str_default (payload : pydict F) (k : string) : string := str_of (default (PStr "") (dict_get payload k)).

Definition journal_entry (payload : pydict F) : pydict F :=
  [("setup"%string, PStr (str_take 120 (str_default payload "setup")));
   ("emotion"%string, match get payload "emotion" with
      | PStr e => if in_words e EMOTIONS then PStr e else PStr "" | _ => PStr "" end);
   ("mistakes"%string, PStr (str_take 500 (str_default payload "mistakes")));
   ("rating"%string, rating_of (get payload "rating"));
   ("notes"%string, PStr (str_take 4000 (str_default payload "notes")));
   ("reviewed"%string, PBool (truthy (get payload "reviewed")));
   ("updated_at"%string, PStr now)].

(** [None] is the ValueError of a missing ticket.  The file is read and replaced
    under a lock, in one step, which may fail. *)
Definition save_journal_entry (payload : pydict F) : page (option (pydict F)) :=
  let ticket := strip (str_default payload "ticket") in
  if bool_decide (ticket = ""%string) then ret None
  else
    let entry := journal_entry payload in
    exec StoreError (fun s => write_journal (dict_set (default [] (ds_journal s)) ticket (PDict entry)) s) ;;;
    ret (Some entry).

(** ** The handler *)

Context (ALLOWED_HOSTS : list string) (DASHBOARD_TOKEN : string).
Context (path_of : string -> string) (query_of : string -> list (string * string)).
Context (json_loads : bytes -> option (pyval F)).

Record request := mk_req {
  rq_host : option string; rq_target : string; rq_token : option string; rq_ctype : option string;
  rq_length : option string; rq_body : bytes }.

(** [Dropped] is a TypeError or AttributeError that escapes the handler, as does
    an [Err] result: no response is written. *)
Inductive reply :=
| Reply (status : Z) (body : pydict F)
| TextReply (status : Z) (body : string)
| Dropped.

Definition _host_ok (r : request) : bool := in_words (lower (strip (default ""%string (rq_host r)))) ALLOWED_HOSTS.

Definition first_query (k : string) (target : string) : option string :=
  snd <$> List.find (fun kv => bool_decide (kv.1 = k)) (query_of target).

Definition ascii_only (s : string) : bool := forallb (fun c => Nat.ltb (nat_of_ascii c) 128) (chars_of s).

(** [hmac.compare_digest] raises a TypeError ([None]) on texts that are not ASCII. *)
Definition _token_ok (r : request) : option bool :=
  if bool_decide (DASHBOARD_TOKEN = ""%string) then Some true
  else
    let header := default ""%string (rq_token r) in
    let supplied := if bool_decide (header = ""%string) then default ""%string (first_query "token" (rq_target r))
                    else header in
    if bool_decide (supplied = ""%string) then Some false
    else if ascii_only supplied && ascii_only DASHBOARD_TOKEN then Some (bool_decide (supplied = DASHBOARD_TOKEN))
    else None.

Definition JSON_POST_ROUTES : list string :=
  ["/api/journal"; "/api/dryrun"; "/api/webhook-test/send"; "/api/symbol-map"]%string.

Definition content_type (r : request) : string :=
  lower (strip (default ""%string (head (split ";"%char (default ""%string (rq_ctype r)))))).

(** Content-Length and JSON: [None] is a ValueError.  [read] of a negative number
    reads to the end. *)
Definition read_payload (r : request) : option (pyval F) :=
  match (match rq_length r with Some t => parse_int t | None => Some 0 end) with
  | None => None
  | Some n =>
      let data := if n <? 0 then rq_body r else take (Z.to_nat n) (rq_body r) in
      match data with [] => Some (PDict []) | _ => json_loads data end
  end.

Definition reply_of (a : answer) : reply := Reply a.1 a.2.

Definition post_route (ingress : posted) (path : string) (payload : pydict F) : page reply :=
  if bool_decide (path = "/api/journal"%string) then
    e <- save_journal_entry payload ;;
    ret (match e with Some entry => Reply 200 entry | None => TextReply 400 "ticket required" end)
  else if bool_decide (path = "/api/dryrun"%string) then a <- set_dry_run_mode payload ;; ret (reply_of a)
  else if bool_decide (path = "/api/webhook-test/send"%string) then
    a <- send_test_signal ingress payload ;; ret (reply_of a)
  else a <- update_symbol_map payload ;; ret (reply_of a).

Definition do_POST (ingress : posted) (r : request) : page reply :=
  if negb (_host_ok r) then ret (TextReply 403 "forbidden: bad host")
  else
    let path := path_of (rq_target r) in
    if negb (in_words path JSON_POST_ROUTES) then ret (TextReply 404 "")
    else match _token_ok r with
      | None => ret Dropped
      | Some false => ret (TextReply 401 "unauthorized")
      | Some true =>
          if negb (bool_decide (content_type r = "application/json"%string))
          then ret (TextReply 403 "forbidden: Content-Type must be application/json")
          else match read_payload r with
            | None => ret (TextReply 400 "")
            | Some (PDict payload) => post_route ingress path payload
            | Some _ => ret Dropped
            end
      end.

(** ** What the gates guarantee *)

(** The request passed every gate of [do_POST] with this payload. *)
Definition admitted (r : request) (path : string) (payload : pydict F) : Prop :=
  _host_ok r = true /\ path_of (rq_target r) = path /\ _token_ok r = Some true /\
  content_type r = "application/json"%string /\ read_payload r = Some (PDict payload).

(** A request that changes anything was admitted, and its route did it. *)
Lemma do_POST_admitted ingress r faults s :
  run_state (do_POST ingress r) faults s <> s ->
  exists path payload, path ∈ JSON_POST_ROUTES /\ admitted r path payload /\
    run_state (do_POST ingress r) faults s = run_state (post_route ingress path payload) faults s.
Proof.
  unfold do_POST, admitted. destruct (_host_ok r); [|done]. cbn [negb].
  destruct (in_words _ _) eqn:Hp; [|done]. destruct (_token_ok r) as [[]|]; [|done..]. cbn [negb].
  case_bool_decide; [|done]. cbn [negb]. destruct (read_payload r) as [[]|]; try done.
  intros _. eexists _, _. split_and!; try done. by apply in_words_elem.
Qed.

Lemma run_state_map {X Y} (p : page X) (f : X -> Y) fs s : run_state (a <- p ;; ret (f a)) fs s = run_state p fs s.
Proof. unfold run_state. rewrite run_bind. by destruct (run p fs s) as [[[]] ]. Qed.

(** The mode the store holds. *)
Definition store_dry (d : sdb F) : bool :=
  dry_run_of (map snd (List.filter (same_key "dry_run") (s_meta d))) DRY_RUN_DEFAULT.
Definition dry_now (s : dash) : bool := store_dry (ds_store s).

Definition keeps_dry (s s' : dash) : Prop := dry_now s = true -> dry_now s' = true.

Lemma keeps_dry_refl : reflexive _ keeps_dry.
Proof. intros s H. exact H. Qed.
Lemma keeps_dry_trans : transitive _ keeps_dry.
Proof. intros s1 s2 s3 H1 H2 H. auto. Qed.

Lemma same_settings_dry d d' : same_settings d d' -> store_dry d' = store_dry d.
Proof. intros [_ H]. unfold store_dry. by rewrite H. Qed.

Lemma in_store_steps {X} (p : prog (sdb F) exn X) :
  steps_in (fun d d' => store_dry d = true -> store_dry d' = true) p -> steps_in keeps_dry (in_store p).
Proof. apply steps_in_zoom. by intros s d. Qed.

Lemma log_steps (R : dash -> dash -> Prop) (f g : dash -> dash) :
  (forall s, R s (f s)) -> (forall s, R s (g s)) -> steps_in R (Stmt f (fun _ => ret tt) (act g) : page unit).
Proof. by repeat split. Qed.

Lemma read_steps {X} key (k : list (option string) -> X) :
  steps_in keeps_dry (in_store (rows <- read_meta source_chats now key ;; ret (k rows))).
Proof.
  apply in_store_steps, steps_in_bind; [|done]. eapply steps_in_mono; [|apply squery_steps].
  intros d d' H. by rewrite (same_settings_dry d d').
Qed.

Lemma dry_steps : steps_in keeps_dry effective_dry_run.
Proof. exact (read_steps "dry_run" (fun rows => dry_run_of rows DRY_RUN_DEFAULT)). Qed.

Lemma read_map_steps : steps_in keeps_dry read_map.
Proof. exact (read_steps "symbol_map" _). Qed.

Lemma write_map_steps d : steps_in keeps_dry (write_map d).
Proof.
  apply in_store_steps, swrite_steps; [by intros ? ? H; rewrite (same_settings_dry _ _ H)|].
  intros x. unfold store_dry. cbn [on_meta s_meta]. by rewrite !filter_meta_put.
Qed.

Lemma set_true_steps : steps_in keeps_dry (in_store (set_dry_run source_chats now true)).
Proof.
  apply in_store_steps, swrite_steps; [by intros ? ? H; rewrite (same_settings_dry _ _ H)|].
  intros x _. unfold store_dry. cbn [on_meta s_meta]. rewrite filter_meta_put by done.
  by destruct (filter_meta_put_eq "dry_run" "1" (s_meta x)) as [l ->].
Qed.

Ltac steps :=
  repeat first
    [ apply steps_in_ret | simple apply dry_steps | simple apply read_map_steps | simple apply write_map_steps | simple apply set_true_steps
    | apply steps_in_bind; [|intros]
    | apply steps_in_act; intros ? H; exact H
    | apply log_steps; intros ? H; exact H
    | match goal with |- steps_in _ (if ?x then _ else _) => destruct x end
    | match goal with |- steps_in _ (match ?x with _ => _ end) => destruct x end ].

Lemma journal_steps payload : steps_in keeps_dry (save_journal_entry payload).
Proof. unfold save_journal_entry. steps. split; [by intros s H|done]. Qed.

Lemma test_steps ingress payload : steps_in keeps_dry (send_test_signal ingress payload).
Proof. unfold send_test_signal. steps. Qed.

Lemma map_steps payload : steps_in keeps_dry (update_symbol_map payload).
Proof. unfold update_symbol_map. steps. Qed.

(** Reading the mode never raises and changes no setting. *)
Lemma dry_run_run fs s : exists b d' fs', run effective_dry_run fs s = (Ok b, put_store d' s, fs') /\
  store_dry d' = dry_now s /\ (b = DRY_RUN_DEFAULT \/ b = dry_now s).
Proof.
  unfold effective_dry_run. rewrite run_zoom by (by intros; repeat match goal with x : dash |- _ => destruct x end).
  unfold get_dry_run, read_meta. rewrite run_bind.
  match goal with |- context [squery _ _ ?f] => destruct (squery_run source_chats now f fs (ds_store s))
    as (rows & d' & fs' & -> & HS & H) end.
  eexists _, d', fs'. cbn [run ret]. split; [done|]. split; [by apply same_settings_dry|].
  destruct H as [->|[= <-]]; [by left|]. right. by apply same_settings_dry.
Qed.

Lemma set_dry_run_run enabled fs s : exists d' fs',
  run (in_store (set_dry_run source_chats now enabled)) fs s = (Ok tt, put_store d' s, fs').
Proof.
  rewrite run_zoom by (by intros; repeat match goal with x : dash |- _ => destruct x end).
  unfold set_dry_run, swrite. rewrite run_try. match goal with |- context [run ?p fs ?d] => destruct (run p fs d) as [[[[]|e] d'] fs'] end;
    by eexists d', fs'.
Qed.

(** The record is on the control log, or its write failed and stderr has it. *)
Definition receipt (rec : pydict F) (s s' : dash) : Prop :=
  (ds_control s' = ds_control s ++ [rec] /\ ds_stderr s' = ds_stderr s) \/
  (ds_control s' = ds_control s /\ ds_stderr s' = ds_stderr s ++ [rec]).

(** An accepted change of mode leaves its receipt whatever happens to it. *)
Lemma set_dry_run_logged payload enabled fs s :
  get payload "enabled" = PBool enabled -> (enabled = false -> get payload "confirm" = PBool true /\ LICENSE_ID <> ""%string) ->
  exists rec, receipt rec s (run_state (set_dry_run_mode payload) fs s) /\
    dict_get rec "action" = Some (PStr "dry_run") /\ dict_get rec "requested" = Some (PBool enabled).
Proof.
  intros He Hc. unfold set_dry_run_mode. rewrite He.
  replace (negb enabled && negb (is_true (get payload "confirm"))) with false
    by (destruct enabled; [done|]; by destruct (Hc eq_refl) as [-> _]).
  replace (negb enabled && bool_decide (LICENSE_ID = ""%string)) with false
    by (destruct enabled; [done|]; destruct (Hc eq_refl) as [_ ?]; by rewrite bool_decide_false).
  unfold run_state. rewrite run_bind. destruct (dry_run_run fs s) as (b & d1 & fs1 & -> & _).
  rewrite run_bind. destruct (set_dry_run_run enabled fs1 (put_store d1 s)) as (d2 & fs2 & ->).
  rewrite run_bind. destruct (dry_run_run fs2 (put_store d2 (put_store d1 s))) as (b' & d3 & fs3 & -> & _).
  unfold receipt. destruct fs3 as [|[] fs3]; eexists; (split; [cbn; auto|done]).
Qed.

Lemma set_dry_run_steps payload :
  (exists enabled, get payload "enabled" = PBool enabled /\
     (enabled = false -> get payload "confirm" = PBool true /\ LICENSE_ID <> ""%string)) \/
  steps_in keeps_dry (set_dry_run_mode payload).
Proof.
  unfold set_dry_run_mode. destruct (get payload "enabled") as [|enabled| | | | |]; try by right.
  destruct (is_true (get payload "confirm")) eqn:Hc.
  - destruct (decide (LICENSE_ID = ""%string)) as [->|Hl].
    + destruct enabled; [by left; eexists|]. right. steps.
    + left. eexists. split; [done|]. intros _. split; [|done]. by destruct (get payload "confirm") as [|[]| | | | |].
  - destruct enabled; [by left; eexists|]. right. steps.
Qed.

Lemma post_route_live ingress path payload faults s : path ∈ JSON_POST_ROUTES ->
  dry_now s = true -> dry_now (run_state (post_route ingress path payload) faults s) = false ->
  path = "/api/dryrun"%string /\ dry_now (run_state (set_dry_run_mode payload) faults s) = false /\
  run_state (post_route ingress path payload) faults s = run_state (set_dry_run_mode payload) faults s.
Proof.
  intros Hp Hd. assert (forall X (p : page X), steps_in keeps_dry p -> dry_now (run_state p faults s) = false -> False) as K.
  { intros X p Hs. by rewrite (run_steps_in _ p faults s keeps_dry_refl keeps_dry_trans Hs Hd). }
  unfold post_route. repeat case_bool_decide; subst; rewrite run_state_map; intros Hf; try done; exfalso; eapply K; try apply Hf.
  - apply journal_steps.
  - apply test_steps.
  - apply map_steps.
Qed.

(** C11: going live is deliberate.  Whatever fails on the way, a POST that takes the
    store out of dry-run was a request to the dry-run switch that passed the host,
    token and content-type gates and carried the JSON booleans [enabled: false] and
    [confirm: true], with a license configured; and its record is on the control log,
    unless the write of that record failed, and then [logging] has reported it on
    stderr instead. *)
Theorem going_live_is_deliberate ingress r faults s
  (Hdry : dry_now s = true)
  (Hlive : dry_now (run_state (do_POST ingress r) faults s) = false) :
  exists payload rec, admitted r "/api/dryrun" payload /\
    get payload "enabled" = PBool false /\ get payload "confirm" = PBool true /\ LICENSE_ID <> ""%string /\
    receipt rec s (run_state (do_POST ingress r) faults s) /\
    dict_get rec "action" = Some (PStr "dry_run") /\ dict_get rec "requested" = Some (PBool false).
Proof.
  destruct (do_POST_admitted ingress r faults s) as (path & payload & Hp & Ha & E); [by intros E; rewrite E, Hdry in Hlive|].
  rewrite E in *. apply post_route_live in Hlive as (-> & Hlive & ->); [|done..].
  destruct (set_dry_run_steps payload) as [([] & He & Hc)|Hs].
  - (* turning it on keeps the store dry *)
    exfalso. revert Hlive. unfold set_dry_run_mode. rewrite He. cbn [negb andb].
    match goal with |- dry_now (run_state ?p _ _) = _ -> _ => assert (steps_in keeps_dry p) as Hs by steps end.
    intros Hl. pose proof (run_steps_in _ _ faults s keeps_dry_refl keeps_dry_trans Hs Hdry) as K.
    discriminate (eq_trans (eq_sym K) Hl).
  - destruct (Hc eq_refl) as [H1 H2]. destruct (set_dry_run_logged payload false faults s He Hc) as (rec & H3 & H4 & H5).
    by exists payload, rec.
  - by rewrite (run_steps_in _ _ faults s keeps_dry_refl keeps_dry_trans Hs Hdry) in Hlive.
Qed.

(** ** Test signals *)

Definition keeps_posts (s s' : dash) : Prop := ds_posted s' = ds_posted s.

Lemma in_store_posts {X} (p : prog (sdb F) exn X) : steps_in keeps_posts (in_store p).
Proof. induction p; simpl; split_and?; done || auto. Qed.

Ltac quiet :=
  repeat first
    [ apply steps_in_ret | simple apply in_store_posts
    | apply steps_in_bind; [|intros]
    | apply steps_in_act; by intros ?
    | apply log_steps; by intros ?
    | match goal with |- steps_in _ (if ?x then _ else _) => destruct x end
    | match goal with |- steps_in _ (match ?x with _ => _ end) => destruct x end ].

Lemma other_routes_post_nothing ingress path payload faults s : path <> "/api/webhook-test/send"%string ->
  ds_posted (run_state (post_route ingress path payload) faults s) = ds_posted s.
Proof.
  intros Hp. apply (run_steps_in keeps_posts); [done|by intros ? ? ? H1 H2; unfold keeps_posts in *; congruence|].
  unfold post_route. rewrite (bool_decide_false (path = "/api/webhook-test/send"%string)) by done.
  unfold save_journal_entry, set_dry_run_mode, update_symbol_map, effective_dry_run, read_map, write_map. quiet.
  by repeat split.
Qed.

(** What a test signal posts, branch by branch. *)
Lemma send_test_signal_posts ingress payload faults s :
  ds_posted (run_state (send_test_signal ingress payload) faults s) = ds_posted s \/
  exists command, build_test_signal_command payload = Ok command /\ get payload "confirm" = PBool true /\
    ds_posted (run_state (send_test_signal ingress payload) faults s) = ds_posted s ++ [command] /\
    (DRY_RUN_DEFAULT = true -> dry_now s = false).
Proof.
  unfold send_test_signal, run_state. rewrite run_bind. destruct (dry_run_run faults s) as (b & d1 & fs1 & -> & H1 & _).
  destruct (build_test_signal_command payload) as [command|err]; [|by left].
  destruct (is_true (get payload "confirm")) eqn:Hc; [|by left]. cbn [negb].
  rewrite run_bind. destruct (dry_run_run fs1 (put_store d1 s)) as (b' & d2 & fs2 & -> & _ & H2).
  destruct b'; [by left|]. right. exists command. split; [done|].
  split; [by destruct (get payload "confirm") as [|[]| | | | |]|].
  split; [by destruct (ingress command) as [[[? ?] ?]|], fs2 as [|[] fs2]|]. intros Hd. destruct H2 as [H2|H2]; [congruence|].
  unfold dry_now in H2. cbn [put_store ds_store] in H2. congruence.
Qed.

(** C23: a test signal reaches ingress only on purpose and never in dry-run.  Whatever
    fails, a POST after which more was sent to ingress was an admitted request to
    the test-signal route with [confirm: true]; exactly the command built from its
    fields was sent; and where dry-run is the default, the store said live. *)
Theorem test_signal_gated ingress r faults s
  (Hpost : ds_posted (run_state (do_POST ingress r) faults s) <> ds_posted s) :
  exists payload command, admitted r "/api/webhook-test/send" payload /\ get payload "confirm" = PBool true /\
    build_test_signal_command payload = Ok command /\
    ds_posted (run_state (do_POST ingress r) faults s) = ds_posted s ++ [command] /\
    (DRY_RUN_DEFAULT = true -> dry_now s = false).
Proof.
  destruct (do_POST_admitted ingress r faults s) as (path & payload & Hp & Ha & E); [by intros E; rewrite E in Hpost|].
  rewrite E in *. destruct (decide (path = "/api/webhook-test/send"%string)) as [->|Hn];
    [|by rewrite other_routes_post_nothing in Hpost].
  change (post_route ingress "/api/webhook-test/send" payload)
    with (a <- send_test_signal ingress payload ;; ret (reply_of a)) in *.
  rewrite run_state_map in *.
  destruct (send_test_signal_posts ingress payload faults s) as [?|(command & H1 & H2 & H3 & H4)]; [done|].
  by exists payload, command.
Qed.

(** ** The symbol map editor *)

Lemma entries_clean (d : pydict F) : clean_dict d -> clean (entries d) = d.
Proof.
  intros Hd. rewrite <-(clean_fixed py_str d Hd) at 2. f_equal. unfold entries. destruct Hd as [Hc _].
  induction Hc as [|[k v] d (x & E & _) Hc IH]; [done|]. simpl in *. subst v. by rewrite IH.
Qed.

Lemma read_map_ready s : ready (ds_store s) ->
  exists m, run read_map [] s = (Ok m, s, []) /\ clean_dict m.
Proof.
  intros Hr. destruct (get_symbol_map_ready py_str source_chats now _ Hr) as (m & E & Hm). exists m. split; [|done].
  unfold read_map. rewrite run_zoom by (by intros; repeat match goal with x : dash |- _ => destruct x end).
  rewrite E. by destruct s.
Qed.

Definition wf_items (d : pydict F) : Prop :=
  Forall (fun kv => wf_str kv.1 = true /\ forall s, kv.2 = PStr s -> wf_str s = true) d.

(** Writing a clean map and reading it back. *)
Lemma write_map_read m s : ready (ds_store s) -> clean_dict m -> wf_items (sort_items m) ->
  exists s' m', run (write_map m) [] s = (Ok tt, s', []) /\ run read_map [] s' = (Ok m', s', []) /\
    ds_control s' = ds_control s /\ forall k, dict_get m' k = dict_get m k.
Proof.
  intros Hr Hm Hw. pose proof (entries_clean m Hm) as E.
  destruct (set_symbol_map_read float_repr py_str source_chats now (entries m) (ds_store s) Hr) as (d' & H1 & _ & H2); [by rewrite E|].
  exists (put_store d' s), (sort_items m). unfold write_map, read_map.
  rewrite !run_zoom by (by intros; repeat match goal with x : dash |- _ => destruct x end).
  rewrite H1. cbn [put_store ds_store]. rewrite H2, E. split_and!; try done. apply (sort_items_clean py_str m Hm).
Qed.

Lemma insert_item_elem kv (d : pydict F) x : x ∈ insert_item kv d -> x = kv \/ x ∈ d.
Proof using Type.
  induction d as [|kv' d IH]; simpl; [by rewrite list_elem_of_singleton; left|].
  destruct (String.ltb _ _); rewrite !elem_of_cons; [done|].
  intros [->|[->|H]%IH]; [right; by left|by left|right; by right].
Qed.

Lemma wf_items_sort d : wf_items d -> wf_items (sort_items d).
Proof.
  intros H. apply list.Forall_forall. intros x Hx. pose proof (proj1 (list.Forall_forall _ _) H) as H2. apply H2. clear H H2. revert x Hx.
  induction d as [|kv d IH]; [done|]. cbn [sort_items fold_right]. intros x [->|?]%insert_item_elem; [left|right; auto].
Qed.

Lemma wf_items_set d k v : wf_items d -> wf_str k = true -> wf_str v = true -> wf_items (dict_set d k (PStr v)).
Proof.
  intros H Hk Hv. induction H as [|[k' v'] d H1 H IH]; simpl.
  - constructor; [|constructor]. split; [done|]. cbn; intros ? E; injection E as <-; exact Hv.
  - case_bool_decide; constructor; try done. split; [first [exact Hk|apply H1]|]. cbn; intros ? E; injection E as <-; exact Hv.
Qed.

Lemma without_clean k d : clean_dict d -> clean_dict (without k d).
Proof.
  intros [Hc Hn]. unfold without. split.
  - clear Hn. induction Hc as [|kv d H Hc IH]; [constructor|]. simpl. destruct (negb _); [by constructor|done].
  - induction d as [|kv d IH]; [constructor|]. inversion_clear Hc. inversion_clear Hn. simpl. destruct (negb _); [|auto].
    simpl. constructor; [|auto]. intros (x & E & Hx)%list_elem_of_fmap. apply filter_elem in Hx as [Hx _].
    apply H1. rewrite E. by apply list_elem_of_fmap_2.
Qed.

Lemma without_get k (d : pydict F) k' :
  dict_get (without k d) k' = if bool_decide (k' = k) then None else dict_get d k'.
Proof.
  unfold without. induction d as [|[k1 v1] d IH]; simpl; [by case_bool_decide|].
  destruct (decide (k1 = k)) as [->|E1]; [rewrite bool_decide_true by done|rewrite (bool_decide_false (k1 = k)) by done]; simpl;
    rewrite IH; repeat case_bool_decide; congruence || done.
Qed.

Lemma wf_items_without k d : wf_items d -> wf_items (without k d).
Proof.
  intros H. unfold without. induction H as [|kv d H1 H IH]; [constructor|]. simpl. destruct (negb _); [by constructor|done].
Qed.

(** Logging does not change what is read. *)
Lemma read_map_log rec s m : run read_map [] s = (Ok m, s, []) -> run_result read_map [] (add_control rec s) = Ok m.
Proof.
  unfold run_result, read_map. rewrite !run_zoom by (by intros; repeat match goal with x : dash |- _ => destruct x end).
  cbn [add_control ds_store]. destruct (run _ [] _) as [[r d] fs]. by intros [= -> _ _].
Qed.

Lemma has_key_get k (d : pydict F) : has_key k d = match dict_get d k with Some _ => true | None => false end.
Proof.
  unfold has_key. induction d as [|[k' v] d IH]; [done|]. simpl. rewrite IH. by repeat case_bool_decide.
Qed.

(** An accepted edit of the symbol map does exactly what was asked.  In an
    up-to-date store a valid alias and broker symbol (or the deletion of a mapped
    alias) is answered 200 with the map as the executor will read it next: the one
    alias set (or gone), every other one as before; and the edit is logged. *)
Theorem symbol_map_edit payload s current
  (Hr : ready (ds_store s)) (Hcur : run_result read_map [] s = Ok current) (Hw : wf_items current)
  (Ha : symbol_name_ok (upper (text_field payload "alias")) = true)
  (Hb : if is_true (get payload "delete") then has_key (upper (text_field payload "alias")) current = true
        else symbol_name_ok (text_field payload "broker") = true) :
  exists m s', run (update_symbol_map payload) [] s =
      (Ok (200, [("ok"%string, PBool true); ("map"%string, PDict m)]), s', []) /\
    run_result read_map [] s' = Ok m /\ length (ds_control s') = S (length (ds_control s)) /\
    forall k, dict_get m k =
      if bool_decide (k = upper (text_field payload "alias"))
      then (if is_true (get payload "delete") then None else Some (PStr (text_field payload "broker")))
      else dict_get current k.
Proof using A float_repr py_str source_chats now.
  destruct (read_map_ready s Hr) as (m0 & Hm & Hc). unfold run_result in Hcur. rewrite Hm in Hcur. injection Hcur as ->.
  unfold update_symbol_map. set (alias := upper (text_field payload "alias")) in *.
  rewrite Ha. cbn [negb]. rewrite run_bind, Hm. destruct (symbol_name_wf _ Ha) as [Wa Na].
  destruct (is_true (get payload "delete")).
  - rewrite has_key_get in Hb. destruct (dict_get current alias) as [removed|]; [|done].
    destruct (write_map_read (without alias current) s Hr) as (s' & m' & H1 & H2 & H3 & H4);
      [by apply without_clean|by apply wf_items_sort, wf_items_without|].
    rewrite run_bind, H1, run_bind, H2. cbn [run bind log_control ret]. rewrite has_key_get, H4, without_get, bool_decide_true by done.
    eexists m', _. split_and!; [done| |cbn; by rewrite length_app, H3, Nat.add_comm|by intros; rewrite H4, without_get].
    by apply read_map_log.
  - destruct (symbol_name_wf _ Hb) as [Wb Nb]. rewrite Hb. cbn [negb].
    destruct (write_map_read (dict_set current alias (PStr (text_field payload "broker"))) s Hr) as (s' & m' & H1 & H2 & H3 & H4).
    + apply (dict_set_clean py_str); [done|]. exists (text_field payload "broker"). cbn [fst snd]. unfold alias, text_field in *.
      rewrite strip_upper, strip_idem, upper_idem, strip_idem. split_and!; try done.
    + by apply wf_items_sort, wf_items_set.
    + rewrite run_bind, H1, run_bind, H2. cbn [run bind log_control ret]. rewrite H4, dict_get_set_eq. cbn [is_text].
      rewrite bool_decide_true by done.
      eexists m', _. split_and!; [done| |cbn; by rewrite length_app, H3, Nat.add_comm|].
      * by apply read_map_log.
      * intros k. rewrite H4. case_bool_decide; [subst; apply dict_get_set_eq|by apply dict_get_set_ne].
Qed.

End Dashboard.

(** ** Redaction *)

Definition no_comma (l : chars) : bool := forallb (fun c => negb (bool_decide (c = ","%char))) l.

Lemma until_comma_length l : (length (until_comma l) <= length l)%nat.
Proof. induction l as [|c l IH]; simpl; [lia|]. case_bool_decide; simpl; lia. Qed.

Lemma until_drop_length n c l : (length (until_comma (drop (S n) (c :: l))) <= length l)%nat.
Proof. pose proof (until_comma_length (drop n l)). rewrite length_drop in H. cbn [drop]. lia. Qed.

Lemma until_comma_app a b : until_comma (a ++ ","%char :: b) = until_comma a ++ ","%char :: b.
Proof. induction a as [|c a IH]; [done|]. simpl. by case_bool_decide. Qed.

Lemma until_comma_none l : no_comma l = true -> until_comma l = [].
Proof. induction l as [|c l IH]; [done|]. simpl. intros H. bool_hyps. case_bool_decide; [done|auto]. Qed.

(** More fuel than text changes nothing. *)
Lemma redact_fuel l : forall f g, (length l <= f)%nat -> (length l <= g)%nat -> redact_loop f l = redact_loop g l.
Proof.
  induction l as [l IH] using (induction_ltof1 _ (@length ascii)). unfold ltof in IH. intros f g Hf Hg.
  destruct l as [|c l]; [by destruct f, g|]. destruct f as [|f]; [simpl in Hf; lia|]. destruct g as [|g]; [simpl in Hg; lia|].
  cbn [redact_loop]. simpl in Hf, Hg. destruct (starts_with _ _).
  - do 2 f_equal. pose proof (until_drop_length 6 c l). apply IH; cbn [length]; lia.
  - f_equal. apply IH; simpl; lia.
Qed.

Lemma redact_step c l : redact_chars (c :: l) =
  if starts_with secret_key (c :: l) then secret_key ++ chars_of "***" ++ redact_chars (until_comma (drop 7 (c :: l)))
  else c :: redact_chars l.
Proof.
  unfold redact_chars at 1. cbn [length redact_loop]. destruct (starts_with _ _); [|done].
  do 2 f_equal. apply redact_fuel; [|done]. apply until_drop_length.
Qed.

Lemma take_app_comma p a b : no_comma p = true ->
  (p = take (length p) (a ++ ","%char :: b) <-> p = take (length p) a).
Proof.
  revert a. induction p as [|c p IH]; intros a Hp; [done|]. simpl in Hp. bool_hyps.
  destruct a as [|x a]; simpl; [split; [intros [= -> _]; by rewrite bool_decide_true in H|done]|].
  specialize (IH a H0). split; intros [= -> E]; f_equal; by apply IH.
Qed.

(** Fields are redacted one by one. *)
Lemma redact_app a b : redact_chars (a ++ ","%char :: b) = redact_chars a ++ ","%char :: redact_chars b.
Proof.
  induction a as [a IH] using (induction_ltof1 _ (@length ascii)). unfold ltof in IH.
  destruct a as [|c a]; [by rewrite app_nil_l, redact_step|]. cbn [app]. rewrite !redact_step.
  replace (starts_with secret_key (c :: a ++ ","%char :: b)) with (starts_with secret_key (c :: a)).
  2:{ unfold starts_with. apply bool_decide_ext. symmetry. exact (take_app_comma secret_key (c :: a) b eq_refl). }
  destruct (starts_with secret_key (c :: a)) eqn:E.
  - apply bool_decide_eq_true in E.
    assert (7 <= length (c :: a))%nat as Hl by (apply (f_equal length) in E; rewrite length_take in E; change (length secret_key) with 7%nat in E; lia).
    rewrite app_comm_cons, drop_app_le, until_comma_app by done.
    rewrite IH by (pose proof (until_drop_length 6 c a); cbn [length]; lia).
    by rewrite <-!app_assoc.
  - rewrite IH by (simpl; lia). done.
Qed.

Lemma redact_secret s : no_comma s = true -> redact_chars (secret_key ++ s) = secret_key ++ chars_of "***".
Proof.
  intros H. unfold secret_key at 1. cbn [chars_of String.list_ascii_of_string app]. rewrite redact_step.
  cbn [drop]. rewrite until_comma_none by done. by case_match.
Qed.

Lemma join_comma_snoc l x : l <> [] -> join_comma (l ++ [x]) = join_comma l ++ ","%char :: x.
Proof.
  induction l as [|y l IH]; [done|]. intros _. destruct l as [|z l]; [done|].
  change (join_comma ((y :: z :: l) ++ [x])) with (y ++ ","%char :: join_comma ((z :: l) ++ [x])).
  rewrite IH by done. change (join_comma (y :: z :: l)) with (y ++ ","%char :: join_comma (z :: l)). by rewrite <-app_assoc.
Qed.

Section Secrecy.
Context {F : Type} {A : Arith F} (float_repr : F -> bytes) (py_str : pyval F -> string).
Context (source_chats now : string) (DRY_RUN_DEFAULT : bool) (LICENSE_ID : string).

Abbreviation send secret := (send_test_signal float_repr py_str source_chats now DRY_RUN_DEFAULT LICENSE_ID secret).
Abbreviation command_of secret := (build_test_signal_command float_repr py_str LICENSE_ID secret).

Lemma command_parts_some fields parts : command_parts float_repr py_str LICENSE_ID fields = Ok parts -> parts <> [].
Proof.
  unfold command_parts. destruct (negb _); [done|]. case_bool_decide; [done|].
  match goal with |- context [if ?b then open_parts _ _ _ else _] => destruct b end;
    [destruct (open_parts _ _ _)|]; simpl; congruence.
Qed.

(** The redacted command in terms of its parts: the secret is not one of them. *)
Lemma redacted_command secret fields : secret <> ""%string -> no_comma (chars_of secret) = true ->
  match command_of secret fields with
  | Ok command => exists parts, command_parts float_repr py_str LICENSE_ID fields = Ok parts /\
      _redact command = string_of_chars (redact_chars (join_comma parts) ++ ","%char :: secret_key ++ chars_of "***")
  | Err e => command_parts float_repr py_str LICENSE_ID fields = Err e
  end.
Proof.
  intros Hn Hc. unfold build_test_signal_command.
  destruct (command_parts _ _ _ fields) as [parts|e] eqn:E; simpl; [|done]. exists parts. split; [done|].
  rewrite bool_decide_false by done. rewrite join_comma_snoc by (by eapply command_parts_some).
  unfold _redact, chars_of at 1, string_of_chars at 2. rewrite String.list_ascii_of_string_of_list_ascii.
  rewrite redact_app. do 3 f_equal.
  unfold kv_part. change (chars_of ("secret" +:+ "=" +:+ secret)) with (secret_key ++ chars_of secret). by apply redact_secret.
Qed.

(** Everything but what went to ingress. *)
Definition unposted (s : @dash F) : @dash F := mk_dash (ds_store s) (ds_control s) (ds_tests s) [] (ds_journal s) (ds_stderr s).

(** Answer, logs, stderr and store are the same. *)
Definition alike (p p' : prog dash exn (Z * pydict F)) faults s : Prop :=
  run_result p faults s = run_result p' faults s /\ unposted (run_state p faults s) = unposted (run_state p' faults s).

(** C24: the dashboard shows nothing of the webhook secret but what ingress replies.
    For any two non-empty secrets without a comma: an unconfirmed test signal is
    answered and logged alike, whatever ingress is; a confirmed one is, when ingress
    gives the same reply to the two commands; so page, audit logs, stderr and store
    depend on the secret only through the reply of the service it was sent to.  (A
    secret with a comma is cut at the comma by the redaction and does show.) *)
Theorem secret_stays_hidden secret secret' ingress ingress' payload faults s
  (Hs : secret <> ""%string /\ no_comma (chars_of secret) = true)
  (Hs' : secret' <> ""%string /\ no_comma (chars_of secret') = true) :
  (is_true (get payload "confirm") = false -> alike (send secret ingress payload) (send secret' ingress' payload) faults s) /\
  ((forall c c', command_of secret payload = Ok c -> command_of secret' payload = Ok c' -> ingress c = ingress' c') ->
   alike (send secret ingress payload) (send secret' ingress' payload) faults s).
Proof.
  pose proof (redacted_command secret payload (proj1 Hs) (proj2 Hs)) as H.
  pose proof (redacted_command secret' payload (proj1 Hs') (proj2 Hs')) as H'.
  unfold alike, run_result, run_state, send_test_signal. rewrite !run_bind.
  destruct (dry_run_run source_chats now DRY_RUN_DEFAULT faults s) as (b & d1 & fs1 & -> & _).
  destruct (command_of secret payload) as [c|e], (command_of secret' payload) as [c'|e'];
    repeat match goal with K : exists _, _ |- _ => destruct K as (? & ? & ?) end; try congruence; [|by replace e' with e by congruence].
  replace (_redact c') with (_redact c) by congruence. destruct (is_true (get payload "confirm")); [split; [done|]|done]. cbn [negb].
  intros Hi. rewrite !run_bind, <- (Hi c c' eq_refl eq_refl).
  destruct (dry_run_run source_chats now DRY_RUN_DEFAULT fs1 (put_store d1 s)) as (b' & d2 & fs2 & -> & _).
  destruct b'; [done|]. by destruct (ingress c) as [[[? ?] ?]|], fs2 as [|[] fs2].
Qed.

End Secrecy.

(** ** Concrete requests *)

Module DashDemo.
Definition none (_ : pyval Q) : string := "".
Definition no_query (_ : string) : list (string * string) := [].
Definition parse (b : bytes) : option (pyval Q) := loads (string_of_bytes b).
Definition hosts : list string := ["127.0.0.1:8090"; "localhost:8090"]%string.
Definition posted_ok (_ : string) : result string (Z * string * string) := Ok (200, "{}"%string, "t-1"%string).
(** Double quotes of a JSON text, written as apostrophes. *)
Definition quotes (s : string) : bytes :=
  map (fun b => if Byte.eqb b "'" then Byte.x22 else b) (encode_utf8 s).
Definition req (path : string) (body : string) : request :=
  mk_req (Some "localhost:8090"%string) path (Some "tok"%string) (Some "application/json; charset=utf-8"%string)
    (Some (pretty (Z.of_nat (length (quotes body))))) (quotes body).
Definition store (mode : string) : sdb Q :=
  mk_sdb [("schema_version"%string, Some "4"%string); ("dry_run"%string, Some mode)] [] [] [] [] [] (Some (true, true)).
Definition state (mode : string) : @dash Q := mk_dash (store mode) [] [] [] None [].
Definition handle := do_POST StoreDemo.repr none "" "now" true "LIC" "s3cret" hosts "tok" id no_query parse posted_ok.
Definition go_live : request := req "/api/dryrun" "{'enabled': false, 'confirm': true}".
Definition test : request :=
  req "/api/webhook-test/send" "{'command': 'buy', 'symbol': 'XAUUSD', 'vol_lots': 0, 'sl': '1', 'tp': '2', 'confirm': true}".
Definition test_lots : request :=
  req "/api/webhook-test/send" "{'command': 'buy', 'symbol': 'XAUUSD', 'vol_lots': '0.1', 'sl': '1', 'tp': '2', 'confirm': true}".
Definition alias : pydict Q := [("alias"%string, PStr " gold"); ("broker"%string, PStr "XAUUSD_")].

(** A number zero is read as a missing field. *)
Example zero_lots_refused : exists body, run_result (handle test) [] (state "0") = Ok (Reply 400 body).
Proof. vm_compute. by eexists. Qed.

(** A secret with a comma is not redacted past it. *)
Example comma_secret_shown : _redact "L,BUY,X,secret=ab,cd" = "L,BUY,X,secret=***,cd"%string.
Proof. reflexivity. Qed.

(** A body that is JSON but not an object gets no response. *)
Example list_body_dropped : run_result (handle (req "/api/dryrun" "[]")) [] (state "1") = Ok Dropped.
Proof. vm_compute. reflexivity. Qed.
End DashDemo.

Lemma going_live_is_deliberate_witness :
  exists payload rec, admitted DashDemo.hosts "tok" id DashDemo.no_query DashDemo.parse DashDemo.go_live "/api/dryrun" payload /\
    get payload "confirm" = PBool true /\
    receipt rec (DashDemo.state "1") (run_state (DashDemo.handle DashDemo.go_live) [] (DashDemo.state "1")).
Proof.
  destruct (going_live_is_deliberate StoreDemo.repr DashDemo.none "" "now" true "LIC" "s3cret" DashDemo.hosts "tok" id
    DashDemo.no_query DashDemo.parse DashDemo.posted_ok DashDemo.go_live [] (DashDemo.state "1"))
    as (payload & rec & H1 & _ & H2 & _ & H3 & _).
  - vm_compute. reflexivity.
  - vm_compute. reflexivity.
  - exists payload, rec. split; [exact H1|]. split; [exact H2|exact H3].
Defined.

(** The switch without its log line: only the write of the record fails. *)
Example live_without_log_line :
  let s := run_state (DashDemo.handle DashDemo.go_live) (repeat false 15 ++ [true]) (DashDemo.state "1") in
  dry_now true s = false /\ ds_control s = [] /\ length (ds_stderr s) = 1%nat.
Proof. vm_compute. by split_and!. Qed.

Lemma test_signal_gated_witness :
  exists payload command, get payload "confirm" = PBool true /\
    build_test_signal_command StoreDemo.repr DashDemo.none "LIC" "s3cret" payload = Ok command /\
    ds_posted (run_state (DashDemo.handle DashDemo.test_lots) [] (DashDemo.state "0")) = [command].
Proof.
  destruct (test_signal_gated StoreDemo.repr DashDemo.none "" "now" true "LIC" "s3cret" DashDemo.hosts "tok" id
    DashDemo.no_query DashDemo.parse DashDemo.posted_ok DashDemo.test_lots [] (DashDemo.state "0"))
    as (payload & command & _ & H1 & H2 & H3 & _).
  - vm_compute. intros H. discriminate H.
  - exists payload, command. split; [exact H1|]. split; [exact H2|exact H3].
Defined.

Lemma symbol_map_edit_witness :
  exists m s', run (update_symbol_map StoreDemo.repr DashDemo.none "" "now" DashDemo.alias) [] (DashDemo.state "1") =
      (Ok (200, [("ok"%string, PBool true); ("map"%string, PDict m)]), s', []) /\
    dict_get m "GOLD" = Some (PStr "XAUUSD_").
Proof.
  destruct (symbol_map_edit StoreDemo.repr DashDemo.none "" "now" DashDemo.alias (DashDemo.state "1") [])
    as (m & s' & H1 & _ & _ & H2).
  - split; reflexivity || (vm_compute; discriminate).
  - vm_compute. reflexivity.
  - constructor.
  - vm_compute. reflexivity.
  - vm_compute. reflexivity.
  - exists m, s'. split; [exact H1|]. rewrite H2. vm_compute. reflexivity.
Defined.

Lemma secret_stays_hidden_witness :
  let payload := [("command"%string, PStr "closelong"); ("symbol"%string, PStr "X"); ("confirm"%string, PBool true)] in
  let sent secret := send_test_signal StoreDemo.repr DashDemo.none "" "now" true "LIC" secret DashDemo.posted_ok payload in
  ds_posted (run_state (sent "s3cret"%string) [] (DashDemo.state "0")) <> ds_posted (run_state (sent "other"%string) [] (DashDemo.state "0")) /\
  alike (sent "s3cret"%string) (sent "other"%string) [] (DashDemo.state "0").
Proof.
  split; [vm_compute; discriminate|].
  apply (secret_stays_hidden StoreDemo.repr DashDemo.none "" "now" true "LIC" "s3cret" "other" DashDemo.posted_ok DashDemo.posted_ok
    [("command"%string, PStr "closelong"); ("symbol"%string, PStr "X"); ("confirm"%string, PBool true)] [] (DashDemo.state "0")).
  - split; [discriminate|reflexivity].
  - split; [discriminate|reflexivity].
  - reflexivity.
Defined.
