(* ===== verification/DashReport.v ===== *)
(** * DashReport: the dashboard's reports

    scripts/trade_dashboard.py, the pages backed by the trade store: scorecard,
    equity curve and drawdown, risk-cap compliance, digest, the ledgers of
    ignored and actioned messages, and the pipeline status.

    Arguments: the clock ([cutoff_iso], the ISO time a number of days ago;
    [iso_day] and [today] for calendar days; [age_of], the age in seconds of an
    ISO stamp), the terminal's account where the page shows it ([None] when MT5 is
    unavailable) and the answers of the health probes.  Times are ISO texts and
    compared as texts, as SQLite compares them. *)

From Stdlib Require Import ZArith QArith Ascii Strings.Byte Lqa.
From S2P Require Import Prelude Text PyFloat PyVal Json Prog Db EaShim TradeStore.
Open Scope Z_scope.

(** [ts >= cutoff]. *)
Definition since (cutoff ts : string) : bool := negb (String.ltb ts cutoff).

Definition is_some_text (t : string) (o : option string) : bool := bool_decide (o = Some t).

(** [x or y] of a nullable TEXT column. *)
Definition text_or (o : option string) (dflt : string) : string :=
  match o with Some s => if bool_decide (s = ""%string) then dflt else s | None => dflt end.

Section DashReport.
Context {F : Type} {A : Arith F}.
Context (source_chats now : string) (cutoff_iso : Z -> string).

Abbreviation store X := (prog (sdb F) exn X).

Definition select {X} (f : sdb F -> list X) : store (list X) := squery source_chats now (fun d => Ok (f d)).

(** [if source]. *)
Definition given (source : option string) : bool :=
  match source with Some s => negb (bool_decide (s = ""%string)) | None => false end.

(** [source = ?] where a source was given. *)
Definition from_source (source : option string) (col : option string) : bool :=
  negb (given source) || bool_decide (col = source).

Definition executed_status (o : ord_row F) : bool :=
  is_some_text "filled" (ord_status o) || is_some_text "placed" (ord_status o).

(** [profit or 0.0]. *)
Definition or_zero (x : F) : F := if f_truthy x then x else f_zero.

(** ** Scorecard *)

Record bucket := mk_bucket {
  b_channel : string; b_executed : Z; b_open : Z; b_wins : Z; b_losses : Z; b_net : F; b_r : list F }.

Definition empty_bucket (name : string) : bucket := mk_bucket name 0 0 0 0 f_zero [].

Definition count_profit (b : bucket) (profit : F) : bucket :=
  if (f_zero <=? profit)%pyf
  then mk_bucket (b_channel b) (b_executed b) (b_open b) (b_wins b + 1) (b_losses b) (b_net b + profit)%pyf (b_r b)
  else mk_bucket (b_channel b) (b_executed b) (b_open b) (b_wins b) (b_losses b + 1) (b_net b + profit)%pyf (b_r b).

Definition add_r (r : list F) (b : bucket) : bucket :=
  mk_bucket (b_channel b) (b_executed b) (b_open b) (b_wins b) (b_losses b) (b_net b) (b_r b ++ r).

(** [{r["position_id"]: r}.get(pos)]: the last row wins. *)
Definition closed_by_pos (closed : list (closed_row F)) (pos : string) : option (closed_row F) :=
  List.find (fun c => bool_decide (cls_position c = pos)) (rev closed).

Definition _apply_order (closed : list (closed_row F)) (b : bucket) (o : ord_row F) : bucket :=
  if negb (executed_status o) then b
  else
    let b := mk_bucket (b_channel b) (b_executed b + 1) (b_open b) (b_wins b) (b_losses b) (b_net b) (b_r b) in
    let pos := default ""%string (ord_broker o) in
    match (if bool_decide (pos = ""%string) then None else closed_by_pos closed pos) with
    | None => mk_bucket (b_channel b) (b_executed b) (b_open b + 1) (b_wins b) (b_losses b) (b_net b) (b_r b)
    | Some c =>
        let profit := or_zero (cls_profit c) in
        add_r (match ord_risk o with
               | Some risk => if f_truthy risk then [f_quot profit risk] else []
               | None => [] end)
          (count_profit b profit)
    end.

Record score := mk_score {
  sc_channel : string; sc_received : Z; sc_posted : Z; sc_rejected : Z; sc_executed : Z; sc_open : Z;
  sc_wins : Z; sc_losses : Z; sc_net : F; sc_avg_r : option F }.

Definition score_of (b : bucket) : score :=
  mk_score (b_channel b) 0 0 0 (b_executed b) (b_open b) (b_wins b) (b_losses b) (f_round 2 (b_net b))
    (match b_r b with
     | [] => None
     | rs => Some (f_round 2 (f_quot (py_sum rs) (f_int (Z.of_nat (length rs)))))
     end).

Definition card (orders : list (ord_row F)) (closed : list (closed_row F)) : list score :=
  let tv := fold_left (fun b o => if is_some_text "tradingview" (ord_source o) then _apply_order closed b o else b)
              orders (empty_bucket "tradingview") in
  let other := fold_left (fun b c => if bool_decide (cls_source c = "other"%string)
                                     then count_profit b (or_zero (cls_profit c)) else b)
                 closed (empty_bucket "other EAs") in
  sort_by (fun a b => String.ltb (sc_channel a) (sc_channel b)) (map score_of [tv; other]).

Definition orders_since (days : Z) (d : sdb F) : list (ord_row F) :=
  List.filter (fun o => since (cutoff_iso days) (ord_ts o)) (s_orders d).
Definition closed_since (days : Z) (d : sdb F) : list (closed_row F) :=
  List.filter (fun c => since (cutoff_iso days) (cls_ts c)) (s_closed d).

Definition scorecard (days : Z) : store (list score) :=
  order_rows <- select (orders_since days) ;;
  closed_rows <- select (closed_since days) ;;
  ret (card order_rows closed_rows).

(** ** Equity curve *)

Context (iso_day : Z -> string) (today : Z).

(** The last [days] calendar days, oldest first. *)
Definition day_keys (days : Z) : list string := map iso_day (seqZ (today - (days - 1)) days).

(** [daily.get(d, 0.0)] after the loop over the closed trades. *)
Definition day_total (closed : list (closed_row F)) (d : string) : F :=
  fold_left (fun acc c => if bool_decide (str_take 10 (cls_ts c) = d) then (acc + or_zero (cls_profit c))%pyf else acc)
    closed f_zero.

(** Backwards from the current balance; the points, oldest first. *)
Fixpoint back_out (balance_now cum_after : F) (closed : list (closed_row F)) (days_rev : list string)
    (acc : list (string * F)) : list (string * F) :=
  match days_rev with
  | [] => acc
  | d :: ds => back_out balance_now (cum_after + day_total closed d)%pyf closed ds
                 ((d, f_round 2 (balance_now - cum_after)%pyf) :: acc)
  end.

(** Peak and largest drawdown, in percent, of the points. *)
Definition dd_step (st : F * F) (eq : F) : F * F :=
  let '(peak, max_dd) := st in
  let peak := if (peak <? eq)%pyf then eq else peak in
  if f_truthy peak then
    let dd := (f_quot (peak - eq) peak * f_int 100)%pyf in
    (peak, if (max_dd <? dd)%pyf then dd else max_dd)
  else (peak, max_dd).

(** Largest and current drawdown. *)
Definition drawdowns (curve : list F) : F * F :=
  match curve with
  | [] => (f_zero, f_zero)
  | e0 :: _ =>
      let '(peak, max_dd) := fold_left dd_step curve (e0, f_zero) in
      let last_eq := List.last curve e0 in
      (max_dd, if f_truthy peak then (f_quot (peak - last_eq) peak * f_int 100)%pyf else f_zero)
  end.

Record equity_view := mk_view {
  ev_estimated : bool; ev_points : list (string * F); ev_max_dd : F; ev_cur_dd : F }.

Definition snaps_since (days : Z) (d : sdb F) : list (equity_row F) :=
  sort_by (fun a b => String.ltb (eq_ts a) (eq_ts b))
    (List.filter (fun s => since (cutoff_iso days) (eq_ts s)) (s_equity d)).

(** [balance]: the account's, when the terminal answers. *)
Definition _equity_curve (balance : option F) (days : Z) : store equity_view :=
  snaps <- select (snaps_since days) ;;
  let estimated := Nat.ltb (length snaps) 2 in
  curve <- (if estimated then
      let balance_now := match balance with
        | Some b => b
        | None => match List.last (map Some snaps) None with Some s => eq_balance s | None => f_zero end
        end in
      closed <- select (closed_since days) ;;
      ret (back_out balance_now f_zero closed (rev (day_keys days)) [])
    else ret (map (fun s => (eq_ts s, eq_equity s)) snaps)) ;;
  let '(max_dd, cur_dd) := drawdowns (map snd curve) in
  ret (mk_view estimated curve (f_round 2 max_dd) (f_round 2 cur_dd)).

(** ** Compliance *)

Definition risk_sizing : bytes := encode_utf8 "risk sizing%".

(** [status='rejected' AND error LIKE 'risk sizing%']. *)
Definition cap_rejection (o : ord_row F) : bool :=
  is_some_text "rejected" (ord_status o) &&
  match ord_error o with Some e => like risk_sizing (encode_utf8 e) | None => false end.

(** [ORDER BY ts DESC]; SQLite does not fix the order of equal times. *)
Definition newest_first (l : list (ord_row F)) : list (ord_row F) :=
  sort_by (fun a b => String.ltb (ord_ts b) (ord_ts a)) l.

Record compliance := mk_compliance {
  cp_sized : nat; cp_sized_rows : list (ord_row F); cp_rejections : nat; cp_rejection_rows : list (ord_row F);
  cp_max : option F; cp_max_pct : option F }.

Definition max_of (l : list F) : option F :=
  match l with [] => None | x :: l' => Some (fold_left py_max l' x) end.

Definition _compliance (EA_SHIM_RISK_USD : F) (days : Z) (source : option string) : store compliance :=
  risk_orders <- select (fun d => newest_first (List.filter (fun o =>
     (match ord_risk o with Some _ => true | None => false end) && from_source source (ord_source o)) (orders_since days d))) ;;
  rejections <- select (fun d => newest_first (List.filter (fun o =>
     cap_rejection o && from_source source (ord_source o)) (orders_since days d))) ;;
  let max_risk := max_of (omap ord_risk risk_orders) in
  ret (mk_compliance (length risk_orders) (take 50 risk_orders) (length rejections) (take 50 rejections) max_risk
    (match max_risk with
     | Some m => if f_truthy m && f_truthy EA_SHIM_RISK_USD
                 then Some (f_round 1 (f_quot m EA_SHIM_RISK_USD * f_int 100)%pyf) else None
     | None => None end)).

(** ** Digest *)

(** What the terminal reports: equity, margin level, profits of the open positions. *)
Record terminal := mk_terminal { tm_equity : F; tm_margin_level : F; tm_profits : list F }.

Record digest := mk_digest {
  dg_received : nat; dg_executed : nat; dg_wins : nat; dg_losses : nat; dg_net : F;
  dg_by_source : list (string * F); dg_floating : option F; dg_equity_now : option F;
  dg_equity_start : option F; dg_margin_level : option F; dg_risk_cap : nat }.

(** [by_source[s] = round(by_source.get(s, 0.0) + profit, 2)]. *)
Fixpoint add_source (s : string) (profit : F) (m : list (string * F)) : list (string * F) :=
  match m with
  | [] => [(s, f_round 2 (f_zero + profit)%pyf)]
  | (s', x) :: m' => if bool_decide (s' = s) then (s, f_round 2 (x + profit)%pyf) :: m' else (s', x) :: add_source s profit m'
  end.

Definition _digest_period (acct : option terminal) (days : Z) (source : option string) : store digest :=
  received <- (if given source then ret 0%nat
               else rows <- select (fun d => List.filter (fun s => since (cutoff_iso days) (sig_ts s)) (s_signals d)) ;;
                    ret (length rows)) ;;
  order_rows <- select (fun d => List.filter (fun o => from_source source (ord_source o)) (orders_since days d)) ;;
  closed_rows <- select (fun d => List.filter (fun c => from_source source (Some (cls_source c))) (closed_since days d)) ;;
  let wins := length (List.filter (fun c => (f_zero <=? or_zero (cls_profit c))%pyf) closed_rows) in
  let net := f_round 2 (py_sum (map (fun c => or_zero (cls_profit c)) closed_rows)) in
  rej <- select (fun d => [length (List.filter (fun o =>
     cap_rejection o && from_source source (ord_source o)) (orders_since days d))]) ;;
  snaps <- select (fun d => take 1 (snaps_since days d)) ;;
  ret (mk_digest received (length (List.filter executed_status order_rows)) wins (length closed_rows - wins) net
    (fold_left (fun m c => add_source (text_or (Some (cls_source c)) "other") (or_zero (cls_profit c)) m) closed_rows [])
    ((fun t => match tm_profits t with [] => f_zero | ps => f_round 2 (py_sum ps) end) <$> acct)
    (tm_equity <$> acct)
    (match snaps with
     | s :: _ => Some (eq_equity s)
     | [] => (fun t => f_round 2 (tm_equity t - net)%pyf) <$> acct
     end)
    ((fun t => if f_truthy (tm_margin_level t) then f_round 2 (tm_margin_level t) else tm_margin_level t) <$> acct)
    (match rej with n :: _ => n | [] => 0%nat end)).

(** ** Ledgers *)

Record ignored_row := mk_ignored {
  ig_ts : string; ig_source : string; ig_origin : string; ig_reason : string; ig_symbol : string; ig_text : string }.

Definition ignored_of (o : ord_row F) : ignored_row :=
  mk_ignored (ord_ts o) (text_or (ord_source o) "other") (text_or (ord_comment o) "webhook")
    (text_or (ord_error o) "rejected at the broker") (text_or (ord_symbol o) "")
    (strip (text_or (ord_command o) "" +:+ " " +:+ text_or (ord_symbol o) "")%string).

(** [status = 'rejected' OR (error IS NOT NULL AND error != '')]. *)
Definition passed_over (o : ord_row F) : bool :=
  is_some_text "rejected" (ord_status o) ||
  match ord_error o with Some e => negb (bool_decide (e = ""%string)) | None => false end.

Definition known_source (source : option string) : bool :=
  match source with None => true | Some s => in_words s [""; "tradingview"; "other"]%string end.

Definition ledger_note : string :=
  "TradingView alerts rejected by ingress before a trace_id was issued are not recorded here — see the ingress log for those.".

Record ignored_page := mk_ignored_page {
  ip_rows : list ignored_row; ip_source : string; ip_truncated : bool; ip_note : string }.

Definition ignored_messages (days : Z) (source : option string) (limit : nat) : store ignored_page :=
  rows <- (if known_source source then
      found <- select (fun d => take limit (newest_first (List.filter (fun o =>
                 passed_over o && from_source source (ord_source o)) (orders_since days d)))) ;;
      ret (map ignored_of found)
    else ret []) ;;
  let rows := sort_by (fun a b => String.ltb (ig_ts b) (ig_ts a)) rows in
  ret (mk_ignored_page (take limit rows) (default ""%string source) (Nat.ltb limit (length rows))
    (if known_source source then ledger_note else ""%string)).

Definition _ACTIONED_STATUSES : list string := ["accepted"; "placed"; "filled"]%string.

Definition _ACTION_LABEL : list (string * string) :=
  [("newsltplong", "TP/SL amended on open longs"); ("newsltpshort", "TP/SL amended on open shorts");
   ("closelong", "closed longs"); ("closeshort", "closed shorts");
   ("closelongopenshort", "reversed long → short"); ("closeshortopenlong", "reversed short → long")]%string.

Definition actioned (o : ord_row F) : bool :=
  match ord_status o with Some s => in_words s _ACTIONED_STATUSES | None => false end.

(** [str(tid)] of the entries of a parsed array, the falsy ones skipped. *)
Context (py_str : pyval F -> string).
Definition id_text (v : pyval F) : string := match v with PStr s => s | _ => py_str v end.

(** The channel of each trace id: later rows win. *)
Definition add_channels (m : list (string * string)) (s : sig_row F) : list (string * string) :=
  let name := text_or (sig_channel s) "direct" in
  match loads (text_or (sig_traces s) "[]") with
  | Some (PList ids) => map (fun v => (id_text v, name)) (rev (List.filter truthy ids)) ++ m
  | _ => m
  end.

Definition channel_in (m : list (string * string)) (trace : string) : string :=
  match List.find (fun kv => bool_decide (kv.1 = trace)) m with Some kv => kv.2 | None => ""%string end.

Definition _trace_id_channels (days : Z) : store (list (string * string)) :=
  rows <- select (fun d => List.filter (fun s => since (cutoff_iso (days + 1)) (sig_ts s) &&
            match sig_traces s with Some t => negb (bool_decide (t = "[]"%string)) | None => false end) (s_signals d)) ;;
  ret (fold_left add_channels rows []).

Record actioned_row := mk_actioned {
  ac_ts : string; ac_source : string; ac_origin : string; ac_channel : string; ac_action : string;
  ac_command : string; ac_symbol : string; ac_volume : option F; ac_entry : option F; ac_sl : option F;
  ac_tp : option F; ac_status : string; ac_broker : string; ac_trace : string }.

Definition action_label (cmd : string) : string :=
  match List.find (fun kv => bool_decide (kv.1 = cmd)) _ACTION_LABEL with
  | Some kv => kv.2
  | None => if bool_decide (cmd = ""%string) then "order" else (cmd +:+ " order placed")%string
  end.

Definition actioned_of (channels : list (string * string)) (o : ord_row F) : actioned_row :=
  let cmd := lower (text_or (ord_command o) "") in
  mk_actioned (ord_ts o) (text_or (ord_source o) "other") (text_or (ord_comment o) "")
    (channel_in channels (ord_trace o)) (action_label cmd) cmd (text_or (ord_symbol o) "") (ord_volume o)
    (ord_entry o) (ord_sl o) (ord_tp o) (text_or (ord_status o) "") (text_or (ord_broker o) "") (ord_trace o).

Definition actioned_messages (days : Z) (source : option string) (limit : nat) : store (list actioned_row) :=
  channels <- _trace_id_channels days ;;
  found <- select (fun d => take limit (newest_first (List.filter (fun o =>
             actioned o && from_source source (ord_source o)) (orders_since days d)))) ;;
  ret (map (actioned_of channels) found).

(** ** Pipeline status *)

Definition _meta_get (key : string) : store (option string) :=
  rows <- read_meta source_chats now key ;; ret (match rows with v :: _ => v | [] => None end).

Context (age_of : string -> option F).

(** [datetime.fromisoformat] and the clock are in [age_of]. *)
Definition _hb_age_sec (key : string) : store (option F) :=
  raw <- _meta_get key ;;
  ret (match raw with
       | Some t => if bool_decide (t = ""%string) then None else py_max f_zero <$> age_of t
       | None => None end).

Inductive state := OK | WARN | DOWN.

Record component := mk_component { cm_name : string; cm_state : state; cm_detail : string }.

Record pipeline := mk_pipeline {
  pl_green : bool; pl_reasons : list string; pl_components : list component;
  pl_account : pyval F; pl_demo : option bool; pl_dry : dry_run_meta }.

Definition HB_STALE_AFTER_SEC : F := f_int 90.

Definition is_down (c : component) : bool := match cm_state c with DOWN => true | _ => false end.

Definition http_component (name where_ : string) (status : option Z) : component :=
  if bool_decide (status = Some 200) then mk_component name OK "healthy"
  else mk_component name DOWN ("unreachable (" +:+ where_ +:+ ")")%string.

(** The heartbeat's state document, an object or an error. *)
Definition ea_state_of (raw : option string) : result exn (pydict F) :=
  match raw with
  | Some t => if bool_decide (t = ""%string) then Ok []
              else match loads t with
                   | None => Ok []
                   | Some (PDict d) => Ok d
                   | Some _ => Err AttributeError
                   end
  | None => Ok []
  end.

Definition lookup (d : pydict F) (k : string) : pyval F := default PNone (dict_get d k).

Definition pipeline_status (dflt : bool) (ingress bridge : option Z) : store pipeline :=
  ea_age <- _hb_age_sec "hb_ea_shim" ;;
  ea_state_raw <- _meta_get "hb_ea_shim_state" ;;
  ea_state <- Done (ea_state_of ea_state_raw) ;;
  let fresh := match ea_age with Some a => (a <? HB_STALE_AFTER_SEC)%pyf | None => false end in
  let up := fresh && truthy (lookup ea_state "mt5") in
  dry_meta <- get_dry_run_meta source_chats now dflt ;;
  let dry_on := dry_run dry_meta in
  let age_text := match ea_age with Some a => pretty (default 0 (f_trunc a)) | None => ""%string end in
  let demo := lookup ea_state "demo" in
  let blocking :=
    [ http_component "ingress" "127.0.0.1:8081" ingress; http_component "bridge" "127.0.0.1:8082" bridge;
      (if up then mk_component "ea-shim" OK ("heartbeat " +:+ age_text +:+ "s ago")
       else mk_component "ea-shim" DOWN "orders would be accepted but never executed");
      (if up then mk_component "mt5" OK ("account " +:+ id_text (lookup ea_state "account") +:+
                                         (if truthy demo then " (DEMO)" else " (LIVE)"))
       else mk_component "mt5" DOWN "unknown — ea-shim heartbeat stale or missing") ]%string in
  let reasons := map (fun c => (cm_name c +:+ " down")%string) (List.filter is_down blocking) ++
                 (if dry_on then ["dry-run is on"%string] else []) in
  ret (mk_pipeline (match reasons with [] => true | _ => false end) reasons
    (blocking ++ [mk_component "dry-run" (if dry_on then WARN else OK)
       (if dry_on then "signals are parsed but NOT sent to the broker" else "live — signals are sent to the broker")%string])
    (if up then lookup ea_state "account" else PNone)
    (if up then match demo with PNone => None | v => Some (truthy v) end else None)
    dry_meta).

(** ** The scorecard adds up *)

Lemma select_run {X} (f : sdb F -> list X) fs d : exists rows d' fs', run (select f) fs d = (Ok rows, d', fs').
Proof. destruct (squery_run source_chats now (fun d => Ok (f d)) fs d) as (rows & d' & fs' & E & _). by eexists _, _, _. Qed.

Lemma select_ready {X} (f : sdb F -> list X) d : ready d -> run (select f) [] d = (Ok (f d), d, []).
Proof. intros H. exact (squery_ready source_chats now (fun d => Ok (f d)) d H). Qed.

(** Every executed order is open, won or lost. *)
Definition balanced (b : bucket) : Prop := b_executed b = b_open b + b_wins b + b_losses b.

Lemma count_profit_counts b x : b_executed (count_profit b x) = b_executed b /\ b_open (count_profit b x) = b_open b /\
  b_channel (count_profit b x) = b_channel b /\
  b_wins (count_profit b x) + b_losses (count_profit b x) = b_wins b + b_losses b + 1 /\
  b_wins (count_profit b x) = b_wins b + (if (f_zero <=? x)%pyf then 1 else 0).
Proof.
  clear source_chats now cutoff_iso iso_day today py_str age_of. unfold count_profit. destruct (_ <=? _)%pyf; simpl; split_and!; done || lia. Qed.

Lemma apply_order_counts closed b o : balanced b ->
  balanced (_apply_order closed b o) /\ b_channel (_apply_order closed b o) = b_channel b /\
  b_executed (_apply_order closed b o) = b_executed b + (if executed_status o then 1 else 0).
Proof.
  clear source_chats now cutoff_iso iso_day today py_str age_of.
  unfold balanced, _apply_order. intros Hb. destruct (executed_status o); cbn [negb]; [|split_and!; done || lia].
  destruct (if bool_decide _ then _ else _) as [c|]; cbn [add_r b_executed b_open b_wins b_losses b_channel]; [|split_and!; done || lia].
  match goal with |- context [count_profit ?b' ?x] => destruct (count_profit_counts b' x) as (H1 & H2 & H3 & H4 & _) end.
  cbn [b_executed b_open b_wins b_losses b_channel] in *. split_and!; lia || done.
Qed.

Definition from_tv (o : ord_row F) : bool := is_some_text "tradingview" (ord_source o).
Definition is_other (c : closed_row F) : bool := bool_decide (cls_source c = "other"%string).

Lemma tv_counts closed orders b : balanced b ->
  let b' := fold_left (fun b o => if from_tv o then _apply_order closed b o else b) orders b in
  balanced b' /\ b_channel b' = b_channel b /\
  b_executed b' = b_executed b + Z.of_nat (length (List.filter (fun o => from_tv o && executed_status o) orders)).
Proof.
  clear source_chats now cutoff_iso iso_day today py_str age_of.
  cbn zeta. revert b. induction orders as [|o orders IH]; intros b Hb; [simpl; split_and!; done || lia|].
  cbn [fold_left List.filter]. destruct (from_tv o); cbn [andb]; [|by apply IH].
  destruct (apply_order_counts closed b o Hb) as (H1 & H2 & H3). destruct (IH _ H1) as (H4 & H5 & H6).
  split_and!; [done|congruence|]. rewrite H6, H3. destruct (executed_status o); simpl; lia.
Qed.

Lemma other_counts closed b :
  let b' := fold_left (fun b c => if is_other c then count_profit b (or_zero (cls_profit c)) else b) closed b in
  b_executed b' = b_executed b /\ b_open b' = b_open b /\ b_channel b' = b_channel b /\
  b_wins b' + b_losses b' = b_wins b + b_losses b + Z.of_nat (length (List.filter is_other closed)) /\
  b_wins b' = b_wins b + Z.of_nat (length (List.filter (fun c => is_other c && (f_zero <=? or_zero (cls_profit c))%pyf) closed)).
Proof.
  clear source_chats now cutoff_iso iso_day today py_str age_of.
  cbn zeta. revert b. induction closed as [|c closed IH]; intros b; [simpl; split_and!; done || lia|].
  cbn [fold_left List.filter]. destruct (is_other c); cbn [andb]; [|apply IH].
  destruct (count_profit_counts b (or_zero (cls_profit c))) as (H1 & H2 & H3 & H4 & H5).
  destruct (IH (count_profit b (or_zero (cls_profit c)))) as (I1 & I2 & I3 & I4 & I5). split_and!; [congruence..| |].
  - rewrite I4, H4. simpl. lia.
  - rewrite I5, H5. destruct (_ <=? _)%pyf; simpl; lia.
Qed.

(** The two rows, other EAs first. *)
Lemma card_rows orders closed : exists other tv, card orders closed = [other; tv] /\
  sc_channel other = "other EAs"%string /\ sc_channel tv = "tradingview"%string /\
  sc_executed tv = sc_open tv + sc_wins tv + sc_losses tv /\
  sc_executed tv = Z.of_nat (length (List.filter (fun o => from_tv o && executed_status o) orders)) /\
  sc_executed other = 0 /\ sc_open other = 0 /\
  sc_wins other = Z.of_nat (length (List.filter (fun c => is_other c && (f_zero <=? or_zero (cls_profit c))%pyf) closed)) /\
  sc_wins other + sc_losses other = Z.of_nat (length (List.filter is_other closed)).
Proof.
  clear source_chats now cutoff_iso iso_day today py_str age_of.
  unfold card. destruct (tv_counts closed orders (empty_bucket "tradingview") eq_refl) as (T1 & T2 & T3).
  destruct (other_counts closed (empty_bucket "other EAs")) as (O1 & O2 & O3 & O4 & O5).
  unfold from_tv, is_other in *. cbn [map]. set (tv := fold_left _ orders _) in *. set (ot := fold_left _ closed _) in *.
  exists (score_of ot), (score_of tv). unfold sort_by. cbn [fold_right insert_sorted score_of sc_channel].
  rewrite T2, O3. cbn. split_and!; try done; lia.
Qed.

(** The scorecard adds up.  Whatever fails while reading, the page has its two rows
    and every executed order of the stack is counted once as open, won or lost; in
    an up-to-date store the executed orders are those of the window that were filled
    or placed, and every trade of another source is a win or a loss. *)
Theorem scorecard_adds_up days faults d :
  exists other tv, run_result (scorecard days) faults d = Ok [other; tv] /\
    sc_channel other = "other EAs"%string /\ sc_channel tv = "tradingview"%string /\
    sc_executed tv = sc_open tv + sc_wins tv + sc_losses tv /\ sc_executed other = 0 /\
    (ready d -> faults = [] ->
     sc_executed tv = Z.of_nat (length (List.filter (fun o => from_tv o && executed_status o) (orders_since days d))) /\
     sc_wins other + sc_losses other = Z.of_nat (length (List.filter is_other (closed_since days d)))).
Proof.
  clear iso_day today py_str age_of.
  unfold scorecard, run_result. rewrite run_bind.
  destruct (select_run (orders_since days) faults d) as (orders & d1 & fs1 & E1). rewrite E1, run_bind.
  destruct (select_run (closed_since days) fs1 d1) as (closed & d2 & fs2 & E2). rewrite E2. cbn [run ret fst].
  destruct (card_rows orders closed) as (other & tv & -> & H1 & H2 & H3 & H4 & H5 & _ & _ & H6).
  exists other, tv. split_and!; try done. intros Hr ->. rewrite select_ready in E1 by done. injection E1 as <- <- <-.
  rewrite select_ready in E2 by done. by injection E2 as <- <- <-.
Qed.

Lemma digest_ready acct days source d : ready d ->
  let orders := List.filter (fun o => from_source source (ord_source o)) (orders_since days d) in
  let closed := List.filter (fun c => from_source source (Some (cls_source c))) (closed_since days d) in
  exists g, run_result (_digest_period acct days source) [] d = Ok g /\
    dg_executed g = length (List.filter executed_status orders) /\
    dg_wins g = length (List.filter (fun c => (f_zero <=? or_zero (cls_profit c))%pyf) closed) /\
    (dg_wins g + dg_losses g)%nat = length closed /\
    dg_net g = f_round 2 (py_sum (map (fun c => or_zero (cls_profit c)) closed)).
Proof.
  clear iso_day today py_str age_of.
  intros Hr. cbn zeta. unfold run_result, _digest_period. rewrite run_bind.
  assert (exists n, run (if given source then ret 0%nat else rows <- select (fun d => List.filter
    (fun s => since (cutoff_iso days) (sig_ts s)) (s_signals d)) ;; ret (length rows)) [] d = (Ok n, d, [])) as [n ->].
  { destruct (given source); [by eexists|]. rewrite run_bind, select_ready by done. by eexists. }
  repeat (rewrite run_bind, select_ready by done). eexists. split; [done|]. cbn. split_and!; try done.
  match goal with |- (length (List.filter ?p ?l) + _)%nat = _ => pose proof (filter_length_le p l) end. lia.
Qed.

(** ** Pipeline *)

(** The first value a setting has. *)
Definition meta_now (d : sdb F) (key : string) : option string :=
  match map snd (List.filter (same_key key) (s_meta d)) with v :: _ => v | [] => None end.

Lemma meta_get_ready key (d : sdb F) : ready d -> run (_meta_get key) [] d = (Ok (meta_now d key), d, []).
Proof. intros Hr. unfold _meta_get, read_meta. by rewrite run_bind, squery_ready. Qed.

Lemma dry_meta_ready dflt (d : sdb F) : ready d -> exists m, run (get_dry_run_meta source_chats now dflt) [] d = (Ok m, d, []) /\
  dry_run m = dry_run_of (map snd (List.filter (same_key "dry_run") (s_meta d))) dflt.
Proof.
  intros Hr. unfold get_dry_run_meta, get_dry_run, read_meta.
  rewrite run_bind, squery_ready by done. rewrite run_bind, squery_ready by done.
  rewrite run_bind, run_bind, squery_ready by done. by eexists.
Qed.

(** The executor's heartbeat is less than 90 seconds old and says the terminal is up. *)
Definition executor_up (d : sdb F) (ea_state : pydict F) : bool :=
  match meta_now d "hb_ea_shim" with
  | Some t => if bool_decide (t = ""%string) then false
              else match age_of t with Some a => (py_max f_zero a <? HB_STALE_AFTER_SEC)%pyf | None => false end
  | None => false
  end && truthy (lookup ea_state "mt5").

(** The pipeline light is green exactly when every link is up.  In an up-to-date
    store whose heartbeat document is an object (or missing, or unreadable), the
    status is green if and only if both services answered 200, the executor's
    heartbeat is fresh and reports its terminal, and dry-run is off; otherwise it is
    red and names a reason. *)
Theorem pipeline_green_iff dflt ingress bridge (d : sdb F) ea_state
  (Hr : ready d) (Hs : ea_state_of (meta_now d "hb_ea_shim_state") = Ok ea_state) :
  exists p, run_result (pipeline_status dflt ingress bridge) [] d = Ok p /\
    (pl_green p = true <-> ingress = Some 200 /\ bridge = Some 200 /\ executor_up d ea_state = true /\
       dry_run_of (map snd (List.filter (same_key "dry_run") (s_meta d))) dflt = false) /\
    (pl_green p = false <-> pl_reasons p <> []).
Proof.
  unfold run_result, pipeline_status, _hb_age_sec. rewrite run_bind, run_bind, meta_get_ready by done. cbn [run ret].
  rewrite run_bind, meta_get_ready, run_bind by done. rewrite Hs. cbn [run].
  rewrite run_bind. destruct (dry_meta_ready dflt d Hr) as (m & -> & <-).
  eexists. split; [done|]. unfold executor_up, http_component. cbn [pl_green pl_reasons].
  set (up := _ && truthy _).
  match goal with |- context [List.filter is_down ?l] => set (blocking := l) end.
  replace (match meta_now d "hb_ea_shim" with _ => _ end && truthy (lookup ea_state "mt5")) with up.
  2:{ unfold up. f_equal. destruct (meta_now d "hb_ea_shim") as [t|]; [|done]. destruct (bool_decide _); [done|]. by destruct (age_of t). }
  unfold blocking. clearbody up. repeat case_bool_decide; destruct up, (dry_run m); cbn; split; split; intros; destruct_and?; split_and?; congruence || done.
Qed.

(** ** Ledgers *)

Lemma take_selected_length {X} n (l : list X) : (length (take n l) <= n)%nat.
Proof. clear. rewrite length_take. lia. Qed.

(** The ignored-messages page never says it was cut.  The query already stops at
    the limit, so, whatever the store holds and whatever fails, the flag is false,
    while at most [limit] rows are shown. *)
Theorem ignored_never_truncated days source limit faults d :
  exists page, run_result (ignored_messages days source limit) faults d = Ok page /\
    ip_truncated page = false /\ (length (ip_rows page) <= limit)%nat.
Proof.
  clear iso_day today py_str age_of.
  unfold run_result, ignored_messages. rewrite run_bind.
  assert (exists rows d' fs', run (if known_source source then found <- select (fun d => take limit (newest_first (List.filter
      (fun o => passed_over o && from_source source (ord_source o)) (orders_since days d)))) ;; ret (map ignored_of found)
    else ret []) faults d = (Ok rows, d', fs') /\ (length rows <= limit)%nat) as (rows & d' & fs' & -> & Hl).
  { destruct (known_source source); [|eexists _, _, _; split; [done|simpl; lia]]. rewrite run_bind.
    unfold select. match goal with |- context [squery _ _ ?f] => destruct (squery_run source_chats now f faults d) as (rows & d' & fs' & -> & _ & H) end.
    eexists _, d', fs'. split; [done|]. rewrite length_map. destruct H as [->|[= <-]]; [simpl; lia|]. apply take_selected_length. }
  cbn [run ret]. eexists. split; [done|]. cbn [ip_truncated ip_rows]. split; [|apply take_selected_length].
  rewrite sort_by_perm. apply Nat.ltb_ge. done.
Qed.

End DashReport.

(** ** Drawdown *)

Section Drawdown.
Open Scope Q_scope.

(** The fall from [a] to [b], in percent of [a]. *)
Definition fall (a b : Q) : Q := (a - b) / a * 100.

Lemma fall_mono a a' b : 0 < a -> a <= a' -> 0 < b -> fall a b <= fall a' b.
Proof.
  intros Ha Haa Hb. unfold fall. apply Qmult_le_compat_r; [|done].
  apply Qle_shift_div_l; [lra|]. setoid_replace ((a - b) / a * a') with ((a - b) * a' / a) using relation Qeq by (field; lra).
  apply Qle_shift_div_r; [done|]. nra.
Qed.

Lemma fall_below a b : 0 < a -> 0 < b -> fall a b < 100.
Proof.
  intros Ha Hb. unfold fall. setoid_replace ((a - b) / a * 100) with ((a - b) * 100 / a) using relation Qeq by (field; lra).
  apply Qlt_shift_div_r; [done|]. nra.
Qed.

Lemma fall_self a : 0 < a -> fall a a == 0.
Proof. intros Ha. unfold fall. field. lra. Qed.

Lemma fall_pos a b : 0 < a -> b <= a -> 0 <= fall a b.
Proof.
  intros Ha Hb. unfold fall. setoid_replace ((a - b) / a * 100) with ((a - b) * 100 / a) using relation Qeq by (field; lra).
  apply Qle_shift_div_l; [done|]. nra.
Qed.

(** What the loop knows of the points it has seen. *)
Record seen (l : list Q) (st : Q * Q) : Prop := {
  seen_peak : exists i, l !! i = Some st.1;
  seen_top : forall i a, l !! i = Some a -> a <= st.1;
  seen_max : forall i j a b, (i <= j)%nat -> l !! i = Some a -> l !! j = Some b -> fall a b <= st.2;
  seen_hit : exists i j a b, (i <= j)%nat /\ l !! i = Some a /\ l !! j = Some b /\ fall a b == st.2 }.

Lemma dd_step_q peak m e : 0 < peak -> 0 < e ->
  dd_step (peak, m) e =
  let peak' := if q_ltb peak e then e else peak in
  let dd := (peak' - e) / peak' * f_int 100 in (peak', if q_ltb m dd then dd else m).
Proof.
  intros Hp He. unfold dd_step. cbn [f_ltb ArithQ]. replace (f_truthy (if q_ltb peak e then e else peak)) with true; [done|].
  symmetry. unfold f_truthy. cbn [f_eqb ArithQ]. apply negb_true_iff, q_eqb_neq. rewrite f_zero_q. destruct (q_ltb peak e); lra.
Qed.

Lemma seen_start e : 0 < e -> seen [e] (dd_step (e, f_zero) e).
Proof.
  intros He. rewrite dd_step_q by done. cbn zeta. replace (q_ltb e e) with false by (symmetry; apply q_ltb_ge; lra).
  assert ((e - e) / e * f_int 100 == 0) as Z by (field; lra).
  replace (q_ltb f_zero _) with false by (symmetry; apply q_ltb_ge; rewrite Z, f_zero_q; lra).
  split; cbn [fst snd].
  - by exists 0%nat.
  - intros [|i] a; simpl; [|by destruct i]. intros [= <-]. lra.
  - intros [|i] [|j] a b _; simpl; try (by destruct i); try (by destruct j). intros [= <-] [= <-]. rewrite fall_self by done. vm_compute. discriminate.
  - exists 0%nat, 0%nat, e, e. split_and!; try done.
Qed.

Lemma seen_step l st e : Forall (fun x => 0 < x) l -> 0 < e -> seen l st -> seen (l ++ [e]) (dd_step st e).
Proof.
  destruct st as [peak m]. intros Hl He [[ip Hp] Ht Hm [i0 [j0 [a0 [b0 (H0 & H1 & H2 & H3)]]]]]. cbn [fst snd] in *.
  assert (forall i a, l !! i = Some a -> 0 < a) as Pos by (intros i a Hi; exact (Forall_lookup_1 _ _ _ _ Hl Hi)).
  assert (0 < peak) as Pp by (by eapply Pos).
  assert (forall i x, (l ++ [e]) !! i = Some x -> l !! i = Some x \/ (i = length l /\ x = e)) as Cases.
  { intros i x. rewrite lookup_app_Some. intros [?|[Hi Hx]]; [by left|right].
    apply list_lookup_singleton_Some in Hx as [Hi' ->]. split; [lia|done]. }
  assert (forall i x, l !! i = Some x -> (l ++ [e]) !! i = Some x) as Old by (intros; by apply lookup_app_l_Some).
  assert ((l ++ [e]) !! length l = Some e) as New by (rewrite lookup_app_r, Nat.sub_diag by lia; done).
  rewrite dd_step_q by done. cbn zeta. set (peak' := if q_ltb peak e then e else peak).
  assert (0 < peak' /\ peak <= peak' /\ e <= peak') as (Pp' & Hpp & Hep).
  { unfold peak'. destruct (q_ltb peak e) eqn:E; q_tests; split_and!; lra. }
  assert ((peak' - e) / peak' * f_int 100 == fall peak' e) as Ed by (unfold fall; rewrite f_int_q; reflexivity).
  assert (exists i, (i <= length l)%nat /\ (l ++ [e]) !! i = Some peak') as (ip' & Hip & Hip').
  { unfold peak'. destruct (q_ltb peak e); [by exists (length l)|]. exists ip. split; [|auto]. apply lookup_lt_Some in Hp. lia. }
  set (dd := (peak' - e) / peak' * f_int 100) in *.
  set (m' := if q_ltb m dd then dd else m).
  assert (m <= m' /\ dd <= m') as [Hmm Hdm] by (unfold m'; destruct (q_ltb m dd) eqn:E; q_tests; split; lra).
  split; cbn [fst snd].
  - by exists ip'.
  - intros i a [Hi|[_ ->]]%Cases; [|done]. specialize (Ht _ _ Hi). lra.
  - intros i j a b Hij [Hi|[-> ->]]%Cases [Hj|[-> ->]]%Cases.
    + specialize (Hm _ _ _ _ Hij Hi Hj). lra.
    + specialize (Ht _ _ Hi). assert (fall a e <= fall peak' e); [apply fall_mono; [by eapply Pos|lra|done]|lra].
    + apply lookup_lt_Some in Hj. lia.
    + rewrite fall_self by done. assert (0 <= fall peak' e) by (by apply fall_pos). lra.
  - unfold m'. destruct (q_ltb m dd).
    + exists ip', (length l), peak', e. split_and!; try done.
    + exists i0, j0, a0, b0. split_and!; auto.
Qed.

Lemma seen_fold e0 l : 0 < e0 -> Forall (fun x => 0 < x) l -> seen (e0 :: l) (fold_left dd_step (e0 :: l) (e0, f_zero)).
Proof.
  intros H0. induction l as [|e l IH] using rev_ind; intros Hl; [by apply seen_start|].
  apply Forall_app in Hl as [Hl He]. inversion_clear He. rewrite app_comm_cons, fold_left_app.
  apply seen_step; [by constructor|done|by apply IH].
Qed.

Lemma q_round_eq nd x y : x == y -> q_round nd x == q_round nd y.
Proof. intros H. apply Qle_antisym; apply q_round_mono; lra. Qed.

Lemma last_default {X} (l : list X) a b : l <> [] -> List.last l a = List.last l b.
Proof. intros H. destruct (exists_last H) as (l' & y & ->). by rewrite !List.last_last. Qed.

Lemma drawdowns_seen curve : curve <> [] -> Forall (fun e => 0 < e) curve ->
  exists peak m c, drawdowns curve = (m, c) /\ seen curve (peak, m) /\ c == fall peak (List.last curve peak) /\
    0 < peak /\ 0 < List.last curve peak.
Proof.
  destruct curve as [|e0 l]; [done|]. intros _ Hp. inversion_clear Hp as [|? ? H0 Hl].
  pose proof (seen_fold e0 l H0 Hl) as Hs. unfold drawdowns. destruct (fold_left dd_step (e0 :: l) (e0, f_zero)) as [peak m].
  destruct Hs as [[ip Hip] ? ? ?]. cbn [fst snd] in *.
  assert (forall i a, (e0 :: l) !! i = Some a -> 0 < a) as Pos.
  { intros i a Hi. assert (Forall (fun e => 0 < e) (e0 :: l)) as K by (by constructor). exact (Forall_lookup_1 _ _ _ _ K Hi). }
  assert (0 < peak) as Pp by (by eapply Pos).
  exists peak, m. eexists. split; [done|]. split; [by split; [exists ip|..]|].
  rewrite (last_default (e0 :: l) peak e0) by done.
  replace (f_truthy peak) with true.
  2:{ symmetry. unfold f_truthy. cbn [f_eqb ArithQ]. apply negb_true_iff, q_eqb_neq. rewrite f_zero_q. lra. }
  split; [unfold fall; cbn [f_mul f_quot f_sub ArithQ]; rewrite f_int_q; reflexivity|]. split; [done|].
  destruct (exists_last (l := e0 :: l)) as (l' & x & E); [done|]. rewrite E, List.last_last.
  apply (Pos (length l')). by rewrite E, lookup_app_r, Nat.sub_diag by lia.
Qed.

Lemma last_lookup {X} (l : list X) x : l <> [] -> exists j, l !! j = Some (List.last l x) /\ forall i, (i < length l)%nat -> (i <= j)%nat.
Proof.
  intros Hl. destruct (exists_last Hl) as (l' & y & ->). exists (length l'). rewrite List.last_last. split.
  - by rewrite lookup_app_r, Nat.sub_diag by lia.
  - intros i. rewrite length_app. simpl. lia.
Qed.

End Drawdown.

Section Exact.
Context (source_chats now : string) (cutoff_iso iso_day : Z -> string) (today : Z).
Open Scope Q_scope.

(** C28: the drawdown figures are right.  Whatever fails while reading, for a curve of
    positive equities (exact arithmetic) the reported maximum is the largest fall, in
    percent, from a point to itself or a later one, rounded; the current drawdown is
    between 0 and the maximum, and neither exceeds 100. *)
Theorem drawdown_is_largest_fall (balance : option Q) days faults d v
  (Hv : run_result (_equity_curve source_chats now cutoff_iso iso_day today balance days) faults d = Ok v)
  (Hne : ev_points v <> []) (Hpos : Forall (fun e => 0 < e) (map snd (ev_points v))) :
  (forall i j a b, (i <= j)%nat -> map snd (ev_points v) !! i = Some a -> map snd (ev_points v) !! j = Some b ->
     q_round 2 (fall a b) <= ev_max_dd v) /\
  (exists i j a b, (i <= j)%nat /\ map snd (ev_points v) !! i = Some a /\ map snd (ev_points v) !! j = Some b /\
     q_round 2 (fall a b) == ev_max_dd v) /\
  0 <= ev_cur_dd v /\ ev_cur_dd v <= ev_max_dd v /\ ev_max_dd v <= 100.
Proof.
  assert (exists curve, ev_points v = curve /\ ev_max_dd v = f_round 2 (drawdowns (map snd curve)).1 /\
    ev_cur_dd v = f_round 2 (drawdowns (map snd curve)).2) as (curve & E & -> & ->).
  { revert Hv. unfold run_result, _equity_curve. rewrite run_bind. destruct (run _ faults d) as [[[snaps|] d1] fs1]; [|done].
    rewrite run_bind. destruct (run _ fs1 d1) as [[[curve|] d2] fs2]; [|done].
    destruct (drawdowns _) as [m c] eqn:Ed. intros [= <-]. exists curve. by rewrite Ed. }
  rewrite E in *. clear Hv E v. set (pts := map snd curve) in *.
  assert (pts <> []) as Hpts by (unfold pts; by destruct curve).
  destruct (drawdowns_seen pts Hpts Hpos) as (peak & m & c & Ed & [[ip Hip] Ht Hm (i0 & j0 & a0 & b0 & H0)] & Ec & Pp & Pl).
  rewrite Ed. cbn [fst snd f_round ArithQ] in *. destruct (last_lookup pts peak Hpts) as (jl & Hjl & Hlast).
  assert (0 <= c /\ c <= m /\ m <= 100) as (B1 & B2 & B3).
  { rewrite Ec. split_and!.
    - apply fall_pos; [done|by eapply Ht].
    - eapply Hm; [|done..]. apply Hlast. by eapply lookup_lt_Some.
    - destruct H0 as (_ & Hi & Hj & <-). apply Qlt_le_weak, fall_below; eapply (Forall_lookup_1 _ _ _ _ Hpos); eassumption. }
  split_and!.
  - intros. apply q_round_mono. eauto.
  - destruct H0 as (Hij & Hi & Hj & Eq). exists i0, j0, a0, b0. split_and!; try done. by apply q_round_eq.
  - rewrite <-(q_round_int 2 0). by apply q_round_mono.
  - by apply q_round_mono.
  - rewrite <-(q_round_int 2 100). by apply q_round_mono.
Qed.

Lemma filter_and {X} (p q : X -> bool) l : List.filter q (List.filter p l) = List.filter (fun x => p x && q x) l.
Proof. induction l as [|x l IH]; [done|]. simpl. destruct (p x); simpl; [destruct (q x); by rewrite IH|done]. Qed.

Lemma net_sum (closed : list (closed_row Q)) b :
  b_net (fold_left (fun b c => if is_other c then count_profit b (or_zero (cls_profit c)) else b) closed b) ==
  b_net b + q_sum (map (fun c => or_zero (cls_profit c)) (List.filter is_other closed)).
Proof.
  revert b. induction closed as [|c closed IH]; intros b; [simpl; lra|]. cbn [fold_left List.filter].
  destruct (is_other c); [|apply IH]. rewrite IH. cbn [map q_sum fold_right]. unfold count_profit.
  destruct (_ <=? _)%pyf; cbn [b_net f_add ArithQ]; unfold q_sum; lra.
Qed.

(** Digest and scorecard agree.  Computed from the same up-to-date store for the same
    window (exact arithmetic), the digest of the stack's own orders counts as executed
    what the scorecard does, and the digest of other activity has the wins, losses and
    net profit of the scorecard's other row. *)
Theorem digest_agrees_with_scorecard acct days (d : sdb Q) (Hr : ready d) :
  exists own foreign other tv,
    run_result (_digest_period source_chats now cutoff_iso acct days (Some "tradingview"%string)) [] d = Ok own /\
    run_result (_digest_period source_chats now cutoff_iso acct days (Some "other"%string)) [] d = Ok foreign /\
    run_result (scorecard source_chats now cutoff_iso days) [] d = Ok [other; tv] /\
    Z.of_nat (dg_executed own) = sc_executed tv /\
    Z.of_nat (dg_wins foreign) = sc_wins other /\ Z.of_nat (dg_losses foreign) = sc_losses other /\
    dg_net foreign == sc_net other.
Proof.
  clear iso_day today.
  destruct (digest_ready source_chats now cutoff_iso acct days (Some "tradingview"%string) d Hr) as (own & E1 & X1 & _).
  destruct (digest_ready source_chats now cutoff_iso acct days (Some "other"%string) d Hr) as (foreign & E2 & _ & X2 & X3 & X4).
  exists own, foreign. unfold scorecard, run_result at 3. rewrite run_bind, select_ready, run_bind, select_ready by done. cbn [run ret fst].
  destruct (card_rows (orders_since cutoff_iso days d) (closed_since cutoff_iso days d))
    as (other & tv & Ec & C1 & C2 & _ & C3 & _ & _ & C4 & C5).
  assert (forall c : closed_row Q, from_source (Some "other"%string) (Some (cls_source c)) = is_other c) as Hf.
  { intros c. unfold from_source, is_other. cbn. apply bool_decide_ext. split; [by intros [= ->]|by intros ->]. }
  rewrite (List.filter_ext _ _ Hf) in X2, X3, X4. rewrite filter_and in X1. rewrite filter_and in X2. exists other, tv.
  assert (sc_net other == q_round 2 (q_sum (map (fun c => or_zero (cls_profit c)) (List.filter is_other (closed_since cutoff_iso days d))))) as Hn.
  { assert (other = score_of (fold_left (fun b c => if is_other c then count_profit b (or_zero (cls_profit c)) else b)
      (closed_since cutoff_iso days d) (empty_bucket "other EAs"))) as ->.
    { revert Ec C2. unfold card, sort_by. cbn [map fold_right insert_sorted].
      destruct (String.ltb _ _); intros [= <- <-] C2; [done|]. exfalso. revert C2. cbn [score_of sc_channel].
      destruct (other_counts (closed_since cutoff_iso days d) (empty_bucket (F := Q) "other EAs")) as (_ & _ & O3 & _).
      unfold is_other in O3. by rewrite O3. }
    cbn [score_of sc_net f_round ArithQ]. apply q_round_eq. rewrite net_sum. cbn [empty_bucket b_net]. pose proof f_zero_q. lra. }
  split_and!; try done.
  - by rewrite Ec.
  - rewrite C3, X1. f_equal.
  - by rewrite C4, X2.
  - rewrite C4 in C5. rewrite X2 in X3. lia.
  - rewrite X4, Hn. cbn [f_round ArithQ]. apply q_round_eq. apply py_sum_q.
Qed.

End Exact.

(** ** A concrete store *)

Module ReportDemo.
Definition cutoff (_ : Z) : string := "2024-01-01".
Definition day (_ : Z) : string := "".
Definition order (trace source status ticket : string) (error : option string) : ord_row Q :=
  mk_ord "2024-01-02" trace (Some source) (Some "buy"%string) (Some "EURUSD"%string) (Some 10%Q) None None
    None None (Some status) (Some ticket) None error.
Definition trade (position source : string) (profit : Q) : closed_row Q :=
  mk_closed position "2024-01-03" "EURUSD" "buy" 1%Q None 1%Q profit 0 None source.
Definition snap (ts : string) (equity : Q) : equity_row Q := mk_equity ts equity equity 0%Q 0%Q 0%Q.
Definition db : sdb Q :=
  mk_sdb [("schema_version"%string, Some "4"%string); ("dry_run"%string, Some "0"%string);
          ("hb_ea_shim"%string, Some "stamp"%string);
          ("hb_ea_shim_state"%string, Some (dumps StoreDemo.repr (PDict [("mt5"%string, PBool true); ("account"%string, PInt 7)])))]
    [] [order "t-1" "tradingview" "filled" "1" None; order "t-2" "tradingview" "placed" "2" None;
        order "t-3" "tradingview" "rejected" "3" (Some "risk sizing: stop too far"%string)]
    [trade "1" "tradingview" 20%Q; trade "9" "other" (- 5 # 1)%Q]
    [snap "2024-01-02" 100%Q; snap "2024-01-03" 80%Q; snap "2024-01-04" 90%Q] [] (Some (true, true)).
Lemma report_db_ready : ready db.
Proof. by split. Qed.
Definition age (_ : string) : option Q := Some 12%Q.
Definition no_str (_ : pyval Q) : string := "".

Example scorecard_demo : option_map (map (fun r => (sc_executed r, sc_open r, sc_wins r, sc_losses r)))
  (match run_result (scorecard "" "now" cutoff 30) [] db with Ok l => Some l | Err _ => None end) =
  Some [(0, 0, 0, 1); (2, 1, 1, 0)]%Z.
Proof. vm_compute. reflexivity. Qed.

(** Two rejections, a limit of one: one row is shown and nothing says so. *)
Example ignored_demo : option_map (fun p => (length (ip_rows p), ip_truncated p))
  (match run_result (ignored_messages "" "now" cutoff 7 None 1)
     [] (on_orders (fun l => order "t-4" "tradingview" "rejected" "" None :: l) db) with Ok p => Some p | Err _ => None end) =
  Some (1%nat, false).
Proof. vm_compute. reflexivity. Qed.

(** An order rejected first and filled on a retry keeps its error text, and is listed
    both as ignored and as actioned. *)
Definition retried : sdb Q :=
  run_state (record_order "" "now" (order "t-3" "tradingview" "filled" "3" None)) [] db.
Example listed_twice :
  (existsb (fun o => bool_decide (ord_trace o = "t-3"%string) && passed_over o) (s_orders retried),
   existsb (fun o => bool_decide (ord_trace o = "t-3"%string) && actioned o) (s_orders retried)) = (true, true).
Proof. vm_compute. reflexivity. Qed.
End ReportDemo.

Lemma drawdown_is_largest_fall_witness :
  exists v, run_result (_equity_curve "" "now" ReportDemo.cutoff ReportDemo.day 0 None 30) [] ReportDemo.db = Ok v /\
    (ev_max_dd v == 20 /\ ev_cur_dd v == 10 /\ ev_cur_dd v <= ev_max_dd v)%Q.
Proof.
  eexists. split; [vm_compute; reflexivity|]. split; [reflexivity|]. split; [reflexivity|].
  apply (drawdown_is_largest_fall "" "now" ReportDemo.cutoff ReportDemo.day 0 None 30 [] ReportDemo.db).
  - vm_compute. reflexivity.
  - discriminate.
  - repeat constructor.
Defined.

Lemma digest_agrees_with_scorecard_witness :
  exists own other tv,
    run_result (_digest_period "" "now" ReportDemo.cutoff None 30 (Some "tradingview"%string)) [] ReportDemo.db = Ok own /\
    run_result (scorecard "" "now" ReportDemo.cutoff 30) [] ReportDemo.db = Ok [other; tv] /\
    Z.of_nat (dg_executed own) = sc_executed tv.
Proof.
  destruct (digest_agrees_with_scorecard "" "now" ReportDemo.cutoff None 30 ReportDemo.db ReportDemo.report_db_ready)
    as (own & foreign & other & tv & H1 & _ & H2 & H3 & _).
  exists own, other, tv. split; [exact H1|]. split; [exact H2|exact H3].
Defined.

Lemma pipeline_green_iff_witness :
  exists p, run_result (pipeline_status "" "now" ReportDemo.no_str ReportDemo.age true (Some 200) (Some 200)) [] ReportDemo.db = Ok p /\
    pl_green p = true.
Proof.
  destruct (pipeline_green_iff "" "now" ReportDemo.no_str ReportDemo.age true (Some 200) (Some 200) ReportDemo.db
    [("mt5"%string, PBool true); ("account"%string, PInt 7)] ReportDemo.report_db_ready) as (p & H1 & H2 & _).
  - vm_compute. reflexivity.
  - exists p. split; [exact H1|]. apply H2. split; [reflexivity|]. split; [reflexivity|]. split; vm_compute; reflexivity.
Defined.
