(* ===== verification/DashTrades.v ===== *)
(** * DashTrades: the dashboard's view of the terminal

    scripts/trade_dashboard.py: broker deals grouped into closed positions, the
    statistics and the daily profit computed from them, the order buckets of the
    fills log, the broker-time offset, the CSV exports and the query parameters.

    A deal's fields are as the MetaTrader5 package reports them; its constants are
    the constructors of [deal_type] and [deal_entry].  [fmt_time] is the ISO text of
    a Unix time ([None] where [datetime] raises), [iso_day] that of a calendar day.
    [csv.writer] is written out with its default dialect. *)

From Stdlib Require Import ZArith QArith Ascii Strings.Byte Lqa Qabs.
From S2P Require Import Prelude Text PyFloat PyVal Json Prog Db EaShim TradeStore Dashboard DashReport.
Open Scope Z_scope.

(** ** Closed positions *)

Inductive deal_type := DealBuy | DealSell | DealOther.
Inductive deal_entry := EntryIn | EntryOut | EntryInOut | EntryOutBy.

(** A dict of lists, in insertion order: [m.setdefault(k, []).append(x)]. *)
Fixpoint push {X} (k : Z) (x : X) (m : list (Z * list X)) : list (Z * list X) :=
  match m with
  | [] => [(k, [x])]
  | (k', l) :: m' => if k' =? k then (k', l ++ [x]) :: m' else (k', l) :: push k x m'
  end.

Definition bin {X} (m : list (Z * list X)) (k : Z) : list X :=
  match List.find (fun kl => kl.1 =? k) m with Some kl => kl.2 | None => [] end.

Section Trades.
Context {F : Type} {A : Arith F} (MAGIC : Z).

Record deal := mk_deal {
  dl_type : deal_type; dl_entry : deal_entry; dl_position : Z; dl_time : Z; dl_symbol : string; dl_price : F;
  dl_volume : F; dl_profit : F; dl_commission : F; dl_swap : F; dl_magic : Z; dl_comment : string }.

Definition _source_of (comment : string) : string := "tradingview".

Definition _deal_source (magic : Z) (comment : string) : string :=
  if magic =? MAGIC then _source_of comment else "other"%string.

Definition is_trade (d : deal) : bool := match dl_type d with DealOther => false | _ => true end.
Definition is_in (d : deal) : bool := match dl_entry d with EntryIn => true | _ => false end.
Definition is_out (d : deal) : bool := match dl_entry d with EntryOut | EntryOutBy => true | _ => false end.

Definition sort_deal (st : list (Z * list deal) * list (Z * list deal)) (d : deal)
  : list (Z * list deal) * list (Z * list deal) :=
  let '(ins, outs) := st in
  if negb (is_trade d) then (ins, outs)
  else if is_in d then (push (dl_position d) d ins, outs)
  else if is_out d then (ins, push (dl_position d) d outs)
  else (ins, outs).

Record closed := mk_cp {
  cp_ticket : string; cp_time : Z; cp_symbol : string; cp_side : string; cp_volume : F; cp_close : F;
  cp_entry : option F; cp_entry_time : option Z; cp_profit : F; cp_commission : F; cp_swap : F;
  cp_source : string; cp_comment : string; cp_magic : Z }.

Definition by_time (l : list deal) : list deal := sort_by (fun a b => dl_time a <? dl_time b) l.

Definition deal_net (d : deal) : F := (dl_profit d + dl_commission d + dl_swap d)%pyf.

(** The row of one position; [None] for an empty group, which does not occur. *)
Definition closed_of (ins : list deal) (pos_id : Z) (out_deals : list deal) : option closed :=
  let out_deals := by_time out_deals in
  match head (rev out_deals) with
  | None => None
  | Some l =>
      let in_deals := by_time ins in
      let tot_vol := py_sum (map dl_volume in_deals) in
      Some (mk_cp (pretty pos_id) (dl_time l) (dl_symbol l)
        (match dl_type l with DealBuy => "sell" | _ => "buy" end)
        (f_round 4 (py_sum (map dl_volume out_deals))) (dl_price l)
        (match in_deals with
         | [] => None
         | _ => if f_truthy tot_vol
                then Some (f_round 5 (f_quot (py_sum (map (fun x => (dl_price x * dl_volume x)%pyf) in_deals)) tot_vol))
                else None end)
        (dl_time <$> head in_deals)
        (f_round 2 (py_sum (map deal_net out_deals)))
        (f_round 2 (py_sum (map dl_commission out_deals)))
        (f_round 2 (py_sum (map dl_swap out_deals)))
        (_deal_source (dl_magic l) (dl_comment l)) (dl_comment l) (dl_magic l))
  end.

Definition _group_closed (deals : list deal) : list closed :=
  let '(ins, outs) := fold_left sort_deal deals ([], []) in
  omap (fun kl => closed_of (bin ins kl.1) kl.1 kl.2) outs.

(** ** Statistics of the closed positions *)

Definition of_source (source : option string) (rows : list closed) : list closed :=
  match source with
  | Some s => if bool_decide (s = ""%string) then rows else List.filter (fun r => bool_decide (cp_source r = s)) rows
  | None => rows
  end.

Definition won (r : closed) : bool := (f_zero <=? cp_profit r)%pyf.

Record closed_stats := mk_stats {
  st_count : nat; st_wins : nat; st_losses : nat; st_net : F; st_buys : nat; st_sells : nat; st_by_source : list (string * F) }.

(** The "closed" part of the page; by_source is always over all rows. *)
Definition _mt5_closed (grouped_all : list closed) (source : option string) : closed_stats :=
  let grouped := of_source source grouped_all in
  let wins := length (List.filter won grouped) in
  mk_stats (length grouped) wins (length grouped - wins) (f_round 2 (py_sum (map cp_profit grouped)))
    (length (List.filter (fun r => bool_decide (cp_side r = "buy"%string)) grouped))
    (length (List.filter (fun r => bool_decide (cp_side r = "sell"%string)) grouped))
    (fold_left (fun m r => add_source (cp_source r) (cp_profit r) m) grouped_all
       [("tradingview"%string, f_zero); ("other"%string, f_zero)]).

(** Newest first. *)
Definition newest (rows : list closed) : list closed := sort_by (fun a b => cp_time b <? cp_time a) rows.

(** ** Daily profit *)

(** [round(buckets.get(d, 0.0) + profit, 2)] for the rows of one day; an empty date is no day. *)
Definition day_bucket (rows : list (option string * F)) (d : string) : F :=
  fold_left (fun acc r => if bool_decide (str_take 10 (default ""%string r.1) = d) then f_round 2 (acc + r.2)%pyf else acc)
    rows f_zero.

Definition _daily_pnl (iso_day : Z -> string) (today : Z) (rows : list (option string * F)) (days : Z)
  : list (string * F) :=
  map (fun d => (iso_day d, day_bucket rows (iso_day d))) (seqZ (today - (days - 1)) days).

(** ** Order buckets of the fills log *)

Definition _side_of (command : string) : string :=
  let c := lower command in
  if bool_decide (c = "closeshortopenlong"%string) || startswith c "buy" then "buy"
  else if bool_decide (c = "closelongopenshort"%string) || startswith c "sell" then "sell"
  else ""%string.

Record order_bucket := mk_ob { ob_total : nat; ob_executed : nat; ob_rejected : nat; ob_buys : nat; ob_sells : nat }.

(** A record of the log: command and status, both texts. *)
Definition count_order (b : order_bucket) (r : string * string) : order_bucket :=
  let '(command, status) := r in
  let side := _side_of command in
  mk_ob (S (ob_total b))
    (if in_words status ["filled"; "placed"]%string then S (ob_executed b) else ob_executed b)
    (if bool_decide (status = "rejected"%string) then S (ob_rejected b) else ob_rejected b)
    (if bool_decide (side = "buy"%string) then S (ob_buys b) else ob_buys b)
    (if bool_decide (side = "sell"%string) then S (ob_sells b) else ob_sells b).

(** Records without a command are skipped; any source but the stack's own leaves none. *)
Definition _order_stats (source : option string) (records : list (string * string)) : order_bucket :=
  let rows := List.filter (fun r => negb (bool_decide (r.1 = ""%string))) records in
  let rows := if given source then (if is_some_text (_source_of "") source then rows else []) else rows in
  fold_left count_order rows (mk_ob 0 0 0 0 0).

(** ** Broker time *)

(** [cache]: the offset once known; [tick]: the time of the last tick, if any. *)
Definition _estimate_broker_offset (cache tick : option F) (clock : F) : option F * option F :=
  match cache with
  | Some _ => (cache, cache)
  | None =>
      match tick with
      | None => (None, None)
      | Some tick_time =>
          if negb (f_truthy tick_time) then (None, None)
          else
            let delta := (tick_time - clock)%pyf in
            let rounded := (f_round 0 (f_quot delta (f_int 1800)) * f_int 1800)%pyf in
            if (f_int 600 <? f_abs (delta - rounded))%pyf then (None, None)
            else if (f_int (4 * 3600) <? f_abs rounded)%pyf then (None, None)
            else (Some rounded, Some rounded)
      end
  end.

(** ** Query parameters *)

Definition _parse_days (raw : option string) : Z :=
  let d := match parse_int (default "7"%string raw) with Some d => d | None => 7 end in
  Z.max 1 (Z.min 120 d).

Definition _parse_source (raw : option string) : option string :=
  let s := lower (strip (default ""%string raw)) in
  if in_words s ["tradingview"; "other"]%string then Some s else None.

End Trades.
Arguments deal F : clear implicits. Arguments closed F : clear implicits.

(** ** Grouping, against a definition by filters *)

(** The distinct keys, in order of first occurrence. *)
Fixpoint firsts (seen l : list Z) : list Z :=
  match l with
  | [] => []
  | k :: l' => if bool_decide (k ∈ seen) then firsts seen l' else k :: firsts (k :: seen) l'
  end.

Lemma firsts_elem l : forall seen k, k ∈ firsts seen l <-> k ∈ l /\ k ∉ seen.
Proof.
  induction l as [|x l IH]; intros seen k; simpl; [set_solver|].
  case_bool_decide; [rewrite IH; set_solver|]. rewrite elem_of_cons, IH. destruct (decide (k = x)); set_solver.
Qed.

Lemma firsts_nodup l : forall seen, NoDup (firsts seen l).
Proof.
  induction l as [|x l IH]; intros seen; simpl; [constructor|]. case_bool_decide; [done|].
  constructor; [|done]. rewrite firsts_elem. set_solver.
Qed.

Lemma firsts_snoc l x : forall seen,
  firsts seen (l ++ [x]) = firsts seen l ++ if bool_decide (x ∈ seen \/ x ∈ l) then [] else [x].
Proof.
  induction l as [|y l IH]; intros seen.
  - simpl. repeat case_bool_decide; done || set_solver.
  - cbn [app firsts]. case_bool_decide as Hy.
    + rewrite IH. f_equal. replace (bool_decide (x ∈ seen \/ x ∈ y :: l)) with (bool_decide (x ∈ seen \/ x ∈ l)); [done|].
      apply bool_decide_ext. rewrite elem_of_cons. set_solver.
    + rewrite IH. simpl. do 2 f_equal. replace (bool_decide (x ∈ seen \/ x ∈ y :: l)) with (bool_decide (x ∈ y :: seen \/ x ∈ l)); [done|].
      apply bool_decide_ext. rewrite !elem_of_cons. tauto.
Qed.

Section Bins.
Context {X : Type} (key : X -> Z).

Definition of_key (k : Z) (l : list X) : list X := List.filter (fun x => key x =? k) l.

Lemma push_bins k x (g : Z -> list X) ks : NoDup ks ->
  push k x (map (fun k' => (k', g k')) ks) =
  map (fun k' => (k', if k' =? k then g k' ++ [x] else g k')) ks ++ if bool_decide (k ∈ ks) then [] else [(k, [x])].
Proof.
  induction 1 as [|k' ks Hk Hn IH]; [done|]. simpl. destruct (Z.eqb_spec k' k) as [->|Hne].
  - rewrite bool_decide_true by left. rewrite app_nil_r. f_equal. apply map_ext_in. intros k' Hin.
    destruct (Z.eqb_spec k' k) as [->|]; [|done]. apply list_elem_of_In in Hin. done.
  - rewrite IH. simpl. do 2 f_equal. replace (bool_decide (k ∈ k' :: ks)) with (bool_decide (k ∈ ks)); [done|].
    apply bool_decide_ext. rewrite elem_of_cons. split; [by right|]. intros [?|?]; [congruence|done].
Qed.

Lemma of_key_nil k l : k ∉ map key l -> of_key k l = [].
Proof.
  unfold of_key. induction l as [|x l IH]; [done|]. simpl. rewrite not_elem_of_cons. intros [H1 H2].
  destruct (Z.eqb_spec (key x) k); [congruence|auto].
Qed.

(** The dict built by the loop, as one filter per key. *)
Lemma push_all l : fold_left (fun m x => push (key x) x m) l [] =
  map (fun k => (k, of_key k l)) (firsts [] (map key l)).
Proof.
  induction l as [|x l IH] using rev_ind; [done|]. rewrite fold_left_app, map_app. cbn [fold_left map].
  rewrite IH, push_bins, firsts_snoc, map_app by apply firsts_nodup. f_equal.
  - apply map_ext. intros k. f_equal. unfold of_key. rewrite List.filter_app. simpl. rewrite (Z.eqb_sym k).
    destruct (Z.eqb_spec (key x) k); [done|by rewrite app_nil_r].
  - repeat case_bool_decide; try done; rewrite firsts_elem in *; [set_solver..|]. simpl. unfold of_key.
    rewrite List.filter_app. fold (of_key (key x) l). rewrite of_key_nil by set_solver. simpl. by rewrite Z.eqb_refl.
Qed.

Lemma bin_bins k (g : Z -> list X) ks : bin (map (fun k' => (k', g k')) ks) k = if bool_decide (k ∈ ks) then g k else [].
Proof.
  unfold bin. induction ks as [|k' ks IH]; [done|]. simpl. destruct (Z.eqb_spec k' k) as [->|Hn].
  - by rewrite bool_decide_true by left.
  - rewrite IH. replace (bool_decide (k ∈ k' :: ks)) with (bool_decide (k ∈ ks)); [done|].
    apply bool_decide_ext. rewrite elem_of_cons. split; [by right|]. intros [?|?]; [congruence|done].
Qed.

Lemma push_all_bin l k : bin (fold_left (fun m x => push (key x) x m) l []) k = of_key k l.
Proof.
  rewrite push_all, bin_bins. case_bool_decide as H; [done|]. symmetry. apply of_key_nil. rewrite firsts_elem in H. set_solver.
Qed.

(** No element is lost or counted twice. *)
Lemma bins_perm l : concat (map (fun k => of_key k l) (firsts [] (map key l))) ≡ₚ l.
Proof.
  replace (map (fun k => of_key k l) (firsts [] (map key l)))
    with (map snd (fold_left (fun m x => push (key x) x m) l [])) by (rewrite push_all, map_map; done).
  induction l as [|x l IH] using rev_ind; [done|]. rewrite fold_left_app. cbn [fold_left].
  set (m := fold_left _ l []) in *. rewrite <-IH. clear IH. clearbody m. induction m as [|[k' b] m IHm]; [done|]. simpl.
  destruct (k' =? key x); simpl; [by rewrite <-!app_assoc, (Permutation_app_comm [x])|]. by rewrite IHm, app_assoc.
Qed.

End Bins.

Lemma omap_map {X Y Y'} (f : Y -> option Y') (g : X -> Y) (l : list X) : omap f (map g l) = omap (fun x => f (g x)) l.
Proof. induction l as [|x l IH]; [done|]. cbn [map]. unfold omap in *. cbn [list_omap]. by rewrite IH. Qed.

Lemma omap_ext {X Y} (f g : X -> option Y) (l : list X) : (forall x, f x = g x) -> omap f l = omap g l.
Proof. intros H. induction l as [|x l IH]; [done|]. unfold omap in *. cbn [list_omap]. by rewrite H, IH. Qed.

Section Grouping.
Context {F : Type} {A : Arith F} (MAGIC : Z).

Definition opening (d : deal F) : bool := is_trade d && is_in d.
Definition closing (d : deal F) : bool := is_trade d && is_out d.

Lemma sort_deals ds : forall i o, fold_left sort_deal ds (i, o) =
  (fold_left (fun m d => push (dl_position d) d m) (List.filter opening ds) i,
   fold_left (fun m d => push (dl_position d) d m) (List.filter closing ds) o).
Proof.
  induction ds as [|d ds IH]; intros i o; [done|]. cbn [fold_left List.filter]. unfold sort_deal at 2.
  change (opening d) with (is_trade d && is_in d). change (closing d) with (is_trade d && is_out d).
  destruct (is_trade d); cbn [andb negb]; [|apply IH]. unfold is_in, is_out.
  destruct (dl_entry d); cbn [fold_left]; apply IH.
Qed.

(** The positions that were closed, in the order of their first closing deal. *)
Definition closed_ids (deals : list (deal F)) : list Z := firsts [] (map dl_position (List.filter closing deals)).

Definition row_for (deals : list (deal F)) (k : Z) : option (closed F) :=
  closed_of MAGIC (of_key dl_position k (List.filter opening deals)) k (of_key dl_position k (List.filter closing deals)).

Lemma group_closed_rows deals : _group_closed MAGIC deals = omap (row_for deals) (closed_ids deals).
Proof.
  unfold _group_closed, closed_ids. rewrite sort_deals. rewrite (push_all dl_position (List.filter closing deals)).
  pose proof (push_all_bin dl_position (List.filter opening deals)) as Hb. unfold row_for.
  rewrite omap_map. apply omap_ext. intros k. cbn [fst snd]. by rewrite Hb.
Qed.

Lemma closed_of_some ins k outs : outs <> [] -> exists r, closed_of MAGIC ins k outs = Some r /\ cp_ticket r = pretty k /\
  cp_profit r = f_round 2 (py_sum (map deal_net (by_time outs))) /\
  In (cp_side r) ["buy"; "sell"]%string /\ In (cp_source r) ["tradingview"; "other"]%string.
Proof.
  intros Ho. unfold closed_of. destruct (rev (by_time outs)) as [|l r] eqn:E.
  - exfalso. apply Ho. assert (by_time outs = []) as E2 by (by rewrite <-(rev_involutive (by_time outs)), E).
    apply Permutation_nil. rewrite <-(sort_by_perm (fun a b => dl_time a <? dl_time b) outs). unfold by_time in E2. by rewrite E2.
  - cbn [head]. eexists. split; [done|]. cbn. split_and!; try done.
    + destruct (dl_type l); auto.
    + unfold _deal_source, _source_of. destruct (_ =? _); auto.
Qed.

Lemma row_for_some deals k : k ∈ closed_ids deals -> exists r, row_for deals k = Some r /\ cp_ticket r = pretty k /\
  cp_profit r = f_round 2 (py_sum (map deal_net (by_time (of_key dl_position k (List.filter closing deals))))) /\
  In (cp_side r) ["buy"; "sell"]%string /\ In (cp_source r) ["tradingview"; "other"]%string.
Proof.
  intros Hk. apply closed_of_some. apply firsts_elem in Hk as [Hk _]. apply list_elem_of_fmap in Hk as (d & -> & Hd).
  intros E. assert (d ∈ of_key dl_position (dl_position d) (List.filter closing deals)) as Hin;
    [|rewrite E in Hin; by apply not_elem_of_nil in Hin].
  apply list_elem_of_In, filter_In. rewrite Z.eqb_refl. split; [by apply list_elem_of_In|done].
Qed.

Lemma rows_forall2 deals ks : (forall k, k ∈ ks -> k ∈ closed_ids deals) ->
  Forall2 (fun k r => row_for deals k = Some r) ks (omap (row_for deals) ks).
Proof.
  induction ks as [|k ks IH]; intros H; simpl; [constructor|].
  destruct (row_for_some deals k) as (r & Er & _); [apply H; left|]. simpl. rewrite Er. constructor; [done|].
  apply IH. intros k' Hk'. apply H. by right.
Qed.

(** C13: closed positions are grouped correctly.  There is one row per position that has a
    closing deal, in the order of the first one; each row is computed from exactly
    the closing deals of its position and the opening deals of the same position in
    the window; and no two rows have the same ticket, so no partial close is counted
    as a trade of its own. *)
Theorem group_closed_spec (deals : list (deal F)) :
  Forall2 (fun k r => row_for deals k = Some r /\ cp_ticket r = pretty k) (closed_ids deals) (_group_closed MAGIC deals) /\
  NoDup (map cp_ticket (_group_closed MAGIC deals)) /\
  (forall k, k ∈ closed_ids deals <-> exists d, d ∈ deals /\ closing d = true /\ dl_position d = k).
Proof.
  assert (Forall2 (fun k r => row_for deals k = Some r /\ cp_ticket r = pretty k) (closed_ids deals) (_group_closed MAGIC deals)) as HF.
  { rewrite group_closed_rows. eapply Forall2_impl; [|by apply rows_forall2]. intros k r Hr. split; [done|].
    revert Hr. unfold row_for, closed_of. destruct (head _); [|done]. by intros [= <-]. }
  split; [done|]. split.
  - assert (map cp_ticket (_group_closed MAGIC deals) = map pretty (closed_ids deals)) as ->.
    { clear -HF. induction HF as [|k r ks rs [_ H] _ IH]; [done|]. simpl. by rewrite H, IH. }
    apply NoDup_fmap_2; [apply _|]. apply firsts_nodup.
  - intros k. unfold closed_ids. rewrite firsts_elem. split.
    + intros [(d & -> & Hd)%list_elem_of_fmap _]. exists d. apply list_elem_of_In, filter_In in Hd as [Hd Hc].
      split; [by apply list_elem_of_In|done].
    + intros (d & Hd & Hc & <-). split; [|apply not_elem_of_nil]. apply list_elem_of_fmap. exists d. split; [done|].
      apply list_elem_of_In, filter_In. split; [by apply list_elem_of_In|done].
Qed.

Lemma group_closed_elem deals r : r ∈ _group_closed MAGIC deals ->
  In (cp_side r) ["buy"; "sell"]%string /\ In (cp_source r) ["tradingview"; "other"]%string.
Proof.
  rewrite group_closed_rows. intros (k & Hk & Er)%list_elem_of_omap.
  destruct (row_for_some deals k Hk) as (r' & Er' & _ & _ & H1 & H2). rewrite Er in Er'. by injection Er' as <-.
Qed.

Lemma filter_two {X} (p q : X -> bool) l : (forall x, x ∈ l -> p x = negb (q x)) ->
  (length (List.filter p l) + length (List.filter q l))%nat = length l.
Proof.
  clear. induction l as [|x l IH]; intros H; [done|]. simpl. rewrite (H x) by left.
  assert (forall y, y ∈ l -> p y = negb (q y)) as H2 by (intros y Hy; apply H; by right). specialize (IH H2).
  destruct (q x); simpl; lia.
Qed.

(** The closed-trades figures are consistent.  For every source filter, wins and
    losses, and buys and sells, add up to the number of positions shown; and the
    positions of the stack and those of other activity add up to all of them. *)
Theorem closed_stats_partition (deals : list (deal F)) source :
  let s := _mt5_closed (_group_closed MAGIC deals) source in
  let count src := st_count (_mt5_closed (_group_closed MAGIC deals) src) in
  (st_wins s + st_losses s = st_count s /\ st_buys s + st_sells s = st_count s /\
   count (Some "tradingview"%string) + count (Some "other"%string) = count None)%nat.
Proof.
  cbn zeta. unfold _mt5_closed. cbn [st_wins st_losses st_count st_buys st_sells].
  assert (forall r, r ∈ of_source source (_group_closed MAGIC deals) -> r ∈ _group_closed MAGIC deals) as Hin.
  { intros r. unfold of_source. destruct source as [s|]; [|done]. case_bool_decide; [done|]. intros Hr.
    apply list_elem_of_In, filter_In in Hr as [Hr _]. by apply list_elem_of_In. }
  split_and!.
  - pose proof (filter_length_le (@won F A) (of_source source (_group_closed MAGIC deals))). lia.
  - apply filter_two. intros r Hr. destruct (group_closed_elem _ _ (Hin r Hr)) as [[<-|[<-|[]]] _]; done.
  - cbn [of_source]. rewrite !bool_decide_false by done. apply filter_two. intros r Hr.
    destruct (group_closed_elem _ _ Hr) as [_ [<-|[<-|[]]]]; done.
Qed.

End Grouping.

Section Exact.
Context (MAGIC : Z).
Open Scope Q_scope.

Lemma q_round_error x : Qabs (q_round 2 x - x) <= 1 # 200.
Proof.
  apply Qabs_Qle_condition. unfold q_round. change (Z.to_pos (10 ^ Z.of_nat 2)) with 100%positive.
  pose proof (round_half_even_spec (Qnum x * 100) (Qden x)) as [B _]. cbn zeta in B.
  destruct x as [n d]. unfold Qle. simpl in *. split; nia.
Qed.

Lemma q_sum_perm a b : a ≡ₚ b -> q_sum a == q_sum b.
Proof. induction 1; unfold q_sum in *; simpl; lra. Qed.

Lemma q_sum_concat {X} (f : X -> Q) (g : Z -> list X) ks :
  q_sum (map f (concat (map g ks))) == q_sum (map (fun k => q_sum (map f (g k))) ks).
Proof.
  induction ks as [|k ks IH]; [done|]. cbn [map concat]. rewrite map_app, q_sum_app, IH. unfold q_sum. simpl. lra.
Qed.

(** Grouping conserves money.  In exact arithmetic the profits of the rows add up to
    the profit, commission and swap of all closing deals, up to half a cent of
    rounding per row. *)
Theorem grouping_conserves_profit (deals : list (deal Q)) :
  Qabs (q_sum (map cp_profit (_group_closed MAGIC deals)) - q_sum (map deal_net (List.filter closing deals))) <=
  inject_Z (Z.of_nat (length (_group_closed MAGIC deals))) * (1 # 200).
Proof.
  rewrite <-(q_sum_perm _ _ (Permutation_map deal_net (bins_perm dl_position (List.filter closing deals)))).
  rewrite q_sum_concat. fold (closed_ids deals).
  set (total := fun k => q_sum (map deal_net (of_key dl_position k (List.filter closing deals)))).
  rewrite group_closed_rows.
  assert (forall ks, (forall k, k ∈ ks -> k ∈ closed_ids deals) ->
    Qabs (q_sum (map cp_profit (omap (row_for MAGIC deals) ks)) - q_sum (map total ks)) <=
    inject_Z (Z.of_nat (length (omap (row_for MAGIC deals) ks))) * (1 # 200)) as K; [|by apply K].
  induction ks as [|k ks IH]; intros Hks; [by vm_compute|].
  destruct (row_for_some MAGIC deals k) as (r & Er & _ & Ep & _); [apply Hks; left|].
  specialize (IH (fun k' Hk' => Hks k' (list_elem_of_further _ _ _ Hk'))).
  assert (omap (row_for MAGIC deals) (k :: ks) = r :: omap (row_for MAGIC deals) ks) as ->
    by (unfold omap; cbn [list_omap]; by rewrite Er).
  cbn [map length]. unfold q_sum in *. cbn [fold_right]. rewrite Ep. cbn [f_round ArithQ].
  rewrite Nat2Z.inj_succ, <-Z.add_1_r, inject_Z_plus.
  assert (py_sum (map deal_net (by_time (of_key dl_position k (List.filter closing deals)))) == total k) as Et.
  { rewrite py_sum_q. apply q_sum_perm, Permutation_map, sort_by_perm. }
  pose proof (q_round_error (py_sum (map deal_net (by_time (of_key dl_position k (List.filter closing deals)))))) as Hr.
  apply Qabs_Qle_condition in Hr as [Hr1 Hr2]. apply Qabs_Qle_condition in IH as [I1 I2]. apply Qabs_Qle_condition.
  set (x := q_round 2 _) in *. set (y := py_sum _) in *. clearbody x y. change (inject_Z 1) with 1. split; lra.
Qed.

(** The estimated broker offset is a plausible time zone.  A freshly estimated offset
    (exact arithmetic) is a whole number of half hours, at most four hours either
    way and within ten minutes of the observed skew; once known it is the answer to
    every later call, whatever the tick. *)
Theorem broker_offset_plausible (tick clock offset : Q) cache tick' clock'
  (H : _estimate_broker_offset None (Some tick) clock = (Some offset, cache)) :
  (exists k : Z, offset == inject_Z (k * 1800)) /\ Qabs offset <= inject_Z 14400 /\
  Qabs (tick - clock - offset) <= inject_Z 600 /\
  _estimate_broker_offset cache tick' clock' = (Some offset, cache).
Proof.
  revert H. unfold _estimate_broker_offset at 1. destruct (negb _); [done|].
  cbn [f_sub f_quot f_mul f_round f_ltb f_abs ArithQ]. set (delta := tick - clock).
  destruct (q_ltb (f_int 600) _) eqn:E1; [done|]. destruct (q_ltb (f_int (4 * 3600)) _) eqn:E2; [done|]. intros [= <- <-]. q_tests.
  split_and!; [|by apply (Qle_trans _ _ _ E2)|by apply (Qle_trans _ _ _ E1)|done].
  unfold q_round. change (Z.to_pos (10 ^ Z.of_nat 0)) with 1%positive. set (k := round_half_even _ _).
  exists k. clearbody k. unfold f_int, Qeq. simpl. lia.
Qed.

End Exact.

(** ** CSV exports *)

Definition dquote : ascii := ascii_of_nat 34.
Definition cr : ascii := ascii_of_nat 13.
Definition lf : ascii := ascii_of_nat 10.

Definition special (c : ascii) : bool := existsb (fun x => bool_decide (x = c)) [","%char; dquote; cr; lf].

Fixpoint doubled (l : chars) : chars :=
  match l with [] => [] | c :: l' => if bool_decide (c = dquote) then dquote :: dquote :: doubled l' else c :: doubled l' end.

(** QUOTE_MINIMAL. *)
Definition csv_field (l : chars) : chars := if existsb special l then dquote :: doubled l ++ [dquote] else l.

(** [csv.writer.writerow]: a lone empty field is quoted. *)
Definition writerow (row : list chars) : chars :=
  match row with [[]] => [dquote; dquote] | _ => join_comma (map csv_field row) end ++ [cr; lf].

Definition _CSV_DANGEROUS_PREFIXES : list ascii := ["="; "+"; "-"; "@"]%char.
Definition dangerous (l : chars) : bool :=
  match l with c :: _ => existsb (fun x => bool_decide (x = c)) _CSV_DANGEROUS_PREFIXES | [] => false end.

Section Csv.
Context {F : Type} {A : Arith F} (float_repr : F -> bytes) (py_str : pyval F -> string).

Definition _csv_cell (v : pyval F) : chars :=
  let s := match v with PNone => [] | _ => chars_of (str_of float_repr py_str v) end in
  if dangerous s then "'"%char :: s else s.

Definition _write_csv (header : list string) (data_rows : list (list (pyval F))) : chars :=
  writerow (map chars_of header) ++ concat (map (fun row => writerow (map _csv_cell row)) data_rows).

Definition trades_header : list string :=
  ["account_id"; "symbol"; "side"; "lot_size"; "entry_price"; "exit_price"; "entry_time"; "exit_time"; "pnl"; "pnl_pct";
   "commission"; "swap"; "magic_number"; "comment"; "is_manual"; "status"]%string.

Definition opt_text (o : option string) : pyval F := PStr (default ""%string o).

(** [fmt_time]: the ISO text of a broker time, its offset removed. *)
Definition trade_cells (fmt_time : Z -> option string) (r : closed F) : list (pyval F) :=
  [PStr ""; PStr (cp_symbol r); PStr (cp_side r); PFloat (cp_volume r);
   match cp_entry r with Some e => PFloat e | None => PStr "" end; PFloat (cp_close r);
   opt_text (match cp_entry_time r with Some t => if t =? 0 then None else fmt_time t | None => None end);
   opt_text (fmt_time (cp_time r)); PFloat (cp_profit r); PStr ""; PFloat (cp_commission r); PFloat (cp_swap r);
   PInt (cp_magic r); PStr (cp_comment r); PStr "false"; PStr "closed"].

Definition trades_csv (MAGIC : Z) (fmt_time : Z -> option string) (deals : list (deal F)) (source : option string) : chars :=
  _write_csv trades_header (map (trade_cells fmt_time) (of_source source (newest (_group_closed MAGIC deals)))).

Definition journal_header : list string :=
  ["ticket"; "symbol"; "side"; "close_time"; "profit"; "setup"; "emotion"; "mistakes"; "rating"; "reviewed"; "notes";
   "updated_at"]%string.

(** [j.get(k, dflt)]. *)
Definition field (j : pydict F) (k : string) (dflt : pyval F) : pyval F := default dflt (dict_get j k).

Definition journal_cells (fmt_time : Z -> option string) (rows : list (closed F)) (ticket : string) (j : pydict F)
  : list (pyval F) :=
  let found := List.find (fun r => bool_decide (cp_ticket r = ticket)) (rev rows) in
  let of_row (f : closed F -> pyval F) := match found with Some r => f r | None => PStr "" end in
  [PStr ticket; of_row (fun r => PStr (cp_symbol r)); of_row (fun r => PStr (cp_side r));
   of_row (fun r => match fmt_time (cp_time r) with Some t => PStr t | None => PNone end);
   of_row (fun r => PFloat (cp_profit r)); field j "setup" (PStr ""); field j "emotion" (PStr "");
   field j "mistakes" (PStr ""); match field j "rating" PNone with PNone => PStr "" | v => v end;
   field j "reviewed" (PBool false); field j "notes" (PStr ""); field j "updated_at" (PStr "")].

Definition journal_csv (fmt_time : Z -> option string) (rows : list (closed F)) (journal : list (string * pydict F)) : chars :=
  _write_csv journal_header (map (fun tj => journal_cells fmt_time rows tj.1 tj.2) journal).

End Csv.

(** A reader of that dialect. *)
Inductive csv_state := AtStart | InPlain | InQuoted | AfterQuote.

Fixpoint read_csv (m : csv_state) (cur : chars) (row : list chars) (l : chars) : option (list (list chars)) :=
  match l with
  | [] => match m, cur, row with AtStart, [], [] => Some [] | _, _, _ => None end
  | c :: l' =>
      if (match m with InQuoted => true | _ => false end) then
        if bool_decide (c = dquote) then read_csv AfterQuote cur row l' else read_csv InQuoted (cur ++ [c]) row l'
      else if bool_decide (c = ","%char) then read_csv AtStart [] (row ++ [cur]) l'
      else if bool_decide (c = cr) then
        match l' with
        | c' :: l'' => if bool_decide (c' = lf) then cons (row ++ [cur]) <$> read_csv AtStart [] [] l'' else None
        | [] => None
        end
      else if bool_decide (c = dquote) then
        match m with
        | AtStart => read_csv InQuoted [] row l'
        | AfterQuote => read_csv InQuoted (cur ++ [dquote]) row l'
        | _ => None
        end
      else match m with AfterQuote => None | _ => read_csv InPlain (cur ++ [c]) row l' end
  end.

Lemma cell_quoted l : forall cur row rest,
  read_csv InQuoted cur row (doubled l ++ dquote :: rest) = read_csv AfterQuote (cur ++ l) row rest.
Proof.
  induction l as [|c l IH]; intros cur row rest; [by rewrite app_nil_r|]. cbn [doubled].
  case_bool_decide as E; [subst c|]; cbn [app read_csv].
  - change (read_csv InQuoted (cur ++ [dquote]) row (doubled l ++ dquote :: rest) = read_csv AfterQuote (cur ++ dquote :: l) row rest).
    by rewrite IH, <-app_assoc.
  - rewrite bool_decide_false by done. by rewrite IH, <-app_assoc.
Qed.

Lemma cell_plain l : forall cur row rest, existsb special l = false ->
  read_csv InPlain cur row (l ++ rest) = read_csv InPlain (cur ++ l) row rest.
Proof.
  induction l as [|c l IH]; intros cur row rest H; [by rewrite app_nil_r|]. cbn [existsb] in H. bool_hyps.
  cbn [app read_csv]. unfold special in H. cbn [existsb] in H. bool_hyps. rewrite !bool_decide_eq_false in *.
  rewrite !bool_decide_false by congruence. rewrite IH by done. by rewrite <-app_assoc.
Qed.

(** After a field the reader holds it and is not inside quotes. *)
Lemma read_field_out f row rest : exists m, m <> InQuoted /\
  read_csv AtStart [] row (csv_field f ++ rest) = read_csv m f row rest.
Proof.
  unfold csv_field. destruct (existsb special f) eqn:E.
  - exists AfterQuote. split; [done|]. cbn [app read_csv].
    change (read_csv InQuoted [] row ((doubled f ++ [dquote]) ++ rest) = read_csv AfterQuote f row rest).
    rewrite <-app_assoc. apply (cell_quoted f []).
  - destruct f as [|c f]; [by exists AtStart|]. exists InPlain. split; [done|]. cbn [existsb] in E. bool_hyps.
    unfold special in H. cbn [existsb] in H. bool_hyps. rewrite !bool_decide_eq_false in *. cbn [app read_csv].
    rewrite !bool_decide_false by congruence. by apply (cell_plain f [c]).
Qed.

Lemma read_comma m f row rest : m <> InQuoted ->
  read_csv m f row (","%char :: rest) = read_csv AtStart [] (row ++ [f]) rest.
Proof. by destruct m. Qed.

Lemma read_end m f row rest : m <> InQuoted ->
  read_csv m f row (cr :: lf :: rest) = cons (row ++ [f]) <$> read_csv AtStart [] [] rest.
Proof. by destruct m. Qed.

Lemma read_row fs : forall row rest, fs <> [] ->
  read_csv AtStart [] row (join_comma (map csv_field fs) ++ cr :: lf :: rest) = cons (row ++ fs) <$> read_csv AtStart [] [] rest.
Proof.
  induction fs as [|f fs IH]; intros row rest; [done|]. intros _. destruct fs as [|g fs].
  - cbn [map join_comma]. destruct (read_field_out f row (cr :: lf :: rest)) as (m & Hm & ->). by apply read_end.
  - change (join_comma (map csv_field (f :: g :: fs))) with (csv_field f ++ ","%char :: join_comma (map csv_field (g :: fs))).
    rewrite <-app_assoc. cbn [app].
    destruct (read_field_out f row (","%char :: join_comma (map csv_field (g :: fs)) ++ cr :: lf :: rest)) as (m & Hm & ->).
    rewrite read_comma, IH by done. by rewrite <-app_assoc.
Qed.

Lemma read_writerow fs rest : fs <> [] ->
  read_csv AtStart [] [] (writerow fs ++ rest) = cons fs <$> read_csv AtStart [] [] rest.
Proof.
  intros H. unfold writerow. rewrite <-app_assoc. cbn [app]. destruct fs as [|[|c f] [|g fs]]; try done.
  all: by apply (read_row (_ :: _) []).
Qed.

Section Exports.
Context {F : Type} {A : Arith F} (float_repr : F -> bytes) (py_str : pyval F -> string).

Lemma csv_cell_safe v : dangerous (_csv_cell float_repr py_str v) = false.
Proof. unfold _csv_cell. by destruct (dangerous (match v with PNone => _ | _ => _ end)) eqn:E. Qed.

(** Any export reads back as its header and its cells. *)
Lemma write_csv_reads header rows : header <> [] -> Forall (fun r => r <> []) rows ->
  read_csv AtStart [] [] (_write_csv float_repr py_str header rows) =
  Some (map chars_of header :: map (map (_csv_cell float_repr py_str)) rows).
Proof.
  intros Hh Hr. unfold _write_csv. rewrite read_writerow by (by destruct header).
  assert (read_csv AtStart [] [] (concat (map (fun row => writerow (map (_csv_cell float_repr py_str) row)) rows)) =
    Some (map (map (_csv_cell float_repr py_str)) rows)) as ->; [|done].
  induction Hr as [|r rows H Hr IH]; [done|]. cbn [map concat]. rewrite read_writerow by (by destruct r). by rewrite IH.
Qed.

(** The trades export is well-formed CSV and safe to open.  Whatever the comments and
    symbols hold, a reader gets back the header and one record of 16 cells per
    position of the selected source, newest first, and no cell opens with a
    character a spreadsheet reads as a formula. *)
Theorem trades_csv_reads_back MAGIC fmt_time deals source :
  exists records, read_csv AtStart [] [] (trades_csv float_repr py_str MAGIC fmt_time deals source) =
      Some (map chars_of trades_header :: records) /\
    records = map (fun r => map (_csv_cell float_repr py_str) (trade_cells fmt_time r))
                (of_source source (newest (_group_closed MAGIC deals))) /\
    Forall (fun rec => length rec = 16%nat /\ Forall (fun cell => dangerous cell = false) rec) records.
Proof.
  eexists. split; [|split; [done|]].
  - unfold trades_csv. rewrite write_csv_reads; [by rewrite map_map|done|]. apply list.Forall_forall.
    intros r (x & -> & _)%list_elem_of_fmap. done.
  - apply list.Forall_forall. intros rec (x & -> & _)%list_elem_of_fmap. split; [done|].
    apply list.Forall_forall. intros cell (v & -> & _)%list_elem_of_fmap. apply csv_cell_safe.
Qed.

End Exports.

(** ** Examples *)

Module TradesDemo.
Definition repr (q : Q) : bytes := encode_utf8 (if q_ltb q 0 then "-2.5" else "2.5")%string.
Definition part (entry : deal_entry) (pos time : Z) (volume profit : Q) : deal Q :=
  mk_deal (match entry with EntryIn => DealBuy | _ => DealSell end) entry pos time "XAUUSD" 2000%Q volume profit 0%Q 0%Q 7
    "=cmd,x".
(** One position closed in two parts, another one still open. *)
Definition deals : list (deal Q) :=
  [part EntryIn 1 10 2%Q 0%Q; part EntryOut 1 20 1%Q 5%Q; part EntryIn 2 30 1%Q 0%Q; part EntryOut 1 40 1%Q (- 7 # 2)%Q].

Example partial_closes_are_one_row : map (fun r => (cp_ticket r, cp_time r)) (_group_closed 7 deals) = [("1"%string, 40)].
Proof. vm_compute. reflexivity. Qed.

(** A loss is exported as a text with an apostrophe, not as a number. *)
Example losses_are_text : _csv_cell repr (fun _ => ""%string) (PFloat (- 5 # 2)%Q) = chars_of "'-2.5".
Proof. vm_compute. reflexivity. Qed.
End TradesDemo.

Lemma broker_offset_plausible_witness :
  (exists k : Z, 7200 == inject_Z (k * 1800))%Q /\ _estimate_broker_offset (Some 7200%Q) None 0%Q = (Some 7200%Q, Some 7200%Q).
Proof.
  destruct (broker_offset_plausible 1007190 1000000 7200 (Some 7200) None 0)%Q as (H1 & _ & _ & H2).
  - vm_compute. reflexivity.
  - split; [exact H1|exact H2].
Defined.
