(* ===== verification/Calendar.v ===== *)
(** * Calendar: dates and their texts

    What the programs use of Python's [datetime]: the proleptic Gregorian
    calendar, the next and the previous day, [weekday], [date.isoformat], the
    [strptime] of [%Y-%m-%d], and the order of ISO texts. *)

From Stdlib Require Import ZArith Ascii.
From S2P Require Import Prelude Text PyVal.
Open Scope Z_scope.

Record date := mk_date { d_year : Z; d_month : Z; d_day : Z }.

#[export] Instance date_eq_dec : EqDecision date.
Proof. solve_decision. Defined.

Definition is_leap (y : Z) : bool := (y mod 4 =? 0) && (negb (y mod 100 =? 0) || (y mod 400 =? 0)).

Definition days_in_month (y m : Z) : Z :=
  if m =? 2 then (if is_leap y then 29 else 28)
  else if (m =? 4) || (m =? 6) || (m =? 9) || (m =? 11) then 30 else 31.

(** [datetime.MINYEAR] and [MAXYEAR]. *)
Definition valid_date (d : date) : bool :=
  (1 <=? d_year d) && (d_year d <=? 9999) && (1 <=? d_month d) && (d_month d <=? 12) &&
  (1 <=? d_day d) && (d_day d <=? days_in_month (d_year d) (d_month d)).

(** [d + timedelta(days=1)] and [d - timedelta(days=1)]; [None] is [OverflowError]. *)
Definition next_day (d : date) : option date :=
  let d' := if d_day d <? days_in_month (d_year d) (d_month d) then mk_date (d_year d) (d_month d) (d_day d + 1)
            else if d_month d <? 12 then mk_date (d_year d) (d_month d + 1) 1
            else mk_date (d_year d + 1) 1 1 in
  if d_year d' <=? 9999 then Some d' else None.

Definition prev_day (d : date) : option date :=
  let d' := if 1 <? d_day d then mk_date (d_year d) (d_month d) (d_day d - 1)
            else if 1 <? d_month d then mk_date (d_year d) (d_month d - 1) (days_in_month (d_year d) (d_month d - 1))
            else mk_date (d_year d - 1) 12 31 in
  if 1 <=? d_year d' then Some d' else None.

(** [toordinal]: day one is 1 January of year 1. *)
Definition days_before_year (y : Z) : Z := let y := y - 1 in y * 365 + y / 4 - y / 100 + y / 400.

Definition days_before_month (y m : Z) : Z :=
  let leap := if is_leap y then 1 else 0 in
  if m =? 1 then 0 else if m =? 2 then 31 else if m =? 3 then 59 + leap else if m =? 4 then 90 + leap
  else if m =? 5 then 120 + leap else if m =? 6 then 151 + leap else if m =? 7 then 181 + leap
  else if m =? 8 then 212 + leap else if m =? 9 then 243 + leap else if m =? 10 then 273 + leap
  else if m =? 11 then 304 + leap else 334 + leap.

Definition toordinal (d : date) : Z :=
  days_before_year (d_year d) + days_before_month (d_year d) (d_month d) + d_day d.

(** Monday is 0. *)
Definition weekday (d : date) : Z := (toordinal d + 6) mod 7.

(** ** Texts *)

Definition digit (n : Z) : ascii := ascii_of_nat (Z.to_nat (48 + n mod 10)).

(** [f"{n:0wd}"] of a number below [10 ^ w]. *)
Fixpoint pad (w : nat) (n : Z) : string :=
  match w with
  | O => ""
  | S w' => pad w' (n / 10) +:+ String (digit n) ""
  end.

Definition isoformat (d : date) : string :=
  (pad 4 (d_year d) +:+ "-" +:+ pad 2 (d_month d) +:+ "-" +:+ pad 2 (d_day d))%string.

Definition month_text (y m : Z) : string := (pad 4 y +:+ "-" +:+ pad 2 m)%string.

(** Digits only; their value. *)
Fixpoint number (l : chars) (acc : Z) : option Z :=
  match l with
  | [] => Some acc
  | c :: l' => match digit_of c with Some d => number l' (acc * 10 + d) | None => None end
  end.

(** [%m]: one or two digits; [%d] also admits a space for the leading zero. *)
Definition one_or_two (l : chars) : option Z :=
  match l with
  | [_] | [_; _] => number l 0
  | _ => None
  end.
Definition day_field (l : chars) : option Z :=
  match l with " "%char :: [c] => number [c] 0 | _ => one_or_two l end.

(** [datetime.strptime(s, "%Y-%m-%d").date()]; [None] is [ValueError]. *)
Definition strptime_ymd (s : string) : option date :=
  match split "-"%char s with
  | [y; m; d] =>
      match chars_of y with
      | [_; _; _; _] =>
          y ← number (chars_of y) 0;
          m ← one_or_two (chars_of m);
          d ← day_field (chars_of d);
          if valid_date (mk_date y m d) then Some (mk_date y m d) else None
      | _ => None
      end
  | _ => None
  end.

(** ** Days follow each other *)

Ltac month_cases m :=
  let H := fresh in
  assert (m = 1 \/ m = 2 \/ m = 3 \/ m = 4 \/ m = 5 \/ m = 6 \/ m = 7 \/ m = 8 \/ m = 9 \/ m = 10 \/ m = 11 \/ m = 12)
    as H by lia;
  destruct H as [->|[->|[->|[->|[->|[->|[->|[->|[->|[->|[->| ->]]]]]]]]]]].

Lemma days_in_month_bound y m : 28 <= days_in_month y m <= 31.
Proof. unfold days_in_month. repeat case_match; lia. Qed.

Lemma valid_date_spec d : valid_date d = true <->
  1 <= d_year d <= 9999 /\ 1 <= d_month d <= 12 /\ 1 <= d_day d <= days_in_month (d_year d) (d_month d).
Proof. unfold valid_date. rewrite !andb_true_iff, !Z.leb_le. lia. Qed.

Lemma days_of_year y : days_before_year (y + 1) = days_before_year y + 365 + (if is_leap y then 1 else 0).
Proof.
  unfold days_before_year, is_leap. replace (y + 1 - 1) with y by lia.
  destruct (Z.eqb_spec (y mod 4) 0), (Z.eqb_spec (y mod 100) 0), (Z.eqb_spec (y mod 400) 0); cbn [andb orb negb];
    Z.div_mod_to_equations; lia.
Qed.

Lemma next_day_valid d d' : valid_date d = true -> next_day d = Some d' -> valid_date d' = true.
Proof.
  rewrite !valid_date_spec. destruct d as [y m dd]. cbn. unfold next_day. cbn [d_year d_month d_day].
  intros (Hy & Hm & Hd). pose proof (days_in_month_bound y (m + 1)).
  destruct (Z.ltb_spec dd (days_in_month y m)), (Z.ltb_spec m 12); cbn [d_year];
    repeat match goal with |- context [?a <=? 9999] => destruct (Z.leb_spec a 9999) end; intros [= <-]; cbn; lia.
Qed.

Lemma next_day_ordinal d d' : valid_date d = true -> next_day d = Some d' -> toordinal d' = toordinal d + 1.
Proof.
  rewrite valid_date_spec. destruct d as [y m dd]. cbn. unfold next_day, toordinal. cbn [d_year d_month d_day].
  intros (Hy & Hm & Hd). pose proof (days_of_year y) as HY.
  destruct (Z.ltb_spec dd (days_in_month y m)).
  - cbn [d_year]. destruct (y <=? 9999); intros [= <-]. cbn. lia.
  - assert (dd = days_in_month y m) as -> by lia.
    destruct (Z.ltb_spec m 12); cbn [d_year].
    + destruct (y <=? 9999); intros [= <-]. cbn [d_year d_month d_day]. month_cases m; try lia;
        unfold days_in_month, days_before_month; simpl; destruct (is_leap y); lia.
    + destruct (y + 1 <=? 9999); intros [= <-]. cbn [d_year d_month d_day]. assert (m = 12) as -> by lia.
      unfold days_in_month, days_before_month; simpl; destruct (is_leap y); lia.
Qed.

Lemma weekday_next d d' : valid_date d = true -> next_day d = Some d' -> weekday d' = (weekday d + 1) mod 7.
Proof.
  intros Hv Hn. unfold weekday. rewrite (next_day_ordinal d d' Hv Hn).
  rewrite Z.add_mod_idemp_l by lia. f_equal. lia.
Qed.

Lemma prev_next d d' : valid_date d = true -> next_day d = Some d' -> prev_day d' = Some d.
Proof.
  rewrite valid_date_spec. destruct d as [y m dd]. cbn. unfold next_day, prev_day. cbn [d_year d_month d_day].
  intros (Hy & Hm & Hd). pose proof (days_in_month_bound y m).
  destruct (Z.ltb_spec dd (days_in_month y m)), (Z.ltb_spec m 12); cbn [d_year];
    repeat match goal with |- context [?a <=? 9999] => destruct (Z.leb_spec a 9999) end; intros [= <-]; cbn [d_year d_month d_day].
  all: repeat match goal with |- context [?a <? ?b] => destruct (Z.ltb_spec a b) end; try lia; cbn [d_year];
    repeat match goal with |- context [1 <=? ?b] => destruct (Z.leb_spec 1 b) end; try lia; repeat f_equal; try lia.
  - replace (m + 1 - 1) with m by lia. lia.
  - assert (m = 12) as -> by lia. unfold days_in_month in *. simpl in *. lia.
Qed.

(** ** Texts and back *)

Lemma digit_cases (P : ascii -> Z -> Prop) n :
  (forall k, In k [0; 1; 2; 3; 4; 5; 6; 7; 8; 9] -> P (ascii_of_nat (Z.to_nat (48 + k))) k) -> P (digit n) (n mod 10).
Proof.
  intros H. unfold digit. apply H. pose proof (Z.mod_pos_bound n 10 ltac:(lia)). simpl. lia.
Qed.

Lemma digit_of_digit n : digit_of (digit n) = Some (n mod 10).
Proof. apply (digit_cases (fun c k => digit_of c = Some k)). intros k Hk. simpl in Hk. by repeat destruct Hk as [<-|Hk]. Qed.

Lemma digit_not_dash n : digit n <> "-"%char.
Proof. apply (digit_cases (fun c k => c <> "-"%char)). intros k Hk. simpl in Hk. by repeat destruct Hk as [<-|Hk]. Qed.

Lemma digit_not_space n : digit n <> " "%char.
Proof. apply (digit_cases (fun c k => c <> " "%char)). intros k Hk. simpl in Hk. by repeat destruct Hk as [<-|Hk]. Qed.

Lemma digit_compare n m : Ascii.compare (digit n) (digit m) = (n mod 10 ?= m mod 10).
Proof.
  apply (digit_cases (fun c k => Ascii.compare c (digit m) = (k ?= m mod 10))). intros k Hk.
  apply (digit_cases (fun c j => Ascii.compare _ c = (k ?= j))). intros j Hj.
  simpl in Hk, Hj. by repeat destruct Hk as [<-|Hk]; repeat destruct Hj as [<-|Hj].
Qed.

Lemma chars_app (a b : string) : chars_of (a +:+ b) = chars_of a ++ chars_of b.
Proof. induction a as [|c a IH]; [done|]. simpl. by rewrite IH. Qed.

Lemma iso_chars d : chars_of (isoformat d) =
  [digit (d_year d / 10 / 10 / 10); digit (d_year d / 10 / 10); digit (d_year d / 10); digit (d_year d); "-"%char;
   digit (d_month d / 10); digit (d_month d); "-"%char; digit (d_day d / 10); digit (d_day d)].
Proof. done. Qed.

Lemma four_digits n : 0 <= n <= 9999 ->
  ((n / 10 / 10 / 10 mod 10 * 10 + n / 10 / 10 mod 10) * 10 + n / 10 mod 10) * 10 + n mod 10 = n.
Proof. intros H. Z.div_mod_to_equations. lia. Qed.

Lemma two_digits n : 0 <= n <= 99 -> n / 10 mod 10 * 10 + n mod 10 = n.
Proof. intros H. Z.div_mod_to_equations. lia. Qed.

(** The text of a date reads back as the date. *)
Lemma strptime_isoformat d : valid_date d = true -> strptime_ymd (isoformat d) = Some d.
Proof.
  intros Hv. pose proof (proj1 (valid_date_spec d) Hv) as (Hy & Hm & Hd).
  pose proof (days_in_month_bound (d_year d) (d_month d)).
  unfold strptime_ymd, split. rewrite iso_chars. cbn [split_chars rev app].
  repeat first [rewrite (bool_decide_false (digit _ = _)) by apply digit_not_dash; cbn [split_chars rev app]
               | rewrite (bool_decide_true ("-"%char = _)) by done; cbn [split_chars rev app]].
  cbn [map]. rewrite !chars_of_string_of. cbn [number one_or_two].
  unfold day_field. destruct (digit (d_day d / 10)) as [[] [] [] [] [] [] [] []] eqn:E;
    try (exfalso; by apply (digit_not_space (d_day d / 10)); rewrite E); rewrite <-E; cbn [one_or_two number].
  all: rewrite !digit_of_digit; cbn [mbind option_bind]; replace (0 * 10) with 0 by lia; rewrite !Z.add_0_l;
    rewrite four_digits, !two_digits by lia; destruct d; cbn [d_year d_month d_day] in *; by rewrite Hv.
Qed.

(** ** The order of texts is the order of dates *)

Lemma compare_app a : forall b x y, String.length a = String.length b ->
  String.compare (a +:+ x) (b +:+ y) = match String.compare a b with Eq => String.compare x y | c => c end.
Proof.
  induction a as [|c a IH]; intros [|c' b] x y Hl; try done. simpl in *. injection Hl as Hl.
  destruct (Ascii.compare c c'); [by apply IH|done|done].
Qed.

Lemma pad_length w n : String.length (pad w n) = w.
Proof.
  revert n. induction w as [|w IH]; intros n; [done|]. cbn [pad]. rewrite <-(IH (n / 10)) at 2.
  generalize (pad w (n / 10)). intros s. induction s as [|c s IHs]; [done|]. simpl. by rewrite IHs.
Qed.

Lemma pad_compare w : forall n m, 0 <= n < 10 ^ Z.of_nat w -> 0 <= m < 10 ^ Z.of_nat w ->
  String.compare (pad w n) (pad w m) = (n ?= m).
Proof.
  induction w as [|w IH]; intros n m Hn Hm; [simpl in *; by replace n with m by lia; rewrite Z.compare_refl|].
  rewrite Nat2Z.inj_succ, Z.pow_succ_r in * by lia. cbn [pad]. rewrite compare_app by (by rewrite !pad_length).
  rewrite IH by (split; [apply Z.div_pos; lia|apply Z.div_lt_upper_bound; lia]).
  pose proof (Z.div_mod n 10 ltac:(lia)). pose proof (Z.div_mod m 10 ltac:(lia)).
  pose proof (Z.mod_pos_bound n 10 ltac:(lia)). pose proof (Z.mod_pos_bound m 10 ltac:(lia)).
  destruct (Z.compare_spec (n / 10) (m / 10)) as [E|E|E].
  - cbn [String.compare]. rewrite digit_compare.
    destruct (Z.compare_spec (n mod 10) (m mod 10)), (Z.compare_spec n m); lia || done.
  - destruct (Z.compare_spec n m); lia || done.
  - destruct (Z.compare_spec n m); lia || done.
Qed.

Definition date_compare (a b : date) : comparison :=
  match d_year a ?= d_year b with
  | Eq => match d_month a ?= d_month b with Eq => d_day a ?= d_day b | c => c end
  | c => c
  end.

Lemma append_assoc (a b c : string) : ((a +:+ b) +:+ c = a +:+ (b +:+ c))%string.
Proof. induction a as [|x a IH]; [done|]. change (String x ((a +:+ b) +:+ c) = String x (a +:+ (b +:+ c)))%string. by rewrite IH. Qed.

Lemma iso_compare a b x y : valid_date a = true -> valid_date b = true ->
  String.compare (isoformat a +:+ x) (isoformat b +:+ y) =
  match date_compare a b with Eq => String.compare x y | c => c end.
Proof.
  rewrite !valid_date_spec. intros (Ha1 & Ha2 & Ha3) (Hb1 & Hb2 & Hb3).
  pose proof (days_in_month_bound (d_year a) (d_month a)). pose proof (days_in_month_bound (d_year b) (d_month b)).
  unfold isoformat, date_compare. rewrite !append_assoc.
  rewrite compare_app by (by rewrite !pad_length). rewrite pad_compare by (simpl; lia).
  destruct (d_year a ?= d_year b); [|done|done]. rewrite (compare_app "-" "-") by done.
  change (String.compare "-" "-") with Eq. cbn iota.
  rewrite compare_app by (by rewrite !pad_length). rewrite pad_compare by (simpl; lia).
  destruct (d_month a ?= d_month b); [|done|done]. rewrite (compare_app "-" "-") by done.
  change (String.compare "-" "-") with Eq. cbn iota.
  rewrite compare_app by (by rewrite !pad_length). rewrite pad_compare by (simpl; lia).
  by destruct (d_day a ?= d_day b).
Qed.

(** [s[:10]] of a timestamp is its date. *)
Lemma iso_take d rest : str_take 10 (isoformat d +:+ String "T" rest) = isoformat d.
Proof.
  assert (forall n, is_start (byte_of_ascii (digit n)) = true) as K.
  { intros n. apply (digit_cases (fun c _ => is_start (byte_of_ascii c) = true)). intros k Hk. simpl in Hk.
    by repeat destruct Hk as [<-|Hk]. }
  unfold str_take, encode_utf8, String.list_byte_of_string.
  change (String.list_ascii_of_string (isoformat d +:+ String "T" rest)) with (chars_of (isoformat d +:+ String "T" rest)).
  rewrite chars_app, iso_chars, map_app. cbn [map app take_points]. rewrite !K. cbn [is_start].
  change (is_start (byte_of_ascii "-")) with true. cbn iota.
  unfold string_of_bytes, String.string_of_list_byte. cbn [map chars_of String.list_ascii_of_string take_points].
  change (is_start (byte_of_ascii "T")) with true. cbn [map]. rewrite !ascii_of_byte_of_ascii.
  rewrite <-iso_chars. apply string_of_chars_of.
Qed.
