(* ===== verification/DashCalendar.v ===== *)
(** * DashCalendar: the dashboard's monthly profit calendar

    scripts/trade_dashboard.py, [calendar_month]: the month asked for, the closed
    trades of the month from the trade store, one entry per day with the profit
    and the number of trades, the total and the neighbouring months.  [today] is
    the UTC date of the clock. *)

From Stdlib Require Import ZArith QArith Ascii Lqa.
From S2P Require Import Prelude Text PyFloat PyVal Prog EaShim TradeStore DashReport Calendar.
Open Scope Z_scope.

(** [s.split(sep, 1)] unpacked into two; [None] is [ValueError]. *)
Fixpoint split_once (sep : ascii) (l : chars) : option (chars * chars) :=
  match l with
  | [] => None
  | c :: l' => if bool_decide (c = sep) then Some ([], l')
               else '(a, b) ← split_once sep l'; Some (c :: a, b)
  end.

(** The year and month of the request, or the current ones. *)
Definition parse_month (today : date) (month : string) : Z * Z :=
  let asked :=
    '(y, m) ← split_once "-"%char (chars_of month);
    y ← parse_int (string_of_chars y);
    m ← parse_int (string_of_chars m);
    if (1 <=? m) && (m <=? 12) then Some (y, m) else None in
  default (d_year today, d_month today) asked.

(** [datetime(y, m, 1)]; [None] is [ValueError]. *)
Definition first_of (y m : Z) : option date :=
  if valid_date (mk_date y m 1) then Some (mk_date y m 1) else None.

(** [isoformat()] of midnight UTC. *)
Definition midnight_iso (d : date) : string := (isoformat d +:+ "T00:00:00+00:00")%string.

Section Calendar.
Context {F : Type} {A : Arith F}.
Context (source_chats now : string) (today : date).
Open Scope pyf_scope.

Abbreviation store X := (prog (sdb F) exn X).

(** One day of the calendar. *)
Record day_cell := mk_cell { c_date : string; c_weekday : Z; c_net : F; c_count : nat }.

Record month_view := mk_month {
  mv_month : string; mv_days : list day_cell; mv_total : F; mv_prev : string; mv_next : string;
  mv_stack_only : bool; mv_source : string }.

(** [SELECT ... WHERE close_ts >= ? AND close_ts < ?]. *)
Definition rows_between (lo hi : string) (d : sdb F) : list (closed_row F) :=
  List.filter (fun c => since lo (cls_ts c) && String.ltb (cls_ts c) hi) (s_closed d).

Definition keep_row (stack_only : bool) (source : option string) (c : closed_row F) : bool :=
  if given source then bool_decide (Some (cls_source c) = source)
  else if stack_only then bool_decide (cls_source c = "tradingview"%string)
  else true.

(** [daily], in order of first appearance. *)
Definition add_day (daily : list (string * (F * nat))) (c : closed_row F) : list (string * (F * nat)) :=
  let d := str_take 10 (cls_ts c) in
  if bool_decide (d = ""%string) then daily
  else
    let daily := if existsb (fun e => bool_decide (e.1 = d)) daily then daily else daily ++ [(d, (f_zero, O))] in
    map (fun e => if bool_decide (e.1 = d) then (d, (e.2.1 + or_zero (cls_profit c), S e.2.2)) else e) daily.

Definition daily_of (rows : list (closed_row F)) : list (string * (F * nat)) := fold_left add_day rows [].

Definition day_of (daily : list (string * (F * nat))) (d : string) : F * nat :=
  match List.find (fun e => bool_decide (e.1 = d)) daily with Some e => e.2 | None => (f_zero, O) end.

Definition before (a b : date) : bool := match date_compare a b with Lt => true | _ => false end.

(** [while cur < end]; [None] is an [OverflowError].  A month has at most 31 days. *)
Fixpoint days_loop (fuel : nat) (cur end_ : date) : option (list date) :=
  if before cur end_ then
    match fuel with
    | O => None
    | S fuel' =>
        nxt ← next_day cur;
        rest ← days_loop fuel' nxt end_;
        Some (cur :: rest)
    end
  else Some [].

Definition cell_of (daily : list (string * (F * nat))) (d : date) : day_cell :=
  let key := isoformat d in
  let b := day_of daily key in
  mk_cell key (weekday d) (f_round 2 b.1) b.2.

(** [datetime(year + 1, 1, 1)] or [datetime(year, mon + 1, 1)]. *)
Definition next_month (y m : Z) : Z * Z := (if m =? 12 then (y + 1, 1) else (y, m + 1))%Z.

(** [ArithError] stands for the [ValueError] or [OverflowError] of a date out of
    range. *)
Definition calendar_month (month : string) (stack_only : bool) (source : option string) : store month_view :=
  let '(y, m) := parse_month today month in
  match first_of y m, first_of (next_month y m).1 (next_month y m).2 with
  | Some start, Some end_ =>
      rows <- select source_chats now (rows_between (midnight_iso start) (midnight_iso end_)) ;;
      let daily := daily_of (List.filter (keep_row stack_only source) rows) in
      match days_loop 31 start end_, prev_day start with
      | Some ds, Some prev_ref =>
          let days := map (cell_of daily) ds in
          ret (mk_month (month_text y m) days (f_round 2 (py_sum (map c_net days)))
                 (month_text (d_year prev_ref) (d_month prev_ref)) (month_text (d_year end_) (d_month end_))
                 stack_only (default ""%string source))
      | _, _ => raise ArithError
      end
  | _, _ => raise ArithError
  end.

End Calendar.

Arguments day_cell F : clear implicits.
Arguments month_view F : clear implicits.

(** ** The days of a month *)

Section Days.

Definition month_days (y m : Z) : list date := map (mk_date y m) (seqZ 1 (days_in_month y m)).

Lemma month_day_valid y m k : 1 <= y <= 9999 -> 1 <= m <= 12 -> 1 <= k <= days_in_month y m ->
  valid_date (mk_date y m k) = true.
Proof. intros. by apply valid_date_spec. Qed.

Lemma before_month y m k : before (mk_date y m k) (mk_date (next_month y m).1 (next_month y m).2 1) = true.
Proof.
  unfold before, date_compare, next_month. destruct (Z.eqb_spec m 12); cbn [fst snd d_year d_month d_day].
  - by rewrite (proj2 (Z.compare_lt_iff y (y + 1))) by lia.
  - rewrite Z.compare_refl. by rewrite (proj2 (Z.compare_lt_iff m (m + 1))) by lia.
Qed.

Lemma days_loop_month y m : 1 <= y <= 9999 -> 1 <= m <= 12 -> (next_month y m).1 <= 9999 ->
  forall n fuel k, 1 <= k -> Z.of_nat n = days_in_month y m - k + 1 -> (n <= fuel)%nat ->
  days_loop fuel (if (n =? 0)%nat then mk_date (next_month y m).1 (next_month y m).2 1 else mk_date y m k)
    (mk_date (next_month y m).1 (next_month y m).2 1) = Some (map (mk_date y m) (seqZ k (Z.of_nat n))).
Proof.
  intros Hy Hm Hn. induction n as [|n IH]; intros fuel k Hk Hlen Hf.
  - cbn [Nat.eqb]. unfold days_loop. destruct fuel; unfold before, date_compare; by rewrite !Z.compare_refl.
  - cbn [Nat.eqb]. destruct fuel as [|fuel]; [lia|]. cbn [days_loop]. rewrite before_month.
    replace (next_day (mk_date y m k)) with (Some (if (n =? 0)%nat then mk_date (next_month y m).1 (next_month y m).2 1
      else mk_date y m (k + 1))).
    + cbn [mbind option_bind]. rewrite IH by lia. cbn [mbind option_bind].
      rewrite (seqZ_cons k (Z.of_nat (S n))) by lia. cbn [map]. repeat f_equal; lia.
    + unfold next_day. cbn [d_year d_month d_day]. destruct (Nat.eqb_spec n 0) as [E0|Hn0].
      * rewrite (proj2 (Z.ltb_ge _ _)) by lia. unfold next_month in *. destruct (Z.eqb_spec m 12); cbn [fst snd] in *.
        -- rewrite (proj2 (Z.ltb_ge m 12)) by lia. cbn [d_year]. by rewrite (proj2 (Z.leb_le _ _)) by lia.
        -- rewrite (proj2 (Z.ltb_lt m 12)) by lia. cbn [d_year]. by rewrite (proj2 (Z.leb_le _ _)) by lia.
      * rewrite (proj2 (Z.ltb_lt k _)) by lia. cbn [d_year]. by rewrite (proj2 (Z.leb_le _ _)) by lia.
Qed.

(** The loop lists every day of the month. *)
Lemma days_loop_days y m : 1 <= y <= 9999 -> 1 <= m <= 12 -> (next_month y m).1 <= 9999 ->
  days_loop 31 (mk_date y m 1) (mk_date (next_month y m).1 (next_month y m).2 1) = Some (month_days y m).
Proof.
  intros Hy Hm Hn. pose proof (days_in_month_bound y m). unfold month_days.
  pose proof (days_loop_month y m Hy Hm Hn (Z.to_nat (days_in_month y m)) 31 1) as K.
  destruct (Nat.eqb_spec (Z.to_nat (days_in_month y m)) 0); [lia|]. rewrite Z2Nat.id in K by lia. apply K; lia.
Qed.

Lemma prev_of_first y m : 1 <= y <= 9999 -> 1 <= m <= 12 -> (y, m) <> (1, 1) ->
  exists p, prev_day (mk_date y m 1) = Some p /\ next_month (d_year p) (d_month p) = (y, m) /\ 1 <= d_year p <= 9999 /\
    1 <= d_month p <= 12.
Proof.
  intros Hy Hm Hne. unfold prev_day, next_month. cbn [d_year d_month d_day].
  change (1 <? 1) with false. cbn iota. destruct (Z.ltb_spec 1 m); cbn [d_year].
  - rewrite (proj2 (Z.leb_le _ _)) by lia. eexists. split; [done|]. cbn [d_year d_month].
    destruct (Z.eqb_spec (m - 1) 12); [lia|]. replace (m - 1 + 1) with m by lia. split; [done|lia].
  - assert (y <> 1) by (intros ->; apply Hne; f_equal; lia). rewrite (proj2 (Z.leb_le _ _)) by lia. eexists. split; [done|].
    cbn. replace (y - 1 + 1) with y by lia. replace m with 1 by lia. split; [done|lia].
Qed.

End Days.

(** ** The months of the links *)

Section Links.

Lemma lstrip_head_ok c (l : chars) : is_space c = false -> lstrip (c :: l) = c :: l.
Proof. simpl. by intros ->. Qed.

Lemma digit_space n : is_space (digit n) = false.
Proof. apply (digit_cases (fun c _ => is_space c = false)). intros k Hk. simpl in Hk. by repeat destruct Hk as [<-|Hk]. Qed.

Lemma digit_sign n l : read_sign (digit n :: l) = (false, digit n :: l).
Proof.
  apply (digit_cases (fun c _ => read_sign (c :: l) = (false, c :: l))). intros k Hk. simpl in Hk.
  by repeat destruct Hk as [<-|Hk].
Qed.

Lemma parse_four n : 0 <= n <= 9999 -> parse_int (string_of_chars (chars_of (pad 4 n))) = Some n.
Proof.
  intros H. change (chars_of (pad 4 n)) with [digit (n / 10 / 10 / 10); digit (n / 10 / 10); digit (n / 10); digit n].
  unfold parse_int. rewrite chars_of_string_of. unfold strip_chars. rewrite lstrip_head_ok by apply digit_space.
  cbn [rev app]. rewrite lstrip_head_ok by apply digit_space. cbn [rev app]. rewrite digit_sign. cbn [read_digits].
  rewrite !digit_of_digit. replace (0 * 10) with 0 by lia. rewrite Z.add_0_l. by rewrite four_digits.
Qed.

Lemma parse_two n : 0 <= n <= 99 -> parse_int (string_of_chars (chars_of (pad 2 n))) = Some n.
Proof.
  intros H. change (chars_of (pad 2 n)) with [digit (n / 10); digit n].
  unfold parse_int. rewrite chars_of_string_of. unfold strip_chars. rewrite lstrip_head_ok by apply digit_space.
  cbn [rev app]. rewrite lstrip_head_ok by apply digit_space. cbn [rev app]. rewrite digit_sign. cbn [read_digits].
  rewrite !digit_of_digit. replace (0 * 10) with 0 by lia. rewrite Z.add_0_l. by rewrite two_digits.
Qed.

(** The text of a month asks for that month. *)
Lemma parse_month_text today y m : 0 <= y <= 9999 -> 1 <= m <= 12 -> parse_month today (month_text y m) = (y, m).
Proof.
  intros Hy Hm. unfold parse_month, month_text.
  assert (split_once "-" (chars_of (pad 4 y +:+ "-" +:+ pad 2 m)) = Some (chars_of (pad 4 y), chars_of (pad 2 m))) as ->.
  { rewrite !chars_app. change (chars_of (pad 4 y)) with [digit (y / 10 / 10 / 10); digit (y / 10 / 10); digit (y / 10); digit y].
    cbn [app split_once]. rewrite !bool_decide_false by apply digit_not_dash. done. }
  cbn [mbind option_bind]. rewrite parse_four, parse_two by lia. cbn [mbind option_bind].
  rewrite !(proj2 (Z.leb_le _ _)) by lia. done.
Qed.

End Links.

(** ** The entries of the calendar *)

Section Entries.
Context {F : Type} {A : Arith F}.
Context (source_chats now : string) (today : date).

Definition bump (b : F * nat) (c : closed_row F) : F * nat := ((b.1 + or_zero (cls_profit c))%pyf, S b.2).

(** The trades closed on a day. *)
Definition on_day (d : string) (rows : list (closed_row F)) : list (closed_row F) :=
  List.filter (fun c => bool_decide (str_take 10 (cls_ts c) = d)) rows.

Lemma find_map_key (g : string * (F * nat) -> string * (F * nat)) d l : (forall e, (g e).1 = e.1) ->
  List.find (fun e => bool_decide (e.1 = d)) (map g l) = g <$> List.find (fun e => bool_decide (e.1 = d)) l.
Proof. intros Hg. induction l as [|e l IH]; [done|]. simpl. rewrite Hg. by case_bool_decide. Qed.

Lemma find_key_app d (l l' : list (string * (F * nat))) :
  List.find (fun e => bool_decide (e.1 = d)) (l ++ l') =
  match List.find (fun e => bool_decide (e.1 = d)) l with Some e => Some e | None => List.find (fun e => bool_decide (e.1 = d)) l' end.
Proof. induction l as [|e l IH]; [done|]. simpl. by case_bool_decide. Qed.

Lemma find_key_none d (l : list (string * (F * nat))) : existsb (fun e => bool_decide (e.1 = d)) l = false ->
  List.find (fun e => bool_decide (e.1 = d)) l = None.
Proof. induction l as [|e l IH]; [done|]. simpl. case_bool_decide; [done|apply IH]. Qed.

Lemma add_day_of daily c d : d <> ""%string ->
  day_of (add_day daily c) d = if bool_decide (str_take 10 (cls_ts c) = d) then bump (day_of daily d) c else day_of daily d.
Proof.
  intros Hd. unfold day_of, add_day. generalize (str_take 10 (cls_ts c)). intros k.
  destruct (decide (k = ""%string)) as [E|Hk].
  { rewrite (bool_decide_true (k = _)) by done. rewrite bool_decide_false by congruence. done. }
  rewrite (bool_decide_false (k = ""%string)) by done.
  rewrite find_map_key by (intros e; by case_bool_decide).
  assert (forall l, match (fun e : string * (F * nat) => if bool_decide (e.1 = k)
      then (k, ((e.2.1 + or_zero (cls_profit c))%pyf, S e.2.2)) else e) <$> List.find (fun e => bool_decide (e.1 = d)) l with
    | Some e => e.2 | None => (f_zero, O) end =
    match List.find (fun e => bool_decide (e.1 = d)) l with
    | Some e => if bool_decide (k = d) then bump e.2 c else e.2
    | None => (f_zero, O) end) as K.
  { intros l. destruct (List.find _ l) as [e|] eqn:E; [|done]. cbn. apply List.find_some in E as [_ E].
    apply bool_decide_eq_true in E. rewrite E. rewrite (bool_decide_ext (d = k) (k = d)) by (by split). by case_bool_decide. }
  rewrite K. clear K. destruct (existsb _ daily) eqn:Ex.
  - destruct (List.find _ daily) as [e|] eqn:E; [done|]. case_bool_decide; [|done]. exfalso.
    apply existsb_exists in Ex as (e & Hin & He). pose proof (List.find_none _ _ E e Hin) as Hn. cbn in Hn.
    apply bool_decide_eq_true in He. apply bool_decide_eq_false in Hn. congruence.
  - rewrite find_key_app. cbn [List.find fst]. destruct (decide (k = d)) as [Ekd|Hkd].
    + rewrite <-Ekd in *. rewrite find_key_none by done. rewrite !bool_decide_true by done. done.
    + rewrite !(bool_decide_false (k = d)) by done. by destruct (List.find _ daily).
Qed.

Lemma daily_of_day rows d : d <> ""%string ->
  day_of (daily_of rows) d = fold_left bump (on_day d rows) (f_zero, O).
Proof.
  intros Hd. unfold daily_of. change (f_zero, 0%nat) with (day_of (F := F) [] d). generalize (@nil (string * (F * nat))) as daily.
  induction rows as [|c rows IH]; intros daily; [done|]. cbn [fold_left on_day List.filter]. rewrite IH.
  rewrite add_day_of by done. unfold on_day. by case_bool_decide.
Qed.

Lemma fold_bump rows : forall b,
  fold_left bump rows b = (fold_left (fun x c => (x + or_zero (cls_profit c))%pyf) rows b.1, (b.2 + length rows)%nat).
Proof.
  induction rows as [|c rows IH]; intros [x n]; cbn [fold_left fst snd]; [by rewrite Nat.add_0_r|].
  rewrite IH. cbn [fst snd bump length]. f_equal. lia.
Qed.

(** A stored close time: a date, then a time of day. *)
Definition dated (dt : date) (ts : string) : Prop :=
  valid_date dt = true /\ exists rest, ts = (isoformat dt +:+ String "T" rest)%string /\
    String.ltb rest "00:00:00+00:00" = false.

Definition in_month (y m : Z) (dt : date) : bool := (d_year dt =? y) && (d_month dt =? m).

Lemma ltb_compare a b : String.ltb a b = match String.compare a b with Lt => true | _ => false end.
Proof. done. Qed.

(** The range query selects the trades of the month. *)
Lemma range_is_month y m dt ts : 1 <= y <= 9999 -> 1 <= m <= 12 -> (next_month y m).1 <= 9999 -> dated dt ts ->
  since (midnight_iso (mk_date y m 1)) ts && String.ltb ts (midnight_iso (mk_date (next_month y m).1 (next_month y m).2 1)) =
  in_month y m dt.
Proof.
  intros Hy Hm Hn (Hv & rest & -> & Hrest). pose proof (days_in_month_bound y m).
  pose proof (proj1 (valid_date_spec dt) Hv) as (V1 & V2 & V3).
  assert (valid_date (mk_date y m 1) = true) as HV1 by (apply valid_date_spec; cbn; lia).
  assert (valid_date (mk_date (next_month y m).1 (next_month y m).2 1) = true) as HV2.
  { apply valid_date_spec. pose proof (days_in_month_bound (next_month y m).1 (next_month y m).2).
    unfold next_month in *. destruct (Z.eqb_spec m 12); cbn in *; lia. }
  assert (String.compare rest "00:00:00+00:00" <> Lt) as HT by (intros E; by rewrite ltb_compare, E in Hrest).
  unfold since, midnight_iso. rewrite !ltb_compare, !iso_compare by done.
  unfold date_compare, in_month, next_month in *. cbn [d_year d_month d_day] in *.
  destruct (Z.eqb_spec m 12); cbn [fst snd] in *;
    repeat match goal with |- context [?a ?= ?b] => destruct (Z.compare_spec a b) end;
    repeat match goal with |- context [?a =? ?b] => destruct (Z.eqb_spec a b) end; cbn; try lia; try done.
  all: change (Ascii.compare "T" "T") with Eq; cbn iota; by destruct (String.compare rest "00:00:00+00:00").
Qed.

Lemma iso_inj a b : valid_date a = true -> valid_date b = true -> isoformat a = isoformat b -> a = b.
Proof. intros Ha Hb E. pose proof (strptime_isoformat a Ha) as K. rewrite E, strptime_isoformat in K by done. congruence. Qed.

Lemma iso_nonempty d : isoformat d <> ""%string.
Proof. done. Qed.

(** Whether a stored time lies in the month. *)
Definition ts_in_month (y m : Z) (ts : string) : bool :=
  match strptime_ymd (str_take 10 ts) with Some dt => in_month y m dt | None => false end.

Lemma dated_month y m dt ts : dated dt ts -> ts_in_month y m ts = in_month y m dt.
Proof. intros (Hv & rest & -> & _). unfold ts_in_month. by rewrite iso_take, strptime_isoformat. Qed.

Lemma month_days_elem y m dt : valid_date dt = true -> in_month y m dt = true -> dt ∈ month_days y m.
Proof.
  intros Hv Hin. apply andb_true_iff in Hin as [H1 H2]. apply Z.eqb_eq in H1 as <-. apply Z.eqb_eq in H2 as <-.
  apply valid_date_spec in Hv as (_ & _ & Hd). apply list_elem_of_fmap. exists (d_day dt).
  split; [by destruct dt|]. apply elem_of_seqZ. lia.
Qed.

Lemma month_days_nodup y m : NoDup (month_days y m).
Proof. apply NoDup_fmap_2; [by intros a b [=]|apply NoDup_seqZ]. Qed.

(** Each trade counts on one day. *)
Lemma one_day dt ds : valid_date dt = true -> Forall (fun d => valid_date d = true) ds -> NoDup ds -> dt ∈ ds ->
  sum_list (map (fun d => if bool_decide (isoformat dt = isoformat d) then 1 else 0)%nat ds) = 1%nat.
Proof.
  intros Hv Hds Hnd Hin. induction Hnd as [|d ds Hnot Hnd IH]; [by apply not_elem_of_nil in Hin|].
  inversion_clear Hds as [|? ? H1 H2]. cbn [map]. 
  assert (forall l, Forall (fun d => valid_date d = true) l -> dt ∉ l ->
    sum_list (map (fun d => if bool_decide (isoformat dt = isoformat d) then 1 else 0)%nat l) = 0%nat) as K.
  { induction 1 as [|x l Hx Hl IHl]; intros Hn; [done|]. cbn [map]. rewrite bool_decide_false.
    - apply IHl. intros H. apply Hn. by right.
    - intros E. apply iso_inj in E as ->; [|done..]. apply Hn. by left. }
  destruct (decide (dt = d)) as [->|Hne].
  - rewrite bool_decide_true by done. cbn [sum_list fold_right]. change (1 + sum_list (map (fun d0 => if bool_decide (isoformat d = isoformat d0) then 1 else 0)%nat ds) = 1)%nat. by rewrite K.
  - rewrite bool_decide_false by (intros E; by apply iso_inj in E). apply IH; [done|]. by apply elem_of_cons in Hin as [->|Hin].
Qed.

Lemma days_partition ds (rows : list (closed_row F)) : Forall (fun d => valid_date d = true) ds -> NoDup ds ->
  (forall c, c ∈ rows -> exists dt, dated dt (cls_ts c) /\ dt ∈ ds) ->
  sum_list (map (fun d => length (on_day (isoformat d) rows)) ds) = length rows.
Proof.
  intros Hds Hnd. induction rows as [|c rows IH]; intros Hr.
  - clear. induction ds as [|d ds IH]; [done|]. exact IH.
  - destruct (Hr c) as (dt & (Hv & rest & Ets & _) & Hin); [by left|].
    transitivity (sum_list (map (fun d => (if bool_decide (isoformat dt = isoformat d) then 1 else 0) + length (on_day (isoformat d) rows))%nat ds)).
    + f_equal. apply map_ext. intros d. unfold on_day. cbn [List.filter]. rewrite Ets, iso_take. by case_bool_decide.
    + assert (forall (f g : date -> nat) l, sum_list (map (fun d => f d + g d)%nat l) = (sum_list (map f l) + sum_list (map g l))%nat) as Hadd.
      { intros f g l. induction l as [|x l IHl]; [done|]. cbn in *. lia. }
      rewrite Hadd, one_day, IH by (try done; intros c' Hc'; apply Hr; by right). done.
Qed.

Lemma filter_filter {X} (p q : X -> bool) (l : list X) : List.filter p (List.filter q l) = List.filter (fun x => q x && p x) l.
Proof. induction l as [|x l IH]; [done|]. simpl. destruct (q x); simpl; [destruct (p x)|]; by rewrite ?IH. Qed.

Lemma first_of_ok y m : 1 <= y <= 9999 -> 1 <= m <= 12 -> first_of y m = Some (mk_date y m 1).
Proof.
  intros Hy Hm. unfold first_of. pose proof (days_in_month_bound y m).
  by rewrite (proj2 (valid_date_spec (mk_date y m 1))) by (cbn; lia).
Qed.

Lemma next_month_range y m : 1 <= y <= 9999 -> 1 <= m <= 12 -> (y, m) <> (9999, 12) ->
  1 <= (next_month y m).1 <= 9999 /\ 1 <= (next_month y m).2 <= 12.
Proof.
  intros Hy Hm Hl. unfold next_month. destruct (Z.eqb_spec m 12) as [->|]; cbn; [|lia].
  assert (y <> 9999) by (intros ->; by apply Hl). lia.
Qed.

(** The calendar shows every trade of the month once.  With close times stored
    as ISO texts, and a month strictly between January of year 1 and December of
    9999, the page has exactly the days of that month in order, each with its
    weekday; each day shows the rounded sum and the number of the selected trades
    closed on it; the numbers add up to the selected trades of the month; and the
    links lead to the next month and to the one before. *)
Theorem calendar_month_complete month stack_only source d y m
  (Hr : ready d) (Hp : parse_month today month = (y, m)) (Hy : 1 <= y <= 9999) (Hm : 1 <= m <= 12)
  (Hfirst : (y, m) <> (1, 1)) (Hlast : (y, m) <> (9999, 12))
  (Hts : forall c, c ∈ s_closed d -> exists dt, dated dt (cls_ts c)) :
  let trades := List.filter (keep_row stack_only source) (s_closed d) in
  exists v, run_result (calendar_month source_chats now today month stack_only source) [] d = Ok v /\
    mv_days v = map (fun dt => mk_cell (isoformat dt) (weekday dt)
      (f_round 2 (fold_left (fun x c => (x + or_zero (cls_profit c))%pyf) (on_day (isoformat dt) trades) f_zero))
      (length (on_day (isoformat dt) trades))) (month_days y m) /\
    sum_list (map c_count (mv_days v)) = length (List.filter (fun c => ts_in_month y m (cls_ts c)) trades) /\
    mv_total v = f_round 2 (py_sum (map c_net (mv_days v))) /\
    parse_month today (mv_next v) = next_month y m /\
    (let '(y', m') := parse_month today (mv_prev v) in next_month y' m') = (y, m).
Proof.
  intros trades. destruct (next_month_range y m Hy Hm Hlast) as [Hny Hnm].
  destruct (prev_of_first y m Hy Hm Hfirst) as (p & Ep & Enp & Hpy & Hpm).
  assert (forall c, c ∈ s_closed d -> since (midnight_iso (mk_date y m 1)) (cls_ts c) &&
    String.ltb (cls_ts c) (midnight_iso (mk_date (next_month y m).1 (next_month y m).2 1)) = ts_in_month y m (cls_ts c)) as Hsel.
  { intros c Hc. destruct (Hts c Hc) as (dt & Hd). rewrite (dated_month y m dt) by done. apply range_is_month; done || lia. }
  set (rows := List.filter (keep_row stack_only source)
    (rows_between (midnight_iso (mk_date y m 1)) (midnight_iso (mk_date (next_month y m).1 (next_month y m).2 1)) d)).
  assert (rows = List.filter (fun c => ts_in_month y m (cls_ts c)) trades) as Erows.
  { subst rows trades. unfold rows_between. rewrite !filter_filter. apply filter_ext_in. intros c Hc.
    rewrite Hsel by (by apply list_elem_of_In). apply andb_comm. }
  assert (Forall (fun dt => valid_date dt = true) (month_days y m)) as Hvalid.
  { apply list.Forall_forall. intros dt (k & -> & Hk)%list_elem_of_fmap. apply elem_of_seqZ in Hk. apply month_day_valid; lia. }
  assert (forall dt, dt ∈ month_days y m -> on_day (isoformat dt) rows = on_day (isoformat dt) trades) as Eday.
  { intros dt Hdt. rewrite Erows. unfold on_day. rewrite filter_filter. apply filter_ext_in. intros c Hc%list_elem_of_In.
    case_bool_decide as E; [|apply andb_false_r]. unfold ts_in_month. rewrite E.
    rewrite strptime_isoformat by (by apply (proj1 (list.Forall_forall _ _) Hvalid)).
    apply list_elem_of_fmap in Hdt as (k & -> & _). unfold in_month. cbn. by rewrite !Z.eqb_refl. }
  unfold run_result, calendar_month. rewrite Hp, !first_of_ok by lia. unfold select. rewrite run_bind, squery_ready by done.
  fold rows. rewrite days_loop_days, Ep by lia. eexists. split; [done|]. cbn [mv_days mv_total mv_next mv_prev].
  assert (map (cell_of (daily_of rows)) (month_days y m) = map (fun dt => mk_cell (isoformat dt) (weekday dt)
      (f_round 2 (fold_left (fun x c => (x + or_zero (cls_profit c))%pyf) (on_day (isoformat dt) trades) f_zero))
      (length (on_day (isoformat dt) trades))) (month_days y m)) as Ecells.
  { apply map_ext_in. intros dt Hdt%list_elem_of_In. unfold cell_of. rewrite daily_of_day by done. by rewrite fold_bump, Eday. }
  split_and!.
  - exact Ecells.
  - rewrite Ecells, map_map. cbn [c_count]. rewrite <-Erows, <-(days_partition (month_days y m) rows Hvalid (month_days_nodup y m)).
    + f_equal. apply map_ext_in. intros dt Hdt%list_elem_of_In. by rewrite Eday.
    + intros c Hc. rewrite Erows in Hc. apply list_elem_of_In, filter_In in Hc as [Hc Hin].
      apply filter_In in Hc as [Hc _]. destruct (Hts c) as (dt & Hd); [by apply list_elem_of_In|]. exists dt. split; [done|].
      apply month_days_elem; [apply Hd|]. by rewrite <-(dated_month y m dt (cls_ts c)).
  - done.
  - rewrite parse_month_text by (cbn; lia). by destruct (next_month y m).
  - by rewrite parse_month_text by lia.
Qed.

(** A month out of the calendar's range raises.  Whatever fails, a request for a
    month outside year 1 to 9999, for January of year 1 or for December of 9999
    raises, and every other month is answered. *)
Theorem calendar_month_range month stack_only source faults d
  (Htoday : valid_date today = true) :
  let '(y, m) := parse_month today month in
  (exists v, run_result (calendar_month source_chats now today month stack_only source) faults d = Ok v) <->
  (1 <= y <= 9999 /\ (y, m) <> (1, 1) /\ (y, m) <> (9999, 12)).
Proof.
  destruct (parse_month today month) as [y m] eqn:E.
  assert (1 <= m <= 12) as Hm.
  { apply valid_date_spec in Htoday as (_ & Ht & _). unfold parse_month in E.
    match type of E with default _ ?o = _ => destruct o as [[y' m']|] eqn:Eo end; cbn in E; [|injection E as <- <-; lia].
    injection E as <- <-. destruct (split_once _ _) as [[a b]|]; [|done]. cbn in Eo.
    destruct (parse_int (string_of_chars a)); [|done]. cbn in Eo. destruct (parse_int (string_of_chars b)) as [mz|]; [|done]. cbn in Eo.
    destruct ((1 <=? mz) && (mz <=? 12)) eqn:Ez; [|done]. injection Eo as <- <-. bool_hyps. lia. }
  unfold run_result, calendar_month. rewrite E. split.
  - intros (v & Hv). unfold first_of in Hv. pose proof (days_in_month_bound y m).
    destruct (valid_date (mk_date y m 1)) eqn:E1; [|done].
    destruct (valid_date (mk_date (next_month y m).1 (next_month y m).2 1)) eqn:E2; [|done].
    apply valid_date_spec in E1 as (V1 & _ & _), E2 as (V2 & _ & _). cbn [d_year] in *. split; [done|]. split.
    + intros [= -> ->]. revert Hv. unfold select. rewrite run_bind.
      destruct (squery_run source_chats now (fun d0 : sdb F => Ok (rows_between (midnight_iso (mk_date 1 1 1))
        (midnight_iso (mk_date (next_month 1 1).1 (next_month 1 1).2 1)) d0)) faults d) as (rows & d' & fs' & -> & _).
      rewrite days_loop_days by lia. replace (prev_day (mk_date 1 1 1)) with (@None date) by reflexivity. discriminate.
    + intros [= -> ->]. cbn in V2. lia.
  - intros (Hy & Hf & Hl). destruct (next_month_range y m Hy Hm Hl) as [Hny Hnm].
    destruct (prev_of_first y m Hy Hm Hf) as (p & Ep & _). rewrite !first_of_ok by lia. unfold select. rewrite run_bind.
    destruct (squery_run source_chats now (fun d0 : sdb F => Ok (rows_between (midnight_iso (mk_date y m 1))
        (midnight_iso (mk_date (next_month y m).1 (next_month y m).2 1)) d0)) faults d) as (rows & d' & fs' & -> & _).
    rewrite days_loop_days, Ep by lia. by eexists.
Qed.

End Entries.

(** ** A concrete month *)

Module CalendarDemo.
Definition trade (pos ts : string) (profit : Q) (source : string) : closed_row Q :=
  mk_closed pos ts "EURUSD" "buy" 1%Q None 1%Q profit 42 None source.
Definition trades : list (closed_row Q) :=
  [trade "1" "2024-02-29T10:00:00+00:00" (5 # 2) "tradingview"; trade "2" "2024-02-29T23:59:59.5+00:00" (-1) "tradingview";
   trade "3" "2024-03-01T00:00:00+00:00" 7 "tradingview"; trade "4" "2024-02-01T00:00:00+00:00" 9 "other"]%string.
Definition db : sdb Q :=
  mk_sdb [("schema_version"%string, Some "4"%string)] [] [] trades [] [] (Some (true, true)).
Definition today : date := mk_date 2024 1 15.
Lemma trades_dated c : c ∈ s_closed db -> exists dt, dated dt (cls_ts c).
Proof.
  assert (forall y m k rest, valid_date (mk_date y m k) = true -> String.ltb rest "00:00:00+00:00" = false ->
    dated (mk_date y m k) (isoformat (mk_date y m k) +:+ String "T" rest)) as K by (intros; split; [done|by eexists]).
  intros Hc. cbn in Hc. repeat (apply elem_of_cons in Hc as [->|Hc]); [..|by apply not_elem_of_nil in Hc]; eexists.
  - exact (K 2024 2 29 "10:00:00+00:00"%string eq_refl eq_refl).
  - exact (K 2024 2 29 "23:59:59.5+00:00"%string eq_refl eq_refl).
  - exact (K 2024 3 1 "00:00:00+00:00"%string eq_refl eq_refl).
  - exact (K 2024 2 1 "00:00:00+00:00"%string eq_refl eq_refl).
Qed.
End CalendarDemo.

Lemma calendar_month_complete_witness :
  exists v, run_result (calendar_month "" "now" CalendarDemo.today "2024-02" true None) [] CalendarDemo.db = Ok v /\
    length (mv_days v) = 29%nat /\ sum_list (map c_count (mv_days v)) = 2%nat.
Proof.
  destruct (calendar_month_complete "" "now" CalendarDemo.today "2024-02" true None CalendarDemo.db 2024 2)
    as (v & Hv & Hd & Hc & _).
  - by split.
  - vm_compute. reflexivity.
  - lia.
  - lia.
  - discriminate.
  - discriminate.
  - exact CalendarDemo.trades_dated.
  - exists v. split; [exact Hv|]. split; [rewrite Hd; vm_compute; reflexivity|rewrite Hc; vm_compute; reflexivity].
Defined.

Lemma calendar_month_range_witness :
  valid_date CalendarDemo.today = true /\
  ~ (exists v, run_result (calendar_month "" "now" CalendarDemo.today "9999-12" true None) [] CalendarDemo.db = Ok v).
Proof.
  split; [reflexivity|]. intros H.
  pose proof (calendar_month_range "" "now" CalendarDemo.today "9999-12" true None [] CalendarDemo.db eq_refl) as K.
  assert (parse_month CalendarDemo.today "9999-12" = (9999, 12)) as E by (vm_compute; reflexivity).
  rewrite E in K. apply K in H. destruct H as (_ & _ & H). by apply H.
Defined.
