(* ===== verification/DashPages.v ===== *)
(** * DashPages: the dashboard's terminal connection, pages and GET requests

    scripts/trade_dashboard.py: the cached connection to the MT5 terminal with its
    retry backoff, the terminal part of the summary page, the risk panel, the
    digest text, the weekly workbook and the dispatch of GET requests.

    The terminal is the record [Mt5] of the functions the script calls, over an
    abstract terminal state.  Arguments: the clock in seconds, the calendar texts
    as in DashReport, the ISO text of a timestamp ([iso_ts], [None] out of range),
    the float formats, and the journal file as loaded. *)

From Stdlib Require Import ZArith QArith Qabs Ascii Lqa Sorting.Sorted.
From S2P Require Import Prelude Text PyFloat PyVal Prog Db EaShim Json TradeStore Dashboard DashReport DashTrades Calendar DashCalendar.
Open Scope Z_scope.

Section Pages.
Context {F : Type} {A : Arith F}.
Open Scope pyf_scope.

(** ** The terminal *)

Record dash_account := mk_dacct {
  da_login : Z; da_currency : string; da_balance : F; da_equity : F; da_margin : F; da_margin_free : F;
  da_margin_level : F }.

Record open_position := mk_open {
  op_ticket : Z; op_time : Z; op_symbol : string; op_buy : bool; op_volume : F; op_entry : F; op_sl : F; op_tp : F;
  op_profit : F; op_magic : Z; op_comment : string }.

Record Mt5 (T : Type) := mk_mt5 {
  initialize : T -> bool * T;
  shutdown : T -> T;
  dash_account_info : T -> option dash_account * T;
  dash_positions : T -> list open_position * T;
  dash_deals : Z -> T -> list (deal F) * T;
  tick_time : string -> T -> option F * T }.
Arguments initialize {T}. Arguments shutdown {T}. Arguments dash_account_info {T}. Arguments dash_positions {T}.
Arguments dash_deals {T}. Arguments tick_time {T}.

Context {T : Type} (mt5 : option (Mt5 T)).

(** [_mt5_state] and [_broker_offset_state]; [cn_attempts] records when
    [initialize] was called, latest first. *)
Record conn := mk_conn {
  cn_ready : bool; cn_last : F; cn_offset : option F; cn_term : T; cn_attempts : list F }.

Definition put_term (t : T) (c : conn) : conn := mk_conn (cn_ready c) (cn_last c) (cn_offset c) t (cn_attempts c).

Definition MT5_RETRY_BACKOFF_SEC : F := f_int 10.

Definition _ensure_mt5 (now : F) (c : conn) : bool * conn :=
  match mt5 with
  | None => (false, c)
  | Some m =>
      if cn_ready c then (true, c)
      else if now - cn_last c <? MT5_RETRY_BACKOFF_SEC then (false, c)
      else
        let '(ok, t) := initialize m (cn_term c) in
        (ok, mk_conn ok now (cn_offset c) t (now :: cn_attempts c))
  end.

Definition _mt5_reset (c : conn) : conn :=
  let t := match mt5 with Some m => shutdown m (cn_term c) | None => cn_term c end in
  mk_conn false (cn_last c) (cn_offset c) t (cn_attempts c).

(** A call into the terminal; nothing without the package. *)
Definition ask {X} (f : Mt5 T -> T -> X * T) (dflt : X) (c : conn) : X * conn :=
  match mt5 with
  | None => (dflt, c)
  | Some m => let '(x, t) := f m (cn_term c) in (x, put_term t c)
  end.

(** [account_info()] of a connected terminal; the cached connection is dropped
    when there is none. *)
Definition account_or_reset (now : F) (c : conn) : option dash_account * conn :=
  let '(ok, c) := _ensure_mt5 now c in
  if ok then
    let '(a, c) := ask (fun m => dash_account_info m) None c in
    match a with Some a => (Some a, c) | None => (None, _mt5_reset c) end
  else (None, c).

(** ** Terminal pages *)

Record live_view := mk_live {
  lv_margin : F; lv_free : F; lv_level : F; lv_lots : F }.

Definition _live_risk (now : F) (c : conn) : option live_view * conn :=
  match account_or_reset now c with
  | (None, c) => (None, c)
  | (Some a, c) =>
      let '(ps, c) := ask (fun m => dash_positions m) [] c in
      (Some (mk_live (f_round 2 (da_margin a)) (f_round 2 (da_margin_free a))
               (if f_truthy (da_margin_level a) then f_round 2 (da_margin_level a) else da_margin_level a)
               (match ps with [] => f_zero | _ => f_round 4 (py_sum (map op_volume ps)) end)), c)
  end.

(** The balance that anchors the synthetic equity curve. *)
Definition balance_now (now : F) (c : conn) : option F * conn :=
  let '(ok, c) := _ensure_mt5 now c in
  if ok then let '(a, c) := ask (fun m => dash_account_info m) None c in (da_balance <$> a, c) else (None, c).

Definition _fetch_deals (now : F) (days : Z) (c : conn) : list (deal F) * conn :=
  let '(ok, c) := _ensure_mt5 now c in
  if ok then ask (fun m => dash_deals m days) [] c else ([], c).

Context (iso_ts : F -> option string).

Definition _fmt_time (raw : option Z) (offset : option F) : option string :=
  match raw with
  | None => None
  | Some t => iso_ts (match offset with Some o => f_int t - o | None => f_int t end)
  end.

(** A grouped position with its times and journal entry. *)
Record shown := mk_shown {
  sh_row : closed F; sh_time : option string; sh_entry_time : option string; sh_journal : option (pydict F) }.

Definition journal_of (journal : list (string * pydict F)) (ticket : string) : option (pydict F) :=
  match List.find (fun kv => bool_decide (kv.1 = ticket)) journal with
  | Some (_, []) | None => None
  | Some (_, j) => Some j
  end.

Context (MAGIC : Z).

Definition show_row (journal : list (string * pydict F)) (offset : option F) (r : closed F) : shown :=
  mk_shown r (_fmt_time (Some (cp_time r)) offset)
    (match cp_entry_time r with Some t => if (t =? 0)%Z then None else _fmt_time (Some t) offset | None => None end)
    (journal_of journal (cp_ticket r)).

Definition _closed_positions (now : F) (days : Z) (journal : list (string * pydict F)) (c : conn)
  : list shown * option F * conn :=
  let '(ok, c) := _ensure_mt5 now c in
  if ok then
    let '(ps, c) := ask (fun m => dash_positions m) [] c in
    let symbol := match ps with p :: _ => op_symbol p | [] => ""%string end in
    let symbol := if bool_decide (symbol = ""%string) then "XAUUSD_"%string else symbol in
    (* the tick is read only while the offset is unknown *)
    let '(tick, c) := match cn_offset c with None => ask (fun m => tick_time m symbol) None c | Some _ => (None, c) end in
    let '(offset, cache) := _estimate_broker_offset (cn_offset c) tick now in
    let c := mk_conn (cn_ready c) (cn_last c) cache (cn_term c) (cn_attempts c) in
    let '(deals, c) := _fetch_deals now days c in
    (map (show_row journal offset) (newest (_group_closed MAGIC deals)), offset, c)
  else ([], None, c).

Record open_view := mk_open_view {
  ov_ticket : Z; ov_opened : string; ov_symbol : string; ov_side : string; ov_volume : F; ov_entry : F; ov_sl : F;
  ov_tp : F; ov_profit : F; ov_source : string }.

(** [None] is a time out of range. *)
Fixpoint open_rows (ps : list open_position) : option (list open_view) :=
  match ps with
  | [] => Some []
  | p :: ps' =>
      opened ← iso_ts (f_int (op_time p));
      rest ← open_rows ps';
      Some (mk_open_view (op_ticket p) opened (op_symbol p) (if op_buy p then "buy" else "sell") (op_volume p)
              (op_entry p) (op_sl p) (op_tp p) (f_round 2 (op_profit p)) (_deal_source MAGIC (op_magic p) (op_comment p)) :: rest)
  end.

Record mt5_view := mk_mt5_view {
  mv_account : dash_account; mv_open : list open_view; mv_floating : F; mv_time_label : string;
  mv_closed : closed_stats (F := F); mv_rows : list shown; mv_daily : list (string * F); mv_review : list shown }.

Context (iso_day : Z -> string) (today : Z).

Definition kept (source : option string) (s : string) : bool := negb (given source) || bool_decide (Some s = source).

(** [Err] is the exception of a time out of range; [Ok None] is unavailable. *)
Definition _mt5_stats (now : F) (journal : list (string * pydict F)) (days : Z) (source : option string) (c : conn)
  : result exn (option mt5_view) * conn :=
  match account_or_reset now c with
  | (None, c) => (Ok None, c)
  | (Some a, c) =>
      let '(ps, c) := ask (fun m => dash_positions m) [] c in
      match open_rows ps with
      | None => (Err ArithError, c)
      | Some all =>
          let opens := List.filter (fun r => kept source (ov_source r)) all in
          let floating := match opens with [] => f_zero | _ => f_round 2 (py_sum (map ov_profit opens)) end in
          let '(grouped_all, offset, c) := _closed_positions now days journal c in
          let grouped := List.filter (fun r => kept source (cp_source (sh_row r))) grouped_all in
          (Ok (Some (mk_mt5_view a opens floating (match offset with Some _ => "UTC" | None => "broker time" end)
             (_mt5_closed (map sh_row grouped_all) source) grouped
             (_daily_pnl iso_day today (map (fun r => (sh_time r, cp_profit (sh_row r))) grouped) days)
             (take 8 (List.filter (fun r => match sh_journal r with None => true | Some _ => false end) grouped)))), c)
      end
  end.

End Pages.

Arguments dash_account F : clear implicits. Arguments open_position F : clear implicits.
Arguments Mt5 F T : clear implicits. Arguments conn F T : clear implicits.
Arguments shown F : clear implicits. Arguments mt5_view F : clear implicits. Arguments live_view F : clear implicits.

(** ** Attempts to connect are spaced *)

Section Backoff.
Context {T : Type} (mt5 : option (Mt5 Q T)) (iso_ts : Q -> option string) (MAGIC : Z).
Context (iso_day : Z -> string) (today : Z).

(** The pages that use the terminal, each at its own time. *)
Inductive page_call :=
| CallLive (now : Q)
| CallBalance (now : Q)
| CallStats (now : Q) (journal : list (string * pydict Q)) (days : Z) (source : option string)
| CallClosed (now : Q) (days : Z) (journal : list (string * pydict Q)).

Definition call (c : conn Q T) (p : page_call) : conn Q T :=
  match p with
  | CallLive now => (_live_risk mt5 now c).2
  | CallBalance now => (balance_now mt5 now c).2
  | CallStats now journal days source => (_mt5_stats mt5 iso_ts MAGIC iso_day today now journal days source c).2
  | CallClosed now days journal => (_closed_positions mt5 iso_ts MAGIC now days journal c).2
  end.

(** Latest first, each at least ten seconds after the one before. *)
Fixpoint spaced (l : list Q) : Prop :=
  match l with
  | a :: rest => match rest with b :: _ => (10 <= a - b)%Q | [] => True end /\ spaced rest
  | [] => True
  end.

Definition backoff_inv (c : conn Q T) : Prop :=
  spaced (cn_attempts c) /\ match cn_attempts c with a :: _ => a = cn_last c | [] => True end.

Lemma ensure_inv now c : backoff_inv c -> backoff_inv (_ensure_mt5 mt5 now c).2.
Proof.
  intros [Hs Hl]. unfold _ensure_mt5. destruct mt5 as [m|]; [|done]. destruct (cn_ready c); [done|].
  destruct (_ <? _)%pyf eqn:E; [done|]. destruct (initialize _ m (cn_term c)) as [ok t]. split; [|done].
  cbn. split; [|done]. destruct (cn_attempts c) as [|b l]; [done|]. subst b. apply q_ltb_ge in E. exact E.
Qed.

Lemma ask_inv {X} (f : Mt5 Q T -> T -> X * T) dflt c : backoff_inv c -> backoff_inv (ask mt5 f dflt c).2.
Proof. intros H. unfold ask. destruct mt5 as [m|]; [|done]. by destruct (f m (cn_term c)). Qed.

Lemma reset_inv c : backoff_inv c -> backoff_inv (_mt5_reset mt5 c).
Proof. done. Qed.

(** Walk a page, call by call. *)
Ltac conn_walk :=
  repeat match goal with
  | H : backoff_inv ?c |- context [_ensure_mt5 mt5 ?now ?c] =>
      pose proof (ensure_inv now c H); destruct (_ensure_mt5 mt5 now c) as [[] ?]; cbn [snd fst] in *; try done
  | H : backoff_inv ?c |- context [ask mt5 ?f ?d ?c] =>
      pose proof (ask_inv f d c H); destruct (ask mt5 f d c) as [? ?]; cbn [snd fst] in *; try done
  | |- context [match ?x with _ => _ end] => destruct x; cbn [snd fst] in *; try done
  end.

Lemma account_inv now c : backoff_inv c -> backoff_inv (account_or_reset mt5 now c).2.
Proof. intros H. unfold account_or_reset. conn_walk. Qed.

Lemma deals_inv now days c : backoff_inv c -> backoff_inv (_fetch_deals mt5 now days c).2.
Proof. intros H. unfold _fetch_deals. conn_walk. Qed.

Lemma closed_inv now days journal c : backoff_inv c -> backoff_inv (_closed_positions mt5 iso_ts MAGIC now days journal c).2.
Proof.
  intros H. unfold _closed_positions. pose proof (ensure_inv now c H). destruct (_ensure_mt5 mt5 now c) as [[] c1]; [|done].
  cbn [snd] in *. pose proof (ask_inv (fun m => dash_positions _ m) [] c1 H0). destruct (ask mt5 _ [] c1) as [ps c2]. cbn [snd] in *.
  set (sym := if bool_decide _ then _ else _).
  assert (backoff_inv (match cn_offset c2 with None => ask mt5 (fun m => tick_time _ m sym) None c2 | Some _ => (None, c2) end).2) as H2.
  { destruct (cn_offset c2); [done|]. by apply ask_inv. }
  destruct (match cn_offset c2 with None => _ | Some _ => _ end) as [tick c3]. cbn [snd] in *.
  destruct (_estimate_broker_offset (cn_offset c3) tick now) as [offset cache].
  pose proof (deals_inv now days (mk_conn (cn_ready c3) (cn_last c3) cache (cn_term c3) (cn_attempts c3)) H2) as H3.
  by destruct (_fetch_deals mt5 now days _) as [deals c4].
Qed.

Lemma call_inv p c : backoff_inv c -> backoff_inv (call c p).
Proof.
  intros H. destruct p as [now|now|now journal days source|now days journal]; cbn [call].
  - unfold _live_risk. pose proof (account_inv now c H). destruct (account_or_reset mt5 now c) as [[a|] c1]; [|done].
    cbn [snd] in *. conn_walk.
  - unfold balance_now. conn_walk.
  - unfold _mt5_stats. pose proof (account_inv now c H). destruct (account_or_reset mt5 now c) as [[a|] c1]; [|done].
    cbn [snd] in *. pose proof (ask_inv (fun m => dash_positions _ m) [] c1 H0). destruct (ask mt5 _ [] c1) as [ps c2]. cbn [snd] in *.
    destruct (open_rows _ _ ps); [|done]. pose proof (closed_inv now days journal c2 H1).
    by destruct (_closed_positions mt5 iso_ts MAGIC now days journal c2) as [[grouped offset] c3].
  - by apply closed_inv.
Qed.

(** A dead terminal is not hammered.  Whatever pages are requested, at whatever
    times and with whatever answers of the terminal, two consecutive attempts to
    connect are at least ten seconds apart; and while the backoff runs the terminal
    is not called at all. *)
Theorem reconnect_backoff (pages : list page_call) c
  (H0 : cn_attempts c = []) :
  spaced (cn_attempts (fold_left call pages c)) /\
  (forall now, cn_ready (fold_left call pages c) = false -> (now - cn_last (fold_left call pages c) < 10)%Q ->
     _ensure_mt5 mt5 now (fold_left call pages c) = (false, fold_left call pages c)).
Proof.
  assert (backoff_inv c) as Hc by (split; by rewrite H0). split.
  - clear H0. revert c Hc. induction pages as [|p pages IH]; intros c Hc; [apply Hc|]. cbn [fold_left]. by apply IH, call_inv.
  - intros now Hr Hn. unfold _ensure_mt5. destruct mt5 as [m|]; [|done]. rewrite Hr.
    assert ((now - cn_last (fold_left call pages c) <? MT5_RETRY_BACKOFF_SEC)%pyf = true) as ->; [|done].
    by apply q_ltb_lt.
Qed.

End Backoff.

(** ** Pages over the store and the terminal *)

(** [rpartition(":")]: the part after the last colon, or all of it. *)
Fixpoint after_colon (l : chars) : chars :=
  match l with
  | [] => []
  | c :: l' => if existsb (fun x => bool_decide (x = ":"%char)) l' then after_colon l'
               else if bool_decide (c = ":"%char) then l' else l
  end.

Definition _allowed_hosts (ADDR : string) : list string :=
  let port := string_of_chars (after_colon (chars_of ADDR)) in
  let port := if bool_decide (port = ""%string) then "8090"%string else port in
  [("127.0.0.1:" +:+ port); ("localhost:" +:+ port)]%string.

(** What a health probe meets. *)
Inductive probe := Answered (status : Z) (raw : bytes) | Refused (code : Z) (raw : bytes) | Unreachable.

Definition _http_probe {F} `{Arith F} (p : probe) : option Z * option (pyval F) :=
  match p with
  | Answered status raw | Refused status raw => (Some status, decode_utf8 raw ≫= loads)
  | Unreachable => (None, None)
  end.

Section Get.
Context {F : Type} {A : Arith F} {T : Type} (mt5 : option (Mt5 F T)).
Context (float_repr : F -> bytes) (py_str : pyval F -> string) (source_chats now : string).
Context (cutoff_iso iso_day : Z -> string) (today : Z) (today_date : date) (clock : F) (utc_now : string).
Context (iso_ts : F -> option string) (age_of : string -> option F) (fmt_fixed : nat -> F -> string).
Context (MAGIC : Z) (EA_SHIM_RISK_USD : F) (DRY_RUN_DEFAULT : bool).
(** The journal file and the fills log as loaded; the answers of the health
    probes; whether the workbook package is installed; the icon file. *)
Context (journal : list (string * pydict F)) (fills : list (pydict F)) (ingress bridge : probe).
Context (openpyxl : bool) (favicon : option bytes).

Record gstate := mk_g { g_db : sdb F; g_conn : conn F T }.
Definition put_g_db d g := mk_g d (g_conn g).
Definition put_g_conn c g := mk_g (g_db g) c.

Abbreviation page X := (prog gstate exn X).

Definition in_db {X} (p : prog (sdb F) exn X) : page X := zoom g_db put_g_db p.
Definition in_conn {X} (f : conn F T -> X * conn F T) : page X :=
  Act (fun g => put_g_conn (f (g_conn g)).2 g) (fun g => ret (f (g_conn g)).1).
Definition in_conn_r {X} (f : conn F T -> result exn X * conn F T) : page X :=
  Act (fun g => put_g_conn (f (g_conn g)).2 g) (fun g => Done (f (g_conn g)).1).

(** *** Risk panel *)

(** The terminal is only asked for the balance when the curve is synthetic. *)
Definition equity_page (days : Z) : page (equity_view (F := F)) :=
  b <- Act (fun g => g) (fun g => ret (balance_now mt5 clock (g_conn g)).1) ;;
  v <- in_db (_equity_curve source_chats now cutoff_iso iso_day today b days) ;;
  (if ev_estimated v then in_conn (balance_now mt5 clock) ;;; ret v else ret v).

Record risk_view := mk_risk {
  rv_days : Z; rv_curve : equity_view (F := F); rv_live : option (live_view F); rv_compliance : compliance (F := F) }.

Definition risk_panel (days : Z) (source : option string) : page risk_view :=
  curve <- equity_page days ;;
  live <- in_conn (_live_risk mt5 clock) ;;
  comp <- in_db (_compliance source_chats now cutoff_iso EA_SHIM_RISK_USD days source) ;;
  ret (mk_risk days curve live comp).

(** *** Summary *)

(** A line of the recent orders table.  A command that is no text has no
    [lower()], an error that is an object no slice. *)
Definition recent_row (r : pydict F) : result exn (list (string * pyval F)) :=
  let! error := match py_or (DashReport.lookup r "error") (PStr "") with
    | PStr e => Ok (PStr (str_take 80 e)) | PList l => Ok (PList (take 80 l)) | _ => Err TypeError end in
  Ok [("ts", get_or r "ts" (PStr "")); ("source", PStr (_source_of "")); ("command", get_or r "command" (PStr ""));
      ("symbol", get_or r "symbol" (PStr "")); ("risk", py_or (DashReport.lookup r "risk") (PStr ""));
      ("volume", py_or (DashReport.lookup r "volume") (PStr "")); ("sl", py_or (DashReport.lookup r "sl") (PStr ""));
      ("tp", py_or (DashReport.lookup r "tp") (PStr "")); ("status", py_or (DashReport.lookup r "status") (PStr ""));
      ("error", error)]%string.

(** Command and status of each record, for the bucket, and the lines. *)
Fixpoint order_rows (rs : list (pydict F)) : result exn (list (string * string) * list (list (string * pyval F))) :=
  match rs with
  | [] => Ok ([], [])
  | r :: rs' =>
      let! command := match DashReport.lookup r "command" with PStr c => Ok c | _ => Err AttributeError end in
      let status := match DashReport.lookup r "status" with PStr s => s | _ => ""%string end in
      let! row := if is_text "position_closed" (DashReport.lookup r "event") then Ok [] else let! x := recent_row r in Ok [x] in
      let! rest := order_rows rs' in
      Ok ((command, status) :: rest.1, row ++ rest.2)
  end.

(** The bucket of the source asked for; the last twelve lines, newest first. *)
Definition order_page (source : option string) : result exn (order_bucket * list (list (string * pyval F))) :=
  let rows := List.filter (fun r => truthy (DashReport.lookup r "command")) fills in
  let rows := if given source then (if is_some_text (_source_of "") source then rows else []) else rows in
  let! rs := order_rows rows in
  Ok (_order_stats source rs.1, rev (drop (length rs.2 - 12) rs.2)).

Record journal_stats := mk_jstats { js_entries : nat; js_reviewed : nat; js_avg : option F }.

(** [round(sum(ratings) / len(ratings), 1)]; [None] when a rating is no number. *)
Definition ratings_of (js : list (pydict F)) : option (list F) :=
  mapM (fun v => match v with PInt n => Some (f_int n) | PFloat x => Some x | PBool b => Some (f_int (if b then 1 else 0)) | _ => None end)
    (List.filter truthy (map (fun j => DashReport.lookup j "rating") js)).

Definition journal_summary : option journal_stats :=
  let js := List.filter (fun j => truthy (DashReport.lookup j "setup") || truthy (DashReport.lookup j "notes") ||
                                  truthy (DashReport.lookup j "rating")) (map snd journal) in
  ratings ← ratings_of js;
  Some (mk_jstats (length js) (length (List.filter (fun j => truthy (DashReport.lookup j "reviewed")) js))
          (match ratings with [] => None | _ => Some (f_round 1 (f_quot (py_sum ratings) (f_int (Z.of_nat (length ratings))))) end)).

Record summary_view := mk_summary {
  sv_days : Z; sv_source : string; sv_orders : order_bucket * list (list (string * pyval F)); sv_mt5 : option (mt5_view F);
  sv_journal : journal_stats; sv_risk : risk_view }.

Definition summary (days : Z) (source : option string) : page summary_view :=
  orders <- Done (order_page source) ;;
  m <- in_conn_r (_mt5_stats mt5 iso_ts MAGIC iso_day today clock journal days source) ;;
  js <- (match journal_summary with Some js => ret js | None => raise TypeError end) ;;
  risk <- risk_panel days source ;;
  ret (mk_summary days (default ""%string source) orders m js risk).

(** *** Digest *)

Definition digest_terminal (c : conn F T) : option (terminal (F := F)) * conn F T :=
  match account_or_reset mt5 clock c with
  | (None, c) => (None, c)
  | (Some a, c) =>
      let '(ps, c) := ask mt5 (fun m => dash_positions _ m) [] c in
      (Some (mk_terminal (da_equity a) (da_margin_level a) (map op_profit ps)), c)
  end.

Definition digest_page (days : Z) (source : option string) : page (digest (F := F)) :=
  t <- in_conn digest_terminal ;;
  in_db (_digest_period source_chats now cutoff_iso t days source).

Definition _fmt_signed (v : F) : string := ((if (f_zero <=? v)%pyf then "+" else "") +:+ fmt_fixed 2 v)%string.

Definition by_name (m : list (string * F)) : list (string * F) := sort_by (fun a b => String.ltb a.1 b.1) m.

Definition digest_lines (days : Z) (weekly : bool) (d : digest (F := F)) : list string :=
  [("Rey Capital trade digest — " +:+ (if weekly then "Weekly (7-day)" else pretty days +:+ "-day") +:+ " — " +:+ utc_now);
   ("Signals received: " +:+ pretty (dg_received d) +:+ " | executed: " +:+ pretty (dg_executed d));
   ("Trades closed: " +:+ pretty (dg_wins d) +:+ "W / " +:+ pretty (dg_losses d) +:+ "L | Net P/L: " +:+
      _fmt_signed (dg_net d) +:+ " USD")]%string ++
  match dg_by_source d with
  | [] => []
  | m => ["By source: " +:+ join ", " (map (fun kv => kv.1 +:+ ": " +:+ _fmt_signed kv.2)%string (by_name m))]%string
  end ++
  match dg_floating d with Some x => ["Floating P/L now: " +:+ _fmt_signed x +:+ " USD"]%string | None => [] end ++
  match dg_equity_now d with
  | Some x => ["Equity now: " +:+ fmt_fixed 2 x +:+ " USD (period start: " +:+
                 match dg_equity_start d with Some s => fmt_fixed 2 s | None => "n/a" end +:+ ")"]%string
  | None => ["Equity now: MT5 unavailable"]%string
  end ++
  match dg_margin_level d with Some x => ["Margin level: " +:+ fmt_fixed 1 x +:+ "%"]%string | None => [] end ++
  ["Risk-cap rejections this period: " +:+ pretty (dg_risk_cap d)]%string.

Definition build_digest_text (days : Z) (weekly : bool) : page string :=
  d <- digest_page days None ;; ret (join (String (ascii_of_nat 10) "") (digest_lines days weekly d)).

(** [--digest-now [--period-days N]]. *)
Fixpoint after_flag (flag : string) (argv : list string) : option string :=
  match argv with
  | [] => None
  | x :: rest => if bool_decide (x = flag) then head rest else after_flag flag rest
  end.

Definition _cli_digest_now (argv : list string) : page string :=
  let period_days := match after_flag "--period-days" argv with
    | Some t => match parse_int t with Some n => n | None => 7 end
    | None => 7 end in
  build_digest_text period_days (7 <=? period_days)%Z.

(** *** Workbook *)

Definition opt_float (o : option F) : pyval F := match o with Some x => PFloat x | None => PNone end.
Definition opt_str (o : option string) : pyval F := match o with Some s => PStr s | None => PNone end.
Definition int_cell (n : nat) : pyval F := PInt (Z.of_nat n).

Definition ct_header : list (pyval F) :=
  map PStr ["position_id"; "close_ts"; "symbol"; "side"; "volume"; "entry_price"; "close_price"; "profit"; "magic"; "comment"; "source"]%string.

Definition closed_cells (c : closed_row F) : list (pyval F) :=
  [PStr (cls_position c); PStr (cls_ts c); PStr (cls_symbol c); PStr (cls_side c); PFloat (cls_volume c);
   opt_float (cls_entry c); PFloat (cls_price c); PFloat (cls_profit c); PInt (cls_magic c); opt_str (cls_comment c);
   PStr (cls_source c)].

Definition sc_header : list (pyval F) :=
  map PStr ["channel"; "received"; "posted"; "rejected"; "orders_executed"; "orders_open_pending"; "wins"; "losses"; "net_pl"; "avg_r"]%string.

Definition score_cells (s : score (F := F)) : list (pyval F) :=
  [PStr (sc_channel s); PInt (sc_received s); PInt (sc_posted s); PInt (sc_rejected s); PInt (sc_executed s);
   PInt (sc_open s); PInt (sc_wins s); PInt (sc_losses s); PFloat (sc_net s); opt_float (sc_avg_r s)].

Definition eq_header : list (pyval F) := map PStr ["ts"; "balance"; "equity"; "margin"; "margin_free"; "floating"]%string.

Definition equity_cells (e : equity_row F) : list (pyval F) :=
  [PStr (eq_ts e); PFloat (eq_balance e); PFloat (eq_equity e); PFloat (eq_margin e); PFloat (eq_free e); PFloat (eq_floating e)].

Definition summary_sheet (days : Z) (source : option string) (d : digest (F := F)) : list (list (pyval F)) :=
  [[PStr "Rey Capital — Weekly Management Report"]; [PStr "Period (days)"; PInt days];
   [PStr "Source filter"; PStr (text_or source "All sources")]; [PStr "Generated (UTC)"; PStr utc_now]; [];
   [PStr "Signals received"; int_cell (dg_received d)]; [PStr "Orders executed"; int_cell (dg_executed d)];
   [PStr "Trades closed — wins"; int_cell (dg_wins d)]; [PStr "Trades closed — losses"; int_cell (dg_losses d)];
   [PStr "Net P/L (period)"; PFloat (dg_net d)]]%string ++
  map (fun kv => [PStr ("Net P/L — " +:+ kv.1); PFloat kv.2]%string) (by_name (dg_by_source d)) ++
  [[PStr "Floating P/L now"; opt_float (dg_floating d)]; [PStr "Equity now"; opt_float (dg_equity_now d)];
   [PStr "Equity at period start"; opt_float (dg_equity_start d)]; [PStr "Margin level (%)"; opt_float (dg_margin_level d)];
   [PStr "Risk-cap rejections"; int_cell (dg_risk_cap d)]]%string.

Definition newest_closed (rows : list (closed_row F)) : list (closed_row F) :=
  sort_by (fun a b => String.ltb (cls_ts b) (cls_ts a)) rows.

(** The sheets by name; [None] without the package. *)
Definition build_weekly_xlsx (days : Z) (source : option string) : page (option (list (string * list (list (pyval F))))) :=
  if negb openpyxl then ret None
  else
    d <- digest_page days source ;;
    closed_rows <- in_db (select source_chats now (fun d => newest_closed (List.filter
       (fun c => from_source source (Some (cls_source c))) (closed_since cutoff_iso days d)))) ;;
    sc <- in_db (scorecard source_chats now cutoff_iso days) ;;
    snaps <- in_db (select source_chats now (snaps_since cutoff_iso days)) ;;
    ret (Some [("Summary"%string, summary_sheet days source d);
               ("Closed Trades"%string, ct_header :: map closed_cells closed_rows);
               ("Scorecard"%string, sc_header :: map score_cells sc);
               ("Equity"%string, eq_header :: map equity_cells snaps)]).

(** *** CSV exports *)

(** The closed positions of a terminal that answers; one that does not is asked
    again, and dropped when it is still silent. *)
Definition export_rows (days : Z) (c : conn F T) : list (shown F) * option F * conn F T :=
  let '(ok, c) := _ensure_mt5 mt5 clock c in
  if ok then
    let '(a, c) := ask mt5 (fun m => dash_account_info _ m) None c in
    match a with
    | Some _ => _closed_positions mt5 iso_ts MAGIC clock days journal c
    | None =>
        let '(again, c) := ask mt5 (fun m => dash_account_info _ m) None c in
        ([], None, match again with Some _ => c | None => _mt5_reset mt5 c end)
    end
  else ([], None, c).

Definition trades_export (days : Z) (source : option string) (c : conn F T) : chars * conn F T :=
  let '(rows, offset, c) := export_rows days c in
  (_write_csv float_repr py_str trades_header
     (map (trade_cells (fun t => _fmt_time iso_ts (Some t) offset)) (of_source source (map sh_row rows))), c).

Definition journal_export (c : conn F T) : chars * conn F T :=
  let '(rows, offset, c) := export_rows 365 c in
  (_write_csv float_repr py_str journal_header
     (map (fun tj => journal_cells (fun t => _fmt_time iso_ts (Some t) offset) (map sh_row rows) tj.1 tj.2) journal), c).

(** ** GET *)

Context (ALLOWED_HOSTS : list string) (DASHBOARD_TOKEN : string).
Context (path_of : string -> string) (query_of : string -> list (string * string)).

Inductive get_view :=
| VSummary (v : summary_view)
| VScorecard (rows : list (score (F := F)))
| VIgnored (p : ignored_page)
| VActioned (rows : list (actioned_row (F := F)))
| VRisk (v : risk_view)
| VCalendar (v : month_view F)
| VPipeline (p : pipeline (F := F))
| VSymbolMap (m : pydict F).

(** [Unanswered] is an exception of the token comparison; an [Err] result is one
    of the page.  Neither writes a response. *)
Inductive get_reply :=
| GetText (status : Z) (text : string)
| GetHealthy
| GetJson (v : get_view)
| GetCsv (name : string) (body : chars)
| GetWorkbook (sheets : list (string * list (list (pyval F))))
| GetIcon (png : bytes)
| GetPage
| Unanswered.

Definition no_openpyxl : string := "openpyxl is not installed on the server; run: python -m pip install openpyxl".

Definition days_in (target : string) : Z := _parse_days (first_query query_of "days" target).
Definition source_in (target : string) : option string := _parse_source (first_query query_of "source" target).
Definition stack_only_in (target : string) : bool :=
  negb (in_words (lower (default "1"%string (first_query query_of "stack_only" target))) ["0"; "false"; ""]%string).

Definition get_route (path target : string) : page get_reply :=
  let days := days_in target in
  let source := source_in target in
  if bool_decide (path = "/api/summary"%string) then v <- summary days source ;; ret (GetJson (VSummary v))
  else if bool_decide (path = "/api/scorecard"%string) then
    v <- in_db (scorecard source_chats now cutoff_iso days) ;; ret (GetJson (VScorecard v))
  else if bool_decide (path = "/api/ignored"%string) then
    v <- in_db (ignored_messages source_chats now cutoff_iso days source 500) ;; ret (GetJson (VIgnored v))
  else if bool_decide (path = "/api/actioned"%string) then
    v <- in_db (actioned_messages source_chats now cutoff_iso py_str days source 500) ;; ret (GetJson (VActioned v))
  else if bool_decide (path = "/api/risk"%string) then v <- risk_panel days source ;; ret (GetJson (VRisk v))
  else if bool_decide (path = "/api/calendar"%string) then
    v <- in_db (calendar_month source_chats now today_date (default ""%string (first_query query_of "month" target))
                  (stack_only_in target) source) ;; ret (GetJson (VCalendar v))
  else if bool_decide (path = "/api/export/trades.csv"%string) then
    v <- in_conn (trades_export days source) ;; ret (GetCsv "trades.csv" v)
  else if bool_decide (path = "/api/export/journal.csv"%string) then
    v <- in_conn journal_export ;; ret (GetCsv "journal.csv" v)
  else if bool_decide (path = "/api/pipeline"%string) then
    v <- in_db (pipeline_status source_chats now py_str age_of DRY_RUN_DEFAULT (_http_probe (F := F) ingress).1 (_http_probe (F := F) bridge).1) ;;
    ret (GetJson (VPipeline v))
  else if bool_decide (path = "/api/symbol-map"%string) then
    v <- in_db (get_symbol_map py_str source_chats now) ;; ret (GetJson (VSymbolMap v))
  else if bool_decide (path = "/api/export/weekly.xlsx"%string) then
    v <- build_weekly_xlsx days source ;;
    ret (match v with Some sheets => GetWorkbook sheets | None => GetText 501 no_openpyxl end)
  else if bool_decide (path = "/assets/favicon.png"%string) then
    ret (match favicon with Some png => GetIcon png | None => GetText 404 "" end)
  else if bool_decide (path = "/"%string) then ret GetPage
  else ret (GetText 404 "").

Definition do_GET (r : request) : page get_reply :=
  if negb (_host_ok ALLOWED_HOSTS r) then ret (GetText 403 "forbidden: bad host")
  else
    let path := path_of (rq_target r) in
    if in_words path ["/health"; "/healthz"]%string then ret GetHealthy
    else match _token_ok DASHBOARD_TOKEN query_of r with
      | None => ret Unanswered
      | Some false => ret (GetText 401 "unauthorized")
      | Some true => get_route path (rq_target r)
      end.

(** ** Reading changes nothing *)

Definition same_books (g g' : gstate) : Prop := same_settings (g_db g) (g_db g').

Lemma same_books_refl : reflexive _ same_books.
Proof using. intros g. apply same_settings_refl. Qed.
Lemma same_books_trans : transitive _ same_books.
Proof using. intros a b c. apply same_settings_trans. Qed.

Lemma in_db_steps {X} (p : prog (sdb F) exn X) : steps_in same_settings p -> steps_in same_books (in_db p).
Proof using. apply steps_in_zoom; done. Qed.
Lemma in_conn_steps {X} (f : conn F T -> X * conn F T) : steps_in same_books (in_conn f).
Proof using. split; [|done]. intros g. apply same_settings_refl. Qed.
Lemma in_conn_r_steps {X} (f : conn F T -> result exn X * conn F T) : steps_in same_books (in_conn_r f).
Proof using. split; [|done]. intros g. apply same_settings_refl. Qed.

Lemma in_db_run {X} (p : prog (sdb F) exn X) fs g :
  run (in_db p) fs g = let '(r, d, fs') := run p fs (g_db g) in (r, put_g_db d g, fs').
Proof using. apply run_zoom; [done|by intros []|done]. Qed.

(** Walk a page whose only database steps are queries. *)
Ltac reads :=
  repeat match goal with
  | |- steps_in _ (bind _ _) => apply steps_in_bind; [|intros ?]
  | |- steps_in _ (in_db _) => apply in_db_steps
  | |- steps_in _ (in_conn _) => apply in_conn_steps
  | |- steps_in _ (in_conn_r _) => apply in_conn_r_steps
  | |- steps_in _ (select _ _ _) => apply squery_steps
  | |- steps_in _ (squery _ _ _) => apply squery_steps
  | |- steps_in _ (read_meta _ _ _) => apply squery_steps
  | |- steps_in _ (ret _) => done
  | |- steps_in _ (Done _) => done
  | |- steps_in _ (raise _) => done
  | |- steps_in _ (Act _ _) => split; [intros ?; apply same_books_refl|intros ?; done]
  | |- context [match ?x with _ => _ end] => destruct x
  end.

Lemma equity_steps days : steps_in same_books (equity_page days).
Proof using. unfold equity_page, _equity_curve. reads. Qed.

Lemma risk_steps days source : steps_in same_books (risk_panel days source).
Proof using. unfold risk_panel. apply steps_in_bind; [apply equity_steps|intros ?]. unfold _compliance. reads. Qed.

Lemma summary_steps days source : steps_in same_books (summary days source).
Proof using.
  unfold summary. reads; apply risk_steps.
Qed.

Lemma digest_steps days source : steps_in same_books (digest_page days source).
Proof using. unfold digest_page, _digest_period. reads. Qed.

Lemma workbook_steps days source : steps_in same_books (build_weekly_xlsx days source).
Proof using.
  unfold build_weekly_xlsx. destruct (negb openpyxl); [done|]. apply steps_in_bind; [apply digest_steps|intros ?].
  unfold scorecard. reads.
Qed.

Lemma calendar_steps month stack_only source :
  steps_in same_settings (calendar_month source_chats now today_date month stack_only source).
Proof using. unfold calendar_month. reads. Qed.

Lemma route_steps path target : steps_in same_books (get_route path target).
Proof using.
  unfold get_route. case_bool_decide; [apply steps_in_bind; [apply summary_steps|done]|].
  do 3 (case_bool_decide; [unfold scorecard, ignored_messages, actioned_messages, _trace_id_channels; reads|]).
  case_bool_decide; [apply steps_in_bind; [apply risk_steps|done]|].
  case_bool_decide; [apply steps_in_bind; [apply in_db_steps, calendar_steps|done]|].
  do 4 (case_bool_decide; [unfold pipeline_status, _hb_age_sec, _meta_get, get_dry_run_meta, get_dry_run, get_symbol_map; reads|]).
  case_bool_decide; [apply steps_in_bind; [apply workbook_steps|done]|]. reads.
Qed.

(** The gates a request for data passes. *)
Definition may_read (r : request) : bool :=
  _host_ok ALLOWED_HOSTS r && match _token_ok DASHBOARD_TOKEN query_of r with Some b => b | None => false end.

Definition serve (g : gstate) (rq : request * list bool) : gstate := run_state (do_GET rq.1) rq.2 g.

(** Carries nothing of the store, the terminal, the journal or the logs. *)
Definition tells_nothing (a : get_reply) : bool :=
  match a with
  | GetText 403 _ | GetText 401 _ | GetHealthy | Unanswered => true
  | _ => false
  end.

(** C21: reading is read-only and gated.  Whatever GET requests arrive, in whatever
    order and whatever fails on the way, the orders, trades, snapshots, signals and
    settings of the store stay as they were; and a request with a foreign host or
    without the token gets an answer that carries no data, touches neither the
    store nor the terminal, and consults nothing. *)
Theorem get_read_only_and_gated (rqs : list (request * list bool)) g :
  same_settings (g_db g) (g_db (fold_left serve rqs g)) /\
  (forall r faults, may_read r = false ->
     exists a, run (do_GET r) faults g = (Ok a, g, faults) /\ tells_nothing a = true).
Proof using.
  split.
  - revert g. induction rqs as [|[r faults] rqs IH]; intros g; [apply same_settings_refl|]. cbn [fold_left].
    eapply same_settings_trans; [|apply IH].
    apply (run_steps_in same_books _ faults g same_books_refl same_books_trans).
    unfold do_GET. cbn [fst]. destruct (negb _); [done|]. destruct (in_words _ _); [done|].
    destruct (_token_ok _ _ r) as [[]|]; [apply route_steps|done..].
  - intros r faults. unfold may_read, do_GET. destruct (_host_ok _ r); [|by eexists]. cbn [negb andb].
    destruct (in_words _ _); [by eexists|]. destruct (_token_ok _ _ r) as [[]|]; [done|by eexists..].
Qed.

End Get.

(** ** The workbook adds up *)

Section Workbook.
Context {T : Type} (mt5 : option (Mt5 Q T)) (source_chats now utc_now : string) (cutoff_iso : Z -> string) (clock : Q).
Open Scope Q_scope.

Definition period_closed (days : Z) (source : option string) (d : sdb Q) : list (closed_row Q) :=
  List.filter (fun c => from_source source (Some (cls_source c))) (closed_since cutoff_iso days d).

Definition source_totals (rows : list (closed_row Q)) : list (string * Q) :=
  fold_left (fun m c => add_source (text_or (Some (cls_source c)) "other") (or_zero (cls_profit c)) m) rows [].

Lemma digest_runs acct days source d : ready d ->
  exists g, run (_digest_period source_chats now cutoff_iso acct days source) [] d = (Ok g, d, []) /\
    (dg_wins g + dg_losses g)%nat = length (period_closed days source d) /\
    dg_net g = f_round 2 (py_sum (map (fun c => or_zero (cls_profit c)) (period_closed days source d))) /\
    dg_by_source g = source_totals (period_closed days source d).
Proof.
  clear mt5 utc_now clock. intros Hr. unfold _digest_period. rewrite run_bind.
  assert (exists n, run (if given source then ret 0%nat else rows <- select source_chats now (fun d => List.filter
    (fun s => since (cutoff_iso days) (sig_ts s)) (s_signals d)) ;; ret (length rows)) [] d = (Ok n, d, [])) as [n ->].
  { destruct (given source); [by eexists|]. rewrite run_bind, select_ready by done. by eexists. }
  repeat (rewrite run_bind, select_ready by done). eexists. split; [done|]. cbn [dg_wins dg_losses dg_net dg_by_source].
  split_and!; try done.
  match goal with |- (length (List.filter ?p ?l) + _)%nat = _ => pose proof (filter_length_le p l) end.
  unfold period_closed. lia.
Qed.

Lemma or_zero_q (x : Q) : or_zero x == x.
Proof.
  unfold or_zero, f_truthy. destruct (f_eqb x f_zero) eqn:E; [|done]. cbn [negb f_eqb ArithQ] in *.
  apply Qeq_bool_iff in E. pose proof f_zero_q. lra.
Qed.

Lemma ltb_false_trans a : forall b c, String.ltb a b = false -> String.ltb b c = false -> String.ltb a c = false.
Proof.
  unfold String.ltb. induction a as [|x a IH]; intros [|y b] [|z c]; cbn [String.compare]; try done.
  unfold Ascii.compare. destruct (N.compare_spec (N_of_ascii x) (N_of_ascii y)), (N.compare_spec (N_of_ascii y) (N_of_ascii z)),
    (N.compare_spec (N_of_ascii x) (N_of_ascii z)); try done; try lia. apply IH.
Qed.

Lemma newest_closed_sorted rows : StronglySorted (fun a b => String.ltb (cls_ts a) (cls_ts b) = false) (newest_closed (F := Q) rows).
Proof.
  apply sort_by_sorted.
  - intros x y z. apply ltb_false_trans.
  - intros x y. destruct (String.ltb (cls_ts y) (cls_ts x)) eqn:E; [|done]. revert E. unfold String.ltb.
    rewrite (String.compare_antisym (cls_ts x)). by destruct (String.compare (cls_ts y) (cls_ts x)).
Qed.

(** One trade moves the sum of the lines by its profit, up to half a cent. *)
Lemma add_source_sum s p m :
  Qabs (q_sum (map snd (add_source s p m)) - (q_sum (map snd m) + p)) <= 1 # 200.
Proof.
  induction m as [|[s' x] m IH]; cbn [add_source].
  - cbn [map snd q_sum fold_right f_round ArithQ f_add]. pose proof (q_round_error (f_zero + p)) as H. pose proof f_zero_q.
    apply Qabs_Qle_condition. apply Qabs_Qle_condition in H. lra.
  - case_bool_decide; cbn [map snd q_sum fold_right f_round ArithQ f_add].
    + pose proof (q_round_error (x + p)) as H0. apply Qabs_Qle_condition. apply Qabs_Qle_condition in H0. lra.
    + apply Qabs_Qle_condition. apply Qabs_Qle_condition in IH. unfold q_sum in *. lra.
Qed.

Lemma source_totals_sum rows :
  Qabs (q_sum (map snd (source_totals rows)) - q_sum (map cls_profit rows)) <= inject_Z (Z.of_nat (length rows)) * (1 # 200).
Proof.
  unfold source_totals.
  assert (forall m, Qabs (q_sum (map snd (fold_left (fun m c => add_source (text_or (Some (cls_source c)) "other")
      (or_zero (cls_profit c)) m) rows m)) - (q_sum (map snd m) + q_sum (map cls_profit rows))) <=
      inject_Z (Z.of_nat (length rows)) * (1 # 200)) as H.
  { induction rows as [|c rows IH]; intros m; cbn [fold_left map length].
    - apply Qabs_Qle_condition. unfold q_sum. cbn [fold_right]. change (inject_Z (Z.of_nat 0)) with 0. lra.
    - specialize (IH (add_source (text_or (Some (cls_source c)) "other") (or_zero (cls_profit c)) m)).
      pose proof (add_source_sum (text_or (Some (cls_source c)) "other") (or_zero (cls_profit c)) m) as H.
      pose proof (or_zero_q (cls_profit c)). apply Qabs_Qle_condition. apply Qabs_Qle_condition in IH, H.
      rewrite Nat2Z.inj_succ, <-Z.add_1_r, inject_Z_plus. change (inject_Z 1) with 1. unfold q_sum in *. cbn [fold_right]. lra. }
  specialize (H []). apply Qabs_Qle_condition. apply Qabs_Qle_condition in H. unfold q_sum in *. simpl in *. lra.
Qed.

(** The value of a line of the Summary sheet. *)
Definition line (name : string) (sheet : list (list (pyval Q))) : option (pyval Q) :=
  match List.find (fun r => match r with PStr n :: _ => bool_decide (n = name) | _ => false end) sheet with
  | Some [_; v] => Some v
  | _ => None
  end.

(** The values of the lines per source. *)
Definition source_lines (d : digest (F := Q)) : list Q := map snd (by_name (dg_by_source d)).

(** The weekly workbook adds up.  From an up-to-date store the Closed Trades
    sheet lists exactly the period's trades of the chosen source, newest first; the
    Summary sheet's net is their summed profit to the cent, its wins and losses
    count them all, and its per-source lines add up to the same sum within half a
    cent per trade (exact arithmetic). *)
Theorem weekly_workbook_adds_up days source c (d : sdb Q) (Hr : ready d) :
  exists g rows score equity,
    run_result (build_weekly_xlsx mt5 source_chats now cutoff_iso clock utc_now true days source) [] (mk_g d c) =
      Ok (Some [("Summary"%string, summary_sheet utc_now days source g); ("Closed Trades"%string, ct_header :: map closed_cells rows);
                ("Scorecard"%string, score); ("Equity"%string, equity)]) /\
    rows ≡ₚ period_closed days source d /\
    StronglySorted (fun a b => String.ltb (cls_ts a) (cls_ts b) = false) rows /\
    (exists net, line "Net P/L (period)" (summary_sheet utc_now days source g) = Some (PFloat net) /\
       net == q_round 2 (q_sum (map cls_profit rows))) /\
    (exists wins losses, line "Trades closed — wins" (summary_sheet utc_now days source g) = Some (int_cell wins) /\
       line "Trades closed — losses" (summary_sheet utc_now days source g) = Some (int_cell losses) /\
       (wins + losses)%nat = length rows) /\
    Qabs (q_sum (source_lines g) - q_sum (map cls_profit rows)) <= inject_Z (Z.of_nat (length rows)) * (1 # 200).
Proof.
  unfold run_result, build_weekly_xlsx, digest_page. cbn [negb]. rewrite !run_bind. cbn [in_conn run ret g_conn put_g_conn].
  destruct (digest_terminal mt5 clock c) as [t c']. cbn [fst snd g_db].
  rewrite in_db_run. cbn [g_db put_g_conn]. destruct (digest_runs t days source d Hr) as (g & -> & Hw & Hn & Hs).
  rewrite run_bind, in_db_run. cbn [put_g_db g_db g_conn]. rewrite select_ready by done.
  rewrite run_bind, in_db_run. cbn [put_g_db g_db g_conn]. unfold scorecard. rewrite run_bind, select_ready, run_bind, select_ready by done.
  cbn [run ret]. rewrite run_bind, in_db_run. cbn [put_g_db g_db g_conn]. rewrite select_ready by done. cbn [run ret fst].
  assert (newest_closed (period_closed days source d) ≡ₚ period_closed days source d) as Hp by apply sort_by_perm.
  eexists g, (newest_closed (period_closed days source d)), _, _. split; [reflexivity|]. split_and!; [done|apply newest_closed_sorted| | |].
  - eexists. split; [reflexivity|]. rewrite Hn. cbn [f_round ArithQ]. apply q_round_eq. rewrite py_sum_q.
    rewrite (q_sum_perm _ _ (Permutation_map cls_profit Hp)). clear. induction (period_closed days source d) as [|x l IH]; [done|].
    pose proof (or_zero_q (cls_profit x)). unfold q_sum in *. simpl. lra.
  - eexists _, _. split_and!; [reflexivity..|]. by rewrite Hp.
  - pose proof (source_totals_sum (period_closed days source d)) as H. rewrite <-Hs in H. unfold source_lines, by_name.
    rewrite (q_sum_perm _ _ (Permutation_map snd (sort_by_perm _ (dg_by_source g)))).
    rewrite (q_sum_perm _ _ (Permutation_map cls_profit Hp)). by rewrite Hp.
Qed.

End Workbook.

(** ** A terminal that is down *)

Module PagesDemo.
(** Counts the attempts; never answers. *)
Definition dead : Mt5 Q nat :=
  mk_mt5 nat (fun n => (false, S n)) (fun n => n) (fun n => (None, n)) (fun n => ([], n)) (fun _ n => ([], n)) (fun _ n => (None, n)).
Definition start : conn Q nat := mk_conn false 0%Q None 0%nat [].
Definition visits : list (page_call) := [CallLive 100%Q; CallBalance 105%Q; CallClosed 109%Q 7 []; CallLive 111%Q].
Definition after : conn Q nat :=
  fold_left (call (Some dead) (fun _ => None) 20240101 (fun _ => ""%string) 0) visits start.
End PagesDemo.

Lemma reconnect_backoff_witness :
  cn_attempts PagesDemo.after = [111%Q; 100%Q] /\ spaced (cn_attempts PagesDemo.after) /\
  _ensure_mt5 (Some PagesDemo.dead) 112%Q PagesDemo.after = (false, PagesDemo.after).
Proof.
  destruct (reconnect_backoff (Some PagesDemo.dead) (fun _ => None) 20240101 (fun _ => ""%string) 0 PagesDemo.visits
              PagesDemo.start eq_refl) as [H1 H2].
  split_and!; [reflexivity|exact H1|]. apply H2; [reflexivity|vm_compute; reflexivity].
Defined.

Lemma weekly_workbook_adds_up_witness :
  exists g rows, rows ≡ₚ period_closed ReportDemo.cutoff 7 None ReportDemo.db /\ rows <> [] /\
    (exists net, line "Net P/L (period)" (summary_sheet "now" 7 None g) = Some (PFloat net) /\
       (net == q_round 2 (q_sum (map cls_profit rows)))%Q).
Proof.
  destruct (weekly_workbook_adds_up (Some PagesDemo.dead) "" "now" "now" ReportDemo.cutoff 100%Q 7 None PagesDemo.start
              ReportDemo.db ReportDemo.report_db_ready) as (g & rows & _ & _ & _ & Hp & _ & Hn & _).
  exists g, rows. split_and!; [exact Hp| |exact Hn]. intros ->. apply Permutation_nil in Hp. discriminate Hp.
Defined.
