(* ===== verification/BtReport.v ===== *)
(** * BtReport: files in and out of the backtest harness

    apps/backtester/backtest_ml.py: the CSV loaders, the JSON summary and the
    command line; apps/backtester/report_export.py: the HTML report and the trades
    CSV.  Python's csv reader is modelled character by character, with the quoting
    of the default dialect (fields below its size limit).

    Arguments: [fromisoformat] (a local time in microseconds and its offset, when it
    has one), the ISO text of a time, the fixed-point formats and the files. *)

From Stdlib Require Import ZArith QArith Ascii Sorting.Sorted SpecFloat.
From S2P Require Import Prelude Text PyFloat PyVal Features Predictor Backtest Prog Db EaShim Dashboard DashTrades.
Open Scope Z_scope.

Definition dq : string := String (ascii_of_nat 34) "".
Definition nl : string := String (ascii_of_nat 10) "".

(** ** HTML *)

(** [html.escape]. *)
Definition escape_char (c : ascii) : string :=
  if bool_decide (c = "&"%char) then "&amp;"
  else if bool_decide (c = "<"%char) then "&lt;"
  else if bool_decide (c = ">"%char) then "&gt;"
  else if bool_decide (c = ascii_of_nat 34) then "&quot;"
  else if bool_decide (c = "'"%char) then "&#x27;"
  else String c "".

Definition html_escape (s : string) : string := String.concat "" (map escape_char (chars_of s)).

Definition _STYLE : string :=
  join nl [
    "";
    ":root {";
    "  --color-background: #020c1b; --color-surface: #061526; --color-surface-2: #0b2040;";
    "  --color-border: #123060; --color-primary: #00c2e0; --color-profit: #05e8a4;";
    "  --color-profit-dim: rgb(5 232 164 / 0.14); --color-loss: #ff3d5f;";
    "  --color-loss-dim: rgb(255 61 95 / 0.14); --color-text: #cde4ff; --color-text-muted: #4e7aab;";
    "}";
    "* { box-sizing: border-box; }";
    "body { margin: 0; font-family: system-ui, " +:+ dq +:+ "Segoe UI" +:+ dq +:+ ", Roboto, sans-serif;";
    "  background: var(--color-background); color: var(--color-text); }";
    "header { padding: 1rem 1.5rem; background: var(--color-surface); border-bottom: 1px solid var(--color-border); }";
    "header h1 { margin: 0; font-size: 1.1rem; }";
    "header .meta { color: var(--color-text-muted); font-size: 0.8rem; margin-top: 0.25rem; }";
    "main { padding: 1.5rem; max-width: 1000px; margin: 0 auto; }";
    ".grid { display: grid; grid-template-columns: 1fr 1fr; gap: 1rem; }";
    ".card { background: var(--color-surface); border: 1px solid var(--color-border);";
    "  border-radius: 0.625rem; padding: 1rem 1.25rem; margin-bottom: 1rem; }";
    ".card h2 { margin: 0 0 0.75rem; font-size: 0.75rem; text-transform: uppercase;";
    "  letter-spacing: 0.08em; color: var(--color-text-muted); }";
    "table { width: 100%; border-collapse: collapse; font-size: 0.85rem; }";
    "th, td { text-align: left; padding: 0.35rem 0.5rem; border-bottom: 1px solid var(--color-border); }";
    "th { color: var(--color-text-muted); font-weight: 500; text-transform: uppercase; font-size: 0.68rem; }";
    ".number { font-variant-numeric: tabular-nums; }";
    ".pos { color: var(--color-profit); } .neg { color: var(--color-loss); }";
    ".uplift { font-size: 1.75rem; font-weight: 700; }";
    ""]%string.

Section Report.
Context {F : Type} {A : Arith F}.
Context (fmt_fixed : nat -> F -> string) (iso : Z -> string).
Open Scope pyf_scope.

Definition _fmt_pct (value : option F) : string :=
  match value with None => "—" | Some v => (fmt_fixed 2 (v * f_int 100)%pyf +:+ "%") end%string.

Definition _pnl_class (value : option F) : string :=
  match value with None => "" | Some v => if (f_zero <=? v)%pyf then "pos" else "neg" end%string.

Definition stats_row (r : string * string * string) : string :=
  let '(label, value, css_class) := r in
  ("<tr><td>" +:+ html_escape label +:+ "</td><td class=" +:+ dq +:+ "number " +:+ css_class +:+ dq +:+ ">" +:+
   html_escape value +:+ "</td></tr>")%string.

Definition _stats_table (stats : branch_stats F) : string :=
  let rows :=
    [("Signals seen", pretty (st_signals_seen stats), ""); ("Trades opened", pretty (trades_opened stats), "");
     ("Trades closed", pretty (trades_closed stats), ""); ("Trades still open", pretty (trades_still_open stats), "");
     ("Skipped (pyramid)", pretty (trades_skipped_pyramid stats), "");
     ("Skipped (filter)", pretty (trades_skipped_by_filter stats), "");
     ("Win rate", _fmt_pct (win_rate stats), "");
     ("Cumulative PnL", _fmt_pct (Some (cumulative_pnl_pct stats)), _pnl_class (Some (cumulative_pnl_pct stats)));
     ("Max drawdown", _fmt_pct (Some (max_drawdown_pct stats)), "")]%string in
  ("<table><tbody>" +:+ join "" (map stats_row rows) +:+ "</tbody></table>")%string.

(** What a failed export raises: [pnl_pct]'s exception, or the format of a missing
    entry price. *)
Inductive export_error := PnlError (e : backtest_error) | FormatNone.

Definition pnl_of (t : Trade F) : result export_error (option F) :=
  match pnl_pct t with Ok p => Ok p | Err e => Err (PnlError e) end.

Definition entry_of (t : Trade F) : result export_error F := or_raise (entry_price t) FormatNone.

Definition trade_row (branch : string) (t : Trade F) : result export_error string :=
  let! pnl := pnl_of t in
  let exit_time := match exit_time t with Some x => html_escape (iso x) | None => "&mdash; (open)"%string end in
  let exit_price := match exit_price t with Some x => fmt_fixed 5 x | None => "&mdash;"%string end in
  let! entry := entry_of t in
  Ok ("<tr><td>" +:+ html_escape branch +:+ "</td><td>" +:+ html_escape (t_direction t) +:+ "</td><td>" +:+
      html_escape (iso (entry_time t)) +:+ "</td><td class=" +:+ dq +:+ "number" +:+ dq +:+ ">" +:+ fmt_fixed 5 entry +:+
      "</td><td>" +:+ exit_time +:+ "</td><td class=" +:+ dq +:+ "number" +:+ dq +:+ ">" +:+ exit_price +:+
      "</td><td class=" +:+ dq +:+ "number " +:+ _pnl_class pnl +:+ dq +:+ ">" +:+ _fmt_pct pnl +:+ "</td></tr>")%string.

Definition _trades_table (trades : list (Trade F)) (branch : string) : result export_error string :=
  let! rows := collect (trade_row branch) trades in Ok (join "" rows).

Definition document (report : ComparisonReport F) (trades_rows : string) : string :=
  join nl [
    "<!doctype html>";
    "<html><head><meta charset=" +:+ dq +:+ "utf-8" +:+ dq +:+ ">";
    "<title>ExecRelay ML Backtest Report</title>";
    "<style>" +:+ _STYLE +:+ "</style>";
    "</head><body>";
    "<header>";
    "  <h1>ML filter backtest &mdash; filtered vs. unfiltered</h1>";
    "  <div class=" +:+ dq +:+ "meta" +:+ dq +:+ ">";
    "    threshold=" +:+ fmt_fixed 2 (r_threshold report) +:+ " &middot;";
    "    candidate signals=" +:+ pretty (total_candidate_signals report) +:+ " &middot;";
    "    scored=" +:+ pretty (scored_signals report) +:+ " &middot;";
    "    skipped (missing candle)=" +:+ pretty (skipped_missing_candle report) +:+ " &middot;";
    "    skipped (incomplete features)=" +:+ pretty (skipped_incomplete_features report);
    "  </div>";
    "</header>";
    "<main>";
    "  <div class=" +:+ dq +:+ "card" +:+ dq +:+ ">";
    "    <h2>Uplift</h2>";
    "    <div class=" +:+ dq +:+ "uplift " +:+ _pnl_class (Some (uplift_pct report)) +:+ " number" +:+ dq +:+ ">" +:+ _fmt_pct (Some (uplift_pct report)) +:+ "</div>";
    "    <div class=" +:+ dq +:+ "meta" +:+ dq +:+ ">filtered cumulative PnL minus unfiltered cumulative PnL</div>";
    "  </div>";
    "  <div class=" +:+ dq +:+ "grid" +:+ dq +:+ ">";
    "    <div class=" +:+ dq +:+ "card" +:+ dq +:+ "><h2>Unfiltered (every signal)</h2>" +:+ _stats_table (r_unfiltered report) +:+ "</div>";
    "    <div class=" +:+ dq +:+ "card" +:+ dq +:+ "><h2>Filtered (XGBoost gated)</h2>" +:+ _stats_table (r_filtered report) +:+ "</div>";
    "  </div>";
    "  <div class=" +:+ dq +:+ "card" +:+ dq +:+ ">";
    "    <h2>Trades</h2>";
    "    <table>";
    "      <thead><tr><th>Branch</th><th>Dir</th><th>Entry time</th><th>Entry</th>";
    "        <th>Exit time</th><th>Exit</th><th>PnL</th></tr></thead>";
    "      <tbody>" +:+ trades_rows +:+ "</tbody>";
    "    </table>";
    "  </div>";
    "</main>";
    "</body></html>";
    ""]%string.

Definition render_html_report (report : ComparisonReport F) : result export_error string :=
  let! u := _trades_table (unfiltered_trades report) "unfiltered" in
  let! f := _trades_table (filtered_trades report) "filtered" in
  Ok (document report (u +:+ f)%string).

(** ** Trades CSV *)

Definition csv_header : list string :=
  ["branch"; "direction"; "entry_time"; "entry_price"; "exit_time"; "exit_price"; "pnl_pct"]%string.

Definition csv_row (branch : string) (t : Trade F) : result export_error (list string) :=
  let! entry := entry_of t in
  let! pnl := pnl_of t in
  Ok [branch; t_direction t; iso (entry_time t); fmt_fixed 6 entry;
      match exit_time t with Some x => iso x | None => "" end;
      match exit_price t with Some x => fmt_fixed 6 x | None => "" end;
      match pnl with Some x => fmt_fixed 6 x | None => "" end]%string.

(** The file as far as it was written, and the exception that stopped it. *)
Fixpoint write_rows (rows : list (string * Trade F)) : chars * option export_error :=
  match rows with
  | [] => ([], None)
  | (branch, t) :: rest =>
      match csv_row branch t with
      | Err e => ([], Some e)
      | Ok row => let '(text, e) := write_rows rest in (writerow (map chars_of row) ++ text, e)
      end
  end.

Definition report_rows (report : ComparisonReport F) : list (string * Trade F) :=
  map (pair "unfiltered"%string) (unfiltered_trades report) ++ map (pair "filtered"%string) (filtered_trades report).

Definition write_trades_csv (report : ComparisonReport F) : chars * option export_error :=
  let '(text, e) := write_rows (report_rows report) in (writerow (map chars_of csv_header) ++ text, e).

End Report.

(** ** Reading CSV *)

Inductive csv_mode := StartRecord | StartField | InField | InQuotedField | QuoteInQuoted.

Definition end_of_line (c : ascii) : bool := bool_decide (c = cr) || bool_decide (c = lf).

(** [csv.reader] over a file opened with [newline=""]: a quote opens a quoted field
    only at its start, a doubled quote inside stands for one, text after a closing
    quote is appended, an unterminated quote ends with the file. *)
Fixpoint csv_reader (m : csv_mode) (cur : chars) (row : list chars) (l : chars) : list (list chars) :=
  match l with
  | [] => match m with StartRecord => [] | _ => [row ++ [cur]] end
  | c :: l' =>
      if (match m with InQuotedField => true | _ => false end) then
        if bool_decide (c = dquote) then csv_reader QuoteInQuoted cur row l' else csv_reader InQuotedField (cur ++ [c]) row l'
      else if end_of_line c then
        (match m with StartRecord => [] | _ => row ++ [cur] end) ::
        match l' with
        | x :: l'' => if bool_decide (c = cr) && bool_decide (x = lf) then csv_reader StartRecord [] [] l''
                      else csv_reader StartRecord [] [] l'
        | [] => csv_reader StartRecord [] [] l'
        end
      else if bool_decide (c = ","%char) then csv_reader StartField [] (row ++ [cur]) l'
      else if bool_decide (c = dquote) then
        match m with
        | StartRecord | StartField => csv_reader InQuotedField [] row l'
        | QuoteInQuoted => csv_reader InQuotedField (cur ++ [dquote]) row l'
        | _ => csv_reader InField (cur ++ [c]) row l'
        end
      else csv_reader InField (cur ++ [c]) row l'
  end.

Definition read_rows (text : chars) : list (list chars) := csv_reader StartRecord [] [] text.

(** [csv.DictReader]: field names from the first row, blank rows skipped. *)
Definition dict_rows (text : chars) : list chars * list (list chars) :=
  match read_rows text with
  | [] => ([], [])
  | h :: rows => (h, List.filter (fun r => match r with [] => false | _ => true end) rows)
  end.

(** The position of the last field with a name. *)
Fixpoint field_index (name : chars) (h : list chars) : option nat :=
  match h with
  | [] => None
  | x :: h' => match field_index name h' with
               | Some i => Some (S i)
               | None => if bool_decide (x = name) then Some 0%nat else None
               end
  end.

(** [row[name]]: [None] when there is no such column, [Some None] when the row is
    too short. *)
Definition cell (h row : list chars) (name : string) : option (option string) :=
  i ← field_index (chars_of name) h; Some (string_of_chars <$> row !! i).

Inductive load_error := KeyError | AttributeError | TypeError | ValueError.

Definition text_cell (h row : list chars) (name : string) (missing : load_error) : result load_error string :=
  match cell h row name with
  | None => Err KeyError
  | Some None => Err missing
  | Some (Some t) => Ok t
  end.

Section Load.
Context {F : Type} {A : Arith F}.
Context (fromisoformat : string -> option (Z * option Z)).

Definition _parse_ts (raw : string) : result load_error Z :=
  match fromisoformat (strip raw) with
  | None => Err ValueError
  | Some (local, None) => Ok local
  | Some (local, Some offset) => Ok (local - offset)
  end.

Definition float_cell (h row : list chars) (name : string) : result load_error F :=
  let! t := text_cell h row name TypeError in or_raise (parse_float t) ValueError.

(** [float(row.get("volume", 0.0) or 0.0)]. *)
Definition volume_cell (h row : list chars) : result load_error F :=
  match cell h row "volume" with
  | Some (Some t) => if bool_decide (t = ""%string) then Ok f_zero else or_raise (parse_float t) ValueError
  | _ => Ok f_zero
  end.

Definition candle_of (h row : list chars) : result load_error (Candle F) :=
  let! t := text_cell h row "timestamp" AttributeError in
  let! ts := _parse_ts t in
  let! o := float_cell h row "open" in
  let! hi := float_cell h row "high" in
  let! lo := float_cell h row "low" in
  let! c := float_cell h row "close" in
  let! v := volume_cell h row in
  Ok (mk_candle ts o hi lo c v).

Definition load_candles (text : chars) : result load_error (list (Candle F)) :=
  let '(h, rows) := dict_rows text in
  let! candles := collect (candle_of h) rows in
  Ok (sort_by (fun a b => timestamp a <? timestamp b) candles).

Definition signal_of (h row : list chars) : result load_error RawSignal :=
  let! action := text_cell h row "action" AttributeError in
  let! direction := or_raise (action_direction action) ValueError in
  let! t := text_cell h row "timestamp" AttributeError in
  let! ts := _parse_ts t in
  Ok (mk_raw_signal ts direction).

Definition load_signals (text : chars) : result load_error (list RawSignal) :=
  let '(h, rows) := dict_rows text in
  let! signals := collect (signal_of h) rows in
  Ok (sort_by (fun a b => s_timestamp a <? s_timestamp b) signals).

End Load.

(** ** The command line *)

Section Main.
Context {F : Type} {A : Arith F} {R : ArithSqrt F}.
Context (fmt_fixed : nat -> F -> string) (iso : Z -> string) (fromisoformat : string -> option (Z * option Z)).
(** [json.dumps(..., indent=2)], the model loader, the files and the two model
    directories. *)
Context (json_text : pyval F -> chars) (load_model : string -> string -> F -> option (XGBPredictor F)).
Context (files : string -> option chars) (HERE_model DEV_model : string).

Record arguments := mk_args {
  a_candles : string; a_signals : string; a_model_path : option string; a_feature_order_path : option string;
  a_threshold : F; a_output : option string; a_html : option string; a_trades_csv : option string }.

Definition exists_file (p : string) : bool := match files p with Some _ => true | None => false end.

Definition _default_model_dir : option string :=
  List.find (fun c => exists_file (c +:+ "/xgb_production.json")%string) [HERE_model; DEV_model].

(** A given, non-empty path. *)
Definition path_given (o : option string) : option string :=
  match o with Some s => if bool_decide (s = ""%string) then None else Some s | None => None end.

Definition model_files (a : arguments) : option (string * string) :=
  match path_given (a_model_path a), path_given (a_feature_order_path a) with
  | Some m, Some f => Some (m, f)
  | m, f =>
      dir ← _default_model_dir;
      Some (default (dir +:+ "/xgb_production.json")%string m, default (dir +:+ "/feature_order.txt")%string f)
  end.

Definition stats_dict (s : branch_stats F) : pyval F :=
  PDict [("signals_seen", PInt (Z.of_nat (st_signals_seen s))); ("trades_opened", PInt (Z.of_nat (trades_opened s)));
         ("trades_closed", PInt (Z.of_nat (trades_closed s))); ("trades_still_open", PInt (Z.of_nat (trades_still_open s)));
         ("trades_skipped_pyramid", PInt (Z.of_nat (trades_skipped_pyramid s)));
         ("trades_skipped_by_filter", PInt (Z.of_nat (trades_skipped_by_filter s)));
         ("win_rate", match win_rate s with Some x => PFloat x | None => PNone end);
         ("cumulative_pnl_pct", PFloat (cumulative_pnl_pct s)); ("max_drawdown_pct", PFloat (max_drawdown_pct s))]%string.

Definition to_dict (r : ComparisonReport F) : pyval F :=
  PDict [("threshold", PFloat (r_threshold r)); ("total_candidate_signals", PInt (Z.of_nat (total_candidate_signals r)));
         ("scored_signals", PInt (Z.of_nat (scored_signals r))); ("skipped_missing_candle", PInt (Z.of_nat (skipped_missing_candle r)));
         ("skipped_incomplete_features", PInt (Z.of_nat (skipped_incomplete_features r)));
         ("unfiltered", stats_dict (r_unfiltered r)); ("filtered", stats_dict (r_filtered r)); ("uplift_pct", PFloat (uplift_pct r))]%string.

Inductive main_error :=
| NoModelDir | ModelError | NoFile | LoadError (e : load_error) | CompareError (e : backtest_error) | ExportError (e : export_error).

(** Where the summary goes. *)
Inductive target := Stdout | File (path : string).

Definition write := (target * chars)%type.

(** Everything up to the report; nothing is written before it is there. *)
Definition compare_files (a : arguments) : result main_error (ComparisonReport F) :=
  let! paths := or_raise (model_files a) NoModelDir in
  let! p := or_raise (load_model paths.1 paths.2 (a_threshold a)) ModelError in
  let! ct := or_raise (files (a_candles a)) NoFile in
  let! candles := match load_candles fromisoformat ct with Ok c => Ok c | Err e => Err (LoadError e) end in
  let! st := or_raise (files (a_signals a)) NoFile in
  let! signals := match load_signals fromisoformat st with Ok s => Ok s | Err e => Err (LoadError e) end in
  match run_comparison candles signals p with Ok r => Ok r | Err e => Err (CompareError e) end.

Definition summary_write (a : arguments) (r : ComparisonReport F) : write :=
  (match path_given (a_output a) with Some p => File p | None => Stdout end, json_text (to_dict r) ++ [lf]).

(** The optional exports, in order, up to the one that raises. *)
Definition export_html (a : arguments) (r : ComparisonReport F) : list write * option export_error :=
  match path_given (a_html a) with
  | None => ([], None)
  | Some p => match render_html_report fmt_fixed iso r with
              | Ok doc => ([(File p, chars_of doc)], None)
              | Err e => ([], Some e)
              end
  end.

Definition export_csv (a : arguments) (r : ComparisonReport F) : list write * option export_error :=
  match path_given (a_trades_csv a) with
  | None => ([], None)
  | Some p => let '(text, e) := write_trades_csv fmt_fixed iso r in ([(File p, text)], e)
  end.

Definition main (a : arguments) : list write * result main_error (ComparisonReport F) :=
  match compare_files a with
  | Err e => ([], Err e)
  | Ok r =>
      let w := [summary_write a r] in
      match export_html a r with
      | (w1, Some e) => (w ++ w1, Err (ExportError e))
      | (w1, None) =>
          let '(w2, e) := export_csv a r in
          (w ++ w1 ++ w2, match e with Some e => Err (ExportError e) | None => Ok r end)
      end
  end.

End Main.

(** ** What a reader gets back *)

Lemma quoted_field l : forall cur row rest,
  csv_reader InQuotedField cur row (doubled l ++ dquote :: rest) = csv_reader QuoteInQuoted (cur ++ l) row rest.
Proof.
  induction l as [|c l IH]; intros cur row rest; [by rewrite app_nil_r|]. cbn [doubled]. case_bool_decide as E; [subst c|].
  - change (csv_reader InQuotedField (cur ++ [dquote]) row (doubled l ++ dquote :: rest) = csv_reader QuoteInQuoted (cur ++ dquote :: l) row rest).
    by rewrite IH, <-app_assoc.
  - cbn [app csv_reader]. rewrite bool_decide_false by done. by rewrite IH, <-app_assoc.
Qed.

Lemma plain_char c : special c = false -> end_of_line c = false /\ c <> ","%char /\ c <> dquote.
Proof.
  unfold special, end_of_line. cbn [existsb]. intros H. bool_hyps. rewrite !bool_decide_eq_false in *.
  rewrite !bool_decide_false by congruence. split_and!; [done|congruence..].
Qed.

Lemma plain_field l : forall cur row rest, existsb special l = false ->
  csv_reader InField cur row (l ++ rest) = csv_reader InField (cur ++ l) row rest.
Proof.
  induction l as [|c l IH]; intros cur row rest H; [by rewrite app_nil_r|]. cbn [existsb] in H. apply orb_false_iff in H as [H1 H2].
  destruct (plain_char c H1) as (E1 & E2 & E3). cbn [app csv_reader]. rewrite E1, !bool_decide_false by done.
  rewrite IH by done. by rewrite <-app_assoc.
Qed.

(** After a field the reader holds it, outside quotes; it may still be at the
    start when the field is empty. *)
Lemma field_read m f row rest : m = StartRecord \/ m = StartField -> exists m', m' <> InQuotedField /\ (f <> [] -> m' <> StartRecord) /\
  (m = StartField -> m' <> StartRecord) /\ csv_reader m [] row (csv_field f ++ rest) = csv_reader m' f row rest.
Proof.
  intros Hm. unfold csv_field. destruct (existsb special f) eqn:E.
  - exists QuoteInQuoted. split_and!; try done. cbn [app].
    assert (csv_reader m [] row (dquote :: (doubled f ++ [dquote]) ++ rest) = csv_reader InQuotedField [] row ((doubled f ++ [dquote]) ++ rest)) as ->
      by (by destruct Hm as [-> | ->]).
    rewrite <-app_assoc. apply (quoted_field f []).
  - destruct f as [|c f]; [exists m; by destruct Hm as [-> | ->]|]. cbn [existsb] in E. apply orb_false_iff in E as [H1 H2].
    destruct (plain_char c H1) as (E1 & E2 & E3). exists InField. split_and!; try done. cbn [app csv_reader].
    rewrite E1, !bool_decide_false by done. destruct Hm as [-> | ->]; by apply (plain_field f [c]).
Qed.

Lemma comma_read m f row rest : m <> InQuotedField ->
  csv_reader m f row (","%char :: rest) = csv_reader StartField [] (row ++ [f]) rest.
Proof. by destruct m. Qed.

Lemma end_read m f row rest : m <> InQuotedField -> m <> StartRecord ->
  csv_reader m f row (cr :: lf :: rest) = (row ++ [f]) :: csv_reader StartRecord [] [] rest.
Proof. by destruct m. Qed.

Lemma row_read fs : forall row rest, fs <> [] ->
  csv_reader StartField [] row (join_comma (map csv_field fs) ++ cr :: lf :: rest) = (row ++ fs) :: csv_reader StartRecord [] [] rest.
Proof.
  induction fs as [|f fs IH]; intros row rest; [done|]. intros _. destruct fs as [|g fs].
  - cbn [map join_comma]. destruct (field_read StartField f row (cr :: lf :: rest)) as (m & Hm & _ & H & ->); [by right|]. by apply end_read; auto.
  - change (join_comma (map csv_field (f :: g :: fs))) with (csv_field f ++ ","%char :: join_comma (map csv_field (g :: fs))).
    rewrite <-app_assoc. cbn [app].
    destruct (field_read StartField f row (","%char :: join_comma (map csv_field (g :: fs)) ++ cr :: lf :: rest)) as (m & Hm & _ & _ & ->); [by right|].
    rewrite comma_read, IH by done. by rewrite <-app_assoc.
Qed.

(** A row written by [csv.writer] reads back whole, whatever its fields hold. *)
Lemma writerow_read fs rest : fs <> [] ->
  csv_reader StartRecord [] [] (writerow fs ++ rest) = fs :: csv_reader StartRecord [] [] rest.
Proof.
  intros H. unfold writerow. rewrite <-app_assoc. cbn [app]. destruct fs as [|f fs]; [done|].
  destruct fs as [|g fs].
  - destruct f as [|c f]; [done|]. cbn [map join_comma].
    destruct (field_read StartRecord (c :: f) [] (cr :: lf :: rest)) as (m & Hm & H2 & _ & ->); [by left|]. by apply end_read; auto.
  - assert (match f :: g :: fs with [[]] => [dquote; dquote] | _ => join_comma (map csv_field (f :: g :: fs)) end =
      csv_field f ++ ","%char :: join_comma (map csv_field (g :: fs))) as -> by (by destruct f).
    rewrite <-app_assoc. cbn [app].
    destruct (field_read StartRecord f [] (","%char :: join_comma (map csv_field (g :: fs)) ++ cr :: lf :: rest)) as (m & Hm & _ & _ & ->); [by left|].
    rewrite comma_read, row_read by done. done.
Qed.

Lemma rows_read rows : Forall (fun r => r <> []) rows -> read_rows (concat (map writerow rows)) = rows.
Proof.
  unfold read_rows. induction 1 as [|r rows Hr _ IH]; [done|]. cbn [map concat]. by rewrite writerow_read, IH.
Qed.

Section Facts.
Context {F : Type} {A : Arith F} {R : ArithSqrt F}.
Context (fmt_fixed : nat -> F -> string) (iso : Z -> string) (fromisoformat : string -> option (Z * option Z)).

Lemma collect_Ok {X Y E} (f : X -> result E Y) xs ys : collect f xs = Ok ys <-> Forall2 (fun x y => f x = Ok y) xs ys.
Proof.
  split.
  - revert ys. induction xs as [|x xs IH]; intros ys; cbn [collect]; [intros [= <-]; constructor|].
    intros (y & Hy & (ys' & Hys & [= <-])%rbind_Ok)%rbind_Ok. constructor; auto.
  - induction 1 as [|x y xs ys Hy _ IH]; [done|]. cbn [collect]. by rewrite Hy, IH.
Qed.

Lemma collect_total {X Y E} (f : X -> result E Y) xs :
  (exists ys, collect f xs = Ok ys) <-> Forall (fun x => exists y, f x = Ok y) xs.
Proof.
  split.
  - intros [ys H]. apply collect_Ok in H. induction H; constructor; eauto.
  - induction 1 as [|x xs [y Hy] _ [ys IH]]; [by exists []|]. exists (y :: ys). cbn [collect]. by rewrite Hy, IH.
Qed.

(** *** Trades CSV *)

Lemma write_rows_ok rows text : write_rows fmt_fixed iso rows = (text, None) ->
  exists out, collect (fun bt => csv_row fmt_fixed iso bt.1 bt.2) rows = Ok out /\ text = concat (map writerow (map (map chars_of) out)).
Proof.
  revert text. induction rows as [|[b t] rows IH]; intros text; cbn [write_rows collect]; [intros [= <-]; by exists []|].
  cbn [fst snd]. destruct (csv_row fmt_fixed iso b t) as [row|]; [|done]. destruct (write_rows fmt_fixed iso rows) as [text' e].
  intros [= <- ->]. destruct (IH _ eq_refl) as (out & -> & ->). by exists (row :: out).
Qed.

Lemma csv_row_width b t row : csv_row fmt_fixed iso b t = Ok row -> length row = 7%nat.
Proof. unfold csv_row. by intros (? & _ & (? & _ & [= <-])%rbind_Ok)%rbind_Ok. Qed.

(** The trades CSV reads back.  A completed export, read with Python's own CSV
    reader, gives the header and one seven-field record per trade of either branch,
    unfiltered first, whatever text the fields hold. *)
Theorem trades_csv_loads (report : ComparisonReport F) text
  (H : write_trades_csv fmt_fixed iso report = (text, None)) :
  exists out, collect (fun bt => csv_row fmt_fixed iso bt.1 bt.2) (report_rows report) = Ok out /\
    read_rows text = map chars_of csv_header :: map (map chars_of) out /\
    length out = (length (unfiltered_trades report) + length (filtered_trades report))%nat /\
    Forall (fun row => length row = 7%nat) out.
Proof.
  unfold write_trades_csv in H. destruct (write_rows fmt_fixed iso (report_rows report)) as [body e] eqn:E. injection H as <- ->.
  apply write_rows_ok in E as (out & Eo & ->). exists out. split; [done|].
  pose proof (proj1 (collect_Ok _ _ _) Eo) as Ho.
  assert (Forall (fun row => length row = 7%nat) out) as Hw.
  { clear Eo. induction Ho as [|bt row rows out Hrow _ IH]; constructor; [by eapply csv_row_width|done]. }
  split_and!; [|rewrite <-(Forall2_length Ho); unfold report_rows; by rewrite length_app, !length_map|done].
  change (read_rows (concat (map writerow (map chars_of csv_header :: map (map chars_of) out))) = map chars_of csv_header :: map (map chars_of) out).
  apply rows_read. constructor; [done|]. apply list.Forall_forall. intros r (row & -> & Hr)%list_elem_of_fmap.
  pose proof (proj1 (list.Forall_forall _ _) Hw row Hr). by destruct row.
Qed.

(** *** Which reports can be exported *)

Lemma branch_pnls (st : BranchState F) s : _branch_stats st = Ok s -> Forall (fun t => exists p, pnl_pct t = Ok p) (trades st).
Proof.
  unfold _branch_stats. intros (pnls & H & _)%rbind_Ok. apply list.Forall_forall. intros t Ht.
  destruct (is_open t) eqn:E.
  - unfold is_open in E. unfold pnl_pct. destruct (exit_price t); [done|by exists None].
  - assert (Forall (fun t => exists p, pnl_pct t = Ok p) (List.filter (fun t => negb (is_open t)) (trades st))) as HF
      by (apply collect_total; by exists pnls).
    apply (proj1 (list.Forall_forall _ _) HF). apply list_elem_of_In, filter_In. split; [by apply list_elem_of_In|by rewrite E].
Qed.

Lemma report_pnls candles signals (p : XGBPredictor F) rep : run_comparison candles signals p = Ok rep ->
  Forall (fun t => exists p, pnl_pct t = Ok p) (unfiltered_trades rep) /\ Forall (fun t => exists p, pnl_pct t = Ok p) (filtered_trades rep).
Proof.
  unfold run_comparison. intros (fb & _ & (r & _ & (us & H1 & (fs & H2 & [= <-])%rbind_Ok)%rbind_Ok)%rbind_Ok)%rbind_Ok.
  split; by eapply branch_pnls.
Qed.

Definition priced (t : Trade F) : bool := match entry_price t with Some _ => true | None => false end.

Lemma trade_row_total b (t : Trade F) : (exists p, pnl_pct t = Ok p) -> (exists row, trade_row fmt_fixed iso b t = Ok row) <-> priced t = true.
Proof.
  intros [p E]. unfold trade_row, pnl_of, entry_of, priced. rewrite E. cbn. destruct (entry_price t); cbn; split; try done; [by eexists|by intros [? ?]].
Qed.

Lemma csv_row_total b (t : Trade F) : (exists p, pnl_pct t = Ok p) -> (exists row, csv_row fmt_fixed iso b t = Ok row) <-> priced t = true.
Proof.
  intros [p E]. unfold csv_row, pnl_of, entry_of, priced. rewrite E. cbn. destruct (entry_price t); cbn; split; try done; [by eexists|by intros [? ?]].
Qed.

Lemma table_total b ts : Forall (fun t : Trade F => exists p, pnl_pct t = Ok p) ts ->
  (exists s, _trades_table fmt_fixed iso ts b = Ok s) <-> forallb priced ts = true.
Proof.
  intros H. unfold _trades_table. split.
  - intros [s (rows & Hr & _)%rbind_Ok]. assert (exists rows, collect (trade_row fmt_fixed iso b) ts = Ok rows) as K by eauto.
    apply collect_total in K. apply forallb_forall. intros t Ht%list_elem_of_In.
    apply (trade_row_total b); [exact (proj1 (list.Forall_forall _ _) H t Ht)|exact (proj1 (list.Forall_forall _ _) K t Ht)].
  - intros Hp. rewrite forallb_forall in Hp. destruct (proj2 (collect_total (trade_row fmt_fixed iso b) ts)) as [rows ->]; [|by eexists].
    apply list.Forall_forall. intros t Ht. apply trade_row_total; [exact (proj1 (list.Forall_forall _ _) H t Ht)|].
    by apply Hp, list_elem_of_In.
Qed.

Lemma write_rows_total rows : Forall (fun bt : string * Trade F => exists p, pnl_pct bt.2 = Ok p) rows ->
  (write_rows fmt_fixed iso rows).2 = None <-> forallb (fun bt => priced bt.2) rows = true.
Proof.
  induction 1 as [|[b t] rows Ht _ IH]; [done|]. cbn [write_rows forallb snd]. pose proof (csv_row_total b t Ht) as K.
  destruct (csv_row fmt_fixed iso b t) as [row|].
  - destruct (write_rows fmt_fixed iso rows) as [text e]. cbn [snd] in *. rewrite andb_true_iff, IH. split; [|by intros []]. intros Hp. split; [|done]. apply K. by exists row.
  - cbn. rewrite andb_true_iff. split; [done|]. intros [Hp _]. by destruct (proj2 K Hp).
Qed.

Lemma export_facts candles signals (p : XGBPredictor F) rep
  (H : run_comparison candles signals p = Ok rep) :
  ((exists doc, render_html_report fmt_fixed iso rep = Ok doc) <->
     forallb priced (unfiltered_trades rep ++ filtered_trades rep) = true) /\
  ((write_trades_csv fmt_fixed iso rep).2 = None <->
     forallb priced (unfiltered_trades rep ++ filtered_trades rep) = true).
Proof.
  destruct (report_pnls _ _ _ _ H) as [Hu Hf]. rewrite forallb_app, andb_true_iff. split.
  - rewrite <-(table_total "unfiltered"), <-(table_total "filtered") by done. unfold render_html_report. split.
    + intros [doc (u & -> & (f & -> & _)%rbind_Ok)%rbind_Ok]. split; by eexists.
    + intros [[u ->] [f ->]]. by eexists.
  - unfold write_trades_csv. pose proof (write_rows_total (report_rows rep)) as K.
    destruct (write_rows fmt_fixed iso (report_rows rep)) as [text e]. cbn [snd] in *. rewrite K.
    + assert (forall (b : string) ts, forallb (fun bt : string * Trade F => priced bt.2) (map (pair b) ts) = forallb priced ts) as Em
        by (intros b ts; induction ts as [|t ts IH]; [done|]; cbn [map forallb snd]; by rewrite IH).
      unfold report_rows. by rewrite forallb_app, !Em, andb_true_iff.
    + unfold report_rows. apply Forall_app. split; apply list.Forall_forall; intros bt (t & -> & Ht)%list_elem_of_fmap; cbn [snd].
      * exact (proj1 (list.Forall_forall _ _) Hu t Ht).
      * exact (proj1 (list.Forall_forall _ _) Hf t Ht).
Qed.

(** A report is exported exactly when every trade has an entry price.  For a
    comparison that succeeded, both exports succeed when all trades were filled; a
    trade opened by a signal on the last candle, which has no fill price, makes
    both raise. *)
Theorem export_iff_priced candles signals (p : XGBPredictor F) rep
  (H : run_comparison candles signals p = Ok rep) :
  ((exists doc, render_html_report fmt_fixed iso rep = Ok doc) <->
     forallb priced (unfiltered_trades rep ++ filtered_trades rep) = true) /\
  ((write_trades_csv fmt_fixed iso rep).2 = None <->
     forallb priced (unfiltered_trades rep ++ filtered_trades rep) = true).
Proof. by eapply export_facts. Qed.

End Facts.

(** ** The markup does not depend on the data *)

(** How many tags are opened or closed. *)
Fixpoint tags (s : string) : nat :=
  match s with
  | EmptyString => 0%nat
  | String c s' => ((if bool_decide (c = "<"%char) then 1 else 0) + tags s')%nat
  end.

Lemma tags_app a b : tags (a +:+ b) = (tags a + tags b)%nat.
Proof. induction a as [|c a IH]; [done|]. change (tags (String c (a +:+ b)) = (tags (String c a) + tags b)%nat). cbn [tags]. rewrite IH. lia. Qed.

Lemma tags_concat sep l : tags sep = 0%nat -> tags (String.concat sep l) = sum_list (map tags l).
Proof.
  intros H. induction l as [|x l IH]; [done|]. destruct l as [|y l]; [cbn; lia|].
  change (String.concat sep (x :: y :: l)) with (x +:+ sep +:+ String.concat sep (y :: l)).
  rewrite !tags_app, H, IH. done.
Qed.

Lemma tags_escape s : tags (html_escape s) = 0%nat.
Proof.
  unfold html_escape. rewrite tags_concat by done. induction (chars_of s) as [|c l IH]; [done|]. cbn [map sum_list]. rewrite IH, Nat.add_0_r.
  unfold escape_char. repeat (case_bool_decide; [done|]). cbn [tags]. by rewrite bool_decide_false.
Qed.

Lemma tags_pretty (n : nat) : tags (pretty n) = 0%nat.
Proof.
  unfold pretty, pretty_nat, pretty, pretty_N. case_decide; [done|]. clear. generalize (N.of_nat n). clear n. intros x.
  assert (forall s, tags (pretty_N_go x s) = tags s) as K; [|by rewrite K].
  induction (N.lt_wf_0 x) as [x _ IH]; intros s. destruct (decide (x = 0%N)) as [->|Hx]; [by rewrite pretty_N_go_0|].
  rewrite pretty_N_go_step, IH by (try apply N.div_lt; lia). cbn [tags]. unfold pretty_N_char. by repeat case_match.
Qed.

Section Markup.
Context {F : Type} {A : Arith F} {R : ArithSqrt F}.
Context (fmt_fixed : nat -> F -> string) (iso : Z -> string).
(** A formatted number is digits, a sign, a point, "inf" or "nan". *)
Context (Hfmt : forall nd x, tags (fmt_fixed nd x) = 0%nat).

Lemma tags_pct v : tags (_fmt_pct fmt_fixed v) = 0%nat.
Proof. unfold _fmt_pct. destruct v; [|done]. by rewrite tags_app, Hfmt. Qed.

Lemma tags_class (v : option F) : tags (_pnl_class v) = 0%nat.
Proof. unfold _pnl_class. destruct v; [|done]. by destruct (_ <=? _)%pyf. Qed.

Ltac count_tags := rewrite ?tags_app, ?tags_escape, ?tags_pretty, ?tags_pct, ?tags_class, ?Hfmt.

Lemma tags_stats s : tags (_stats_table fmt_fixed s) = 58%nat.
Proof.
  unfold _stats_table, join. rewrite !tags_app, tags_concat by done. cbn [map stats_row sum_list]. by count_tags.
Qed.

Lemma tags_row b (t : Trade F) row : trade_row fmt_fixed iso b t = Ok row -> tags row = 16%nat.
Proof.
  unfold trade_row. intros (pnl & _ & (entry & _ & [= <-])%rbind_Ok)%rbind_Ok.
  destruct (exit_time t), (exit_price t); by count_tags.
Qed.

Lemma tags_table b ts s : _trades_table fmt_fixed iso ts b = Ok s -> tags s = (16 * length ts)%nat.
Proof.
  unfold _trades_table. intros (rows & H & [= <-])%rbind_Ok. unfold join. rewrite tags_concat by done.
  apply collect_Ok in H. induction H as [|t row ts rows Hr _ IH]; [done|]. cbn [map sum_list sum_list_with id length]. rewrite IH, (tags_row _ _ _ Hr). unfold id. lia.
Qed.

(** The HTML report cannot be injected.  Whatever the trades' texts hold, the
    number of tags of the rendered document is that of the template plus sixteen
    per trade. *)
Theorem report_markup_fixed (report : ComparisonReport F) doc
  (H : render_html_report fmt_fixed iso report = Ok doc) :
  tags doc = (180 + 16 * (length (unfiltered_trades report) + length (filtered_trades report)))%nat.
Proof.
  unfold render_html_report in H. apply rbind_Ok in H as (u & Hu & H). apply rbind_Ok in H as (f & Hf & [= <-]).
  apply tags_table in Hu, Hf. unfold document, join. rewrite tags_concat by done. cbn [map sum_list]. count_tags.
  rewrite !tags_stats, Hu, Hf. unfold id. change (tags _STYLE) with 0%nat.
  repeat match goal with |- context [tags ?s] => let n := eval vm_compute in (tags s) in change (tags s) with n end. lia.
Qed.

End Markup.

(** ** Loading *)

Section Loading.
Context {F : Type} {A : Arith F}.
Context (iso : Z -> string) (fromisoformat : string -> option (Z * option Z)).

(** A signals file as [csv.writer] writes it, with further columns around the two
    that are read. *)
Definition signal_row (extra : list chars) (s : RawSignal) : list chars :=
  [chars_of (iso (s_timestamp s)); chars_of (if (s_direction s =? 1)%Z then "buy" else "sell")%string] ++ extra.

Definition signals_file (names : list chars) (rows : list (list chars * RawSignal)) : chars :=
  concat (map writerow (([chars_of "timestamp"; chars_of "action"] ++ names) :: map (fun r => signal_row r.1 r.2) rows)).

(** The order of [list.sort] on the timestamps: rising, equal ones as they came. *)
Definition in_time_order (l out : list RawSignal) : Prop :=
  out ≡ₚ l /\ StronglySorted (fun a b => s_timestamp a <= s_timestamp b) out /\
  forall t, List.filter (fun s => s_timestamp s =? t) out = List.filter (fun s => s_timestamp s =? t) l.

Lemma insert_filter (t : Z) (x : RawSignal) l :
  List.filter (fun s => s_timestamp s =? t) (insert_sorted (fun a b => s_timestamp a <? s_timestamp b) x l) =
  List.filter (fun s => s_timestamp s =? t) (x :: l).
Proof.
  induction l as [|y l IH]; [done|]. cbn [insert_sorted]. destruct (Z.ltb_spec (s_timestamp y) (s_timestamp x)); [|done].
  cbn [List.filter]. rewrite IH. cbn [List.filter].
  destruct (Z.eqb_spec (s_timestamp x) t), (Z.eqb_spec (s_timestamp y) t); try done. lia.
Qed.

Lemma sort_in_order l : in_time_order l (sort_by (fun a b => s_timestamp a <? s_timestamp b) l).
Proof.
  split_and!; [apply sort_by_perm|apply (sort_by_key s_timestamp)|]. intros t. induction l as [|x l IH]; [done|].
  cbn [sort_by fold_right]. fold (sort_by (fun a b => s_timestamp a <? s_timestamp b) l). rewrite insert_filter. cbn [List.filter]. by rewrite IH.
Qed.

Lemma field_timestamp names : chars_of "timestamp" ∉ names ->
  field_index (chars_of "timestamp") ([chars_of "timestamp"; chars_of "action"] ++ names) = Some 0%nat.
Proof.
  intros H. cbn [app field_index]. assert (field_index (chars_of "timestamp") names = None) as ->; [|done].
  induction names as [|x names IH]; [done|]. cbn [field_index]. rewrite not_elem_of_cons in H. destruct H as [H1 H2].
  rewrite IH by done. by rewrite bool_decide_false by congruence.
Qed.

Lemma field_action names : chars_of "action" ∉ names ->
  field_index (chars_of "action") ([chars_of "timestamp"; chars_of "action"] ++ names) = Some 1%nat.
Proof.
  intros H. cbn [app field_index]. assert (field_index (chars_of "action") names = None) as ->; [|done].
  induction names as [|x names IH]; [done|]. cbn [field_index]. rewrite not_elem_of_cons in H. destruct H as [H1 H2].
  rewrite IH by done. by rewrite bool_decide_false by congruence.
Qed.

(** A signals file loads as its signals in time order.  A file with one row per
    signal, whatever further columns it has and whatever text they hold, loads as
    exactly those signals, sorted by time, equal times in file order. *)
Theorem signals_round_trip names (rows : list (list chars * RawSignal))
  (Hn : (chars_of "timestamp" ∉ names) /\ (chars_of "action" ∉ names))
  (Hd : Forall (fun r => s_direction r.2 = 1 \/ s_direction r.2 = -1) rows)
  (Hiso : Forall (fun r => fromisoformat (strip (iso (s_timestamp r.2))) = Some (s_timestamp r.2, Some 0)) rows) :
  exists out, load_signals fromisoformat (signals_file names rows) = Ok out /\ in_time_order (map snd rows) out.
Proof.
  exists (sort_by (fun a b => s_timestamp a <? s_timestamp b) (map snd rows)). split; [|apply sort_in_order].
  unfold load_signals, dict_rows, signals_file. rewrite rows_read.
  2:{ constructor; [done|]. apply list.Forall_forall. by intros r (x & -> & _)%list_elem_of_fmap. }
  rewrite filter_all by (by intros r (x & -> & _)%list_elem_of_fmap).
  assert (collect (signal_of fromisoformat ([chars_of "timestamp"; chars_of "action"] ++ names))
    (map (fun r => signal_row r.1 r.2) rows) = Ok (map snd rows)) as ->; [|done].
  apply collect_Ok. induction rows as [|[extra [ts dir]] rows IH]; cbn [map]; constructor.
  - apply Forall_cons_1 in Hd as [Hd _]. apply Forall_cons_1 in Hiso as [Hiso _]. cbn [snd s_timestamp s_direction] in *.
    unfold signal_of, text_cell, cell. rewrite (field_action names), (field_timestamp names) by tauto.
    cbn [mbind option_bind signal_row app lookup list_lookup fmap option_fmap option_map fst snd s_timestamp s_direction].
    rewrite !string_of_chars_of. unfold _parse_ts. destruct Hd as [-> | ->]; cbn; rewrite Hiso; cbn; by rewrite Z.sub_0_r.
  - apply Forall_cons_1 in Hd as [_ Hd]. apply Forall_cons_1 in Hiso as [_ Hiso]. by apply IH.
Qed.

End Loading.

(** ** The command line, end to end *)

Section MainFacts.
Context {F : Type} {A : Arith F} {R : ArithSqrt F}.
Context (fmt_fixed : nat -> F -> string) (iso : Z -> string) (fromisoformat : string -> option (Z * option Z)).
Context (json_text : pyval F -> chars) (load_model : string -> string -> F -> option (XGBPredictor F)).
Context (files : string -> option chars) (HERE_model DEV_model : string).

Abbreviation run_main := (main fmt_fixed iso fromisoformat json_text load_model files HERE_model DEV_model).
Abbreviation compared := (compare_files fromisoformat load_model files HERE_model DEV_model).

(** What is asked for besides the summary. *)
Definition asked (o : option string) : nat := match path_given o with Some _ => 1%nat | None => 0%nat end.

Lemma compare_files_run a r : compared a = Ok r -> exists candles signals p, run_comparison candles signals p = Ok r.
Proof.
  unfold compare_files. intros (paths & _ & (p & _ & (ct & _ & (candles & _ & (st & _ & (signals & _ & H)%rbind_Ok)%rbind_Ok)%rbind_Ok)%rbind_Ok)%rbind_Ok)%rbind_Ok.
  exists candles, signals, p. by destruct (run_comparison candles signals p) as [r'|]; [injection H as ->|].
Qed.

(** The summary is never lost and nothing is written without it.  When the
    inputs do not load or compare, nothing is written.  Otherwise the summary of
    the comparison comes first; the run succeeds, with one file per export asked
    for, exactly when no export was asked for or every trade has an entry price. *)
Theorem main_writes a :
  match compared a with
  | Err e => run_main a = ([], Err e)
  | Ok r =>
      head (run_main a).1 = Some (summary_write json_text a r) /\
      ((run_main a).2 = Ok r <->
         (asked (a_html a) + asked (a_trades_csv a) = 0)%nat \/ forallb priced (unfiltered_trades r ++ filtered_trades r) = true) /\
      ((run_main a).2 = Ok r -> length (run_main a).1 = (1 + asked (a_html a) + asked (a_trades_csv a))%nat)
  end.
Proof.
  unfold main. destruct (compared a) as [r|e] eqn:E; [|done]. destruct (compare_files_run a r E) as (candles & signals & p & Hr).
  destruct (export_facts fmt_fixed iso candles signals p r Hr) as [Hh Hc]. unfold export_html, export_csv, asked.
  destruct (path_given (a_html a)) as [ph|], (path_given (a_trades_csv a)) as [pc|].
  - destruct (render_html_report fmt_fixed iso r) as [doc|e].
    + destruct (write_trades_csv fmt_fixed iso r) as [text [e|]]; cbn in *; split_and!; try done.
      * split; [done|]. intros [?|Hp]; [lia|]. by apply Hc in Hp.
      * split; [|done]. intros _. right. by apply Hc.
    + cbn. split_and!; try done. split; [done|]. intros [?|Hp]; [lia|]. by destruct (proj2 Hh Hp).
  - destruct (render_html_report fmt_fixed iso r) as [doc|e]; cbn.
    + split_and!; try done. split; [|done]. intros _. right. apply Hh. by exists doc.
    + split_and!; try done. split; [done|]. intros [?|Hp]; [lia|]. by destruct (proj2 Hh Hp).
  - destruct (write_trades_csv fmt_fixed iso r) as [text [e|]]; cbn in *; split_and!; try done.
    + split; [done|]. intros [?|Hp]; [lia|]. by apply Hc in Hp.
    + split; [|done]. intros _. right. by apply Hc.
  - cbn. split_and!; try done. split; [|done]. intros _. by left.
Qed.

End MainFacts.

(** ** A small report *)

Module BtReportDemo.
Open Scope string_scope.
Definition fmt (_ : nat) (x : Q) : string := if q_ltb x 0 then "-1.00" else "1.00".
Definition iso (t : Z) : string := pretty t.
Definition from (s : string) : option (Z * option Z) := (fun t => (t, Some 0)) <$> parse_int s.
Definition stats : branch_stats Q := Backtest.mk_stats 1 1 1 0 0 0 (Some 1%Q) 1%Q 0%Q.
(** A direction that tries to close the table. *)
Definition bad : Trade Q := mk_trade "</table>" 1 60 (Some 2%Q) (Some 2%nat) (Some 120) (Some 3%Q).
Definition report : ComparisonReport Q := Backtest.mk_report (1 # 2) 1 1 0 0 stats stats 0%Q [bad] [].
Definition rows : list (list chars * RawSignal) :=
  [([chars_of "note, with comma"], mk_raw_signal 120 1); ([[dquote]], mk_raw_signal 60 (-1)); ([[]], mk_raw_signal 120 (-1))].
End BtReportDemo.

Lemma trades_csv_loads_witness : exists text out, write_trades_csv BtReportDemo.fmt BtReportDemo.iso BtReportDemo.report = (text, None) /\
  read_rows text = map chars_of csv_header :: map (map chars_of) out /\ length out = 1%nat.
Proof.
  destruct (trades_csv_loads BtReportDemo.fmt BtReportDemo.iso BtReportDemo.report
    (write_trades_csv BtReportDemo.fmt BtReportDemo.iso BtReportDemo.report).1) as (out & _ & H1 & H2 & _); [vm_compute; reflexivity|].
  eexists _, out. split_and!; [|exact H1|exact H2]. vm_compute. reflexivity.
Defined.

Lemma report_markup_fixed_witness : exists doc, render_html_report BtReportDemo.fmt BtReportDemo.iso BtReportDemo.report = Ok doc /\ tags doc = 196%nat.
Proof.
  destruct (render_html_report BtReportDemo.fmt BtReportDemo.iso BtReportDemo.report) as [doc|e] eqn:E; [|vm_compute in E; discriminate E].
  exists doc. split; [reflexivity|].
  refine (report_markup_fixed BtReportDemo.fmt BtReportDemo.iso _ BtReportDemo.report doc E).
  intros nd x. unfold BtReportDemo.fmt. destruct (q_ltb x 0); reflexivity.
Defined.

Lemma signals_round_trip_witness : exists out,
  load_signals BtReportDemo.from (signals_file BtReportDemo.iso [chars_of "note"] BtReportDemo.rows) = Ok out /\
  in_time_order (map snd BtReportDemo.rows) out.
Proof.
  apply (signals_round_trip BtReportDemo.iso BtReportDemo.from [chars_of "note"] BtReportDemo.rows).
  - split; intros [H|H]%elem_of_cons; [discriminate H|by apply not_elem_of_nil in H|discriminate H|by apply not_elem_of_nil in H].
  - constructor; [left; reflexivity|]. constructor; [right; reflexivity|]. constructor; [right; reflexivity|constructor].
  - constructor; [reflexivity|]. constructor; [reflexivity|]. constructor; [reflexivity|constructor].
Defined.

(** The last signal falls on the last bar: the comparison succeeds, its report
    cannot be exported. *)
Lemma export_iff_priced_witness : exists rep, run_comparison (sample_series 4) BacktestDemo.early BacktestDemo.model = Ok rep /\
  (write_trades_csv (fun _ _ => ""%string) BtReportDemo.iso rep).2 <> None.
Proof.
  destruct (BacktestDemo.report_ok (run_comparison (sample_series 4) BacktestDemo.early BacktestDemo.model)) as [rep E]; [vm_compute; reflexivity|].
  exists rep. split; [exact E|].
  destruct (export_iff_priced (fun _ _ => ""%string) BtReportDemo.iso (sample_series 4) BacktestDemo.early BacktestDemo.model rep E) as [_ H].
  intros K. apply H in K. clear H. revert K. apply (f_equal BacktestDemo.report_of) in E. vm_compute in E. injection E as <-. vm_compute. discriminate.
Defined.
