(* ===== verification/BtService.v ===== *)
(** * BtService: the backtester service

    apps/backtester/app.py: [run_backtest] over the shared database with its
    counters, and the HTTP handler from the bytes of the request to the bytes of
    the response.  The aggregates are [Backtest.backtest_metrics].

    Arguments: the UUID parser, [repr] of a float, the text of an exception, the
    job's random identifier, the current day, the metrics text with its content
    type.  A statement may fail, so may reading the
    request and writing the response; asyncpg refuses text bound to a DATE.  Request
    lines are read up to the 64 KiB limit of the stream reader; the day of a
    timestamp is taken in UTC.  An AttributeError is not told from a TypeError. *)

From Stdlib Require Import ZArith Ascii Strings.Byte SpecFloat.
From S2P Require Import Prelude Text PyFloat PyVal Features Predictor Backtest Prog Db Extractor Json Calendar DashCalendar.
Open Scope Z_scope.

(** ** The service's state *)

Abbreviation metrics := (live_metrics (F := spec_float)).

Record result_row := mk_result {
  rr_job : string; rr_license : nat; rr_start : date; rr_end : date; rr_metrics : metrics }.

Record service := mk_service {
  bs_db : Db; bs_results : list result_row; bs_started : Z; bs_completed : Z; bs_errors : Z; bs_active : Z }.

Definition add_started (s : service) : service :=
  mk_service (bs_db s) (bs_results s) (bs_started s + 1) (bs_completed s) (bs_errors s) (bs_active s).
Definition add_completed (s : service) : service :=
  mk_service (bs_db s) (bs_results s) (bs_started s) (bs_completed s + 1) (bs_errors s) (bs_active s).
Definition add_error (s : service) : service :=
  mk_service (bs_db s) (bs_results s) (bs_started s) (bs_completed s) (bs_errors s + 1) (bs_active s).
Definition add_active (n : Z) (s : service) : service :=
  mk_service (bs_db s) (bs_results s) (bs_started s) (bs_completed s) (bs_errors s) (bs_active s + n).
Definition add_result (r : result_row) (s : service) : service :=
  mk_service (bs_db s) (bs_results s ++ [r]) (bs_started s) (bs_completed s) (bs_errors s) (bs_active s).

Section Service.
Context (uuid_of : string -> option nat) (float_repr : spec_float -> bytes) (exn_text : exn -> string) (today : Z).

Abbreviation handler X := (prog service exn X).

(** ** run_backtest *)

(** The ordinal of 1 January 1970. *)
Definition EPOCH : Z := 719163.
Definition received_day (a : accepted) : Z := EPOCH + Z.of_N (acc_received a) / (86400 * 1000000000).

Definition signals_between (lic : nat) (start end_ : date) (s : service) : list accepted :=
  sort_by (fun a b => (acc_received a <? acc_received b)%N)
    (List.filter (fun a => (acc_license a =? lic)%nat && (toordinal start <=? received_day a) && (received_day a <=? toordinal end_))
       (db_accepted (bs_db s))).

Definition fills_of (ids : list nat) (s : service) : list fill :=
  List.filter (fun f => match fill_signal f with Some i => existsb (Nat.eqb i) ids | None => false end) (db_fills (bs_db s)).

(** What is bound to a parameter of a statement. *)
Inductive param := TextParam (s : string) | DateParam (d : date).

Definition bind_date (p : param) : handler date :=
  match p with DateParam d => ret d | TextParam _ => raise DataError end.

Definition insert_result (job : string) (license_id : string) (start end_ : param) (m : metrics) : handler unit :=
  lic <- (match uuid_of license_id with Some n => ret n | None => raise DataError end) ;;
  a <- bind_date start ;;
  b <- bind_date end_ ;;
  exec DbError (add_result (mk_result job lic a b m)).

Inductive outcome :=
| NoSignals
| Completed (m : metrics)
| Failed (e : exn).

Definition parse_date (v : json) : handler date :=
  match v with
  | PStr s => match strptime_ymd s with Some d => ret d | None => raise ValueError end
  | _ => raise TypeError
  end.

(** [uuid.UUID(license_id)]: text that is no UUID is passed on as it is, which the
    query refuses. *)
Definition license_uuid (v : json) : handler (string * nat) :=
  match v with
  | PStr s => match uuid_of s with Some n => ret (s, n) | None => raise DataError end
  | _ => raise TypeError
  end.

Definition run_backtest (job : string) (license_id date_start date_end : json) : handler outcome :=
  act add_started ;;;
  try_
    (start_date <- parse_date date_start ;;
     end_date <- parse_date date_end ;;
     (match license_id with PStr _ => ret tt | _ => raise TypeError end) ;;;
     exec DbError (fun s => s) ;;;     (* pool.acquire() *)
     lic <- license_uuid license_id ;;
     signals <- query DbError (signals_between lic.2 start_date end_date) ;;
     match signals with
     | [] => ret NoSignals
     | _ =>
         fills <- query DbError (fills_of (map acc_id signals)) ;;
         match backtest_metrics loads (length signals) (map (fun f => (fill_payload f, today)) fills) with
         | None => ret NoSignals
         | Some m =>
             start <- (match date_start with PStr s => ret s | _ => raise TypeError end) ;;
             end_ <- (match date_end with PStr s => ret s | _ => raise TypeError end) ;;
             insert_result job lic.1 (TextParam start) (TextParam end_) m ;;;
             act add_completed ;;;
             ret (Completed m)
         end
     end)
    (fun e => act add_error ;;; ret (Failed e)).

Definition result_doc (job : string) (o : outcome) : json :=
  PDict (("job_id"%string, PStr job) ::
    match o with
    | NoSignals => [("total_signals", PInt 0); ("total_fills", PInt 0); ("status", PStr "completed")]
    | Completed m =>
        [("total_signals", PInt (Z.of_nat (m_signals m))); ("total_fills", PInt (Z.of_nat (m_fills m)));
         ("fill_rate_pct", PFloat (m_fill_rate m)); ("gross_pnl", PFloat (m_gross m)); ("net_pnl", PFloat (m_net m));
         ("sharpe_ratio", PFloat (m_sharpe m)); ("max_drawdown_pct", PFloat (m_drawdown m));
         ("win_count", PInt (Z.of_nat (m_wins m))); ("loss_count", PInt (Z.of_nat (m_losses m)));
         ("win_pct", PFloat (m_win_pct m)); ("status", PStr "completed")]
    | Failed e => [("status", PStr "failed"); ("error", PStr (exn_text e))]
    end%string).

(** ** HTTP *)

Definition CR : byte := Byte.x0d.
Definition LF : byte := Byte.x0a.
Definition crlf : bytes := [CR; LF].
Definition LIMIT : nat := Z.to_nat 65536.

(** The part up to the first line feed and whether there is one, with the rest. *)
Fixpoint until_lf (l : bytes) : bytes * option bytes :=
  match l with
  | [] => ([], None)
  | b :: l' => if bool_decide (b = LF) then ([], Some l') else let '(a, r) := until_lf l' in (b :: a, r)
  end.

(** [reader.readline()]: the line with its end, the rest; [None] is the ValueError
    of a line over the limit. *)
Definition readline (l : bytes) : option (bytes * bytes) :=
  let '(a, r) := until_lf l in
  if Nat.ltb LIMIT (length a) then None
  else Some (match r with Some rest => (a ++ [LF], rest) | None => (a, []) end).

(** [(await reader.readline()).decode().strip()]. *)
Definition read_text (l : bytes) : option (string * bytes) :=
  '(raw, rest) ← readline l;
  t ← decode_utf8 raw;
  Some (strip t, rest).

Definition header_length (line : string) (content_length : Z) : option Z :=
  match split_once ":"%char (chars_of line) with
  | None => Some content_length
  | Some (key, val) =>
      if bool_decide (lower (string_of_chars key) = "content-length"%string)
      then parse_int (strip (string_of_chars val)) else Some content_length
  end.

(** The header loop, up to an empty line or the end. *)
Fixpoint read_headers (fuel : nat) (content_length : Z) (l : bytes) : option (Z * bytes) :=
  match fuel with
  | O => None
  | S fuel' =>
      '(line, rest) ← read_text l;
      if bool_decide (line = ""%string) then Some (content_length, rest)
      else n ← header_length line content_length; read_headers fuel' n rest
  end.

(** Headers, then [readexactly]; [None] is an exception. *)
Definition read_body (l : bytes) : option bytes :=
  '(content_length, rest) ← read_headers (S (length l)) 0 l;
  if 0 <? content_length then
    let n := Z.to_nat content_length in
    if Nat.ltb (length rest) n then None else Some (take n rest)
  else Some [].

Definition http_text (lines : list string) (body : bytes) : bytes :=
  concat (map (fun l => encode_utf8 l ++ crlf) lines) ++ crlf ++ body.

Definition length_line (body : bytes) : string := ("Content-Length: " +:+ pretty (length body))%string.

Definition json_response (status : string) (doc : json) : bytes :=
  let body := encode_utf8 (dumps float_repr doc) in
  http_text [status; "Content-Type: application/json"%string; length_line body] body.

Definition health_response : bytes :=
  http_text ["HTTP/1.1 200 OK"; "Content-Length: 18"; "Content-Type: application/json"]%string
    (encode_utf8 "{" ++ [Byte.x22] ++ encode_utf8 "status" ++ [Byte.x22] ++ encode_utf8 ":" ++ [Byte.x22] ++ encode_utf8 "ok" ++
     [Byte.x22] ++ encode_utf8 "}").

Context (CONTENT_TYPE_LATEST : string) (generate_latest : service -> bytes).

Definition metrics_response (data : bytes) : bytes :=
  http_text ["HTTP/1.1 200 OK"; "Content-Type: " +:+ CONTENT_TYPE_LATEST; length_line data]%string data.

Definition error_response (status : string) : bytes := http_text [status; "Content-Length: 0"%string] [].

(** [Closed]: the connection is closed without a response. *)
Inductive http_out := Sent (b : bytes) | Closed.

(** Reading the rest of the request is a statement too: a connection that breaks
    is answered, in vain, like any other exception of the body. *)
Definition backtest_request (job : string) (rest : bytes) : handler bytes :=
  try_
    (read <- query ConnectionLost (fun _ => read_body rest) ;;
     body <- (match read with Some b => ret b | None => raise ValueError end) ;;
     data <- (match decode_utf8 body ≫= loads with
              | Some (PDict d) => ret d | Some _ => raise TypeError | None => raise ValueError end) ;;
     let field k := default PNone (dict_get data k) in
     if negb (truthy (field "license_id") && truthy (field "date_start") && truthy (field "date_end"))
     then ret (json_response "HTTP/1.1 400 Bad Request" (PDict [("error"%string, PStr "missing parameters")]))
     else
       act (add_active 1) ;;;
       result <- run_backtest job (field "license_id") (field "date_start") (field "date_end") ;;
       act (add_active (-1)) ;;;
       ret (json_response "HTTP/1.1 200 OK" (result_doc job result)))
    (fun _ => ret (error_response "HTTP/1.1 500 Internal Server Error")).

(** [writer.write(response)], [await writer.drain()], [writer.close()]. *)
Definition send_response (response : bytes) : handler http_out :=
  exec ConnectionLost (fun s => s) ;;; ret (Sent response).

(** The request line is read and decoded outside any [try]. *)
Definition http_handler (job : string) (input : bytes) : handler http_out :=
  first <- query ConnectionLost (fun _ => read_text input) ;;
  match first with
  | None => raise ValueError
  | Some (request_line, rest) =>
      match split_ws (chars_of request_line) [] with
      | method :: path :: _ =>
          if bool_decide (path = "/health"%string) && bool_decide (method = "GET"%string) then send_response health_response
          else if bool_decide (path = "/metrics"%string) && bool_decide (method = "GET"%string) then
            data <- Act (fun s => s) (fun s => ret (generate_latest s)) ;; send_response (metrics_response data)
          else if startswith path "/backtest" && bool_decide (method = "POST"%string) then
            r <- backtest_request job rest ;; send_response r
          else send_response (error_response "HTTP/1.1 404 Not Found")
      | _ => ret Closed
      end
  end.

End Service.

(** ** Numbers in headers *)

Lemma digit_of_pretty x : (x < 10)%N -> digit_of (pretty_N_char x) = Some (Z.of_N x).
Proof.
  intros H. assert (x = 0 \/ x = 1 \/ x = 2 \/ x = 3 \/ x = 4 \/ x = 5 \/ x = 6 \/ x = 7 \/ x = 8 \/ x = 9)%N as Hx by lia.
  repeat destruct Hx as [->|Hx]; try done. by subst x.
Qed.

Lemma read_pretty x : forall s, (0 < x)%N -> exists k,
  read_digits (chars_of (pretty_N_go x s)) 0 0 false = read_digits (chars_of s) (Z.of_N x) k true.
Proof.
  induction (N.lt_wf_0 x) as [x _ IH]; intros s Hx. rewrite pretty_N_go_step by done.
  assert (forall acc n prev, read_digits (chars_of (String (pretty_N_char (x `mod` 10)) s)) acc n prev =
    read_digits (chars_of s) (acc * 10 + Z.of_N (x `mod` 10)) (S n) true) as Hd.
  { intros. cbn [chars_of String.list_ascii_of_string read_digits]. by rewrite digit_of_pretty by (by apply N.mod_lt). }
  pose proof (N.div_mod x 10). destruct (decide (x / 10 = 0)%N) as [E|E].
  - rewrite E, pretty_N_go_0. exists 1%nat. rewrite Hd. f_equal. lia.
  - destruct (IH (x / 10)%N) with (s := String (pretty_N_char (x `mod` 10)) s) as (k & ->); [by apply N.div_lt|lia|].
    exists (S k). rewrite Hd. f_equal. lia.
Qed.

Lemma pretty_digits (n : nat) : forallb (fun c => match digit_of c with Some _ => true | None => false end) (chars_of (pretty n)) = true /\
  chars_of (pretty n) <> [].
Proof.
  unfold pretty, pretty_nat, pretty, pretty_N. case_decide; [done|]. generalize (N.of_nat n) H. clear. intros x Hx.
  assert (forall s, forallb (fun c => match digit_of c with Some _ => true | None => false end) (chars_of s) = true ->
    (x <> 0)%N -> forallb (fun c => match digit_of c with Some _ => true | None => false end) (chars_of (pretty_N_go x s)) = true /\
    chars_of (pretty_N_go x s) <> []) as K; [|by apply K].
  clear Hx. induction (N.lt_wf_0 x) as [x _ IH]; intros s Hs Hx. rewrite pretty_N_go_step by lia.
  assert (forallb (fun c => match digit_of c with Some _ => true | None => false end)
    (chars_of (String (pretty_N_char (x `mod` 10)) s)) = true) as Hs'.
  { cbn [chars_of String.list_ascii_of_string forallb]. rewrite digit_of_pretty by (by apply N.mod_lt). exact Hs. }
  destruct (decide (x / 10 = 0)%N) as [E|E]; [by rewrite E, pretty_N_go_0|]. apply IH; [apply N.div_lt; lia|done|done].
Qed.

Lemma digit_plain c : match digit_of c with Some _ => true | None => false end = true ->
  is_space c = false /\ c <> "-"%char /\ c <> "+"%char /\ (nat_of_ascii c < 128)%nat /\ c <> ascii_of_nat 13 /\ c <> ascii_of_nat 10.
Proof. destruct c as [[] [] [] [] [] [] [] []]; vm_compute; intros [=]; repeat split; try done; lia. Qed.

Lemma strip_digits l : forallb (fun c => match digit_of c with Some _ => true | None => false end) l = true -> strip_chars l = l.
Proof.
  intros H. rewrite forallb_forall in H. assert (forall l', (forall c, In c l' -> is_space c = false) -> lstrip l' = l') as K.
  { intros [|c l'] Hl; [done|]. apply lstrip_fixed. apply Hl. by left. }
  unfold strip_chars. rewrite (K l) by (intros c Hc; by apply digit_plain, H).
  rewrite K; [apply rev_involutive|]. intros c Hc. by apply digit_plain, H, in_rev.
Qed.

Lemma parse_pretty (n : nat) : parse_int (pretty n) = Some (Z.of_nat n).
Proof.
  unfold parse_int. destruct (pretty_digits n) as [Hd Hne]. rewrite strip_digits by done.
  assert (read_sign (chars_of (pretty n)) = (false, chars_of (pretty n))) as ->.
  { destruct (chars_of (pretty n)) as [|c l]; [done|]. cbn [forallb] in Hd. apply andb_true_iff in Hd as [Hc _].
    by destruct c as [[] [] [] [] [] [] [] []]; vm_compute in Hc. }
  unfold pretty, pretty_nat, pretty, pretty_N. case_decide as E; [by assert (n = 0%nat) as -> by lia|].
  destruct (read_pretty (N.of_nat n) "") as (k & ->); [lia|].
  cbn [chars_of String.list_ascii_of_string read_digits]. f_equal. lia.
Qed.

(** ** Responses as a client reads them *)

(** Up to a line end, and the rest. *)
Fixpoint cut_line (l : bytes) : option (bytes * bytes) :=
  match l with
  | [] => None
  | b :: l' =>
      match bool_decide (b = CR), l' with
      | true, c :: rest => if bool_decide (c = LF) then Some ([], rest) else '(a, r) ← cut_line l'; Some (b :: a, r)
      | _, _ => '(a, r) ← cut_line l'; Some (b :: a, r)
      end
  end.

(** Head lines up to the empty one, then the body. *)
Fixpoint read_head (fuel : nat) (l : bytes) : option (list bytes * bytes) :=
  match fuel with
  | O => None
  | S fuel' =>
      '(line, rest) ← cut_line l;
      match line with
      | [] => Some ([], rest)
      | _ => '(ls, body) ← read_head fuel' rest; Some (line :: ls, body)
      end
  end.

Definition read_reply (b : bytes) : option (list bytes * bytes) := read_head (S (length b)) b.

(** The length a response declares. *)
Definition declared (ls : list bytes) : option Z :=
  l ← List.find (fun l => startswith (string_of_bytes l) "Content-Length: ") ls;
  parse_int (string_of_chars (drop 16 (chars_of (string_of_bytes l)))).

Definition no_cr (s : string) : bool := forallb (fun b => negb (bool_decide (b = CR))) (encode_utf8 s).
Definition head_line (s : string) : Prop := no_cr s = true /\ encode_utf8 s <> [].

Lemma cut_line_app l rest : forallb (fun b => negb (bool_decide (b = CR))) l = true -> cut_line (l ++ crlf ++ rest) = Some (l, rest).
Proof.
  induction l as [|b l IH]; intros H; [done|]. cbn [forallb] in H. apply andb_true_iff in H as [Hb Hl].
  cbn [app cut_line]. case_bool_decide; [done|]. by rewrite IH.
Qed.

Lemma read_head_text lines body : Forall head_line lines -> forall fuel, (length lines < fuel)%nat ->
  read_head fuel (http_text lines body) = Some (map encode_utf8 lines, body).
Proof.
  unfold http_text. induction lines as [|l lines IH]; intros H [|fuel] Hf; simpl in Hf; try lia; [done|].
  apply Forall_cons_1 in H as [[H1 H2] H]. cbn [map concat]. rewrite <-!app_assoc. cbn [read_head].
  rewrite cut_line_app by done. cbn [mbind option_bind]. destruct (encode_utf8 l) as [|b l'] eqn:E; [done|].
  rewrite IH by (done || lia). done.
Qed.

Lemma read_reply_text lines body : Forall head_line lines -> read_reply (http_text lines body) = Some (map encode_utf8 lines, body).
Proof.
  intros H. apply read_head_text; [done|]. unfold http_text. rewrite length_app.
  assert (length lines <= length (concat (map (fun l => encode_utf8 l ++ crlf) lines)))%nat; [|lia].
  clear H. induction lines as [|l lines IH]; [done|]. cbn [map concat length]. rewrite !length_app. cbn. lia.
Qed.

Lemma no_cr_app a b : no_cr (a +:+ b) = no_cr a && no_cr b.
Proof. unfold no_cr. by rewrite encode_app, forallb_app. Qed.

Lemma no_cr_digits s : forallb (fun c => match digit_of c with Some _ => true | None => false end) (chars_of s) = true -> no_cr s = true.
Proof.
  induction s as [|c s IH]; [done|]. cbn [chars_of String.list_ascii_of_string forallb]. intros [Hc Hs]%andb_true_iff.
  change (String c s) with (String c "" +:+ s). rewrite no_cr_app, IH by done.
  by destruct c as [[] [] [] [] [] [] [] []]; vm_compute in Hc |- *.
Qed.

Lemma length_line_ok body : head_line (length_line body).
Proof.
  split; [|done]. unfold length_line. rewrite no_cr_app. rewrite (no_cr_digits (pretty (length body))) by apply pretty_digits. done.
Qed.

Lemma declared_length_line pre body post :
  Forall (fun l => startswith l "Content-Length: " = false) pre ->
  declared (map encode_utf8 (pre ++ length_line body :: post)) = Some (Z.of_nat (length body)).
Proof.
  intros H. unfold declared. induction H as [|l pre Hl _ IH]; cbn [app map List.find].
  - rewrite string_of_encode. assert (startswith (length_line body) "Content-Length: " = true) as ->.
    { unfold startswith, length_line. cbn. by destruct (pretty (length body)). }
    cbn [mbind option_bind]. rewrite string_of_encode.
    change (drop 16 (chars_of (length_line body))) with (chars_of (pretty (length body))).
    rewrite string_of_chars_of. apply parse_pretty.
  - rewrite string_of_encode, Hl. exact IH.
Qed.

(** ** What the service guarantees *)

(** Every value a path of [p] returns has [P]. *)
Fixpoint returns {D E A} (P : A -> Prop) (p : prog D E A) : Prop :=
  match p with
  | Done (Ok a) => P a
  | Done (Err _) => True
  | Stmt upd next fail => (forall d, returns P (next d)) /\ returns P fail
  | Act upd next => forall d, returns P (next d)
  end.

Lemma returns_bind {D E A B} (P : B -> Prop) (p : prog D E A) (k : A -> prog D E B) :
  (forall a, returns P (k a)) -> returns P (bind p k).
Proof. intros H. induction p as [[a|e]|upd next IH fail IHf|upd next IH]; simpl; split_and?; auto. Qed.

Lemma returns_try {D E A} (P : A -> Prop) (p : prog D E A) (h : E -> prog D E A) :
  returns P p -> (forall e, returns P (h e)) -> returns P (try_ p h).
Proof. intros Hp H. induction p as [[a|e]|upd next IH fail IHf|upd next IH]; simpl in *; destruct_and?; split_and?; auto. Qed.

Lemma returns_run {D E A} (P : A -> Prop) (p : prog D E A) fs d a : returns P p -> run_result p fs d = Ok a -> P a.
Proof.
  unfold run_result. revert fs d. induction p as [[x|e]|upd next IH fail IHf|upd next IH]; intros fs d Hp; simpl in *; [by intros [= ->]|done| |eauto].
  destruct Hp. destruct fs as [|[] fs]; eauto.
Qed.

Section Facts.
Context (uuid_of : string -> option nat) (float_repr : spec_float -> bytes) (exn_text : exn -> string) (today : Z).
Context (CONTENT_TYPE_LATEST : string) (generate_latest : service -> bytes).

Abbreviation backtest := (run_backtest uuid_of today).
Abbreviation handle := (http_handler uuid_of float_repr exn_text today CONTENT_TYPE_LATEST generate_latest).
Abbreviation request := (backtest_request uuid_of float_repr exn_text today).

(** Framed: a client that trusts the declared length reads exactly the body. *)
Definition framed (b : bytes) : Prop :=
  exists ls body, read_reply b = Some (ls, body) /\ declared ls = Some (Z.of_nat (length body)).

Lemma text_framed pre body post : Forall head_line (pre ++ length_line body :: post) ->
  Forall (fun l => startswith l "Content-Length: " = false) pre -> framed (http_text (pre ++ length_line body :: post) body).
Proof.
  intros H1 H2. eexists _, _. split; [by apply read_reply_text|]. by apply declared_length_line.
Qed.

Lemma json_framed status doc : head_line status -> startswith status "Content-Length: " = false ->
  framed (json_response float_repr status doc).
Proof.
  intros H1 H2. apply (text_framed [status; "Content-Type: application/json"%string] _ []).
  - repeat constructor; try done; apply H1 || apply length_line_ok.
  - by repeat constructor.
Qed.

Lemma error_framed status : head_line status -> startswith status "Content-Length: " = false -> framed (error_response status).
Proof.
  intros H1 H2. apply (text_framed [status] [] []); [|by repeat constructor].
  constructor; [done|]. constructor; [apply (length_line_ok [])|done].
Qed.

Lemma metrics_framed data : no_cr CONTENT_TYPE_LATEST = true -> framed (metrics_response CONTENT_TYPE_LATEST data).
Proof.
  intros H. apply (text_framed ["HTTP/1.1 200 OK"; "Content-Type: " +:+ CONTENT_TYPE_LATEST]%string data []).
  - constructor; [done|]. constructor; [split; [by rewrite no_cr_app, H|done]|]. constructor; [apply length_line_ok|done].
  - by repeat constructor.
Qed.

Lemma request_framed job rest : returns framed (request job rest).
Proof.
  apply returns_try; [|intros e; by apply error_framed]. do 3 (apply returns_bind; intros ?).
  cbn zeta. destruct (negb _); [by apply json_framed|]. do 3 (apply returns_bind; intros ?). by apply json_framed.
Qed.

Lemma backtest_answers job lic a b : answers (backtest job lic a b).
Proof. intros ?. cbn [ret bind fst]. apply answers_try. by intros e s. Qed.

Lemma request_answers job rest : answers (request job rest).
Proof. by apply answers_try. Qed.

(** What can escape from the handler of a connection: its loss, and a request line
    that is too long or not UTF-8. *)
Definition escapes (input : bytes) (e : exn) : Prop :=
  e = ConnectionLost \/ (e = ValueError /\ read_text input = None).

Lemma send_raises (P : exn -> Prop) b : P ConnectionLost -> raises P (send_response b).
Proof. by repeat split. Qed.

Lemma handle_raises job input : raises (escapes input) (handle job input).
Proof.
  assert (escapes input ConnectionLost) as Hc by (by left).
  unfold http_handler, query, stmt. cbn [bind raises]. split; [intros d|exact Hc]. cbn [ret bind fst].
  destruct (read_text input) as [[line rest]|] eqn:E; [|right; by rewrite E]. destruct (split_ws _ _) as [|m [|p ?]]; try done.
  destruct (_ && _); [by apply send_raises|]. destruct (_ && _); [intros s; by apply send_raises|].
  destruct (_ && _); [|by apply send_raises].
  apply raises_bind; [apply answers_raises, request_answers|]. intros r. by apply send_raises.
Qed.

Definition good_response (out : http_out) : Prop := forall b, out = Sent b ->
  framed b \/
  (b = health_response /\ exists ls body, read_reply b = Some (ls, body) /\ declared ls = Some (Z.of_nat (length body) + 3)).

Lemma send_framed b : framed b -> returns good_response (send_response b).
Proof. intros H. repeat split. intros d b' [= <-]. by left. Qed.

Lemma returns_then {A B} (P : A -> Prop) (Q : B -> Prop) (p : prog service exn A) (k : A -> prog service exn B) :
  returns P p -> (forall a, P a -> returns Q (k a)) -> returns Q (bind p k).
Proof. intros Hp H. induction p as [[a|e]|upd next IH fail IHf|upd next IH]; simpl in *; destruct_and?; split_and?; auto. Qed.

(** Responses are framed.  Whatever bytes arrive and whatever fails, the handler
    ends by closing the connection, by one response whose declared length is that
    of its body (the health check alone declares three bytes more than it sends), or
    by an exception of the connection or of an unreadable request line. *)
Theorem replies_framed job input faults s (H : no_cr CONTENT_TYPE_LATEST = true) :
  match run_result (handle job input) faults s with
  | Ok out => good_response out
  | Err e => escapes input e
  end.
Proof.
  assert (returns good_response (handle job input)) as Hr.
  { unfold http_handler. apply returns_bind. intros [[line rest]|]; [|done].
    destruct (split_ws _ _) as [|m [|p ?]]; [by intros b|by intros b|].
    destruct (_ && _); [repeat split; intros d b [= <-]; right; split; [done|]; by eexists _, _|].
    destruct (_ && _); [intros d; by apply send_framed, metrics_framed|].
    destruct (_ && _); [|by apply send_framed, error_framed].
    apply (returns_then framed); [apply request_framed|]. intros r Hr. by apply send_framed. }
  destruct (run_result _ faults s) eqn:E; [by eapply returns_run|].
  eapply raises_run; [apply handle_raises|exact E].
Qed.

(** *** The gauge *)

Definition same_active (s s' : service) : Prop := bs_active s' = bs_active s.

(** Text is refused for the dates, so no row is written and nothing after the
    insert is reached. *)
Lemma insert_refused job lic (a b : string) m :
  exists e, insert_result uuid_of job lic (TextParam a) (TextParam b) m = raise e.
Proof. unfold insert_result. destruct (uuid_of lic); by eexists. Qed.

Lemma backtest_steps (R : service -> service -> Prop) job lic a b :
  (forall s, R s s) -> (forall s, R s (add_started s)) -> (forall s, R s (add_error s)) -> steps_in R (backtest job lic a b).
Proof.
  intros H0 H1 H2. split; [done|]. intros _. cbn [ret bind fst]. apply steps_in_try; [|by repeat split].
  apply steps_in_bind; [unfold parse_date; by repeat case_match|intros ?].
  apply steps_in_bind; [unfold parse_date; by repeat case_match|intros ?].
  apply steps_in_bind; [by destruct lic|intros ?]. apply steps_in_bind; [by repeat split|intros ?].
  apply steps_in_bind; [unfold license_uuid; by repeat case_match|intros l].
  apply steps_in_bind; [by repeat split|intros [|x xs]; [done|]]. apply steps_in_bind; [by repeat split|intros ?].
  destruct (backtest_metrics _ _ _) as [m|]; [|done].
  apply steps_in_bind; [by destruct a|intros sa]. apply steps_in_bind; [by destruct b|intros sb].
  by destruct (insert_refused job l.1 sa sb m) as [e ->].
Qed.

Lemma backtest_active job lic a b : steps_in same_active (backtest job lic a b).
Proof. by apply backtest_steps. Qed.

Lemma request_owes job rest : owes bs_active 0 (request job rest).
Proof.
  apply owes_try; [done|]. unfold query, stmt. cbn [bind].
  split; [intros d; rewrite Z.sub_diag, Z.sub_0_r; cbn [ret bind fst]|done].
  change 0 with (0 + 0) at 1. apply owes_bind; [by right| |by destruct (read_body rest)].
  intros body. change 0 with (0 + 0) at 1. apply owes_bind; [by right| |by destruct (_ ≫= loads) as [[]|]].
  intros data. cbn zeta. destruct (negb _); [done|]. intros s. cbn [ret bind add_active bs_active].
  replace (0 - (bs_active s + 1 - bs_active s)) with (0 + (-1)) by lia.
  apply owes_bind; [left; apply backtest_answers| |].
  - intros o s'. cbn. lia.
  - apply owes_steps, backtest_active.
Qed.

Lemma send_owes b : owes bs_active 0 (send_response b).
Proof. split; [intros s; cbn; lia|done]. Qed.

Lemma handle_owes job input : owes bs_active 0 (handle job input).
Proof.
  unfold http_handler, query, stmt. cbn [bind]. split; [intros d; rewrite Z.sub_diag, Z.sub_0_r; cbn [ret bind fst]|done].
  destruct (read_text input) as [[line rest]|]; [|done]. destruct (split_ws _ _) as [|m [|p ?]]; try done.
  destruct (_ && _); [apply send_owes|]. destruct (_ && _); [intros s; rewrite Z.sub_diag; apply send_owes|].
  destruct (_ && _); [|apply send_owes].
  change 0 with (0 + 0). apply owes_bind; [by right|intros r; apply send_owes|apply request_owes].
Qed.

Definition finished {A} (p : prog service exn A) : bool := match p with Done _ => true | _ => false end.

(** C37: the gauge of running backtests does not drift.  However many requests are
    served at once, however their statements interleave and whatever fails (the
    database, and the connections, read and written), when all handlers have ended
    the gauge is back where it was; and the only exceptions a handler ends with are
    the loss of its connection and, before anything was done, a request line that is
    too long or not UTF-8: no failure of a backtest escapes. *)
Theorem gauge_balanced (requests : list (string * bytes)) ps d d'
  (Hs : rtc istep (map (fun r => handle r.1 r.2) requests, d) (ps, d'))
  (Hf : forallb finished ps = true) :
  bs_active d' = bs_active d /\
  Forall2 (fun r p => (exists out, p = Done (Ok out)) \/ (exists e, p = Done (Err e) /\ escapes r.2 e)) requests ps.
Proof.
  split.
  - destruct (interleave_owes bs_active (map (fun r => handle r.1 r.2) requests) ps (map (fun _ => 0) requests) d d') as (ns & Hn & E); [|done|].
    { clear Hs. induction requests as [|r rs IH]; constructor; [apply handle_owes|done]. }
    assert (owed (map (fun _ => 0) requests) = 0) as E0 by (clear; induction requests as [|? ? IH]; [done|exact IH]).
    assert (owed ns = 0) as E1; [|lia]. clear -Hn Hf. revert Hf. induction Hn as [|n p ns ps Hp _ IH]; [done|].
    cbn [forallb]. intros [H1 H2]%andb_true_iff. cbn [owed foldr]. fold (owed ns). rewrite IH by done. destruct p; [|done..]. simpl in Hp. lia.
  - apply (interleave_raises (fun r : string * bytes => escapes r.2) requests) in Hs.
    + induction Hs as [|r p rs ps Hp _ IH]; [constructor|]. cbn [forallb] in Hf. apply andb_true_iff in Hf as [H1 H2].
      constructor; [|by apply IH]. destruct p as [[out|e]|? ? ?|? ?]; try done; [left; by exists out|right; by exists e].
    + clear. induction requests as [|r rs IH]; constructor; [apply handle_raises|done].
Qed.

(** *** No backtest is recorded *)

Definition same_records (s s' : service) : Prop :=
  bs_db s' = bs_db s /\ bs_results s' = bs_results s /\ bs_completed s' = bs_completed s.

Lemma same_records_refl : reflexive _ same_records.
Proof. done. Qed.
Lemma same_records_trans : transitive _ same_records.
Proof. intros a b c (? & ? & ?) (? & ? & ?). unfold same_records. split_and!; congruence. Qed.

Lemma backtest_uncompleted job lic a b :
  returns (fun o => match o with Completed _ => False | _ => True end) (backtest job lic a b).
Proof.
  intros ?. cbn [ret bind fst]. apply returns_try; [|by intros e s]. do 4 (apply returns_bind; intros ?). apply returns_bind; intros l.
  apply returns_bind; intros [|x xs]; [done|]. apply returns_bind; intros ?. destruct (backtest_metrics _ _ _) as [m|]; [|done].
  apply returns_bind; intros sa. apply returns_bind; intros sb. by destruct (insert_refused job l.1 sa sb m) as [e ->].
Qed.

(** No backtest is ever recorded.  The dates are bound as text to DATE columns,
    which the driver refuses: whatever the request and whatever fails, no result
    row is written, the counter of completed backtests stays and no request is told
    of a completed backtest with figures; an undisturbed request over a period with
    signals reports a failure, one over a period without signals an empty success. *)
Theorem backtest_never_recorded job lic a b faults s :
  (exists o, run_result (backtest job lic a b) faults s = Ok o /\ forall m, o <> Completed m) /\
  bs_results (run_state (backtest job lic a b) faults s) = bs_results s /\
  bs_completed (run_state (backtest job lic a b) faults s) = bs_completed s /\
  (forall text n start end_ ta tb, lic = PStr text -> uuid_of text = Some n -> a = PStr ta -> b = PStr tb ->
     strptime_ymd ta = Some start -> strptime_ymd tb = Some end_ ->
     run_result (backtest job lic a b) [] s =
       Ok (match signals_between n start end_ s with [] => NoSignals | _ => Failed DataError end) /\
     bs_errors (run_state (backtest job lic a b) [] s) =
       bs_errors s + match signals_between n start end_ s with [] => 0 | _ => 1 end).
Proof.
  destruct (run_steps_in same_records (backtest job lic a b) faults s same_records_refl same_records_trans) as (_ & Hr & Hc).
  { by apply backtest_steps. }
  split_and!; try done.
  - destruct (answers_run _ faults s (backtest_answers job lic a b)) as [o E]. exists o. split; [done|].
    pose proof (returns_run _ _ faults s o (backtest_uncompleted job lic a b) E) as H. intros m ->. done.
  - intros text n start end_ ta tb -> Hu -> -> Ha Hb. unfold run_backtest, run_result, run_state.
    cbn [act bind run ret parse_date]. rewrite Ha, Hb. cbn [ret bind exec stmt run try_]. unfold license_uuid. rewrite Hu.
    cbn [ret bind query stmt try_ run fst snd]. change (signals_between n start end_ (add_started s)) with (signals_between n start end_ s).
    destruct (signals_between n start end_ s) as [|x xs]; [cbn; split; [done|lia]|].
    cbn [ret bind query stmt try_ run fst snd]. unfold backtest_metrics. cbn [length Nat.eqb].
    destruct (pnl_loop _ _) as [[[gross wins] losses] values]. cbn [ret bind query stmt try_ run fst snd].
    unfold insert_result. rewrite Hu. cbn. split; [done|lia].
Qed.

End Facts.

(** ** Requests as a client writes them *)

Definition line_end : string := string_of_bytes crlf.

(** A line the reader accepts: UTF-8, no line feed inside, within the limit. *)
Definition fits (h : string) : bool :=
  wf_str (h +:+ line_end) && forallb (fun b => negb (bool_decide (b = LF))) (encode_utf8 h) &&
  Nat.leb (length (encode_utf8 h)) (LIMIT - 1).

(** Neither blank nor about the length. *)
Definition other_header (h : string) : Prop :=
  let t := strip (h +:+ line_end) in
  fits h = true /\ t <> ""%string /\
  match split_once ":"%char (chars_of t) with
  | Some (key, _) => lower (string_of_chars key) <> "content-length"%string
  | None => True
  end.

Lemma until_lf_app l rest : forallb (fun b => negb (bool_decide (b = LF))) l = true ->
  until_lf (l ++ crlf ++ rest) = (l ++ [CR], Some rest).
Proof.
  induction l as [|b l IH]; [done|]. cbn [forallb]. intros [Hb Hl]%andb_true_iff. cbn [app until_lf].
  case_bool_decide; [done|]. by rewrite IH.
Qed.

Lemma read_text_line h rest : fits h = true -> read_text (encode_utf8 h ++ crlf ++ rest) = Some (strip (h +:+ line_end), rest).
Proof.
  intros [[H1 H2]%andb_true_iff H3%Nat.leb_le]%andb_true_iff. unfold read_text, readline. rewrite until_lf_app by done.
  assert (Nat.ltb LIMIT (length (encode_utf8 h ++ [CR])) = false) as ->.
  { apply Nat.ltb_ge. rewrite length_app. cbn [length]. unfold LIMIT in *. lia. }
  cbn [mbind option_bind]. rewrite <-app_assoc.
  replace (encode_utf8 h ++ [CR] ++ [LF]) with (encode_utf8 (h +:+ line_end)) by (by rewrite encode_app).
  by rewrite decode_encode.
Qed.

Definition head_of (headers : list string) : bytes := concat (map (fun h => encode_utf8 h ++ crlf) headers).

Lemma header_line h n rest headers : fits h = true -> strip (h +:+ line_end) <> ""%string ->
  forall fuel, read_headers (S fuel) n (head_of (h :: headers) ++ rest) =
    (n' ← header_length (strip (h +:+ line_end)) n; read_headers fuel n' (head_of headers ++ rest)).
Proof.
  intros Hf Hn fuel. cbn [read_headers head_of map concat]. rewrite <-!app_assoc, read_text_line by done.
  cbn [mbind option_bind]. by rewrite bool_decide_false.
Qed.

Lemma other_headers hs : Forall other_header hs -> forall n fuel rest, (length hs <= fuel)%nat ->
  read_headers fuel n (head_of hs ++ rest) = read_headers (fuel - length hs) n rest.
Proof.
  induction 1 as [|h hs (Hf & Hn & Hk) _ IH]; intros n fuel rest Hl; [by rewrite Nat.sub_0_r|].
  destruct fuel as [|fuel]; simpl in Hl; [lia|]. rewrite header_line by done.
  assert (header_length (strip (h +:+ line_end)) n = Some n) as ->.
  { unfold header_length. destruct (split_once _ _) as [[key v]|]; [|done]. by rewrite bool_decide_false. }
  cbn [mbind option_bind]. rewrite IH by lia. done.
Qed.

Lemma length_line_strip body : strip (length_line body +:+ line_end) = length_line body.
Proof.
  destruct (pretty_digits (length body)) as [Hd Hne]. unfold strip, strip_chars.
  rewrite <-(string_of_chars_of (length_line body)) at 2. f_equal.
  unfold length_line. rewrite !chars_of_app. rewrite (lstrip_fixed ((_ ++ _) ++ _)) by reflexivity. rewrite !rev_app_distr.
  change (rev (chars_of line_end)) with [ascii_of_nat 10; ascii_of_nat 13]. cbn [app lstrip].
  change (is_space (ascii_of_nat 10)) with true. change (is_space (ascii_of_nat 13)) with true. cbn iota.
  rewrite lstrip_fixed.
  - by rewrite rev_app_distr, !rev_involutive.
  - destruct (rev (chars_of (pretty (length body)))) as [|c l] eqn:E.
    { apply (f_equal (@rev _)) in E. rewrite rev_involutive in E. done. }
    cbn [app]. rewrite forallb_forall in Hd. apply digit_plain, Hd, in_rev. rewrite E. by left.
Qed.

Lemma length_line_header body n : header_length (length_line body) n = Some (Z.of_nat (length body)).
Proof.
  unfold header_length. assert (split_once ":"%char (chars_of (length_line body)) =
    Some (chars_of "Content-Length", " "%char :: chars_of (pretty (length body)))) as ->.
  { unfold length_line. rewrite chars_of_app. reflexivity. }
  rewrite bool_decide_true by reflexivity. unfold strip. rewrite chars_of_string_of. destruct (pretty_digits (length body)) as [Hd _].
  assert (strip_chars (" "%char :: chars_of (pretty (length body))) = chars_of (pretty (length body))) as ->.
  { unfold strip_chars. cbn [lstrip]. change (is_space " ") with true. cbn iota. fold (strip_chars (chars_of (pretty (length body)))).
    by apply strip_digits. }
  rewrite string_of_chars_of. apply parse_pretty.
Qed.

(** The body of a request arrives whole.  After the request line, a client's
    headers in any order around one Content-Length line, the empty line and the
    body, whatever follows: the handler reads exactly the body. *)
Theorem body_round_trip pre post body rest
  (Hpre : Forall other_header pre) (Hpost : Forall other_header post) (Hl : fits (length_line body) = true) :
  read_body (head_of (pre ++ length_line body :: post) ++ crlf ++ body ++ rest) = Some body.
Proof.
  unfold read_body. set (l := head_of _ ++ _).
  assert (length (pre ++ length_line body :: post) <= length l)%nat as Hlen.
  { subst l. rewrite (length_app (head_of _)). assert (forall hs, length hs <= length (head_of hs))%nat as K; [|etrans; [apply K|lia]].
    induction hs as [|h hs IH]; [done|]. cbn [head_of map concat length]. fold (head_of hs). rewrite !length_app. cbn. lia. }
  rewrite length_app in Hlen. cbn [length] in Hlen.
  assert (head_of (pre ++ length_line body :: post) = head_of pre ++ head_of (length_line body :: post)) as Ea.
  { unfold head_of. by rewrite map_app, concat_app. }
  subst l. rewrite Ea, <-app_assoc in *. rewrite other_headers by (done || lia).
  match goal with |- context [read_headers ?f] => destruct f as [|fuel] eqn:E; [lia|] end. rewrite header_line; [|done|by rewrite length_line_strip].
  rewrite length_line_strip, length_line_header. cbn [mbind option_bind]. rewrite other_headers by (done || lia).
  match goal with |- context [read_headers ?f] => destruct f as [|fuel'] eqn:E'; [lia|] end. cbn [read_headers].
  change (read_text (crlf ++ body ++ rest)) with (Some (""%string, body ++ rest)). cbn [mbind option_bind].
  rewrite bool_decide_true by done. cbn [mbind option_bind]. destruct (Z.ltb_spec 0 (Z.of_nat (length body))) as [Hb|Hb].
  - cbn zeta. rewrite Nat2Z.id. assert (Nat.ltb (length (body ++ rest)) (length body) = false) as ->.
    { apply Nat.ltb_ge. rewrite length_app. lia. }
    by rewrite take_app_length.
  - destruct body; [done|]. simpl in Hb. lia.
Qed.

(** ** A service with one signal *)

Module BtDemo.
Definition uuid (s : string) : option nat := if bool_decide (s = "lic"%string) then Some 7%nat else None.
Definition repr (_ : spec_float) : bytes := encode_utf8 "0.0".
Definition text (_ : exn) : string := "error".
Definition signal : accepted :=
  mk_accepted 1 (1704153600 * 1000000000)%N 7 None "trace" "eu" "buy" "EURUSD" (PDict []) None.
Definition start : service := mk_service (on_accepted (fun _ => [signal]) empty_db) [] 0 0 0 0.
Definition body : bytes :=
  encode_utf8 (dumps repr (PDict [("license_id", PStr "lic"); ("date_start", PStr "2024-01-01"); ("date_end", PStr "2024-01-31")]%string)).
Definition handle := http_handler uuid repr text 0 "text/plain" (fun _ => []).
Definition posts : list (string * bytes) :=
  [("job"%string, encode_utf8 "POST /backtest HTTP/1.1" ++ crlf ++ head_of [length_line body] ++ crlf ++ body)].
End BtDemo.

Lemma body_round_trip_witness :
  read_body (head_of ["Host: localhost"%string; length_line BtDemo.body; "Accept: */*"%string] ++ crlf ++ BtDemo.body ++ [LF]) =
  Some BtDemo.body.
Proof.
  apply (body_round_trip ["Host: localhost"%string] ["Accept: */*"%string] BtDemo.body [LF]); [| |vm_compute; reflexivity].
  - constructor; [|constructor]. split_and!; [vm_compute; reflexivity|discriminate|]. vm_compute. discriminate.
  - constructor; [|constructor]. split_and!; [vm_compute; reflexivity|discriminate|]. vm_compute. discriminate.
Defined.

Lemma replies_framed_witness : exists b, run_result (BtDemo.handle "job" (BtDemo.posts !!! 0%nat).2) [] BtDemo.start = Ok (Sent b) /\
  framed b.
Proof.
  pose proof (replies_framed BtDemo.uuid BtDemo.repr BtDemo.text 0 "text/plain" (fun _ => []) "job" (BtDemo.posts !!! 0%nat).2 []
    BtDemo.start eq_refl) as K.
  eexists. split; [vm_compute; reflexivity|]. vm_compute (run_result _ _ _) in K.
  destruct (K _ eq_refl) as [H1|[H1 _]]; [exact H1|]. vm_compute in H1. discriminate H1.
Defined.

(** Two requests at once, turn by turn; the second client is gone when its response
    is sent. *)
Definition both : list (string * bytes) := BtDemo.posts ++ BtDemo.posts.
Definition schedule : list (nat * bool) :=
  concat (repeat [(0, false); (1, false)]%nat 9) ++ [(0, false); (1, true)]%nat.
Definition served := fold_left pick schedule (map (fun r => BtDemo.handle r.1 r.2) both, BtDemo.start).

Lemma gauge_balanced_witness : forallb finished served.1 = true /\ bs_errors served.2 = 2 /\ bs_active served.2 = bs_active BtDemo.start /\
  map (fun p => match p with Done (Err e) => Some e | _ => None end) served.1 = [None; Some ConnectionLost].
Proof.
  destruct (gauge_balanced BtDemo.uuid BtDemo.repr BtDemo.text 0 "text/plain" (fun _ => []) both served.1 BtDemo.start served.2) as [H1 H2].
  - rewrite <-surjective_pairing. apply sched_rtc.
  - vm_compute. reflexivity.
  - split_and!; [vm_compute; reflexivity|vm_compute; reflexivity|exact H1|vm_compute; reflexivity].
Defined.
