(* ===== verification/Backfill.v ===== *)
(** * Backfill: the transaction log and the import into the trade store

    scripts/_txnlog.py ([log_txn]: one JSON object per line), the readers of those
    files (_iter_jsonl of scripts/_tradestore.py, _read_one and _read_txn of
    scripts/trade_dashboard.py) and the commands backfill and stats of
    scripts/_tradestore.py.

    A file is its text, [None] when it cannot be read.  Rotation and purging of the
    files are the logging library's and the file system's.  [iso] is the ISO text of
    a Unix time, [sorted_files] the files in the order [sorted(glob(...))] gives. *)

From Stdlib Require Import ZArith SpecFloat QArith Ascii Strings.Byte.
From S2P Require Import Prelude Text PyFloat PyVal Json Prog Db EaShim TradeStore Dashboard DashReport DashTrades.
Open Scope Z_scope.

(** ** JSON lines *)

Definition newline : ascii := ascii_of_nat 10.

Section Lines.
Context {F : Type} {A : Arith F} (float_repr : F -> bytes).

Definition parse_line (l : chars) : option (pyval F) :=
  match strip_chars l with [] => None | l' => loads (string_of_chars l') end.

(** Blank lines and lines that are not JSON are skipped. *)
Definition parse_jsonl (text : chars) : list (pyval F) := omap parse_line (lines_of text []).

Definition _iter_jsonl (files : list (option string)) : list (pyval F) :=
  concat (map (fun f => match f with Some t => parse_jsonl (chars_of t) | None => [] end) files).

(** [{"ts": now, **fields}]. *)
Definition txn_record (now : string) (fields : pydict F) : pydict F :=
  fold_left (fun d kv => dict_set d kv.1 kv.2) fields [("ts"%string, PStr now)].

(** What [log_txn] appends to its file. *)
Definition log_txn (now : string) (fields : pydict F) (text : chars) : chars :=
  text ++ chars_of (dumps float_repr (PDict (txn_record now fields))) ++ [newline].

(** ** The dashboard's cache of parsed files *)

(** Path, size, modification time and records. *)
Record cached := mk_cached { ca_path : string; ca_size : Z; ca_mtime : Z; ca_records : list (pyval F) }.

(** A file that exists: its path, size, time and text ([None] when unreadable). *)
Record log_file := mk_file { lg_path : string; lg_size : Z; lg_mtime : Z; lg_text : option string }.

Definition cache_get (cache : list cached) (path : string) : option cached :=
  List.find (fun c => bool_decide (ca_path c = path)) cache.

Definition cache_put (cache : list cached) (c : cached) : list cached :=
  c :: List.filter (fun c' => negb (bool_decide (ca_path c' = ca_path c))) cache.

Definition _read_one (cache : list cached) (f : log_file) : list (pyval F) * list cached :=
  match cache_get cache (lg_path f) with
  | Some c =>
      if (ca_size c =? lg_size f) && (ca_mtime c =? lg_mtime f) then (ca_records c, cache)
      else match lg_text f with
           | None => ([], cache)
           | Some t => let rs := parse_jsonl (chars_of t) in (rs, cache_put cache (mk_cached (lg_path f) (lg_size f) (lg_mtime f) rs))
           end
  | None => match lg_text f with
            | None => ([], cache)
            | Some t => let rs := parse_jsonl (chars_of t) in (rs, cache_put cache (mk_cached (lg_path f) (lg_size f) (lg_mtime f) rs))
            end
  end.

(** The rotated files in order, then the current one. *)
Fixpoint _read_txn (cache : list cached) (files : list log_file) : list (pyval F) * list cached :=
  match files with
  | [] => ([], cache)
  | f :: fs =>
      let '(rs, cache) := _read_one cache f in
      let '(rest, cache) := _read_txn cache fs in
      (rs ++ rest, cache)
  end.

End Lines.

(** ** Backfill *)

Section Backfill.
Context {F : Type} {A : Arith F} (float_repr : F -> bytes).
Context (source_chats now : string) (iso : Z -> string).

Abbreviation store X := (prog (sdb F) exn X).

Definition _cmd_field (body key : string) : string :=
  let p := (key +:+ "=")%string in
  match List.find (fun part => startswith part p) (split ","%char body) with
  | Some part => string_of_chars (partition_eq (chars_of part)).2
  | None => ""%string
  end.

Definition _as_float (v : pyval F) : option F :=
  match v with
  | PNone => None
  | PStr s => if bool_decide (s = ""%string) then None else parse_float s
  | _ => to_float v
  end.

(** [r.get(k)] and [r.get(k) or None]. *)
Definition item (r : pydict F) (k : string) : pyval F := default PNone (dict_get r k).
Definition item_or_none (r : pydict F) (k : string) : pyval F := py_or (item r k) PNone.

(** The arguments of [record_order]; an error where SQLite refuses a value. *)
Definition order_of_record (r : pydict F) : result exn (ord_row F) :=
  let! trace := bind_text float_repr (item r "trace_id") in
  let! command := bind_text float_repr (item r "command") in
  let! symbol := bind_text float_repr (item r "symbol") in
  let! status := bind_text float_repr (item r "status") in
  let! broker := bind_text float_repr (item_or_none r "broker_order_id") in
  let! comment := bind_text float_repr (item_or_none r "comment") in
  let! error := bind_text float_repr (item_or_none r "error") in
  Ok (mk_ord now (default ""%string trace) (Some "tradingview"%string) command symbol
        (_as_float (item r "risk")) (_as_float (item r "volume")) (_as_float (item r "sl")) (_as_float (item r "tp"))
        (_as_float (item r "entry")) status broker comment error).

Definition skipped (r : pydict F) : bool :=
  negb (truthy (item r "trace_id")) || is_text "position_closed" (item r "event").

(** A record that is not an object raises. *)
Fixpoint _backfill_mt5_fills (records : list (pyval F)) : store Z :=
  match records with
  | [] => ret 0
  | PDict r :: rs =>
      if skipped r then _backfill_mt5_fills rs
      else
        match order_of_record r with
        | Ok row => record_order source_chats now row
        | Err _ => swrite source_chats now (fun d => d)
        end ;;;
        n <- _backfill_mt5_fills rs ;;
        ret (n + 1)
  | _ :: _ => raise AttributeError
  end.

(** The row written for one closed position. *)
Definition backfill_row (magic : Z) (ins : list (deal F)) (pos_id : Z) (out_deals : list (deal F)) : option (closed_row F) :=
  let out_deals := by_time out_deals in
  match head (rev out_deals) with
  | None => None
  | Some l =>
      let in_deals := by_time ins in
      let tot_vol := py_sum (map dl_volume in_deals) in
      Some (mk_closed (pretty pos_id) (iso (dl_time l)) (dl_symbol l)
        (match dl_type l with DealBuy => "sell" | _ => "buy" end)
        (f_round 4 (py_sum (map dl_volume out_deals)))
        (match in_deals with
         | [] => None
         | _ => if f_truthy tot_vol
                then Some (f_round 5 (f_quot (py_sum (map (fun x => (dl_price x * dl_volume x)%pyf) in_deals)) tot_vol))
                else None end)
        (dl_price l) (f_round 2 (py_sum (map deal_net out_deals))) (dl_magic l) (Some (dl_comment l))
        (if dl_magic l =? magic then "tradingview" else "other"))
  end.

Definition backfill_rows (magic : Z) (deals : list (deal F)) : list (closed_row F) :=
  let '(ins, outs) := fold_left sort_deal deals ([], []) in
  omap (fun kl => backfill_row magic (bin ins kl.1) kl.1 kl.2) outs.

Fixpoint write_closed (rows : list (closed_row F)) : store unit :=
  match rows with [] => ret tt | r :: rs => record_closed_trade source_chats now r ;;; write_closed rs end.

(** [None]: the package or the terminal is not available. *)
Definition _backfill_mt5_closed (magic : Z) (deals : option (list (deal F))) : store Z :=
  match deals with
  | None => ret 0
  | Some deals => let rows := backfill_rows magic deals in
                  write_closed rows ;;; ret (Z.of_nat (length rows))
  end.

Definition backfill (sorted_files : list (option string)) (magic : Z) (deals : option (list (deal F))) : store (Z * Z) :=
  orders <- _backfill_mt5_fills (_iter_jsonl sorted_files) ;;
  closed <- _backfill_mt5_closed magic deals ;;
  ret (orders, closed).

(** Row counts; [None] for a table that cannot be read. *)
Definition count_table {X} (name : string) (f : sdb F -> list X) : store (string * option nat) :=
  try_ (n <- query StoreError (fun d => length (f d)) ;; ret (name, Some n)) (fun _ => ret (name, None)).

Definition stats : store (list (string * option nat)) :=
  ok <- get_conn source_chats now ;;
  if ok then
    a <- count_table "signals" s_signals ;;
    b <- count_table "orders" s_orders ;;
    c <- count_table "closed_trades" s_closed ;;
    e <- count_table "equity_snapshots" s_equity ;;
    ret [a; b; c; e]
  else ret [].

End Backfill.

(** ** Reading back what was logged *)

Section Logged.
Context {F : Type} {A : Arith F} (float_repr : F -> bytes).

Definition printable (b : byte) : Prop := (32 <= byte_val b <= 126)%N.

Lemma hex_printable n : (n < 16)%N -> printable (hex_digit n).
Proof. intros H. unfold printable, hex_digit. destruct (N.ltb_spec n 10); rewrite byte_val_of by lia; lia. Qed.

Lemma u_escape_printable n : (n < 0x10000)%N -> Forall printable (u_escape n).
Proof.
  intros H. unfold u_escape. repeat apply List.Forall_cons; try apply List.Forall_nil; try (by unfold printable; cbn; lia);
    apply hex_printable; try (apply N.mod_lt; lia). apply N.Div0.div_lt_upper_bound. lia.
Qed.

Lemma escape_printable p : point_ok p -> Forall printable (escape_point p).
Proof.
  intros Hp. unfold escape_point. destruct (short_escape p) as [b|] eqn:E.
  - repeat apply List.Forall_cons; [by unfold printable; cbn; lia| |constructor]. unfold short_escape in E.
    repeat match type of E with context [if ?x then _ else _] => destruct x end; try discriminate E; injection E as <-; unfold printable; cbn; lia.
  - destruct ((32 <=? p) && (p <=? 126))%N eqn:E2.
    + apply andb_true_iff in E2 as [H1%N.leb_le H2%N.leb_le]. constructor; [|constructor]. unfold printable. rewrite byte_val_of by lia. lia.
    + destruct (N.ltb_spec p 0x10000); [by apply u_escape_printable|]. unfold point_ok in Hp.
      apply Forall_app. split; apply u_escape_printable.
      * assert ((p - 0x10000) / 1024 < 1024)%N by (apply N.Div0.div_lt_upper_bound; lia). lia.
      * pose proof (N.mod_lt (p - 0x10000) 1024). lia.
Qed.

Lemma dump_str_printable s : wf_str s = true -> Forall printable (dump_str s).
Proof.
  intros H. unfold dump_str. constructor; [unfold printable; cbn; lia|]. apply Forall_app. split; [|repeat constructor; unfold printable; cbn; lia].
  destruct (points_spell _ _ H) as (_ & Hp & _). fold (points (encode_utf8 s)) in Hp.
  induction Hp as [|p ps Hp _ IH]; [constructor|]. simpl. apply Forall_app. split; [by apply escape_printable|done].
Qed.

Lemma sep_printable l : Forall (Forall printable) l -> Forall printable (sep_by comma_space l).
Proof.
  induction 1 as [|x l Hx Hl IH]; [constructor|]. destruct l as [|y l]; [done|]. cbn [sep_by].
  apply Forall_app. split; [done|]. apply Forall_app. split; [|done]. repeat constructor; unfold printable; cbn; lia.
Qed.

(** Well-formed text throughout, and numbers whose [repr] is printable. *)
Fixpoint prints (v : pyval F) : Prop :=
  match v with
  | PFloat f => Forall printable (float_repr f)
  | PStr s => wf_str s = true
  | PList l => (fix all l := match l with [] => True | x :: l' => prints x /\ all l' end) l
  | PDict d => (fix all d := match d with [] => True | (k, x) :: d' => wf_str k = true /\ prints x /\ all d' end) d
  | _ => True
  end.

Lemma digits_printable ds : forallb is_digit ds = true -> Forall printable ds.
Proof.
  intros H. apply Forall_forall. intros b Hb. rewrite forallb_forall in H. specialize (H b Hb).
  unfold is_digit in H. apply andb_true_iff in H as [H1%N.leb_le H2%N.leb_le]. unfold printable. lia.
Qed.

Lemma float_text_printable t : float_text t -> Forall printable t.
Proof.
  intros (neg & b & ip & fr & ex & -> & Hd & _ & Hf & He & _).
  repeat (apply Forall_app; split).
  - destruct neg; repeat constructor; unfold printable; cbn; lia.
  - by apply digits_printable.
  - destruct Hf as [->|(ds & -> & Hds & _)]; [constructor|].
    constructor; [unfold printable; cbn; lia|by apply digits_printable].
  - destruct He as [->|(sign & ds & -> & Hs & Hds & _)]; [constructor|].
    constructor; [unfold printable; cbn; lia|]. apply Forall_app. split; [|by apply digits_printable].
    rewrite !elem_of_cons in Hs. destruct Hs as [->|[->|[->|[]%not_elem_of_nil]]];
      repeat constructor; unfold printable; cbn; lia.
Qed.

Lemma json_ok_prints v : json_ok float_repr v -> prints v.
Proof.
  induction v as [|b|z|f|s|l IH|d IH] using pyval_deep_ind; try done.
  - intros [H _]. by apply float_text_printable.
  - cbn. induction IH as [|x l Hx _ IHl]; [done|]. intros [H1 H2]. split; [auto|exact (IHl H2)].
  - cbn. intros [_ H]. induction IH as [|[k x] d Hx _ IHd]; [done|]. destruct H as (H1 & H2 & H3). split_and!; [done|auto|exact (IHd H3)].
Qed.

Lemma dump_printable v : prints v -> Forall printable (dump float_repr v).
Proof.
  induction v as [|b|z|f|s|l IH|d IH] using pyval_deep_ind; intros Hok; cbn [dump].
  - repeat constructor; unfold printable; cbn; lia.
  - destruct b; repeat constructor; unfold printable; cbn; lia.
  - unfold dump_int. apply Forall_app. split; [destruct (z <? 0); repeat constructor; unfold printable; cbn; lia|].
    set (n := Z.to_N (Z.abs z)). destruct (digits_loop_spells _ n [] (size_nat_bound n)) as (ds & E & [Hd _ _] & _).
    rewrite E, app_nil_r. by apply digits_printable.
  - exact Hok.
  - by apply dump_str_printable.
  - constructor; [unfold printable; cbn; lia|]. apply Forall_app.
    split; [|repeat constructor; unfold printable; cbn; lia]. apply sep_printable. cbn in Hok.
    induction IH as [|x l Hx _ IHl]; [constructor|]. destruct Hok as [H1 H2]. simpl. constructor; [auto|exact (IHl H2)].
  - constructor; [unfold printable; cbn; lia|]. apply Forall_app.
    split; [|repeat constructor; unfold printable; cbn; lia]. apply sep_printable. cbn in Hok.
    induction IH as [|[k x] d Hx _ IHd]; [constructor|]. destruct Hok as (W & K & H3). cbn [map fst snd]. constructor; [|exact (IHd H3)].
    apply Forall_app. split; [by apply dump_str_printable|]. apply Forall_app. split; [repeat constructor; unfold printable; cbn; lia|auto].
Qed.

Lemma dumps_no_break v : prints v -> forallb (fun c => negb (line_break c)) (chars_of (dumps float_repr v)) = true.
Proof.
  intros Hok%dump_printable. unfold dumps, chars_of, string_of_bytes, String.string_of_list_byte.
  rewrite String.list_ascii_of_string_of_list_ascii. induction Hok as [|b l Hb _ IH]; [done|].
  cbn [map forallb]. rewrite IH, andb_true_r. clear -Hb. unfold printable in Hb. destruct b; cbn in *; done || lia.
Qed.

Lemma lines_app a c b : forall cur, line_break c = true -> lines_of (a ++ c :: b) cur = lines_of a cur ++ lines_of b [].
Proof.
  induction a as [|x a IH]; intros cur Hc; simpl; [by rewrite Hc|]. destruct (line_break x); by rewrite IH.
Qed.

Lemma lines_single a : forall cur, forallb (fun c => negb (line_break c)) a = true -> lines_of a cur = [rev cur ++ a].
Proof.
  induction a as [|x a IH]; intros cur H; simpl in *; [by rewrite app_nil_r|]. bool_hyps. rewrite H, IH by done.
  simpl. by rewrite <-app_assoc.
Qed.

Lemma parse_app a b : parse_jsonl (F := F) (a ++ newline :: b) = parse_jsonl a ++ parse_jsonl b.
Proof. unfold parse_jsonl. rewrite lines_app by done. apply omap_app. Qed.

Lemma chars_of_bytes d : chars_of (string_of_bytes d) = map Ascii.ascii_of_byte d.
Proof. unfold chars_of, string_of_bytes, String.string_of_list_byte. apply String.list_ascii_of_string_of_list_ascii. Qed.

Lemma printable_char b : printable b -> is_space (Ascii.ascii_of_byte b) = true -> b = " "%byte.
Proof. unfold printable. destruct b; cbn; intros; done || lia. Qed.

(** A line of text that neither starts nor ends with a space. *)
Lemma strip_braces l : strip_chars ("{"%char :: l ++ ["}"%char]) = "{"%char :: l ++ ["}"%char].
Proof.
  unfold strip_chars. cbn [lstrip is_space]. change (is_space "{"%char) with false. cbn [rev].
  rewrite rev_app_distr. cbn [rev app lstrip]. change (is_space "}"%char) with false.
  cbn [rev app]. rewrite rev_app_distr, rev_involutive. done.
Qed.

Lemma parse_dumped d : json_ok float_repr (PDict d) -> parse_jsonl (chars_of (dumps float_repr (PDict d))) = [PDict d].
Proof.
  intros Hok. unfold parse_jsonl. rewrite lines_single.
  - cbn [rev app]. unfold omap. cbn [list_omap]. unfold parse_line.
    assert (exists l, chars_of (dumps float_repr (PDict d)) = "{"%char :: l ++ ["}"%char]) as (l & E).
    { unfold dumps. rewrite chars_of_bytes. cbn [dump map]. rewrite map_app. by eexists. }
    rewrite E, strip_braces, <-E, string_of_chars_of. by rewrite loads_dumps.
  - by apply dumps_no_break, json_ok_prints.
Qed.

(** C34: the transaction log reads back.  Records of any nesting whose texts are well
    formed, whose keys are distinct and whose floats are finite and have a text
    [float.__repr__] gives (a decimal that [float] reads back as the same value) are
    logged one after the other to a fresh file: a reader of the file gets exactly
    those records, in order, each with its time; no value breaks a line, none is
    skipped. *)
Theorem txn_log_roundtrip (entries : list (string * pydict F))
  (Hok : Forall (fun e => json_ok float_repr (PDict (txn_record e.1 e.2))) entries) :
  _iter_jsonl [Some (string_of_chars (fold_left (fun text e => log_txn float_repr e.1 e.2 text) entries []))] =
  map (fun e => PDict (txn_record e.1 e.2)) entries.
Proof.
  unfold _iter_jsonl. cbn [map concat]. rewrite app_nil_r, chars_of_string_of.
  assert (forall text, text = [] \/ (exists a, text = a ++ [newline]) ->
    parse_jsonl (fold_left (fun text e => log_txn float_repr e.1 e.2 text) entries text) =
    parse_jsonl text ++ map (fun e => PDict (txn_record e.1 e.2)) entries) as K; [|by rewrite K by (by left)].
  induction Hok as [|e entries He Hok IH]; intros text Ht; [by rewrite app_nil_r|]. cbn [fold_left map].
  rewrite IH by (right; unfold log_txn; rewrite app_assoc; by eexists).
  cut (parse_jsonl (log_txn float_repr e.1 e.2 text) = parse_jsonl text ++ [PDict (txn_record e.1 e.2)]);
    [by intros ->; rewrite <-app_assoc|]. unfold log_txn.
  destruct Ht as [->|[a ->]].
  - cbn [app]. rewrite parse_app, parse_dumped by done. done.
  - rewrite <-app_assoc. cbn [app]. rewrite !parse_app, parse_dumped by done. by rewrite !app_nil_r.
Qed.

End Logged.

(** ** The cache is transparent *)

Section Cache.
Context {F : Type} {A : Arith F}.

Definition file_records (f : log_file) : list (pyval F) :=
  match lg_text f with Some t => parse_jsonl (chars_of t) | None => [] end.

(** An entry whose size and time match the file holds the file's records. *)
Definition up_to_date (cache : list cached) (f : log_file) : Prop :=
  forall c, cache_get cache (lg_path f) = Some c -> ca_size c = lg_size f -> ca_mtime c = lg_mtime f ->
    ca_records c = file_records f.

Lemma cache_get_put cache c path : cache_get (F := F) (cache_put cache c) path =
  if bool_decide (ca_path c = path) then Some c else cache_get cache path.
Proof.
  unfold cache_put, cache_get. simpl. case_bool_decide as E; [done|].
  induction cache as [|c' cache IH]; [done|]. simpl. case_bool_decide as E'; simpl; [|by case_bool_decide].
  rewrite (bool_decide_false (ca_path c' = path)) by congruence. exact IH.
Qed.

Lemma read_one_spec cache f : up_to_date cache f ->
  (_read_one cache f).1 = file_records f /\
  forall g, lg_path g <> lg_path f -> up_to_date cache g -> up_to_date (_read_one cache f).2 g.
Proof.
  intros Hf.
  assert (forall rs, (match lg_text f with
     | None => ([], cache)
     | Some t => let rs := parse_jsonl (chars_of t) in (rs, cache_put cache (mk_cached (lg_path f) (lg_size f) (lg_mtime f) rs))
     end) = rs -> rs.1 = file_records f /\ forall g, lg_path g <> lg_path f -> up_to_date cache g -> up_to_date rs.2 g) as Miss.
  { intros rs <-. unfold file_records. destruct (lg_text f) as [t|]; [|done]. split; [done|]. intros g Hg Hu c. cbn [snd].
    rewrite cache_get_put. cbn [ca_path]. rewrite bool_decide_false by done. apply Hu. }
  unfold _read_one. destruct (cache_get cache (lg_path f)) as [c|] eqn:E; [|by apply Miss].
  destruct ((ca_size c =? lg_size f) && (ca_mtime c =? lg_mtime f)) eqn:E2; [|by apply Miss].
  apply andb_true_iff in E2 as [H1%Z.eqb_eq H2%Z.eqb_eq]. split; [by apply Hf|done].
Qed.

(** The dashboard's cache is transparent: as long as a file whose size and
    modification time are unchanged has not changed, a request sees exactly what
    is in the files, rotated ones first. *)
Theorem txn_cache_transparent (files : list log_file) cache
  (Hnd : NoDup (map lg_path files)) (Hu : Forall (up_to_date cache) files) :
  (_read_txn cache files).1 = concat (map file_records files).
Proof.
  revert cache Hnd Hu. induction files as [|f files IH]; intros cache Hnd Hu; [done|]. cbn [_read_txn map concat].
  inversion_clear Hnd as [|? ? Hn Hnd']. inversion_clear Hu as [|? ? Hf Hfs].
  destruct (read_one_spec cache f Hf) as [E K]. destruct (_read_one cache f) as [rs cache'] eqn:E1. cbn [fst snd] in *.
  specialize (IH cache'). destruct (_read_txn cache' files) as [rest cache''] eqn:E2. cbn [fst] in *. subst rs. f_equal.
  apply IH; [done|]. apply list.Forall_forall. intros g Hg. apply K; [|by eapply (proj1 (list.Forall_forall _ _) Hfs)].
  intros Eq. apply Hn. rewrite <-Eq. by apply list_elem_of_fmap_2.
Qed.

End Cache.

(** ** The import computes what the dashboard shows *)

Section Agree.
Context {F : Type} {A : Arith F} (iso : Z -> string).

(** The stored row and the row of the page say the same. *)
Definition same_trade (c : closed_row F) (r : closed F) : Prop :=
  cls_position c = cp_ticket r /\ cls_ts c = iso (cp_time r) /\ cls_symbol c = cp_symbol r /\ cls_side c = cp_side r /\
  cls_volume c = cp_volume r /\ cls_entry c = cp_entry r /\ cls_price c = cp_close r /\ cls_profit c = cp_profit r /\
  cls_magic c = cp_magic r /\ cls_comment c = Some (cp_comment r) /\ cls_source c = cp_source r.

Lemma omap_related {X Y Y'} (R : Y -> Y' -> Prop) (f : X -> option Y) (g : X -> option Y') (l : list X) :
  (forall x, option_Forall2 R (f x) (g x)) -> Forall2 R (omap f l) (omap g l).
Proof.
  intros H. induction l as [|x l IH]; [constructor|]. unfold omap in *. cbn [list_omap].
  destruct (H x); [by constructor|done].
Qed.

(** The import and the dashboard agree.  From the same deals, the backfill stores one
    trade per row of the dashboard's closed positions, in the same order, with the
    same ticket, symbol, side, volume, entry and close price, profit, magic number,
    comment and source, whatever the arithmetic. *)
Theorem backfill_agrees_with_dashboard magic (deals : list (deal F)) :
  Forall2 same_trade (backfill_rows iso magic deals) (_group_closed magic deals).
Proof.
  unfold backfill_rows, _group_closed. destruct (fold_left sort_deal deals ([], [])) as [ins outs].
  apply omap_related. intros [k l]. unfold backfill_row, closed_of. cbn [fst snd].
  destruct (head (rev (by_time l))) as [d|]; constructor. unfold same_trade, _deal_source, _source_of. cbn.
  split_and!; try done.
Qed.

End Agree.

(** ** Importing again changes nothing

    A table of rows with a key, and an upsert whose merge [m new old] keeps the key
    of the old row and is a left-regular band: it is associative, [m r r = r], and a
    row merged again under another one adds nothing. *)
Section Band.
Context {R : Type} (key : R -> string) (m : R -> R -> R).
Context (key_m : forall a x, key x = key a -> key (m a x) = key x).
Context (assoc : forall a b c, key a = key c -> key b = key c -> m a (m b c) = m (m a b) c).
Context (idem : forall a, m a a = a).
Context (regular : forall a b x, key a = key x -> key b = key x -> m a (m b (m a x)) = m a (m b x)).

Definition same (a x : R) : bool := bool_decide (key x = key a).
Definition up (l : list R) (a : R) : list R := upsert (same a) (m a) a l.

(** What all the records of its key do to a row. *)
Definition absorb (recs : list R) (x : R) : R := fold_left (fun x a => if same a x then m a x else x) recs x.

Lemma absorb_key recs : forall x, key (absorb recs x) = key x.
Proof using key_m.
  induction recs as [|a recs IH]; intros x; [done|]. cbn [absorb fold_left]. fold (absorb recs).
  unfold same. case_bool_decide; [rewrite IH; by apply key_m|apply IH].
Qed.

(** A run of records of one key acts like a single one, or not at all. *)
Lemma absorb_one recs k :
  (forall x, key x = k -> absorb recs x = x) \/
  (exists w, key w = k /\ forall x, key x = k -> absorb recs x = m w x).
Proof using key_m assoc.
  induction recs as [|a recs IH] using rev_ind; [by left|].
  assert (forall x, absorb (recs ++ [a]) x = if same a (absorb recs x) then m a (absorb recs x) else absorb recs x) as E
    by (intros x; unfold absorb; by rewrite fold_left_app).
  destruct (decide (k = key a)) as [->|Hk].
  - right. destruct IH as [IH|(w & Hw & IH)].
    + exists a. split; [done|]. intros x Hx. rewrite E. unfold same. rewrite absorb_key, bool_decide_true, IH by done. done.
    + exists (m a w). split; [by rewrite key_m|]. intros x Hx. rewrite E. unfold same.
      rewrite absorb_key, bool_decide_true, IH by done. by apply assoc; congruence.
  - assert (forall x, key x = k -> absorb (recs ++ [a]) x = absorb recs x) as E2.
    { intros x Hx. rewrite E. unfold same. rewrite absorb_key, bool_decide_false by congruence. done. }
    destruct IH as [IH|(w & Hw & IH)]; [left|right; exists w; split; [done|]]; intros x Hx; rewrite E2; auto.
Qed.

Lemma up_present l a : (exists x, x ∈ l /\ key x = key a) -> up l a = map (fun x => if same a x then m a x else x) l.
Proof using Type.
  intros (x & Hx & Hk). unfold up, upsert. assert (existsb (same a) l = true) as ->; [|done].
  apply existsb_exists. exists x. split; [by apply list_elem_of_In|]. unfold same. by rewrite bool_decide_true.
Qed.

(** Once every key is there, a pass of upserts is a map. *)
Lemma pass_present recs : forall l, (forall a, a ∈ recs -> exists x, x ∈ l /\ key x = key a) ->
  fold_left up recs l = map (absorb recs) l.
Proof using key_m.
  induction recs as [|a recs IH]; intros l Hl; [symmetry; apply map_id|]. cbn [fold_left].
  rewrite up_present by (apply Hl; left). rewrite IH, map_map; [done|]. intros b Hb.
  destruct (Hl b) as (x & Hx & Hk); [by right|]. exists (if same a x then m a x else x). split; [by apply (list_elem_of_fmap_2 (fun x => if same a x then m a x else x))|].
  unfold same. case_bool_decide; [rewrite <-Hk; by apply key_m|done].
Qed.

(** After a pass, every key is there and every row has absorbed its records. *)
Lemma pass_settles recs l :
  (forall a, a ∈ recs -> exists x, x ∈ fold_left up recs l /\ key x = key a) /\
  (forall x, x ∈ fold_left up recs l -> absorb recs x = x).
Proof using key_m assoc idem regular.
  induction recs as [|a recs IH] using rev_ind; [split; [intros ? H; by apply not_elem_of_nil in H|done]|].
  rewrite fold_left_app. cbn [fold_left]. destruct IH as [Hk Hs]. set (l1 := fold_left up recs l) in *.
  assert (forall x, absorb (recs ++ [a]) x = if same a (absorb recs x) then m a (absorb recs x) else absorb recs x) as E
    by (intros x; unfold absorb; by rewrite fold_left_app).
  destruct (existsb (same a) l1) eqn:Hin.
  - assert (exists x, x ∈ l1 /\ key x = key a) as Ha.
    { apply existsb_exists in Hin as (x & Hx & Hsx). apply bool_decide_eq_true in Hsx. exists x. split; [by apply list_elem_of_In|done]. }
    rewrite up_present by done. split.
    + intros b Hb. assert (exists x, x ∈ l1 /\ key x = key b) as (x & Hx & Hkx).
      { apply elem_of_app in Hb as [Hb|Hb]; [by apply Hk|]. apply list_elem_of_singleton in Hb as ->. done. }
      exists (if same a x then m a x else x). split; [by apply (list_elem_of_fmap_2 (fun x => if same a x then m a x else x))|].
      unfold same. case_bool_decide; [rewrite <-Hkx; by apply key_m|done].
    + intros y (x & -> & Hx)%list_elem_of_fmap. specialize (Hs x Hx).
      destruct (same a x) eqn:Ek; [apply bool_decide_eq_true in Ek|apply bool_decide_eq_false in Ek]; rewrite E.
      * unfold same. rewrite absorb_key, key_m, bool_decide_true by done.
        destruct (absorb_one recs (key x)) as [H|(w & Hw & H)]; rewrite H by (by apply key_m); rewrite H in Hs by done.
        -- rewrite <-(idem a) at 3. by apply assoc; congruence.
        -- rewrite regular by congruence. by rewrite Hs.
      * rewrite Hs. unfold same. by rewrite bool_decide_false.
  - unfold up, upsert. rewrite Hin. assert (forall x, x ∈ l1 -> key x <> key a) as Habs.
    { intros x Hx Ek. assert (existsb (same a) l1 = true); [|congruence]. apply existsb_exists. exists x.
      split; [by apply list_elem_of_In|]. unfold same. by rewrite bool_decide_true. }
    split.
    + intros b Hb. apply elem_of_app in Hb as [Hb|Hb].
      * destruct (Hk b Hb) as (x & Hx & Hkx). exists x. split; [apply elem_of_app; by left|done].
      * apply list_elem_of_singleton in Hb as ->. exists a. split; [apply elem_of_app; right; left|done].
    + intros x Hx. rewrite E. apply elem_of_app in Hx as [Hx|Hx].
      * rewrite Hs by done. unfold same. by rewrite bool_decide_false by (by apply Habs).
      * apply list_elem_of_singleton in Hx as ->. unfold same. rewrite absorb_key, bool_decide_true by done.
        assert (absorb recs a = a) as ->; [|by apply idem].
        assert (forall b, b ∈ recs -> key a <> key b) as Hb by (intros b Hb Ek; destruct (Hk b Hb) as (x & Hx & Hkx); apply (Habs x Hx); congruence).
        clear -Hb. induction recs as [|b recs IH]; [done|]. cbn [absorb fold_left]. fold (absorb recs). unfold same.
        rewrite bool_decide_false by (apply Hb; left). apply IH. intros c Hc. apply Hb. by right.
Qed.

Lemma pass_twice recs l : fold_left up recs (fold_left up recs l) = fold_left up recs l.
Proof using key_m assoc idem regular.
  destruct (pass_settles recs l) as [Hk Hs]. rewrite pass_present by done.
  rewrite <-(map_id (fold_left up recs l)) at 2. apply map_ext_in. intros x Hx. apply Hs. by apply list_elem_of_In.
Qed.

End Band.

Section Rerun.
Context {F : Type} {A : Arith F} (float_repr : F -> bytes) (source_chats now : string) (iso : Z -> string).

Lemma coalesce_assoc {X} (a b c : option X) : coalesce a (coalesce b c) = coalesce (coalesce a b) c.
Proof. by destruct a. Qed.
Lemma coalesce_idem {X} (a : option X) : coalesce a a = a.
Proof. by destruct a. Qed.
Lemma coalesce_regular {X} (a b x : option X) : coalesce a (coalesce b (coalesce a x)) = coalesce a (coalesce b x).
Proof. by destruct a. Qed.

(** Orders: fields merge one by one. *)
Lemma orders_twice (rows : list (ord_row F)) l :
  fold_left (up ord_trace merge_order) rows (fold_left (up ord_trace merge_order) rows l) =
  fold_left (up ord_trace merge_order) rows l.
Proof.
  apply pass_twice; unfold merge_order.
  - done.
  - intros a b c _ _. cbn. by rewrite !coalesce_assoc.
  - intros []. cbn. by rewrite !coalesce_idem.
  - intros a b x _ _. cbn. by rewrite !coalesce_regular.
Qed.

(** Closed trades: the new row replaces the old one. *)
Lemma closed_twice (rows : list (closed_row F)) l :
  fold_left (up cls_position (fun a _ => a)) rows (fold_left (up cls_position (fun a _ => a)) rows l) =
  fold_left (up cls_position (fun a _ => a)) rows l.
Proof. by apply pass_twice. Qed.

(** The rows the import of the log writes, up to a record that is no object. *)
Fixpoint imported (records : list (pyval F)) : list (ord_row F) :=
  match records with
  | PDict r :: rs =>
      if skipped r then imported rs
      else match order_of_record float_repr now r with Ok row => row :: imported rs | Err _ => imported rs end
  | _ => []
  end.

Lemma ready_on_orders (d : sdb F) f : ready d -> ready (on_orders f d).
Proof. by intros [H1 H2 H3]. Qed.
Lemma ready_on_closed (d : sdb F) f : ready d -> ready (on_closed f d).
Proof. by intros [H1 H2 H3]. Qed.

Lemma fills_run records : exists res, forall d, ready d ->
  run (_backfill_mt5_fills float_repr source_chats now records) [] d =
  (res, on_orders (fun l => fold_left (up ord_trace merge_order) (imported records) l) d, []).
Proof.
  induction records as [|v records [res IH]]; [by exists (Ok 0); intros []|].
  destruct v as [| | | | | |r]; try (by exists (Err AttributeError); intros []). cbn [_backfill_mt5_fills imported].
  destruct (skipped r); [by exists res|].
  exists (match res with Ok n => Ok (n + 1) | Err e => Err e end). intros d Hr. rewrite run_bind.
  destruct (order_of_record float_repr now r) as [row|e].
  - unfold record_order. rewrite swrite_ready by done. rewrite run_bind, IH by (by apply ready_on_orders).
    destruct res; by destruct d.
  - rewrite swrite_ready by done. rewrite run_bind, IH by done. by destruct res.
Qed.

Lemma closed_run rows : forall d, ready d ->
  run (write_closed source_chats now rows) [] d =
  (Ok tt, on_closed (fun l => fold_left (up (R := closed_row F) cls_position (fun a _ => a)) rows l) d, []).
Proof.
  induction rows as [|r rows IH]; intros d Hr; [by destruct d|]. cbn [write_closed]. rewrite run_bind.
  unfold record_closed_trade. rewrite swrite_ready by done. rewrite IH by (by apply ready_on_closed). by destruct d.
Qed.

(** What the whole command does to an up-to-date store. *)
Lemma backfill_effect files magic deals : exists orders closed, forall d, ready d ->
  run_state (backfill float_repr source_chats now iso files magic deals) [] d =
  on_closed (fun l => fold_left (up cls_position (fun a _ => a)) closed l)
    (on_orders (fun l => fold_left (up ord_trace merge_order) orders l) d).
Proof.
  destruct (fills_run (_iter_jsonl files)) as [res Hf]. exists (imported (_iter_jsonl files)).
  exists (match res, deals with Ok _, Some ds => backfill_rows iso magic ds | _, _ => [] end).
  intros d Hr. unfold run_state, backfill. rewrite run_bind, Hf by done. destruct res as [n|e]; [|by destruct d].
  rewrite run_bind. unfold _backfill_mt5_closed. destruct deals as [ds|]; [|by destruct d].
  rewrite run_bind, closed_run by (by apply ready_on_orders). done.
Qed.

(** The import is safe to run again.  On an up-to-date store, with the same logs, the
    same deals and the same clock, a second backfill leaves the store exactly as the
    first one did, though it replays every record, also those of one order that
    overwrite each other; and it leaves signals, settings and snapshots alone. *)
Theorem backfill_rerun_safe files magic deals (d : sdb F) (Hr : ready d) :
  run_state (backfill float_repr source_chats now iso files magic deals) []
    (run_state (backfill float_repr source_chats now iso files magic deals) [] d) =
  run_state (backfill float_repr source_chats now iso files magic deals) [] d /\
  s_signals (run_state (backfill float_repr source_chats now iso files magic deals) [] d) = s_signals d /\
  s_meta (run_state (backfill float_repr source_chats now iso files magic deals) [] d) = s_meta d /\
  s_equity (run_state (backfill float_repr source_chats now iso files magic deals) [] d) = s_equity d.
Proof.
  destruct (backfill_effect files magic deals) as (orders & closed & E).
  rewrite (E d Hr). rewrite E by (by apply ready_on_closed, ready_on_orders). split_and!; try done.
  unfold on_closed, on_orders. cbn. by rewrite orders_twice, closed_twice.
Qed.

End Rerun.

(** ** Examples *)

Module BackfillDemo.
Definition repr (_ : Q) : bytes := [].
Definition iso (_ : Z) : string := "t".
Definition line (status : string) : pydict Q :=
  [("trace_id"%string, PStr "t-1"); ("status"%string, PStr status); ("command"%string, PStr "buy")].
Definition file (statuses : list string) : option string :=
  Some (string_of_chars (fold_left (fun text s => log_txn repr "t0" (line s) text) statuses [])).

(** The current file sorts before the rotated ones, so an order that was accepted
    before midnight and filled after it ends as accepted; and its time is that of
    the import. *)
Definition after_midnight : sdb Q :=
  run_state (backfill repr "" "import" iso [file ["filled"%string]; file ["accepted"%string]] 7 None) [] StoreDemo.db.
Example newest_file_first : map (fun o => (ord_status o, ord_ts o))
  (List.filter (fun o => bool_decide (ord_trace o = "t-1"%string)) (s_orders after_midnight)) =
  [(Some "accepted"%string, "import"%string)].
Proof. vm_compute. reflexivity. Qed.

(** A closed position in binary64, as the monitor logs it, and a float whose text
    has an exponent. *)
Definition num (t : string) : spec_float := default f_zero (parse_float t).
Definition repr64 (x : spec_float) : bytes :=
  encode_utf8 (default ""%string (List.find (fun t => f_eqb (num t) x) ["0.3"; "1.08452"; "-12.5"; "1e-05"]%string)).
Definition closed_line : pydict spec_float :=
  [("event", PStr "position_closed"); ("position", PInt 7); ("volume", PFloat (num "0.3"));
   ("close_price", PFloat (num "1.08452")); ("profit", PFloat (num "-12.5")); ("step", PFloat (num "1e-05"))]%string.

Lemma float_ok_of (neg : bool) b ip fr ex (x : spec_float)
  (t := (if neg then ["-"%byte] else []) ++ (b :: ip) ++ fr ++ ex) :
  bool_decide (repr64 x = t) && forallb is_digit (b :: ip) && (negb (Byte.eqb b "0") || bool_decide (ip = [])) = true ->
  (fr = [] \/ exists ds, fr = "."%byte :: ds /\ digit_text ds) ->
  (ex = [] \/ exists sign ds, ex = "e"%byte :: sign ++ ds /\ sign ∈ [[]; ["-"%byte]; ["+"%byte]] /\ digit_text ds) ->
  fr ++ ex <> [] -> parse_float (string_of_bytes t) = Some x -> float_ok repr64 x.
Proof.
  intros H Hf He Hn Hp. apply andb_true_iff in H as [[Ht%bool_decide_eq_true H1]%andb_true_iff H2].
  split; rewrite Ht; [|done]. exists neg, b, ip, fr, ex. split_and!; try done. intros ->. by apply bool_decide_eq_true in H2.
Qed.

Lemma closed_line_ok : json_ok repr64 (PDict (txn_record "t0" closed_line)).
Proof.
  apply json_ok_dict. split; [apply (bool_decide_unpack _); vm_compute; exact I|].
  assert (forall k (v : pyval spec_float), wf_str k = true -> json_ok repr64 v ->
    wf_str (k, v).1 = true /\ json_ok repr64 (k, v).2) as K by done.
  repeat apply List.Forall_cons; [..|apply List.Forall_nil]; (apply K; [vm_compute; reflexivity|]); try done.
  - apply (float_ok_of false "0" [] ["."; "3"]%byte []); [by vm_compute|right; by exists ["3"%byte]|by left|done|by vm_compute].
  - apply (float_ok_of false "1" [] ["."; "0"; "8"; "4"; "5"; "2"]%byte []);
      [by vm_compute|right; by exists ["0"; "8"; "4"; "5"; "2"]%byte|by left|done|by vm_compute].
  - apply (float_ok_of true "1" ["2"%byte] ["."; "5"]%byte []); [by vm_compute|right; by exists ["5"%byte]|by left|done|by vm_compute].
  - apply (float_ok_of false "1" [] [] ["e"; "-"; "0"; "5"]%byte); [by vm_compute|by left| |done|by vm_compute].
    right. exists ["-"%byte], ["0"; "5"]%byte. split_and!; [done|right; left|done..].
Qed.

Lemma txn_log_roundtrip_witness :
  _iter_jsonl (F := spec_float) [Some (string_of_chars (fold_left (fun text e => log_txn repr64 e.1 e.2 text)
     [("t0"%string, closed_line); ("t1"%string, [])] []))] =
  map (fun e => PDict (txn_record e.1 e.2)) [("t0"%string, closed_line); ("t1"%string, [])].
Proof.
  apply (txn_log_roundtrip repr64). apply List.Forall_cons; [exact closed_line_ok|].
  apply List.Forall_cons; [|apply List.Forall_nil].
  split; [apply (bool_decide_unpack _); vm_compute; exact I|repeat split].
Defined.
End BackfillDemo.

Lemma txn_cache_transparent_witness :
  (_read_txn (F := Q) [] [mk_file "a.log.1" 1 1 (BackfillDemo.file ["x"%string]); mk_file "a.log" 2 2 None]).1 =
  concat (map file_records [mk_file "a.log.1" 1 1 (BackfillDemo.file ["x"%string]); mk_file "a.log" 2 2 None]).
Proof.
  apply txn_cache_transparent.
  - simpl. repeat constructor; set_solver.
  - repeat constructor; intros c H; discriminate H.
Defined.

Lemma backfill_rerun_safe_witness :
  run_state (backfill BackfillDemo.repr "" "import" BackfillDemo.iso [BackfillDemo.file ["accepted"; "filled"]%string] 7 (Some TradesDemo.deals)) []
    (run_state (backfill BackfillDemo.repr "" "import" BackfillDemo.iso [BackfillDemo.file ["accepted"; "filled"]%string] 7 (Some TradesDemo.deals)) [] StoreDemo.db) =
  run_state (backfill BackfillDemo.repr "" "import" BackfillDemo.iso [BackfillDemo.file ["accepted"; "filled"]%string] 7 (Some TradesDemo.deals)) [] StoreDemo.db.
Proof. apply backfill_rerun_safe. exact StoreDemo.db_ready. Defined.
