(* ===== verification/TxnLog.v ===== *)
(** * TxnLog: the rotating transaction log files

    scripts/_txnlog.py: the purge of stale files at start-up, the rotation that
    tolerates a locked file, and the logger registry.  The rotating handler of the
    Standard Library ([TimedRotatingFileHandler] of Python 3.11, the version the
    local stack asks for) is modelled as far as the script relies on it: [emit] rolls
    over when the time is due, opens the file if it is not open, then appends the
    record; an exception inside drops the record.  What the file system refuses, at
    any of these operations, is an argument. *)

From Stdlib Require Import ZArith Sorting.Sorted Sorting.Mergesort Orders.
From S2P Require Import Prelude Text PyFloat PyVal Backfill.
Open Scope Z_scope.

Definition RETENTION_DAYS : Z := 7.

(** ** Stale files *)

(** Name and modification time of a file of the log directory; [locked] files
    cannot be examined or removed. *)
Definition _purge_old (name : string) (now : Z) (locked : string -> bool) (files : list (string * Z))
  : list (string * Z) :=
  let cutoff := now - RETENTION_DAYS * 86400 in
  List.filter (fun f => negb (startswith f.1 (name +:+ ".log.")%string && (f.2 <? cutoff) && negb (locked f.1))) files.

(** ** Rotation *)

Definition day : Z := 86400.

(** The next midnight UTC after [now]. *)
Definition computeRollover (now : Z) : Z := (now / day + 1) * day.

(** How far the library's rotation comes: a refused removal of the file that has the
    day's name already, rename of the current file, removal of an expired file, or
    opening of the new file ends it with an [OSError]. *)
Inductive rotation := Rotated | RemoveRefused | RenameRefused | DeleteRefused | OpenRefused.

(** The current file (absent before it is opened), the rotated files by the day of
    their suffix, whether the stream is open, and the next rollover. *)
Record handler := mk_handler {
  h_base : option chars; h_old : list (Z * chars); h_open : bool; h_rollover : Z }.

Module DayOrder <: TotalLeBool.
Definition t := (Z * chars)%type.
Definition leb (a b : t) : bool := a.1 <=? b.1.
Lemma leb_total (a b : t) : leb a b = true \/ leb b a = true.
Proof. unfold leb. rewrite !Z.leb_le. lia. Qed.
End DayOrder.
Module DaySort := Sort DayOrder.

(** The rotated files that the backup count keeps. *)
Definition keep_newest (old : list (Z * chars)) : list (Z * chars) :=
  let sorted := DaySort.sort old in drop (length sorted - Z.to_nat RETENTION_DAYS) sorted.

(** [_open]: creates the file when there is none. *)
Definition open_file (h : handler) : handler :=
  mk_handler (Some (default [] (h_base h))) (h_old h) true (h_rollover h).

(** The day of the suffix the current file is rotated to. *)
Definition suffix_of (h : handler) : Z := (h_rollover h - day) / day.

(** [os.remove] of the file of that suffix. *)
Definition remove_dated (h : handler) : handler :=
  mk_handler (h_base h) (List.filter (fun f => negb (f.1 =? suffix_of h)) (h_old h)) (h_open h) (h_rollover h).

(** [rotate]: nothing to rename without a current file. *)
Definition rename (h : handler) : handler :=
  match h_base h with
  | None => h
  | Some text => mk_handler None ((suffix_of h, text) :: h_old h) (h_open h) (h_rollover h)
  end.

Definition delete_expired (h : handler) : handler :=
  mk_handler (h_base h) (keep_newest (h_old h)) (h_open h) (h_rollover h).

Definition close_stream (h : handler) : handler := mk_handler (h_base h) (h_old h) false (h_rollover h).

Definition set_rollover (now : Z) (h : handler) : handler :=
  mk_handler (h_base h) (h_old h) (h_open h) (computeRollover now).

(** [TimedRotatingFileHandler.doRollover]; [false] when an [OSError] escapes. *)
Definition stock_rollover (now : Z) (f : rotation) (can_open : bool) (h : handler) : bool * handler :=
  let h := close_stream h in
  match f with
  | RemoveRefused => (false, h)
  | RenameRefused => (false, remove_dated h)
  | DeleteRefused => (false, rename (remove_dated h))
  | OpenRefused => (false, delete_expired (rename (remove_dated h)))
  | Rotated => (true, set_rollover now (open_file (delete_expired (rename (remove_dated h)))))
  end.

(** [_SafeTimedRotatingFileHandler.doRollover]; [can_open]: whether the file system
    lets its own [_open] succeed.  A refused one escapes before the next rollover is
    set. *)
Definition doRollover (now : Z) (f : rotation) (can_open : bool) (h : handler) : bool * handler :=
  let '(ok, h) := stock_rollover now f can_open h in
  if ok then (true, h)
  else if h_open h then (true, set_rollover now h)
  else if can_open then (true, set_rollover now (open_file h))
  else (false, h).

(** [emit]: an escaping exception drops the record; so does a refused write. *)
Definition emit_with (roll : Z -> rotation -> bool -> handler -> bool * handler) (now : Z) (f : rotation)
    (can_open can_write : bool) (line : chars) (h : handler) : handler :=
  let '(ok, h) := if h_rollover h <=? now then roll now f can_open h else (true, h) in
  if ok && (h_open h || can_open) then
    let h := if h_open h then h else open_file h in
    if can_write then mk_handler (Some (default [] (h_base h) ++ line ++ [newline])) (h_old h) (h_open h) (h_rollover h)
    else h
  else h.

Definition emit_record := emit_with doRollover.

(** ** Loggers *)

(** The log directory and the configured loggers, one handler each. *)
Record logging_state := mk_logging { l_files : list (string * Z); l_loggers : list (string * handler) }.

Definition new_handler (now : Z) : handler := open_file (mk_handler None [] false (computeRollover now)).

Definition get_txn_logger (name : string) (now : Z) (locked : string -> bool) (st : logging_state) : logging_state :=
  let files := _purge_old name now locked (l_files st) in
  if existsb (fun l => bool_decide (l.1 = name)) (l_loggers st) then mk_logging files (l_loggers st)
  else mk_logging files ((name, new_handler now) :: l_loggers st).

(** ** Properties *)

Lemma computeRollover_after now : now < computeRollover now.
Proof.
  unfold computeRollover, day. pose proof (Z.div_mod now 86400 ltac:(lia)).
  pose proof (Z.mod_pos_bound now 86400 ltac:(lia)). lia.
Qed.

(** The newest file is never expired. *)
Lemma keep_newest_max d text old : (forall f, f ∈ old -> f.1 < d) -> (d, text) ∈ keep_newest ((d, text) :: old).
Proof.
  intros H. unfold keep_newest. set (sorted := DaySort.sort ((d, text) :: old)).
  assert (Permutation ((d, text) :: old) sorted) as HP by apply DaySort.Permuted_sort.
  assert (StronglySorted (fun a b => is_true (DayOrder.leb a b)) sorted) as HS.
  { apply DaySort.StronglySorted_sort. intros a b c. unfold DayOrder.leb, is_true. rewrite !Z.leb_le. lia. }
  assert ((d, text) ∈ sorted) as Hin by (rewrite <-HP; by left).
  apply list_elem_of_split in Hin as (l1 & l2 & E). rewrite E in *.
  assert (l2 = []) as ->.
  { destruct l2 as [|y l2]; [done|]. exfalso.
    assert (d <= y.1) as Hle.
    { clear -HS. induction l1 as [|z l1 IH]; simpl in HS; apply StronglySorted_inv in HS as [HS Hf]; [|by apply IH].
      apply Forall_inv in Hf. unfold is_true, DayOrder.leb in Hf. by apply Z.leb_le in Hf. }
    assert (y ∈ old) as Hy; [|specialize (H y Hy); lia].
    assert (Permutation old (l1 ++ y :: l2)) as ->; [|set_solver].
    apply (Permutation_cons_inv (a := (d, text))). rewrite HP. symmetry. apply Permutation_middle. }
  assert (length (l1 ++ [(d, text)]) - Z.to_nat RETENTION_DAYS <= length l1)%nat as Hl.
  { rewrite length_app. cbn. unfold RETENTION_DAYS. lia. }
  rewrite drop_app_le by done. set_solver.
Qed.

Lemma keep_newest_bound old : (length (keep_newest old) <= Z.to_nat RETENTION_DAYS)%nat.
Proof. unfold keep_newest. rewrite length_drop. lia. Qed.

(** The file can be written: it is open and stays so, or is opened anew. *)
Definition reachable (now : Z) (f : rotation) (can_open : bool) (h : handler) : bool :=
  can_open || (if h_rollover h <=? now then match f with Rotated => true | _ => false end else h_open h).

(** Where the text of a current file is after the rotation: still there, or under its
    day. *)
Definition kept (text : chars) (h h' : handler) : Prop :=
  (exists more, h_base h' = Some (text ++ more)) \/ (suffix_of h, text) ∈ h_old h'.

(** After the rename there is no current file, and its text is under its day, also
    among the newest files. *)
Lemma renamed h : let h1 := rename (remove_dated (close_stream h)) in
  h_base h1 = None /\ h_open h1 = false /\
  ((forall o, o ∈ h_old h -> o.1 <= suffix_of h) -> forall text, h_base h = Some text ->
     (suffix_of h, text) ∈ h_old h1 /\ (suffix_of h, text) ∈ keep_newest (h_old h1)).
Proof.
  unfold rename. cbn [remove_dated close_stream h_base]. destruct (h_base h) as [text|] eqn:E; cbn -[keep_newest]; [|done].
  split; [done|]. split; [done|]. intros Hmax text' [= <-]. split; [by left|].
  apply keep_newest_max. intros o Ho. apply list_elem_of_In, filter_In in Ho as [Ho Hne]. apply list_elem_of_In in Ho.
  specialize (Hmax o Ho). apply negb_true_iff, Z.eqb_neq in Hne. unfold suffix_of in *. cbn in *. lia.
Qed.

(** What the override leaves behind at a rollover. *)
Lemma doRollover_cases now f can_open h :
  let '(ok, h') := doRollover now f can_open h in
  ok = (can_open || match f with Rotated => true | _ => false end) /\
  (ok = true -> h_open h' = true /\ h_rollover h' = computeRollover now /\ exists text, h_base h' = Some text /\
     (text = default [] (h_base h) \/ text = [])) /\
  (ok = false -> h_base h' = h_base h \/ h_base h' = None) /\
  ((forall o, o ∈ h_old h -> o.1 <= suffix_of h) -> forall text, h_base h = Some text -> kept text h h').
Proof.
  destruct (renamed h) as (Rb & Ro & Rk). unfold doRollover, stock_rollover. revert Rb Ro Rk.
  generalize (rename (remove_dated (close_stream h))). intros h1 Rb Ro Rk.
  assert (forall h', h_base h' = Some (default [] (h_base h)) \/ h_base h' = h_base h ->
    forall text, h_base h = Some text -> kept text h h') as Ksame.
  { intros h' E text Ht. rewrite Ht in E. left. exists []. rewrite app_nil_r. by destruct E as [->| ->]. }
  destruct f; cbn [orb].
  - (* Rotated *) cbn -[keep_newest]. rewrite orb_true_r, Rb. split_and!; [done|intros _; split_and!; [done..|]|done|].
    + eexists. split; [done|]. by right.
    + intros Hmax text E. right. by apply Rk.
  - (* RemoveRefused *) rewrite orb_false_r. destruct can_open; cbn; split_and!; try done; auto.
    intros _. split_and!; [done..|]. eexists. split; [done|]. by left.
  - (* RenameRefused *) rewrite orb_false_r. destruct can_open; cbn; split_and!; try done; auto.
    intros _. split_and!; [done..|]. eexists. split; [done|]. by left.
  - (* DeleteRefused *) rewrite orb_false_r, Ro. destruct can_open; cbn; rewrite Rb; split_and!; try done; auto;
      try (intros Hmax text E; right; by apply Rk).
    intros _. split_and!; [done..|]. eexists. split; [done|]. by right.
  - (* OpenRefused *) rewrite orb_false_r. cbn [delete_expired h_open]. rewrite Ro.
    destruct can_open; cbn -[keep_newest]; rewrite Rb; split_and!; try done; auto;
      try (intros Hmax text E; right; by apply Rk).
    intros _. split_and!; [done..|]. eexists. split; [done|]. by right.
Qed.

(** C40: the transaction log drops a record only when its file cannot be opened or
    written.  Whatever the file system refuses of a rotation at midnight (removing
    the day's file, renaming, removing an expired file, opening the new one), when
    the write is granted and the file is open or can be opened, the record is the
    last line of the current file, what stands before it is what the file held or
    nothing, and the next rollover lies ahead; otherwise the record is nowhere.  Either
    way the text the file held is still in it or whole under its day, if no rotated
    file is of a later day; and a completed rotation leaves at most seven rotated
    files.  The library's own handler, while the rename is refused, drops record
    after record. *)
Theorem log_drops_only_unwritable now f can_open can_write line h :
  let h' := emit_record now f can_open can_write line h in
  (reachable now f can_open h = true -> can_write = true ->
     (exists before, h_base h' = Some (before ++ line ++ [newline]) /\ (before = default [] (h_base h) \/ before = [])) /\
     now < h_rollover h') /\
  (reachable now f can_open h = false \/ can_write = false ->
     default [] (h_base h') = default [] (h_base h) \/ default [] (h_base h') = []) /\
  ((forall o, o ∈ h_old h -> o.1 <= suffix_of h) -> forall text, h_base h = Some text -> kept text h h') /\
  (h_rollover h <= now -> f = Rotated -> (length (h_old h') <= Z.to_nat RETENTION_DAYS)%nat) /\
  (h_rollover h <= now -> forall lines,
     h_base (fold_left (fun h line => emit_with stock_rollover now RenameRefused true true line h) lines h) = h_base h).
Proof.
  cbn zeta. unfold emit_record, emit_with, reachable.
  assert (h_rollover h <= now -> forall lines,
     h_base (fold_left (fun h line => emit_with stock_rollover now RenameRefused true true line h) lines h) = h_base h) as Hstock.
  { intros Hd lines. revert h Hd. induction lines as [|x lines IH]; intros h Hd; [done|]. cbn [fold_left].
    assert (emit_with stock_rollover now RenameRefused true true x h = remove_dated (close_stream h)) as ->
      by (unfold emit_with; by rewrite (proj2 (Z.leb_le _ _))). by rewrite IH. }
  destruct (Z.leb_spec (h_rollover h) now) as [Hd|Hd].
  2: { destruct (h_open h) eqn:Eo; cbn [andb orb]; rewrite ?orb_true_r, ?orb_false_r, ?Eo.
    - split_and!; try lia; [|by destruct can_write; cbn; auto; intros [|]|].
      + intros _ ->. cbn. split; [|done]. eexists. split; [done|]. by left.
      + intros _ text E. left. destruct can_write; cbn; rewrite ?E; [by eexists|exists []; by rewrite app_nil_r].
    - split_and!; try lia.
      + intros -> ->. cbn. split; [|done]. eexists. split; [done|]. by left.
      + intros [->| ->]; cbn; [by left|]. destruct can_open; cbn; by left.
      + intros _ text E. left. destruct can_open, can_write; cbn; rewrite ?E; first [by eexists|exists []; by rewrite app_nil_r]. }
  pose proof (doRollover_cases now f can_open h) as K. pose proof (computeRollover_after now) as Hn.
  assert (h_rollover h <= now -> f = Rotated -> h_old (doRollover now f can_open h).2 = keep_newest (h_old (rename (remove_dated (close_stream h))))) as Hr
    by (by intros _ ->).
  destruct (doRollover now f can_open h) as [ok h1]. destruct K as (-> & H1 & H2 & H3). cbn [snd] in Hr.
  destruct (can_open || _) eqn:Er; cbn [andb].
  - destruct (H1 eq_refl) as (Ho & Hro & text1 & E1 & Hb). rewrite Ho. cbn [orb]. split_and!; try done.
    + intros _ ->. cbn. rewrite E1, Hro. split; [|done]. eexists. split; [done|]. done.
    + intros [|E0]; [done|subst can_write]. rewrite E1. cbn. destruct Hb; auto.
    + intros Hmax text E. destruct (H3 Hmax text E) as [(more & E2)|Hin].
      * left. destruct can_write; cbn; rewrite E2; cbn; [|by eexists]. rewrite <-app_assoc. by eexists.
      * right. by destruct can_write.
    + intros _ Hf. specialize (Hr Hd Hf). assert (h_old (if can_write then mk_handler (Some (default [] (h_base h1) ++ line ++ [newline])) (h_old h1) (h_open h1) (h_rollover h1) else h1) = h_old h1) as -> by (by destruct can_write).
      rewrite Hr. apply keep_newest_bound.
  - split_and!; try done.
    + intros _. destruct (H2 eq_refl) as [-> | ->]; auto.
    + intros _ ->. by rewrite orb_true_r in Er.
Qed.

(** A day lost: the rename succeeds and both opens are refused, so the next rollover
    is not moved; with the next record the library removes the file of that day as
    one to be replaced, and there is nothing to replace it with. *)
Example refused_open_loses_the_day (text line1 line2 : chars) :
  let h := mk_handler (Some text) [] true day in
  let h1 := emit_record day OpenRefused false true line1 h in
  let h2 := emit_record (day + 1) Rotated true true line2 h1 in
  h_old h1 = [(0, text)] /\ h_old h2 = [] /\ h_base h2 = Some (line2 ++ [newline]).
Proof. by vm_compute. Qed.

(** A midnight on which the rename is refused: the record follows what the file held. *)
Lemma log_drops_only_unwritable_witness :
  let h := mk_handler (Some [newline]) [] true day in
  let h' := emit_record day RenameRefused true true [newline] h in
  kept [newline] h h' /\ exists before, h_base h' = Some (before ++ [newline] ++ [newline]).
Proof.
  destruct (log_drops_only_unwritable day RenameRefused true true [newline] (mk_handler (Some [newline]) [] true day)) as (H & _ & K & _).
  destruct (H eq_refl eq_refl) as ((before & E & _) & _). split; [|by exists before].
  apply K; [|done]. intros o Ho. by apply not_elem_of_nil in Ho.
Defined.

(** The start-up purge removes exactly the rotated files of this log that are
    older than the retention and not locked, and configuring a log twice never
    gives it a second handler. *)
Theorem txn_logger_setup name now locked st f :
  let st' := get_txn_logger name now locked st in
  (f ∈ l_files st' <-> f ∈ l_files st /\
     ~ (startswith f.1 (name +:+ ".log.")%string = true /\ f.2 < now - 7 * 86400 /\ locked f.1 = false)) /\
  l_loggers (get_txn_logger name now locked st') = l_loggers st'.
Proof.
  cbn zeta. split.
  - unfold get_txn_logger. match goal with |- context [if ?b then _ else _] => replace (l_files (if b then _ else _))
      with (_purge_old name now locked (l_files st)) by (by destruct b) end.
    unfold _purge_old, RETENTION_DAYS. rewrite !list_elem_of_In, filter_In, negb_true_iff, !andb_false_iff, negb_false_iff, Z.ltb_ge.
    destruct (startswith f.1 _), (locked f.1); intuition (try done; try lia).
  - unfold get_txn_logger. destruct (existsb _ (l_loggers st)) eqn:E; cbn [l_loggers]; [by rewrite E|].
    cbn [existsb fst]. by rewrite bool_decide_true.
Qed.
