(* ===== verification/Session.v ===== *)
(** * Session: the executor's connection to the bridge

    scripts/ea_shim.py, from [init_mt5] to [main]: the start-up check, one
    WebSocket session (register, heartbeats, signals, pings) and the reconnect
    loop around it, next to the position monitor's thread.  A signal goes through
    [EaShim.execute]; its fill is sent to the bridge, written to the transaction log
    and recorded in the trade store, in this order.

    What the peer does is the input: the frames it sends with the time each is
    handled, the wake-ups of the heartbeat tasks, what other writers (the monitor's
    thread, the dashboard) do to the trade store and the transaction log between two
    frames, and how the connection ends.  The terminal is shared by the two threads
    call by call: [shared] lets it make an arbitrary move before every call a thread
    makes, and [interleaved] puts the calls of the threads in any common order.
    Opening the connection and every [ws.send] are statements that may fail;
    the store's statements fail as in TradeStore; a transaction log that cannot
    be written is ignored by the logging library. *)

From Stdlib Require Import ZArith QArith Ascii.
From S2P Require Import Prelude Text PyFloat PyVal Prog EaShim Json TradeStore Backfill.
Open Scope Z_scope.

(** What ends a session, or the process ([Exit]). *)
Inductive sess_exn := ConnectionError | BadJson | InCode (e : exn) | Exit.

(** A frame with the clock at its handling; the [i]-th heartbeat task waking up; a
    change of the trade store and new log lines by somebody else. *)
Inductive input (F : Type) :=
| Frame (now raw : string)
| Beat (i : nat) (uptime : Z)
| Elsewhere (change : sdb F -> sdb F) (lines : chars).
Arguments Frame {F}. Arguments Beat {F}. Arguments Elsewhere {F}.

Inductive ending := CloseOk | CloseError.

Section Session.
Context {F : Type} {A : Arith F} {T : Type} (B : Broker F T).
(** [mt5.initialize], and the library's numbers of the return codes. *)
Context (initialize : T -> bool * T) (retcode_num : retcode -> Z).
(** The library's float texts: [repr] and [:g]. *)
Context (float_repr : F -> bytes) (py_str : pyval F -> string) (fmt_g : F -> string).
Context (MAGIC : Z) (PENDING_FALLBACK : bool) (RISK_USD : F).
Context (INSTANCE_ID BRIDGE_TOKEN source_chats : string).
Open Scope pyf_scope.

(** ** State *)

(** The terminal with the requests sent so far, the messages sent to the bridge,
    the text of the transaction log, the trade store, which heartbeat tasks of the
    current session are alive, and the terminal at the start of the monitor's
    thread, once it is started. *)
Record world := mk_world {
  w_shim : state F T; w_out : list (pydict F); w_log : chars; w_db : sdb F; w_tasks : list bool;
  w_monitor : option T }.

Definition put_shim s w := mk_world s (w_out w) (w_log w) (w_db w) (w_tasks w) (w_monitor w).
Definition push_out m w := mk_world (w_shim w) (w_out w ++ [m]) (w_log w) (w_db w) (w_tasks w) (w_monitor w).
Definition put_log l w := mk_world (w_shim w) (w_out w) l (w_db w) (w_tasks w) (w_monitor w).
Definition put_db d w := mk_world (w_shim w) (w_out w) (w_log w) d (w_tasks w) (w_monitor w).
Definition put_tasks t w := mk_world (w_shim w) (w_out w) (w_log w) (w_db w) t (w_monitor w).
Definition put_monitor t w := mk_world (w_shim w) (w_out w) (w_log w) (w_db w) (w_tasks w) (Some t).

Abbreviation sess X := (prog world sess_exn X).

(** ** Effects *)

(** The frame on the wire is the JSON text of the message. *)
Definition frame_text (m : pydict F) : string := dumps float_repr (PDict m).

Definition send_msg (m : pydict F) : sess unit :=
  stmt ConnectionError (fun w => (tt, push_out m w)).

Definition in_shim {X} (m : shim F T X) : sess X :=
  Act (fun w => put_shim (snd (m (w_shim w))) w)
      (fun w => Done (match fst (m (w_shim w)) with Ok x => Ok x | Err e => Err (InCode e) end)).

Definition in_store {X} (p : prog (sdb F) exn X) : sess X := rethrow InCode (zoom w_db put_db p).

Definition read_account : sess (option (account F)) := in_shim (peek (account_info B)).

(** A record the handler cannot write is dropped. *)
Definition write_log (now : string) (fields : pydict F) : sess unit :=
  Stmt (fun w => put_log (log_txn float_repr now fields (w_log w)) w) (fun _ => ret tt) (ret tt).

(** ** Error texts *)

Definition or_code (rc : option retcode) (err : string) : string :=
  match rc with Some rc => pretty (retcode_num rc) | None => err end.

Fixpoint err_text (e : exec_error F) : string :=
  match e with
  | NoMarketData symbol => "no market data for " +:+ symbol +:+ " (symbol not found or not subscribed)"
  | SendReturnedNone err => "order_send returned None: " +:+ err
  | BadRetcode rc comment => "retcode=" +:+ pretty (retcode_num rc) +:+ " " +:+ comment
  | CloseFailed ticket rc err => "close " +:+ pretty ticket +:+ " failed: " +:+ or_code rc err
  | ModifyFailed ticket rc err => "modify " +:+ pretty ticket +:+ " failed: " +:+ or_code rc err
  | RiskTooSmall symbol risk sl ref =>
      "risk sizing: minimum lot for " +:+ symbol +:+ " already risks more than $" +:+ fmt_g risk
        +:+ " at SL " +:+ fmt_g sl +:+ " (ref " +:+ fmt_g ref +:+ ")"
  | EntryRequired => "entry required for pending order"
  | FallbackFailed merr => "pending invalid price; market fallback failed: " +:+ err_text merr
  | SltpRequiresLevel => "newsltp requires sl and/or tp"
  | UnknownCommand command => "unknown command " +:+ command
  end%string.

Definition status_text (s : fill_status) : string :=
  match s with Filled => "filled" | Placed => "placed" | Rejected => "rejected" end.

(** ** Messages *)

Definition register_message (a : account F) : pydict F :=
  [("type", PStr "register"); ("instance_id", PStr INSTANCE_ID); ("token", PStr BRIDGE_TOKEN);
   ("account_number", PStr (pretty (a_login a))); ("broker", PStr (a_company a)); ("platform", PStr "mt5");
   ("ea_version", PStr "py-shim-1.1")]%string.

Definition heartbeat_message (a : account F) (uptime : Z) : pydict F :=
  [("type", PStr "heartbeat"); ("free_margin", PFloat (f_round 2 (a_margin_free a)));
   ("equity", PFloat (f_round 2 (a_equity a))); ("uptime_secs", PInt uptime)]%string.

Definition error_of (x : outcome F) : string :=
  match f_error (report_fill x) with Some e => err_text e | None => ""%string end.

Definition fill_message (trace_id : pyval F) (x : outcome F) : pydict F :=
  let r := report_fill x in
  [("type", PStr "fill"); ("trace_id", trace_id); ("status", PStr (status_text (f_status r)));
   ("broker_order_id", PStr (f_order r));
   ("error_code", PStr (match f_error r with Some _ => "EXEC_FAIL" | None => "" end));
   ("error_message", PStr (error_of x))]%string.

Definition pong_message : pydict F := [("type", PStr "pong")]%string.

Definition txn_fields (a : account F) (trace_id : pyval F) (command symbol : string) (params : pydict F)
    (x : outcome F) : pydict F :=
  [("account", PInt (a_login a)); ("broker", PStr (a_company a)); ("instance_id", PStr INSTANCE_ID);
   ("trace_id", trace_id); ("command", PStr command); ("symbol", PStr symbol);
   ("volume", py_or (get params "volume") (get params "vol_lots")); ("risk", get params "risk");
   ("comment", get params "comment"); ("sl", get params "sl"); ("tp", get params "tp");
   ("entry", py_or (get params "entry") (get params "entry_price"));
   ("status", PStr (status_text (f_status (report_fill x)))); ("broker_order_id", PStr (x_order x));
   ("error", PStr (error_of x))]%string.

(** [x or None]. *)
Definition float_or_none (x : F) : option F := if f_truthy x then Some x else None.
Definition text_or_none (s : string) : option string := if bool_decide (s = ""%string) then None else Some s.

(** The arguments of [record_order]; an error where SQLite refuses a value. *)
Definition order_row_of (now : string) (trace_id : pyval F) (command symbol : string) (params : pydict F)
    (x : outcome F) : result exn (ord_row F) :=
  let! trace := bind_text float_repr trace_id in
  let! comment := bind_text float_repr (py_or (py_or (get params "comment") (PStr "")) PNone) in
  Ok (mk_ord now (default ""%string trace) (Some "tradingview"%string) (Some command) (Some symbol)
        (float_or_none (fnum params ["risk"]%string f_zero)) (Some (x_volume x))
        (float_or_none (fnum params ["sl"]%string f_zero)) (float_or_none (fnum params ["tp"]%string f_zero))
        (float_or_none (fnum params ["entry"; "entry_price"]%string f_zero))
        (Some (status_text (f_status (report_fill x)))) (text_or_none (x_order x)) comment
        (text_or_none (error_of x))).

Definition record_fill (now : string) (row : result exn (ord_row F)) : prog (sdb F) exn unit :=
  match row with
  | Ok row => record_order source_chats now row
  | Err _ => swrite source_chats now (fun d => d)
  end.

(** ** One signal *)

Definition alias_store (m : pydict F) : Store F := mk_store
  (fun alias => match dict_get m alias with Some (PStr v) => Some v | _ => None end)
  (fun _ => Ok []) (fun _ => Ok []) (fun _ => Ok false).

(** [execute] on a decoded message: the alias map is read first, then [.strip] of
    the symbol, [.get] of the parameters and [.lower] of the command may raise. *)
Definition execute_signal (now : string) (command symbol params : pyval F)
  : sess (string * string * pydict F * outcome F) :=
  m <- in_store (get_symbol_map py_str source_chats now) ;;
  match symbol, command, params with
  | PStr symbol, PStr command, PDict params =>
      x <- in_shim (execute B (alias_store m) MAGIC PENDING_FALLBACK RISK_USD command symbol params) ;;
      ret (command, symbol, params, x)
  | PStr symbol, _, _ =>
      s <- in_shim (resolve_symbol B (alias_store m) symbol) ;;
      in_shim (peek (fun t => (tt, symbol_select B s t))) ;;;
      raise (InCode AttributeError)
  | _, _, _ => raise (InCode AttributeError)
  end.

Definition handle_signal (a : account F) (now : string) (msg : pydict F) : sess unit :=
  let trace_id := get_or msg "trace_id" (PStr "") in
  r <- execute_signal now (get_or msg "command" (PStr "")) (get_or msg "symbol" (PStr ""))
         (py_or (get msg "params") (PDict [])) ;;
  let '(command, symbol, params, x) := r in
  send_msg (fill_message trace_id x) ;;;
  write_log now (txn_fields a trace_id command symbol params x) ;;;
  in_store (record_fill now (order_row_of now trace_id command symbol params x)).

(** ** One frame *)

Definition handle_frame (a : account F) (now raw : string) : sess unit :=
  match loads raw with
  | None => raise BadJson
  | Some (PDict msg) =>
      let mtype := get msg "type" in
      if is_text "registered" mtype then act (fun w => put_tasks (w_tasks w ++ [true]) w)
      else if is_text "signal" mtype then handle_signal a now msg
      else if is_text "ping" mtype then send_msg pong_message
      else ret tt
  | Some _ => raise (InCode AttributeError)
  end.

Definition kill_task (i : nat) (w : world) : world := put_tasks (<[i := false]> (w_tasks w)) w.

(** A task that cannot send ends with the exception; the session goes on. *)
Definition heartbeat (i : nat) (uptime : Z) : sess unit :=
  alive <- Act (fun w => w) (fun w => ret (default false (w_tasks w !! i))) ;;
  if alive : bool then
    acct <- read_account ;;
    match acct with
    | None => ret tt
    | Some a => try_ (send_msg (heartbeat_message a uptime)) (fun _ => act (kill_task i))
    end
  else ret tt.

(** ** One session *)

Definition elsewhere (change : sdb F -> sdb F) (lines : chars) : sess unit :=
  act (fun w => put_log (w_log w ++ lines) (put_db (change (w_db w)) w)).

Fixpoint session_loop (a : account F) (ins : list (input F)) (last : ending) : sess unit :=
  match ins with
  | [] => match last with CloseOk => ret tt | CloseError => raise ConnectionError end
  | Frame now raw :: ins' => handle_frame a now raw ;;; session_loop a ins' last
  | Beat i uptime :: ins' => heartbeat i uptime ;;; session_loop a ins' last
  | Elsewhere change lines :: ins' => elsewhere change lines ;;; session_loop a ins' last
  end.

(** [hb] is the task of the last registration. *)
Definition cancel_heartbeat : sess unit := act (fun w => kill_task (length (w_tasks w) - 1) w).

(** Tasks left over from an earlier session end at their next send. *)
Definition run_session (ins : list (input F)) (last : ending) : sess unit :=
  stmt ConnectionError (fun w => (tt, put_tasks [] w)) ;;;
  acct <- read_account ;;
  match acct with
  | None => raise (InCode AttributeError)
  | Some a =>
      send_msg (register_message a) ;;;
      finally (session_loop a ins last) cancel_heartbeat
  end.

(** ** The process *)

Definition init_mt5 : sess (account F) :=
  ok <- in_shim (peek initialize) ;;
  if ok : bool then
    acct <- read_account ;;
    match acct with
    | None => raise Exit
    | Some a => if a_demo a then ret a else raise Exit
    end
  else raise Exit.

(** As many sessions as the peer lets happen. *)
Fixpoint main_loop (sessions : list (list (input F) * ending)) : sess unit :=
  match sessions with
  | [] => ret tt
  | (ins, last) :: rest => try_ (run_session ins last) (fun _ => ret tt) ;;; main_loop rest
  end.

(** [threading.Thread(target=position_monitor, daemon=True).start()]. *)
Definition start_monitor : sess unit := act (fun w => put_monitor (term (w_shim w)) w).

Definition main (sessions : list (list (input F) * ending)) : sess unit :=
  init_mt5 ;;; start_monitor ;;; main_loop sessions.

(** ** The monitor's thread *)

(** The turns of [while True] so far, each with the trade store as it finds it. *)
Definition position_monitor (CANCEL_SIBLINGS_ON_CLOSE : bool) (turns : list (Store F)) (s : state F T) : state F T :=
  snd (fold_left (fun ms store => monitor_step B store MAGIC CANCEL_SIBLINGS_ON_CLOSE ms.1 ms.2) turns
         (mk_monitor None 0, s)).

End Session.

(** ** One terminal, two threads *)

(** The terminal as one thread sees it: before each of its calls the terminal makes
    the next of [moves], whatever the other thread and the market did since the
    call before. *)
Section Sharing.
Context {F T : Type} (B : Broker F T).

Definition among {X} (call : T -> X * T) (s : T * list (T -> T)) : X * (T * list (T -> T)) :=
  let t := match snd s with move :: _ => move (fst s) | [] => fst s end in
  let '(x, t') := call t in (x, (t', tail (snd s))).

Definition shared : Broker F (T * list (T -> T)) := mk_broker (T * list (T -> T))
  (fun symbol => among (symbol_info B symbol))
  (fun symbol => among (symbol_info_tick B symbol))
  (fun symbol s => snd (among (fun t => (tt, symbol_select B symbol t)) s))
  (fun symbol => among (positions_get B symbol))
  (among (orders_get B))
  (fun ticket => among (history_deals_get B ticket))
  (fun req => among (order_send B req))
  (among (account_info B))
  (fun s => last_error B (fst s)).

End Sharing.

Arguments world F T : clear implicits.
Arguments mk_world {F T}. Arguments w_shim {F T}. Arguments w_out {F T}. Arguments w_log {F T}.
Arguments w_db {F T}. Arguments w_tasks {F T}. Arguments w_monitor {F T}.

(** An undisturbed run stays undisturbed. *)
Lemma run_calm {D E X} (p : prog D E X) d : (run p [] d).2 = [].
Proof. revert d. induction p as [r|upd next IH fail IHf|upd next IH]; intros d; simpl; auto. Qed.

(** ** What a piece of a session sends *)

Section Sending.
Context {F : Type} {T : Type}.

(** Whatever fails, [p] appends to the messages, in relation [P] to its result. *)
Definition says {X} (P : result sess_exn X -> list (pydict F) -> Prop) (p : prog (world F T) sess_exn X) : Prop :=
  forall fs w, exists out, w_out (run p fs w).1.2 = w_out w ++ out /\ P (run p fs w).1.1 out.

Lemma says_bind {X Y} P Q R (p : prog (world F T) sess_exn X) (k : X -> prog (world F T) sess_exn Y) :
  says P p -> (forall x, says (Q x) (k x)) ->
  (forall x o r o', P (Ok x) o -> Q x r o' -> R r (o ++ o')) ->
  (forall e o, P (Err e) o -> R (Err e) o) -> says R (bind p k).
Proof.
  intros Hp Hk H1 H2 fs w. rewrite run_bind. destruct (Hp fs w) as (o & E & HP).
  destruct (run p fs w) as [[[x|e] w1] fs1]; simpl in *; [|eauto].
  destruct (Hk x fs1 w1) as (o' & E' & HQ). exists (o ++ o'). rewrite E', E, app_assoc. eauto.
Qed.

Lemma says_mono {X} (P Q : result sess_exn X -> list (pydict F) -> Prop) (p : prog (world F T) sess_exn X) :
  (forall r o, P r o -> Q r o) -> says P p -> says Q p.
Proof. intros H Hp fs w. destruct (Hp fs w) as (o & E & HP). eauto. Qed.

(** Nothing is sent. *)
Definition quiet {X} (p : prog (world F T) sess_exn X) : Prop := says (fun _ o => o = []) p.

Lemma quiet_out {X} (p : prog (world F T) sess_exn X) :
  (forall fs w, w_out (run p fs w).1.2 = w_out w) -> quiet p.
Proof. intros H fs w. exists []. by rewrite H, app_nil_r. Qed.

Lemma quiet_done {X} (r : result sess_exn X) : quiet (Done r).
Proof. by apply quiet_out. Qed.

Lemma quiet_ret {X} (x : X) : quiet (ret x).
Proof. apply quiet_done. Qed.

Lemma quiet_raise {X} e : quiet (X := X) (raise e).
Proof. apply quiet_done. Qed.

Lemma quiet_bind {X Y} (p : prog (world F T) sess_exn X) (k : X -> prog (world F T) sess_exn Y) :
  quiet p -> (forall x, quiet (k x)) -> quiet (bind p k).
Proof.
  intros Hp Hk. apply (says_bind (fun _ o => o = []) (fun _ _ o => o = [])); [exact Hp|exact Hk| |done].
  by intros ? ? ? ? -> ->.
Qed.

Lemma quiet_in_shim {X} (m : shim F T X) : quiet (in_shim m).
Proof. by apply quiet_out. Qed.

Lemma run_in_store {X} (p : prog (sdb F) exn X) fs (w : world F T) :
  run (in_store p) fs w =
  let '(r, d, fs') := run p fs (w_db w) in
  (match r with Ok x => Ok x | Err e => Err (InCode e) end, put_db d w, fs').
Proof.
  unfold in_store. rewrite run_rethrow, run_zoom by (by intros; destruct s).
  by destruct (run p fs (w_db w)) as [[r d] fs'].
Qed.

Lemma quiet_in_store {X} (p : prog (sdb F) exn X) : quiet (in_store (T := T) p).
Proof. apply quiet_out. intros fs w. rewrite run_in_store. by destruct (run p fs (w_db w)) as [[r d] fs']. Qed.

(** A message goes out, or the connection is lost. *)
Lemma says_send (m : pydict F) :
  says (fun r o => r = Ok tt /\ o = [m] \/ r = Err ConnectionError /\ o = []) (send_msg (T := T) m).
Proof.
  intros [|[] fs] w; [exists [m]|exists []|exists [m]]; cbn; rewrite ?app_nil_r; auto.
Qed.

Lemma says_act f (w_same : forall w : world F T, w_out (f w) = w_out w) : quiet (act f).
Proof. apply quiet_out. intros fs w. apply w_same. Qed.

End Sending.

#[export] Hint Resolve quiet_ret quiet_raise quiet_bind quiet_in_shim quiet_in_store : py.

(** ** Every signal is answered once, in order *)

Section Answers.
Context {F : Type} {A : Arith F} {T : Type} (B : Broker F T).
Context (initialize : T -> bool * T) (retcode_num : retcode -> Z).
Context (float_repr : F -> bytes) (py_str : pyval F -> string) (fmt_g : F -> string).
Context (MAGIC : Z) (PENDING_FALLBACK : bool) (RISK_USD : F).
Context (INSTANCE_ID BRIDGE_TOKEN source_chats : string).

(** The trace id of a frame that is a signal. *)
Definition signal_of (raw : string) : option (pyval F) :=
  match loads raw with
  | Some (PDict msg) =>
      if is_text "signal" (get msg "type") then Some (get_or msg "trace_id" (PStr "")) else None
  | _ => None
  end.

Definition signal_ids (ins : list (input F)) : list (pyval F) :=
  omap (fun i => match i with Frame _ raw => signal_of raw | Beat _ _ | Elsewhere _ _ => None end) ins.

Definition fill_id (m : pydict F) : option (pyval F) :=
  if is_text "fill" (get m "type") then Some (get m "trace_id") else None.

Definition fill_ids (out : list (pydict F)) : list (pyval F) := omap fill_id out.

(** An exception of the store never reaches the session. *)
Lemma swrite_ok now f fs (d : sdb F) : exists d' fs', run (swrite source_chats now f) fs d = (Ok tt, d', fs').
Proof.
  unfold swrite. rewrite run_try. destruct (run _ fs d) as [[[[]|e] d'] fs']; [by exists d', fs'|].
  by exists d', fs'.
Qed.

Lemma record_fill_ok now row fs (d : sdb F) :
  exists d' fs', run (record_fill source_chats now row) fs d = (Ok tt, d', fs').
Proof. destruct row; apply swrite_ok. Qed.

Lemma handle_signal_says a now msg :
  says (fun r o => (r = Ok tt /\ fill_ids o = [get_or msg "trace_id" (PStr "")]) \/ (r <> Ok tt /\ fill_ids o = []))
    (handle_signal B retcode_num float_repr py_str fmt_g MAGIC PENDING_FALLBACK RISK_USD INSTANCE_ID source_chats
       a now msg).
Proof.
  unfold handle_signal.
  eapply (says_bind (fun _ o => o = []) (fun _ r o =>
    (r = Ok tt /\ fill_ids o = [get_or msg "trace_id" (PStr "")]) \/ (r <> Ok tt /\ fill_ids o = []))).
  - unfold execute_signal. apply quiet_bind; [apply quiet_in_store|]. intros m.
    repeat case_match; auto 6 with py.
  - intros [[[command symbol] params] x].
    apply (says_bind _ (fun _ r o => r = Ok tt /\ o = []) _ _ _ (says_send _)).
    + intros []. intros fs w. exists []. rewrite run_bind, app_nil_r.
      destruct fs as [|[] fs]; cbn [write_log run ret]; rewrite run_in_store;
        match goal with |- context [run (record_fill _ _ ?row) ?fs ?d] =>
          destruct (record_fill_ok now row fs d) as (d' & fs' & ->) end; by split_and!.
    + intros x' o r o' [[_ ->]|[[=] _]] [-> ->]. by left.
    + intros e o [[[=] _]|[_ ->]]. by right.
  - by intros x o r o' -> H.
  - intros e o ->. by right.
Qed.

Abbreviation frame_handler := (handle_frame B retcode_num float_repr py_str fmt_g MAGIC PENDING_FALLBACK RISK_USD
  INSTANCE_ID source_chats).
Abbreviation loop := (session_loop B retcode_num float_repr py_str fmt_g MAGIC PENDING_FALLBACK RISK_USD
  INSTANCE_ID source_chats).
Abbreviation session := (run_session B retcode_num float_repr py_str fmt_g MAGIC PENDING_FALLBACK RISK_USD
  INSTANCE_ID BRIDGE_TOKEN source_chats).

Lemma handle_frame_says a now raw :
  says (fun r o => (r = Ok tt /\ fill_ids o = option_list (signal_of raw)) \/ (r <> Ok tt /\ fill_ids o = []))
    (frame_handler a now raw).
Proof.
  unfold handle_frame, signal_of. destruct (loads raw) as [[| | | | | |msg]|].
  all: try (apply (says_mono (fun r o => r <> Ok tt /\ o = [])); [intros ? ? [? ->]; by right|]; intros fs w; exists []; by rewrite app_nil_r).
  destruct (get msg "type") as [| | | |s| |] eqn:Ht; simpl; repeat case_bool_decide; subst; try done.
  all: try apply handle_signal_says.
  all: try (apply (says_mono (fun r o => r = Ok tt /\ o = [])); [intros ? ? [-> ->]; by left|]; intros fs w; exists []; by rewrite app_nil_r).
  eapply says_mono; [|apply says_send]. intros r o [[-> ->]|[-> ->]]; [by left|by right].
Qed.

Lemma heartbeat_says i uptime : says (fun r o => r = Ok tt /\ fill_ids o = []) (heartbeat B i uptime).
Proof.
  intros fs w. unfold heartbeat. rewrite run_bind. cbn [run ret].
  destruct (default false (w_tasks w !! i)); [|exists []; by rewrite app_nil_r].
  rewrite run_bind. unfold read_account, in_shim, peek. cbn [run].
  destruct (account_info B (term (w_shim w))) as [[a|] t]; cbn [fst snd]; [|exists []; by rewrite app_nil_r].
  destruct fs as [|[] fs]; cbn; [exists [heartbeat_message a uptime]|exists []|exists [heartbeat_message a uptime]];
    rewrite ?app_nil_r; done.
Qed.

(** The fills [o] answer a prefix of the signals, all of them on a clean end. *)
Definition answered (ins : list (input F)) (r : result sess_exn unit) (o : list (pydict F)) : Prop :=
  (exists k, fill_ids o = take k (signal_ids ins)) /\ (r = Ok tt -> fill_ids o = signal_ids ins).

Lemma answered_none ins e o : fill_ids o = [] -> answered ins (Err e) o.
Proof. intros E. split; [exists O; by rewrite E|done]. Qed.

Lemma loop_says a ins last : says (answered ins) (loop a ins last).
Proof.
  induction ins as [|[now raw|i uptime|change lines] ins IH].
  - apply (says_mono (fun _ o => o = [])); [intros r o ->; split; [by exists O|done]|]. destruct last; apply quiet_done.
  - apply (says_bind _ _ _ _ _ (handle_frame_says a now raw) (fun _ => IH)).
    + intros [] o r o' [[_ E]|[H _]] [[k Hk] Hr]; [|done]. unfold answered, signal_ids, fill_ids in *.
      cbn [omap list_omap]. rewrite omap_app.
      destruct (signal_of raw) as [id|]; cbn [option_list] in E; unfold fill_ids in E; rewrite E; simpl;
        (split; [|intros Hok; by rewrite Hr]).
      * exists (S k). simpl. by rewrite Hk.
      * by exists k.
    + intros e o [[[=] _]|[_ E]]. by apply answered_none.
  - apply (says_bind _ _ _ _ _ (heartbeat_says i uptime) (fun _ => IH)).
    + intros [] o r o' [_ E] H. unfold answered, signal_ids, fill_ids in *. rewrite omap_app.
      unfold fill_ids in E. by rewrite E.
    + by intros e o [[=] _].
  - apply (says_bind (fun _ o => o = []) (fun _ => answered ins)); [by apply says_act|done| |].
    + by intros [] o r o' -> H.
    + intros e o ->. by apply answered_none.
Qed.

Lemma session_says ins last : says (answered ins) (session ins last).
Proof.
  unfold run_session.
  apply (says_bind (fun _ o => o = []) (fun _ => answered ins));
    [apply quiet_out; by intros [|[] ?] ?| |by intros ? ? ? ? ->|intros ? ? ->; by apply answered_none].
  intros []. apply (says_bind (fun _ o => o = []) (fun _ => answered ins));
    [apply quiet_in_shim| |by intros ? ? ? ? ->|intros ? ? ->; by apply answered_none].
  intros [a|]; [|intros fs w; exists []; split; [by rewrite app_nil_r|by apply answered_none]].
  apply (says_bind _ (fun _ => answered ins) _ _ _ (says_send _)).
  - intros []. intros fs w. unfold finally. rewrite run_bind, run_try.
    destruct (loop_says a ins last fs w) as (o & E & HP). exists o.
    destruct (run (loop a ins last) fs w) as [[[[]|e] w1] fs1]; simpl in *; by rewrite E.
  - by intros ? o r o' [[_ ->]|[[=] _]] H.
  - intros ? ? [[[=] _]|[_ ->]]. by apply answered_none.
Qed.

(** C18: every signal is answered once, in order.  Whatever frames the bridge sends
    and whatever fails (a send, the store, the log, the execution), the fill
    messages of a session carry the trace ids of a prefix of the signals received,
    in the order received and without repetition; a session that ends without an
    exception has answered all of them. *)
Theorem session_answers_in_order ins last fs w :
  let '(r, w', _) := run (session ins last) fs w in
  exists out, w_out w' = w_out w ++ out /\ (exists k, fill_ids out = take k (signal_ids ins)) /\
    (r = Ok tt -> fill_ids out = signal_ids ins).
Proof. pose proof (session_says ins last fs w) as H. by destruct (run (session ins last) fs w) as [[r w'] fs']. Qed.

End Answers.

(** ** Nothing happens on a live account, and only own orders are touched *)

Section Safety.
Context {F : Type} {A : Arith F} {T : Type} (B : Broker F T).
Context (initialize : T -> bool * T) (retcode_num : retcode -> Z).
Context (float_repr : F -> bytes) (py_str : pyval F -> string) (fmt_g : F -> string).
Context (MAGIC : Z) (PENDING_FALLBACK : bool) (RISK_USD : F).
Context (INSTANCE_ID BRIDGE_TOKEN source_chats : string).

Abbreviation process := (main B initialize retcode_num float_repr py_str fmt_g MAGIC PENDING_FALLBACK RISK_USD
  INSTANCE_ID BRIDGE_TOKEN source_chats).

Definition own_only (w : world F T) : Prop := safe_trace MAGIC (trace (w_shim w)).

Lemma preserves_in_shim {X} (m : shim F T X) : keeps (safe_trace MAGIC) m -> preserves own_only (in_shim m).
Proof. intros H w Hw. split; [by apply H|done]. Qed.

Lemma preserves_in_store {X} (p : prog (sdb F) exn X) : preserves own_only (in_store (T := T) p).
Proof.
  apply preserves_rethrow. induction p as [r|upd next IH fail IHf|upd next IH]; simpl; [done| |]; auto.
Qed.

Lemma preserves_send m : preserves own_only (send_msg (T := T) m).
Proof. by repeat split. Qed.

Lemma preserves_act f : (forall w : world F T, w_shim (f w) = w_shim w) -> preserves own_only (act (E := sess_exn) f).
Proof. intros H w Hw. split; [|done]. unfold own_only. by rewrite H. Qed.

Lemma peek_own {X} (f : T -> X * T) : preserves own_only (in_shim (peek (F := F) f)).
Proof. apply preserves_in_shim, keeps_peek. Qed.

Lemma read_account_own : preserves own_only (read_account B).
Proof. apply peek_own. Qed.

Ltac own :=
  repeat match goal with
  | |- preserves _ (bind _ _) => apply preserves_bind; [|intros]
  | |- preserves _ (try_ _ _) => apply preserves_try; [|intros]
  | |- preserves _ (in_store _) => apply preserves_in_store
  | |- preserves _ (send_msg _) => apply preserves_send
  | |- preserves _ (read_account _) => apply read_account_own
  | |- preserves _ (in_shim (peek _)) => apply peek_own
  | |- preserves _ (act _) => by apply preserves_act
  | |- preserves _ (ret _) => exact I
  | |- preserves _ (raise _) => exact I
  | |- preserves _ (write_log _ _ _) => by repeat split
  | |- preserves _ (match ?x with _ => _ end) => destruct x
  end.

Lemma handle_frame_own a now raw :
  preserves own_only (handle_frame B retcode_num float_repr py_str fmt_g MAGIC PENDING_FALLBACK RISK_USD INSTANCE_ID
    source_chats a now raw).
Proof.
  unfold handle_frame, handle_signal, execute_signal. own; apply preserves_in_shim;
    (apply execute_safe || apply keeps_silent, resolve_symbol_silent).
Qed.

Lemma heartbeat_own i uptime : preserves own_only (heartbeat B i uptime).
Proof. unfold heartbeat. apply preserves_bind; [by intros w Hw|]. intros []; own. Qed.

Lemma elsewhere_own change lines : preserves own_only (elsewhere (T := T) change lines).
Proof. by apply preserves_act. Qed.

Lemma loop_own a ins last :
  preserves own_only (session_loop B retcode_num float_repr py_str fmt_g MAGIC PENDING_FALLBACK RISK_USD INSTANCE_ID
    source_chats a ins last).
Proof. induction ins as [|[] ins IH]; cbn [session_loop]; own; auto using handle_frame_own, heartbeat_own, elsewhere_own. Qed.

Lemma process_own sessions : preserves own_only (process sessions).
Proof.
  unfold main, init_mt5. apply preserves_bind; [own|]. intros _.
  apply preserves_bind; [by apply preserves_act|]. intros _.
  induction sessions as [|[ins last] rest IH]; cbn [main_loop]; own; [|done].
  unfold run_session, finally. apply preserves_bind; [by repeat split|]. intros _. own; try apply loop_own;
    by apply preserves_act.
Qed.

(** The terminal is attached to a demo account. *)
Definition demo_terminal (t : T) : bool :=
  let '(ok, t) := initialize t in
  ok && match fst (account_info B t) with Some a => a_demo a | None => false end.

(** Without a demo account nothing happens. *)
Lemma live_account_exits sessions fs (w : world F T) : demo_terminal (term (w_shim w)) = false ->
  let '(r, w', _) := run (process sessions) fs w in
  r = Err Exit /\ trace (w_shim w') = trace (w_shim w) /\
  w_out w' = w_out w /\ w_log w' = w_log w /\ w_db w' = w_db w /\ w_monitor w' = w_monitor w.
Proof.
  intros Hd. destruct (run (process sessions) fs w) as [[r w'] fs'] eqn:E.
  unfold main, init_mt5, demo_terminal in *. rewrite !run_bind in E. unfold in_shim at 1, peek at 1 2 in E. cbn [run fst snd] in E.
  destruct (initialize (term (w_shim w))) as [[] t] eqn:Ei; cbn [fst snd run raise] in E; [|by injection E as <- <- <-].
  rewrite run_bind in E. unfold read_account, in_shim, peek, put_shim in E. cbn [run fst snd w_shim term] in E.
  destruct (account_info B t) as [[a|] t'] eqn:Ea; cbn [fst snd run raise] in *; [|by injection E as <- <- <-].
  cbn [andb] in Hd. rewrite Hd in E. by injection E as <- <- <-.
Qed.

Lemma process_own_run sessions fs (w : world F T) : safe_trace MAGIC (trace (w_shim w)) ->
  safe_trace MAGIC (trace (w_shim (run (process sessions) fs w).1.2)).
Proof. intros H. exact (run_preserves own_only (process sessions) fs w (process_own sessions) H). Qed.

Lemma position_monitor_safe CANCEL_SIBLINGS turns (s : state F T) : safe_trace MAGIC (trace s) ->
  safe_trace MAGIC (trace (position_monitor B MAGIC CANCEL_SIBLINGS turns s)).
Proof.
  unfold position_monitor. generalize (mk_monitor (F := F) None 0). revert s.
  induction turns as [|store turns IH]; intros s m Hs; cbn [fold_left fst snd]; [done|].
  pose proof (monitor_step_safe B store MAGIC CANCEL_SIBLINGS m s Hs) as H1.
  destruct (monitor_step _ _ _ _ _ _) as [m' s']. by apply IH.
Qed.

End Safety.

(** The whole process: its two threads on one terminal. *)
Section Threads.
Context {F : Type} {A : Arith F} {T : Type} (B : Broker F T).
Context (initialize : T -> bool * T) (retcode_num : retcode -> Z).
Context (float_repr : F -> bytes) (py_str : pyval F -> string) (fmt_g : F -> string).
Context (MAGIC : Z) (PENDING_FALLBACK CANCEL_SIBLINGS : bool) (RISK_USD : F).
Context (INSTANCE_ID BRIDGE_TOKEN source_chats : string).

(** What the monitor's thread has done after [turns], the terminal moving as
    [moves] say between its calls; nothing, if [main] did not start it. *)
Definition monitor_trace (moves : list (T -> T)) (turns : list (Store F)) (w : world F (T * list (T -> T)))
    : list (event F) :=
  match w_monitor w with
  | Some t => trace (position_monitor (shared B) MAGIC CANCEL_SIBLINGS turns (mk_state (fst t, moves) []))
  | None => []
  end.

(** C19: the process is safe from start to end.  [main] and the thread of the
    position monitor it starts share the terminal; between any two calls of one of
    them the terminal makes an arbitrary move, what the other thread and the market
    did meanwhile.  Whatever sessions the bridge opens, however many turns the
    monitor makes and whatever it finds in the store, whatever fails, and in
    whatever order the calls of the two threads fall, every request either of them
    sends is authorized by what was listed before (only its own positions and
    orders are touched).  Unless the terminal starts attached to a demo account, the
    process exits before it starts the monitor, sends a request or a message, or
    writes anything. *)
Theorem process_safe sessions fs w moves turns all
  (H : safe_trace MAGIC (trace (w_shim w))) (Hw : w_monitor w = None) :
  let '(r, w', _) := run (main (shared B) (among initialize) retcode_num float_repr py_str fmt_g MAGIC PENDING_FALLBACK
                            RISK_USD INSTANCE_ID BRIDGE_TOKEN source_chats sessions) fs w in
  (interleaved (trace (w_shim w')) (monitor_trace moves turns w') all -> safe_trace MAGIC all) /\
  (demo_terminal (shared B) (among initialize) (term (w_shim w)) = false ->
     r = Err Exit /\ trace (w_shim w') = trace (w_shim w) /\ monitor_trace moves turns w' = [] /\
     w_out w' = w_out w /\ w_log w' = w_log w /\ w_db w' = w_db w).
Proof.
  pose proof (process_own_run (shared B) (among initialize) retcode_num float_repr py_str fmt_g MAGIC PENDING_FALLBACK
    RISK_USD INSTANCE_ID BRIDGE_TOKEN source_chats sessions fs w H) as Hs.
  pose proof (live_account_exits (shared B) (among initialize) retcode_num float_repr py_str fmt_g MAGIC PENDING_FALLBACK
    RISK_USD INSTANCE_ID BRIDGE_TOKEN source_chats sessions fs w) as Hl.
  destruct (run _ fs w) as [[r w'] fs']. split.
  - intros Hi. apply (safe_interleaved _ _ _ _ Hi Hs). unfold monitor_trace. destruct (w_monitor w'); [|apply safe_nil].
    apply position_monitor_safe, safe_nil.
  - intros Hd. destruct (Hl Hd) as (-> & H1 & H2 & H3 & H4 & H5). unfold monitor_trace. by rewrite H5, Hw.
Qed.

End Threads.

(** ** One fill, three records *)

Section Agreement.
Context {F : Type} {A : Arith F} {T : Type} (B : Broker F T).
Context (retcode_num : retcode -> Z).
Context (float_repr : F -> bytes) (py_str : pyval F -> string) (fmt_g : F -> string).
Context (MAGIC : Z) (PENDING_FALLBACK : bool) (RISK_USD : F).
Context (INSTANCE_ID source_chats : string).

Abbreviation signal_handler := (handle_signal B retcode_num float_repr py_str fmt_g MAGIC PENDING_FALLBACK RISK_USD
  INSTANCE_ID source_chats).
Abbreviation error_text_of := (error_of retcode_num fmt_g).

(** The alias map as an up-to-date store holds it. *)
Definition aliases (now : string) (d : sdb F) : pydict F :=
  match run_result (get_symbol_map py_str source_chats now) [] d with Ok m => m | Err _ => [] end.

Lemma aliases_read now d : ready d ->
  run (get_symbol_map py_str source_chats now) [] d = (Ok (aliases now d), d, []).
Proof.
  intros Hr. unfold aliases, run_result, get_symbol_map, read_meta. rewrite run_bind, squery_ready by done. done.
Qed.

(** A log that a reader splits into whole lines. *)
Definition whole_lines (l : chars) : Prop := l = [] \/ exists a, l = a ++ [newline].

Lemma log_txn_parsed now fields l : whole_lines l -> json_ok float_repr (PDict (txn_record now fields)) ->
  whole_lines (log_txn float_repr now fields l) /\
  parse_jsonl (log_txn float_repr now fields l) = parse_jsonl l ++ [PDict (txn_record now fields)].
Proof.
  intros Hl Hok. unfold log_txn. split; [right; rewrite app_assoc; by eexists|].
  destruct Hl as [->|[a ->]].
  - cbn [app]. rewrite parse_app, parse_dumped by done. done.
  - rewrite <-app_assoc. cbn [app]. rewrite !parse_app, parse_dumped by done. by rewrite !app_nil_r.
Qed.

(** The errors are never empty texts. *)
Lemma err_text_nonempty e : err_text retcode_num fmt_g e <> ""%string.
Proof. by destruct e. Qed.

Lemma in_shim_run {X} (m : shim F T X) fs (w : world F T) :
  run (in_shim m) fs w =
  (match fst (m (w_shim w)) with Ok x => Ok x | Err e => Err (InCode e) end, put_shim (snd (m (w_shim w))) w, fs).
Proof. done. Qed.

(** An undisturbed signal: the state after the fill was sent, logged and recorded. *)
Lemma handle_signal_run a now msg command symbol params w x s'
  (Hr : ready (w_db w))
  (Hc : get_or msg "command" (PStr "") = PStr command) (Hs : get_or msg "symbol" (PStr "") = PStr symbol)
  (Hp : py_or (get msg "params") (PDict []) = PDict params)
  (Hx : execute B (alias_store (aliases now (w_db w))) MAGIC PENDING_FALLBACK RISK_USD command symbol params
          (w_shim w) = (Ok x, s')) :
  let id := get_or msg "trace_id" (PStr "") in
  run (signal_handler a now msg) [] w =
  (Ok tt,
   mk_world s' (w_out w ++ [fill_message retcode_num fmt_g id x])
     (log_txn float_repr now (txn_fields retcode_num fmt_g INSTANCE_ID a id command symbol params x) (w_log w))
     (run_state (record_fill source_chats now
        (order_row_of retcode_num float_repr fmt_g now id command symbol params x)) [] (w_db w))
     (w_tasks w) (w_monitor w), []).
Proof.
  cbn zeta. unfold handle_signal. rewrite Hc, Hs, Hp, run_bind. unfold execute_signal.
  rewrite run_bind, run_in_store, aliases_read by done. rewrite run_bind, in_shim_run.
  replace (w_shim (put_db (w_db w) w)) with (w_shim w) by done. rewrite Hx. cbn [fst snd ret run].
  unfold send_msg, write_log. cbn [stmt bind run ret fst snd]. rewrite run_in_store.
  unfold run_state. cbn [put_log push_out put_shim put_db w_db w_shim w_out w_log w_tasks w_monitor].
  match goal with |- context [run (record_fill _ _ ?row) [] ?d] =>
    pose proof (run_calm (record_fill source_chats now row) d) as Hcalm;
    destruct (record_fill_ok source_chats now row [] d) as (d' & fs' & E); rewrite E in * end.
  cbn in Hcalm. by rewrite Hcalm.
Qed.

(** C20: a fill is recorded in all three places.  For a signal executed without
    failures in an up-to-date store, whose logged record reads back (texts well
    formed, floats finite): the message to the bridge and one new line of the
    transaction log carry the same trace id, status, order number and error; the
    store keeps one row per trace id, and the row of this one has that status and
    the volume that was sent to the broker.  Its order number and error are those
    of the message too (NULL for an empty one) when the trace id is new to the
    store; in a row that was there before, an empty order number or error leaves
    the earlier one in place. *)
Theorem fill_recorded_everywhere a now msg command symbol params w x s' id
  (Hr : ready (w_db w)) (Hu : NoDup (map ord_trace (s_orders (w_db w)))) (Hl : whole_lines (w_log w))
  (Hc : get_or msg "command" (PStr "") = PStr command) (Hs : get_or msg "symbol" (PStr "") = PStr symbol)
  (Hp : py_or (get msg "params") (PDict []) = PDict params) (Hid : get_or msg "trace_id" (PStr "") = PStr id)
  (Hcm : get params "comment" = PNone \/ exists c, get params "comment" = PStr c)
  (Hx : execute B (alias_store (aliases now (w_db w))) MAGIC PENDING_FALLBACK RISK_USD command symbol params
          (w_shim w) = (Ok x, s'))
  (Hok : json_ok float_repr (PDict (txn_record now
           (txn_fields retcode_num fmt_g INSTANCE_ID a (PStr id) command symbol params x)))) :
  let w' := run_state (signal_handler a now msg) [] w in
  let status := status_text (f_status (report_fill x)) in
  let err := error_text_of x in
  (exists fill, w_out w' = w_out w ++ [fill] /\ get fill "trace_id" = PStr id /\ get fill "status" = PStr status /\
     get fill "broker_order_id" = PStr (x_order x) /\ get fill "error_message" = PStr err) /\
  (exists line, parse_jsonl (w_log w') = parse_jsonl (w_log w) ++ [PDict line] /\ get line "trace_id" = PStr id /\
     get line "status" = PStr status /\ get line "broker_order_id" = PStr (x_order x) /\ get line "error" = PStr err) /\
  NoDup (map ord_trace (s_orders (w_db w'))) /\
  (exists row, row ∈ s_orders (w_db w') /\ ord_trace row = id /\ ord_status row = Some status /\
     ord_volume row = Some (x_volume x) /\
     (id ∉ map ord_trace (s_orders (w_db w)) ->
        ord_broker row = text_or_none (x_order x) /\ ord_error row = text_or_none err) /\
     (forall old, old ∈ s_orders (w_db w) -> ord_trace old = id ->
        ord_broker row = coalesce (text_or_none (x_order x)) (ord_broker old) /\
        ord_error row = coalesce (text_or_none err) (ord_error old))).
Proof.
  cbn zeta. unfold run_state. rewrite (handle_signal_run a now msg command symbol params w x s') by done.
  rewrite Hid. cbn [fst snd w_out w_log w_db]. split; [|split].
  1: eexists; split; [done|]; by split_and!.
  1: destruct (log_txn_parsed now (txn_fields retcode_num fmt_g INSTANCE_ID a (PStr id) command symbol params x)
      (w_log w) Hl Hok) as [_ E]. eexists. split; [exact E|]. by split_and!.
  - assert (exists c, order_row_of retcode_num float_repr fmt_g now (PStr id) command symbol params x = Ok c /\
      ord_trace c = id /\ ord_status c = Some (status_text (f_status (report_fill x))) /\ ord_volume c = Some (x_volume x) /\
      ord_broker c = text_or_none (x_order x) /\ ord_error c = text_or_none (error_text_of x)) as (c & -> & H1 & H2 & H3 & H4 & H5).
    { unfold order_row_of. cbn [bind_text rbind]. destruct Hcm as [->|[cm ->]]; cbn [py_or truthy bind_text rbind].
      - eexists. by split_and!.
      - unfold py_or. cbn [truthy]. destruct (bool_decide (cm = ""%string)) eqn:E; cbn [negb truthy];
          rewrite ?E; cbn [negb]; rewrite ?bool_decide_true by done; cbn [negb bind_text rbind]; eexists; by split_and!. }
    cbn [record_fill]. destruct (record_order_spec source_chats now c (w_db w) Hr Hu) as (U & _ & o & Ho & Et & Hcase).
    unfold run_state in *. split; [exact U|]. exists o. rewrite Et, H1. rewrite H1 in Hcase.
    destruct Hcase as [(old & Hin & Eo & ->)|[Hnew ->]]; cbn [merge_order ord_status ord_volume ord_broker ord_error];
      rewrite H2, H3, H4, H5; split_and!; try done.
    + intros []. rewrite <-Eo. by apply list_elem_of_fmap_2.
    + intros old' Hin' Eo'. by rewrite (unique_key ord_trace _ old old' Hu) by (done || congruence).
    + intros old' Hin' Eo'. by destruct (Hnew old').
Qed.

(** The order row that the import makes of a logged fill. *)
Lemma logged_order a now now' command symbol params x id
  (Hcm : get params "comment" = PNone \/ exists c, get params "comment" = PStr c) :
  let line := txn_record now (txn_fields retcode_num fmt_g INSTANCE_ID a (PStr id) command symbol params x) in
  skipped line = bool_decide (id = ""%string) /\
  exists b, order_of_record float_repr now' line = Ok b /\ ord_trace b = id /\
    ord_volume b = _as_float (py_or (get params "volume") (get params "vol_lots")).
Proof.
  intros line.
  assert (item line "trace_id" = PStr id) as H1 by reflexivity.
  assert (item line "command" = PStr command) as H2 by reflexivity.
  assert (item line "symbol" = PStr symbol) as H3 by reflexivity.
  assert (item line "status" = PStr (status_text (f_status (report_fill x)))) as H4 by reflexivity.
  assert (item line "broker_order_id" = PStr (x_order x)) as H5 by reflexivity.
  assert (item line "comment" = get params "comment") as H6 by reflexivity.
  assert (item line "error" = PStr (error_text_of x)) as H7 by reflexivity.
  assert (item line "volume" = py_or (get params "volume") (get params "vol_lots")) as H8 by reflexivity.
  assert (item line "event" = PNone) as H9 by reflexivity.
  clearbody line. split.
  - unfold skipped. rewrite H1, H9. cbn [truthy is_text]. by rewrite negb_involutive, orb_false_r.
  - unfold order_of_record, item_or_none. rewrite H1, H2, H3, H4, H5, H6, H7, H8. cbn [bind_text rbind].
    assert (forall v : pyval F, v = PNone \/ (exists c, v = PStr c) ->
      exists o, bind_text float_repr (py_or v PNone) = Ok o) as K.
    { intros v [->|[c ->]]; [by eexists|]. unfold py_or. destruct (truthy _); by eexists. }
    destruct (K (PStr (x_order x))) as [o1 ->]; [right; by eexists|].
    destruct (K (get params "comment") Hcm) as [o2 ->].
    destruct (K (PStr (error_text_of x))) as [o3 ->]; [right; by eexists|].
    cbn [rbind]. eexists. by split_and!.
Qed.

(** Importing the log line of a fill back into the store replaces the executed
    volume by the requested one.  Whatever volume the row of the order holds (the
    sized volume that was sent to the broker), after [_backfill_mt5_fills] reads the
    line the executor logged for it the row holds the volume the signal asked
    for. *)
Theorem backfill_undoes_sizing a now now' command symbol params x id v d
  (Hr : ready d) (Hu : NoDup (map ord_trace (s_orders d))) (Hid : id <> ""%string)
  (Hcm : get params "comment" = PNone \/ exists c, get params "comment" = PStr c)
  (Hv : _as_float (py_or (get params "volume") (get params "vol_lots")) = Some v) :
  let line := txn_record now (txn_fields retcode_num fmt_g INSTANCE_ID a (PStr id) command symbol params x) in
  let d' := run_state (_backfill_mt5_fills float_repr source_chats now' [PDict line]) [] d in
  exists row, row ∈ s_orders d' /\ ord_trace row = id /\ ord_volume row = Some v.
Proof.
  intros line d'. destruct (logged_order a now now' command symbol params x id Hcm) as (Hk & b & Eb & Et & Ev).
  fold line in Hk, Eb. rewrite bool_decide_false in Hk by done.
  destruct (record_order_spec source_chats now' b d Hr Hu) as (_ & _ & o & Ho & Eo & Hcase).
  assert (s_orders d' = s_orders (run_state (record_order source_chats now' b) [] d)) as E.
  { subst d'. unfold run_state. cbn [_backfill_mt5_fills]. rewrite Hk, Eb, run_bind.
    destruct (run (record_order source_chats now' b) [] d) as [[[[]|e] d1] fs1]; done. }
  exists o. rewrite E, Eo, Et. split_and!; [done|done|]. rewrite Hv in Ev.
  destruct Hcase as [(old & _ & _ & ->)|[_ ->]]; cbn [merge_order ord_volume]; by rewrite Ev.
Qed.

End Agreement.

(** ** A concrete session *)

Module SessionDemo.
Definition repr (_ : Q) : bytes := [].
Definition g (_ : Q) : string := "x".
Definition num (rc : retcode) : Z := match rc with DONE => 10009 | INVALID_FILL => 10030 | INVALID_PRICE => 10015 | OtherCode n => n end.
Definition pystr (_ : pyval Q) : string := "".
Definition acct (demo : bool) : account Q := mk_account 1234 "Broker Ltd" 1000%Q 1000%Q 900%Q demo.
Definition broker (demo : bool) : Broker Q nat := mk_broker nat
  (symbol_info Terminal.accepting) (symbol_info_tick Terminal.accepting) (symbol_select Terminal.accepting)
  (positions_get Terminal.accepting) (orders_get Terminal.accepting) (history_deals_get Terminal.accepting)
  (order_send Terminal.accepting) (fun t => (Some (acct demo), t)) (last_error Terminal.accepting).
Definition params : pydict Q :=
  [("sl", PStr "1"); ("risk", PStr "20"); ("vol_lots", PStr "5"); ("comment", PStr "tg")]%string.
Definition signal (id : string) : pydict Q :=
  [("type", PStr "signal"); ("trace_id", PStr id); ("command", PStr "buy"); ("symbol", PStr "EURUSD");
   ("params", PDict params)]%string.
Definition text (m : pydict Q) : string := dumps repr (PDict m).
Definition frames : list (input Q) :=
  [Frame "t0" (text [("type", PStr "registered")]); Frame "t1" (text (signal "a")); Beat 0 12;
   Frame "t2" (text [("type", PStr "ping")]); Frame "t3" (text (signal "b"))]%string.
Definition start : world Q nat := mk_world Terminal.start [] [] StoreDemo.db [] None.
Definition run_one (fs : list bool) : result sess_exn unit * world Q nat * list bool :=
  run (run_session (broker true) num repr pystr g 42 true 0%Q "inst" "tok" "" frames CloseOk) fs start.
(** The terminal lists the own position 5 until its state passes 100; its stop was
    hit then. *)
Definition two_thread_broker (demo : bool) : Broker Q nat := mk_broker nat
  (symbol_info (broker demo)) (symbol_info_tick (broker demo)) (symbol_select (broker demo))
  (fun _ t => (Terminal.own :: (if (t <? 100)%nat then [mk_position 5 "EURUSD" Buy 42 1%Q 1%Q 1%Q 2%Q "tg"] else []), t))
  (orders_get (broker demo))
  (fun ticket t => ([mk_deal false 1%Q 0%Q 0%Q 1%Q (Some REASON_SL)], t))
  (order_send (broker demo)) (account_info (broker demo)) (last_error (broker demo)).
Definition started : world Q (nat * list (nat -> nat)) :=
  mk_world (mk_state (O, [S; S]) []) [] [] StoreDemo.db [] None.
Definition process demo := main (shared (two_thread_broker demo)) (among (fun t => (true, t))) num repr pystr g 42 true 0%Q
  "inst" "tok" "" [(frames, CloseOk)].
(** The monitor's second listing comes after the position closed. *)
Definition monitor_moves : list (nat -> nat) := [fun t => t; fun t => (t + 100)%nat].
Definition monitored demo : list (event Q) := monitor_trace (two_thread_broker demo) 42 true monitor_moves
  [Terminal.store; Terminal.store] (run (process demo) [] started).1.2.
Definition requests (evs : list (event Q)) : list (EaShim.request Q) :=
  omap (fun ev => match ev with EaShim.Sent req _ => Some req | _ => None end) evs.
Definition fill : result exn (outcome Q) * state Q nat :=
  execute (broker true) (alias_store (aliases pystr "" "t1" (w_db start))) 42 true 0%Q "buy" "EURUSD" params Terminal.start.
End SessionDemo.

(** Undisturbed, both signals are answered among the other messages; with the
    second fill lost, only the first is. *)
Example session_demo :
  (SessionDemo.run_one []).1.1 = Ok tt /\
  map (fun m => get m "type") (w_out (SessionDemo.run_one []).1.2) =
    map PStr ["register"; "fill"; "heartbeat"; "pong"; "fill"]%string /\
  fill_ids (w_out (SessionDemo.run_one []).1.2) = [PStr "a"; PStr "b"]%string /\
  map ord_trace (s_orders (w_db (SessionDemo.run_one []).1.2)) = ["t-1"; "t-2"; "t-3"; "a"; "b"]%string.
Proof. vm_compute. by split_and!. Qed.

Lemma interleaved_app {X} (l r : list X) : interleaved l r (l ++ r).
Proof. induction l as [|x l IH]; [|by constructor]. induction r; by constructor. Qed.

(** On a demo account the session opens two positions and the monitor withdraws a
    resting order, all authorized together; on a live one nothing is sent. *)
Lemma process_safe_witness :
  let sent := trace (w_shim (run (SessionDemo.process true) [] SessionDemo.started).1.2) in
  (safe_trace 42 (sent ++ SessionDemo.monitored true) /\
   length (SessionDemo.requests sent) = 2%nat /\
   SessionDemo.requests (SessionDemo.monitored true) = [ReqRemove 21]) /\
  (run (SessionDemo.process false) [] SessionDemo.started).1.1 = Err Exit /\ SessionDemo.monitored false = [].
Proof.
  cbn zeta. unfold SessionDemo.monitored. split.
  - split; [|by vm_compute].
    pose proof (process_safe (SessionDemo.two_thread_broker true) (fun t => (true, t)) SessionDemo.num
      SessionDemo.repr SessionDemo.pystr SessionDemo.g 42 true true 0%Q "inst" "tok" "" [(SessionDemo.frames, CloseOk)] []
      SessionDemo.started SessionDemo.monitor_moves [Terminal.store; Terminal.store]) as K.
    unfold SessionDemo.process. destruct (run _ [] SessionDemo.started) as [[r w'] fs'].
    apply (K _ (safe_nil 42) eq_refl), interleaved_app.
  - pose proof (process_safe (SessionDemo.two_thread_broker false) (fun t => (true, t)) SessionDemo.num
      SessionDemo.repr SessionDemo.pystr SessionDemo.g 42 true true 0%Q "inst" "tok" "" [(SessionDemo.frames, CloseOk)] []
      SessionDemo.started SessionDemo.monitor_moves [Terminal.store; Terminal.store] [] (safe_nil 42) eq_refl) as K.
    unfold SessionDemo.process. destruct (run _ [] SessionDemo.started) as [[r w'] fs'].
    destruct (proj2 K eq_refl) as (-> & _ & H & _). by split.
Defined.

(** The sized volume: one lot, of the five asked for. *)
Definition demo_outcome : outcome Q := mk_outcome Filled "0" None (100000000 # 100000000)%Q.

Lemma demo_json_ok : json_ok SessionDemo.repr (PDict (txn_record "t1" (txn_fields SessionDemo.num SessionDemo.g "inst"
  (SessionDemo.acct true) (PStr "a") "buy" "EURUSD" SessionDemo.params demo_outcome))).
Proof.
  apply json_ok_dict. split; [apply (bool_decide_unpack _); vm_compute; exact I|].
  vm_compute. repeat (apply List.Forall_cons; [by split|]). apply List.Forall_nil.
Qed.

Lemma fill_recorded_everywhere_witness :
  let w' := run_state (handle_signal (SessionDemo.broker true) SessionDemo.num SessionDemo.repr SessionDemo.pystr
    SessionDemo.g 42 true 0%Q "inst" "" (SessionDemo.acct true) "t1" (SessionDemo.signal "a")) [] SessionDemo.start in
  exists row, row ∈ s_orders (w_db w') /\ ord_trace row = "a"%string /\ ord_status row = Some "filled"%string.
Proof.
  destruct (fill_recorded_everywhere (SessionDemo.broker true) SessionDemo.num SessionDemo.repr SessionDemo.pystr
    SessionDemo.g 42 true 0%Q "inst" "" (SessionDemo.acct true) "t1" (SessionDemo.signal "a") "buy" "EURUSD"
    SessionDemo.params SessionDemo.start demo_outcome (snd SessionDemo.fill) "a") as (_ & _ & _ & row & H1 & H2 & H3 & _).
  - exact StoreDemo.db_ready.
  - apply (bool_decide_unpack _). vm_compute. exact I.
  - by left.
  - reflexivity.
  - reflexivity.
  - reflexivity.
  - reflexivity.
  - right. exists "tg"%string. reflexivity.
  - vm_compute. reflexivity.
  - exact demo_json_ok.
  - exists row. split; [exact H1|]. split; [exact H2|exact H3].
Defined.

Lemma backfill_undoes_sizing_witness :
  exists v row, row ∈ s_orders (run_state (_backfill_mt5_fills SessionDemo.repr "" "t9" [PDict (txn_record "t1"
    (txn_fields SessionDemo.num SessionDemo.g "inst" (SessionDemo.acct true) (PStr "t-2") "buy" "EURUSD"
       SessionDemo.params demo_outcome))]) [] StoreDemo.db) /\ ord_trace row = "t-2"%string /\
    ord_volume row = Some v /\ Qeq v 5.
Proof.
  destruct (backfill_undoes_sizing SessionDemo.num SessionDemo.repr SessionDemo.g "inst" "" (SessionDemo.acct true)
    "t1" "t9" "buy" "EURUSD" SessionDemo.params demo_outcome "t-2" 5%Q StoreDemo.db StoreDemo.db_ready)
    as (row & H1 & H2 & H3).
  - apply (bool_decide_unpack _). vm_compute. exact I.
  - discriminate.
  - right. exists "tg"%string. reflexivity.
  - vm_compute. reflexivity.
  - exists 5%Q, row. split_and!; [exact H1|exact H2|exact H3|reflexivity].
Defined.
