(* ===== verification/Services.v ===== *)
(** * Services: what the services share around their handlers

    The structured log line of portal-api, persist and tasks; the start and stop
    of the persist worker and what becomes of messages when its pool could not be
    opened; the monitoring endpoint of the risk service, from the bytes of the
    request to those of the response; the one-line exception text of the MT5
    executor's log.

    Arguments: the clock, [repr] of a float, the metrics text.  The attributes of
    a log record enter as the dict the logging library keeps. *)

From Stdlib Require Import ZArith Ascii Strings.Byte SpecFloat.
From S2P Require Import Prelude Text PyFloat PyVal Wire Prog EaShim Json TradeStore Backfill Db Persist Extractor BtService.
Open Scope Z_scope.

(** ** Structured logging *)

Section Logging.
Context {F : Type} {A : Arith F} (float_repr : F -> bytes).

(** [lr_attrs] is [record.__dict__]: the library's attributes and the [extra] of
    the call. *)
Record log_record := mk_log {
  lr_level : string; lr_logger : string; lr_message : string; lr_exc : option string; lr_attrs : pydict F }.

(** The attributes the formatter leaves out. *)
Definition skipped : list string :=
  ["args"; "msg"; "exc_info"; "exc_text"; "stack_info"; "msecs"; "relativeCreated"; "thread"; "threadName"; "processName";
   "process"; "levelname"; "levelno"; "name"; "pathname"; "filename"; "module"; "funcName"; "lineno"; "created"; "asctime";
   "message"]%string.

Definition base_payload (service ts : string) (r : log_record) : pydict F :=
  [("ts", PStr ts); ("level", PStr (lr_level r)); ("service", PStr service); ("logger", PStr (lr_logger r));
   ("msg", PStr (lr_message r))]%string.

(** [if v: payload[k] = v]. *)
Definition set_text (k v : string) (d : pydict F) : pydict F := if bool_decide (v = ""%string) then d else dict_set d k (PStr v).

Definition set_exc (r : log_record) (d : pydict F) : pydict F :=
  match lr_exc r with Some t => dict_set d "exc" (PStr t) | None => d end.

Definition set_extras (r : log_record) (d : pydict F) : pydict F :=
  fold_left (fun d kv => if in_words kv.1 skipped then d else dict_set d kv.1 kv.2) (lr_attrs r) d.

(** portal-api: request and trace ids from the context. *)
Definition portal_payload (ts rid tid : string) (r : log_record) : pydict F :=
  set_extras r (set_exc r (set_text "trace_id" tid (set_text "request_id" rid (base_payload "portal-api" ts r)))).

(** persist: the trace id of the message being handled. *)
Definition persist_payload (ts tid : string) (r : log_record) : pydict F :=
  set_extras r (set_exc r (set_text "trace_id" tid (base_payload "persist" ts r))).

(** tasks: no extras. *)
Definition tasks_payload (ts : string) (r : log_record) : pydict F := set_exc r (base_payload "tasks" ts r).

Definition format (payload : pydict F) : string := dumps float_repr (PDict payload).

(** What the stream handler writes. *)
Definition log_stream (payloads : list (pydict F)) : chars :=
  concat (map (fun p => chars_of (format p) ++ [newline]) payloads).

Lemma stream_lines payloads : Forall (fun p => json_ok float_repr (PDict p)) payloads ->
  parse_jsonl (log_stream payloads) = map PDict payloads.
Proof.
  unfold log_stream. induction 1 as [|p ps Hp _ IH]; [done|]. cbn [map concat]. rewrite <-app_assoc. cbn [app].
  rewrite parse_app, IH. unfold format. by rewrite (parse_dumped float_repr).
Qed.

Lemma stream_split payloads : Forall (fun p => prints float_repr (PDict p)) payloads ->
  lines_of (log_stream payloads) [] = map (fun p => chars_of (format p)) payloads ++ [[]].
Proof.
  unfold log_stream. induction 1 as [|p ps Hp _ IH]; [done|]. cbn [map concat]. rewrite <-app_assoc. cbn [app].
  rewrite lines_app, IH by done. unfold format. by rewrite lines_single by (by apply dumps_no_break).
Qed.

(** The value an extra gives a key: the last one. *)
Definition extra_of (r : log_record) (k : string) : option (pyval F) :=
  if in_words k skipped then None
  else snd <$> List.find (fun kv => bool_decide (kv.1 = k)) (rev (lr_attrs r)).

Lemma extras_get r d k : dict_get (set_extras r d) k = match extra_of r k with Some v => Some v | None => dict_get d k end.
Proof.
  unfold set_extras, extra_of. destruct r as [lv lg ms ex attrs]. cbn [lr_attrs]. clear. revert d.
  induction attrs as [|[x v] attrs IH] using rev_ind; intros d; [by destruct (in_words k skipped)|].
  rewrite fold_left_app, rev_app_distr. cbn [fold_left rev app List.find fst snd].
  case_bool_decide as E; [subst x|].
  - destruct (in_words k skipped) eqn:S; [by rewrite IH|]. by rewrite dict_get_set_eq.
  - destruct (in_words x skipped); [|rewrite dict_get_set_ne by done]; apply IH.
Qed.

End Logging.
Arguments log_record F : clear implicits.

Section LogFacts.
Context {F : Type} {A : Arith F} (float_repr : F -> bytes).

(** A log call of one of the three services. *)
Inductive log_call :=
| PortalLog (ts rid tid : string) (r : log_record F)
| PersistLog (ts tid : string) (r : log_record F)
| TasksLog (ts : string) (r : log_record F).

Definition payload_of (c : log_call) : pydict F :=
  match c with
  | PortalLog ts rid tid r => portal_payload ts rid tid r
  | PersistLog ts tid r => persist_payload ts tid r
  | TasksLog ts r => tasks_payload ts r
  end.

Definition record_of (c : log_call) : log_record F :=
  match c with PortalLog _ _ _ r | PersistLog _ _ r | TasksLog _ r => r end.

Lemma set_text_ne k v d k' : k <> k' -> dict_get (set_text (F := F) k v d) k' = dict_get d k'.
Proof. intros H. unfold set_text. case_bool_decide; [done|]. by rewrite dict_get_set_ne. Qed.

Lemma set_exc_ne r d k : k <> "exc"%string -> dict_get (set_exc (F := F) r d) k = dict_get d k.
Proof. intros H. unfold set_exc. destruct (lr_exc r); [|done]. by rewrite dict_get_set_ne. Qed.

(** A log line cannot be forged.  Whatever messages, exception texts and extras
    are logged, the stream has exactly one line per call, in order; it reads back
    as the calls' objects when their texts are well formed and their floats finite
    and read back; each object has the message of its call, and its level unless an extra of that name
    overrides it. *)
Theorem log_lines_read_back (calls : list log_call)
  (Hok : Forall (fun c => prints float_repr (PDict (payload_of c))) calls) :
  lines_of (log_stream float_repr (map payload_of calls)) [] = map (fun c => chars_of (format float_repr (payload_of c))) calls ++ [[]] /\
  (Forall (fun c => json_ok float_repr (PDict (payload_of c))) calls ->
     parse_jsonl (log_stream float_repr (map payload_of calls)) = map (fun c => PDict (payload_of c)) calls) /\
  Forall (fun c => dict_get (payload_of c) "msg" = Some (PStr (lr_message (record_of c))) /\
     (extra_of (record_of c) "level" = None -> dict_get (payload_of c) "level" = Some (PStr (lr_level (record_of c))))) calls.
Proof.
  split_and!.
  - rewrite stream_split; [by rewrite map_map|]. apply list.Forall_forall. intros p (c & -> & Hc)%list_elem_of_fmap.
    exact (proj1 (list.Forall_forall _ _) Hok c Hc).
  - intros Hj. rewrite stream_lines; [by rewrite map_map|]. apply list.Forall_forall. intros p (c & -> & Hc)%list_elem_of_fmap.
    exact (proj1 (list.Forall_forall _ _) Hj c Hc).
  - apply list.Forall_forall. intros c _. destruct c as [ts rid tid r|ts tid r|ts r]; cbn [payload_of record_of].
    + unfold portal_payload. rewrite !extras_get, !set_exc_ne, !set_text_ne by done. split; [done|by intros ->].
    + unfold persist_payload. rewrite !extras_get, !set_exc_ne, !set_text_ne by done. split; [done|by intros ->].
    + unfold tasks_payload. by rewrite !set_exc_ne by done.
Qed.

End LogFacts.

(** ** The persist worker's life *)

Record worker := mk_worker { wk_pool : bool; wk_nats : bool; wk_subs : list string; wk_ready : readiness; wk_probe : bool }.

Definition idle_worker : worker := mk_worker false false [] _readiness0 false.

Definition set_pool (b : bool) (e : string) (w : worker) : worker :=
  mk_worker b (wk_nats w) (wk_subs w) (mk_readiness b e (nats_ok (wk_ready w)) (nats_err (wk_ready w))) (wk_probe w).
Definition connected (w : worker) : worker :=
  mk_worker (wk_pool w) true (wk_subs w) (mk_readiness (db_ok (wk_ready w)) (db_err (wk_ready w)) true "") (wk_probe w).
Definition subscribe (s : string) (w : worker) : worker :=
  mk_worker (wk_pool w) (wk_nats w) (wk_subs w ++ [s]) (wk_ready w) (wk_probe w).
Definition unsubscribe (s : string) (w : worker) : worker :=
  mk_worker (wk_pool w) (wk_nats w) (List.filter (fun x => negb (bool_decide (x = s))) (wk_subs w)) (wk_ready w) (wk_probe w).
Definition set_probe (b : bool) (w : worker) : worker := mk_worker (wk_pool w) (wk_nats w) (wk_subs w) (wk_ready w) b.
Definition drained (w : worker) : worker := mk_worker (wk_pool w) false (wk_subs w) (wk_ready w) (wk_probe w).
Definition close_pool (w : worker) : worker := mk_worker false (wk_nats w) (wk_subs w) (wk_ready w) (wk_probe w).

Definition SUBJECTS : list string := ["signals.>"; "fills.>"; "events.>"]%string.

(** Up to the point where the worker waits; the result is whether there is a pool. *)
Definition start_worker (err_text : string) : prog worker exn bool :=
  pool <- try_ (exec DbError (set_pool true "") ;;; ret true) (fun _ => act (set_pool false (str_take 200 err_text)) ;;; ret false) ;;
  exec DbError connected ;;;
  exec DbError (subscribe "signals.>") ;;;
  exec DbError (subscribe "fills.>") ;;;
  exec DbError (subscribe "events.>") ;;;
  act (set_probe true) ;;;
  ret pool.

Definition stop_worker (pool : bool) : prog worker exn unit :=
  act (set_probe false) ;;;
  exec DbError (unsubscribe "signals.>") ;;;
  exec DbError (unsubscribe "fills.>") ;;;
  exec DbError (unsubscribe "events.>") ;;;
  exec DbError drained ;;;
  if pool then exec DbError close_pool else ret tt.

Definition run_worker (err_text : string) : prog worker exn unit := pool <- start_worker err_text ;; stop_worker pool.

(** A delivery to one of the three handlers. *)
Inductive delivery := Signal (m : message) | Fill (m : message) | Event (m : message).

Definition message_of (x : delivery) : message := match x with Signal m | Fill m | Event m => m end.

Section Worker.
Context (json_loads : bytes -> result string json) (py_str : json -> string).

Definition handle_delivery (pool : bool) (x : delivery) : prog Db exn unit :=
  match x with
  | Signal m => on_signal pool m
  | Fill m => on_fill json_loads pool m
  | Event m => on_event json_loads py_str pool m
  end.

(** Without a pool a handler only acks. *)
Lemma poolless_handler x : handle_delivery false x = ack (message_of x).
Proof.
  destruct x as [m|m|m]; cbn [handle_delivery message_of].
  - unfold on_signal. by destruct (parse_signal _).
  - unfold on_fill. by destruct (load_object _ _ _).
  - unfold on_event. by destruct (load_object _ _ _).
Qed.

(** Nothing but the acks differs. *)
Definition only_acks (d d' : Db) : Prop := d' = on_acks (fun _ => db_acks d') d.

Lemma only_acks_refl : reflexive _ only_acks.
Proof. by intros []. Qed.
Lemma only_acks_trans : transitive _ only_acks.
Proof. intros a b c. unfold only_acks. intros H1 H2. rewrite H2, H1. by destruct a. Qed.

Definition ack_count (d : Db) : Z := Z.of_nat (length (db_acks d)).

Definition is_done (p : prog Db exn unit) : bool := match p with Done _ => true | _ => false end.

Lemma start_worker_up err faults w pool fs : run (start_worker err) faults idle_worker = (Ok pool, w, fs) ->
  wk_pool w = pool /\ wk_nats w = true /\ wk_subs w = SUBJECTS /\ db_ok (wk_ready w) = pool /\ nats_ok (wk_ready w) = true /\ wk_probe w = true.
Proof.
  unfold start_worker. destruct faults as [|[] faults]; cbn; intros H.
  - injection H as <- <- _. done.
  - destruct faults as [|[] [|[] [|[] [|[] faults]]]]; cbn in H; injection H as <- <- _ || discriminate H; done.
  - destruct faults as [|[] [|[] [|[] [|[] faults]]]]; cbn in H; injection H as <- <- _ || discriminate H; done.
Qed.

(** Handlers whose ack the broker refused: the only way to end in an exception
    here. *)
Definition refused (p : prog Db exn unit) : bool := match p with Done (Err AckError) => true | _ => false end.
Definition refusals (ps : list (prog Db exn unit)) : Z := Z.of_nat (length (List.filter refused ps)).

(** What an acking handler still has to do. *)
Definition acking (p : prog Db exn unit) : Prop := (exists m, p = ack m) \/ p = Done (Ok tt) \/ p = Done (Err AckError).
Definition waiting (ps : list (prog Db exn unit)) : Z := Z.of_nat (length (List.filter (fun p => negb (is_done p)) ps)).

Lemma acking_step ps ps' d d' : Forall acking ps -> istep (ps, d) (ps', d') ->
  Forall acking ps' /\ length ps' = length ps /\
  ack_count d' + refusals ps' + waiting ps' = ack_count d + refusals ps + waiting ps.
Proof.
  intros HF Hs. inversion Hs; subst; apply list.Forall_app in HF as [H1 H2]; apply list.Forall_cons in H2 as [Hp H2];
    destruct Hp as [[m E]|[E|E]]; try discriminate E; try (injection E as -> -> ->);
    unfold ack_count, refusals, waiting; rewrite !List.filter_app, !length_app; cbn -[Z.of_nat]; rewrite ?length_app; cbn -[Z.of_nat];
    (split; [apply list.Forall_app; split; [done|]; constructor; [unfold acking; auto|done]|]); split; lia.
Qed.

Lemma acking_steps ps ps' d d' : Forall acking ps -> rtc istep (ps, d) (ps', d') ->
  Forall acking ps' /\ length ps' = length ps /\
  ack_count d' + refusals ps' + waiting ps' = ack_count d + refusals ps + waiting ps.
Proof.
  intros HF Hr. remember (ps, d) as c eqn:Ec. remember (ps', d') as c' eqn:Ec'. revert ps d HF Ec.
  induction Hr as [c|c [ps1 d1] c2 Hs _ IH]; intros ps d HF ->; [by injection Ec' as <- <-|].
  destruct (acking_step _ _ _ _ HF Hs) as (H1 & H2 & H3). destruct (IH Ec' ps1 d1 H1 eq_refl) as (H4 & H5 & H6).
  split_and!; [done|congruence|lia].
Qed.

Lemma waiting_acks xs : waiting (map (fun x => ack (message_of x)) xs) = Z.of_nat (length xs) /\
  refusals (map (fun x => ack (message_of x)) xs) = 0.
Proof.
  unfold waiting, refusals. induction xs as [|x xs [IH1 IH2]]; [done|]. cbn -[Z.of_nat]. split; [lia|exact IH2].
Qed.

Lemma done_waits ps : forallb is_done ps = true -> waiting ps = 0.
Proof.
  unfold waiting. induction ps as [|p ps IH]; [done|]. cbn [forallb List.filter]. intros [H1 H2]%andb_true_iff.
  rewrite H1. by apply IH.
Qed.

(** C38: a worker that started without its database discards what it receives.  When
    the pool could not be opened the worker still subscribes; until it is restarted
    every message delivered, however deliveries interleave, is acknowledged (but for
    those whose ack the broker refuses, which end in that exception) and nothing is
    stored, while the readiness probe answers 503.  With a pool it answers 200. *)
Theorem worker_without_pool_discards err faults w pool fs (xs : list delivery) ps d d'
  (Hstart : run (start_worker err) faults idle_worker = (Ok pool, w, fs))
  (Hrun : rtc istep (map (handle_delivery pool) xs, d) (ps, d'))
  (Hdone : forallb is_done ps = true) :
  wk_subs w = SUBJECTS /\ do_GET "/readyz" (wk_ready w) = Some (if pool then 200 else 503) /\
  (pool = false -> only_acks d d' /\ length ps = length xs /\
     Forall (fun p => p = Done (Ok tt) \/ p = Done (Err AckError)) ps /\
     ack_count d' + refusals ps = ack_count d + Z.of_nat (length xs)).
Proof.
  destruct (start_worker_up _ _ _ _ _ Hstart) as (_ & _ & Hs & Hd & Hn & _). split_and!; [done| |].
  - unfold do_GET. rewrite Hd, Hn. by destruct pool.
  - intros ->. assert (map (handle_delivery false) xs = map (fun x => ack (message_of x)) xs) as E
      by (apply map_ext; intros x; apply poolless_handler). rewrite E in Hrun.
    assert (Forall acking (map (fun x => ack (message_of x)) xs)) as HA.
    { apply list.Forall_forall. intros p (x & -> & _)%list_elem_of_fmap. left. eauto. }
    destruct (acking_steps _ _ _ _ HA Hrun) as (H1 & H2 & H3). rewrite length_map in H2.
    pose proof (done_waits ps Hdone). destruct (waiting_acks xs) as [E1 E2]. split_and!; [|done| |lia].
    + apply (interleave_steps_in only_acks _ _ _ _ only_acks_refl only_acks_trans) in Hrun; [apply Hrun|].
      apply list.Forall_forall. intros p (x & -> & _)%list_elem_of_fmap. split; [|done]. by intros [].
    + apply list.Forall_forall. intros p Hp. pose proof (proj1 (forallb_forall _ _) Hdone p (proj1 (list_elem_of_In _ _) Hp)) as Hi.
      rewrite list.Forall_forall in H1. destruct (H1 p Hp) as [[m ->]|H']; [discriminate Hi|exact H'].
Qed.

(** An orderly stop releases everything.  From any start that came up, with a
    pool or without, an undisturbed stop leaves no subscription, no connection and
    no pool; a stop that fails part way never leaves the messages flowing after
    the connection is drained. *)
Theorem worker_releases err faults w pool fs
  (Hstart : run (start_worker err) faults idle_worker = (Ok pool, w, fs)) :
  let stopped := run_state (stop_worker pool) [] w in
  wk_pool stopped = false /\ wk_nats stopped = false /\ wk_subs stopped = [] /\ wk_probe stopped = false /\
  forall faults', wk_nats (run_state (stop_worker pool) faults' w) = false -> wk_subs (run_state (stop_worker pool) faults' w) = [].
Proof.
  destruct (start_worker_up _ _ _ _ _ Hstart) as (Hp & Hn & Hs & _). destruct w as [wp wn ws wr wb]. cbn in Hp, Hn, Hs. subst.
  cbn zeta. split_and!; [by destruct pool..|]. intros faults'.
  destruct faults' as [|[] [|[] [|[] [|[] [|[] faults']]]]]; destruct pool; by cbn.
Qed.

End Worker.

(** ** The monitoring endpoint of the risk service *)

Section Monitor.
Context (CONTENT_TYPE_LATEST : string) (metrics_data : bytes).

(** [None]: an exception escapes, the ValueError of a line that cannot be read or the
    IndexError of a request line of one word.  The connection is taken to hold. *)
Definition risk_http (input : bytes) : option http_out :=
  '(request_line, _) ← read_text input;
  if bool_decide (request_line = ""%string) then Some Closed
  else
    path ← split_ws (chars_of request_line) [] !! 1%nat;
    Some (if bool_decide (path = "/health"%string) then Sent health_response
          else if bool_decide (path = "/metrics"%string) then Sent (metrics_response CONTENT_TYPE_LATEST metrics_data)
          else Sent (error_response "HTTP/1.1 404 Not Found")).

(** The stream is created only when it is missing. *)
Definition setup_fills_stream (streams : list string) : list string :=
  if in_words "FILLS" streams then streams else streams ++ ["FILLS"%string].

End Monitor.

(** ** Exception texts *)

(** [short_exc]: the whitespace of the text collapsed, cut after [limit] code points
    with a note of how many were left out. *)
Definition short_exc (type_name text : string) (limit : nat) : string :=
  let text := join " " (split_ws (chars_of text) []) in
  let text := if Nat.ltb limit (str_len text)
              then (str_take limit text +:+ "… (+" +:+ pretty (str_len text - limit)%nat +:+ " chars)")%string else text in
  if bool_decide (text = ""%string) then type_name else (type_name +:+ ": " +:+ text)%string.

(** No whitespace but plain spaces. *)
Definition one_line (s : string) : bool := forallb (fun c => negb (is_space c) || bool_decide (c = " "%char)) (chars_of s).

Lemma one_line_app a b : one_line (a +:+ b) = one_line a && one_line b.
Proof. unfold one_line. by rewrite chars_of_app, forallb_app. Qed.

Lemma words_one_line l : forall cur, forallb (fun c => negb (is_space c)) cur = true ->
  Forall (fun w => one_line w = true) (split_ws l cur).
Proof.
  assert (forall cur, forallb (fun c => negb (is_space c)) cur = true -> one_line (string_of_chars (rev cur)) = true) as K.
  { intros cur H. unfold one_line. rewrite chars_of_string_of. rewrite forallb_forall in *. intros c Hc%in_rev. by rewrite (H c Hc). }
  induction l as [|c l IH]; intros cur H; cbn [split_ws].
  - destruct cur as [|x cur]; [constructor|]. constructor; [by apply K|constructor].
  - destruct (is_space c) eqn:E.
    + destruct cur as [|x cur]; [by apply IH|]. constructor; [by apply K|by apply IH].
    + apply IH. cbn [forallb]. by rewrite E.
Qed.

Lemma join_one_line l : Forall (fun w => one_line w = true) l -> one_line (join " " l) = true.
Proof.
  unfold join. induction 1 as [|w l Hw Hl IH]; [done|]. destruct l as [|x l]; [done|].
  change (String.concat " " (w :: x :: l)) with (w +:+ " " +:+ String.concat " " (x :: l)). by rewrite !one_line_app, Hw, IH.
Qed.

Lemma take_one_line n s : one_line s = true -> one_line (str_take n s) = true.
Proof.
  intros H. destruct (take_points_prefix n (encode_utf8 s)) as [r E].
  assert (s = str_take n s +:+ string_of_bytes r) as Es.
  { unfold str_take. rewrite <-(string_of_encode s) at 1. rewrite E at 1. rewrite <-(encode_string_of (take_points _ _)), <-(encode_string_of r).
    rewrite <-encode_app, string_of_encode. by rewrite !encode_string_of. }
  rewrite Es, one_line_app in H. by apply andb_true_iff in H as [H _].
Qed.

Lemma pretty_one_line (n : nat) : one_line (pretty n) = true.
Proof.
  destruct (pretty_digits n) as [H _]. unfold one_line. rewrite forallb_forall in *. intros c Hc.
  destruct (digit_plain c (H c Hc)) as [-> _]. done.
Qed.

(** An exception is logged on one line, whatever its text. *)
Theorem short_exc_one_line type_name text limit (H : one_line type_name = true) : one_line (short_exc type_name text limit) = true.
Proof.
  unfold short_exc. set (t := join " " (split_ws (chars_of text) [])).
  assert (one_line t = true) as Ht by (by apply join_one_line, words_one_line). clearbody t.
  set (u := if Nat.ltb limit (str_len t) then _ else _).
  assert (one_line u = true) as Hu.
  { subst u. destruct (Nat.ltb _ _); [|done]. rewrite !one_line_app, take_one_line, pretty_one_line by done. done. }
  case_bool_decide; [done|]. by rewrite !one_line_app, H, Hu.
Qed.

(** The monitoring endpoint frames its answers like the backtester's, with the same
    slip in the health check. *)
Theorem risk_replies_framed CONTENT_TYPE_LATEST metrics_data input b (H : no_cr CONTENT_TYPE_LATEST = true)
  (Hb : risk_http CONTENT_TYPE_LATEST metrics_data input = Some (Sent b)) : framed b \/ b = health_response.
Proof.
  unfold risk_http in Hb. destruct (read_text input) as [[line rest]|]; [|done]. cbn [mbind option_bind] in Hb.
  case_bool_decide; [done|]. destruct (split_ws _ _ !! _) as [path|]; [|done]. cbn [mbind option_bind] in Hb. case_bool_decide; [injection Hb as <-; by right|].
  case_bool_decide; injection Hb as <-; left; [by apply metrics_framed|by apply error_framed].
Qed.

(** ** A worker whose database was down *)

Module WorkerDemo.
Definition loads (_ : bytes) : result string json := Err "not json"%string.
Definition text (_ : json) : string := "".
Definition xs : list delivery := [Fill (mk_message 1 "fills.a" []); Signal (mk_message 2 "signals.b" [])].
Definition started := run (start_worker "refused") [true] idle_worker.
Definition ran := fold_left pick [(1, true); (0, false)]%nat (map (handle_delivery loads text false) xs, empty_db).
Definition rec : log_record spec_float :=
  mk_log "INFO" "portal-api" ("two" +:+ String (ascii_of_nat 10) "lines") None [("event"%string, PStr "request"); ("name"%string, PStr "x"); ("latency_ms"%string, PFloat S754_nan)].
End WorkerDemo.

Lemma worker_without_pool_discards_witness :
  wk_subs WorkerDemo.started.1.2 = SUBJECTS /\ do_GET "/readyz" (wk_ready WorkerDemo.started.1.2) = Some 503 /\
  only_acks empty_db WorkerDemo.ran.2 /\ ack_count WorkerDemo.ran.2 = 1 /\ refusals WorkerDemo.ran.1 = 1.
Proof.
  destruct (worker_without_pool_discards WorkerDemo.loads WorkerDemo.text "refused" [true] WorkerDemo.started.1.2 false []
    WorkerDemo.xs WorkerDemo.ran.1 empty_db WorkerDemo.ran.2) as (H1 & H2 & H3).
  - vm_compute. reflexivity.
  - rewrite <-surjective_pairing. apply sched_rtc.
  - vm_compute. reflexivity.
  - destruct (H3 eq_refl) as (H4 & _). split_and!; [exact H1|exact H2|exact H4|vm_compute; reflexivity..].
Defined.

Lemma worker_releases_witness :
  wk_subs (run_state (stop_worker false) [] WorkerDemo.started.1.2) = [] /\ wk_nats (run_state (stop_worker false) [] WorkerDemo.started.1.2) = false.
Proof.
  destruct (worker_releases "refused" [true] WorkerDemo.started.1.2 false []) as (_ & H2 & H3 & _); [vm_compute; reflexivity|].
  split; [exact H3|exact H2].
Defined.

Lemma log_lines_read_back_witness :
  length (lines_of (log_stream (fun _ => [Byte.x31]) [portal_payload "now" "r1" "" WorkerDemo.rec]) []) = 2%nat.
Proof.
  destruct (log_lines_read_back (fun _ : spec_float => [Byte.x31]) [PortalLog "now" "r1" "" WorkerDemo.rec]) as [H _].
  - constructor; [|constructor]. repeat split; try reflexivity. repeat constructor; discriminate.
  - cbn [map payload_of] in H. rewrite H. reflexivity.
Defined.
