(* ===== verification/Lifecycle.v ===== *)
(** * Lifecycle: start and end of the services

    [main] of apps/risk, apps/ml-feature-extractor and apps/backtester, the
    [lifespan] of apps/portal-api, apps/analytics and apps/reports with their
    accessors, and [main] of
    apps/ml-predictor with the constructor of its model.  (The persist worker is
    in Services.v, the tasks service in Tasks.v.)

    The state is what the process holds open.  Opening, closing and every request
    to NATS are statements that may fail.  A service that serves does so until it
    is told to stop; stopping the loop cancels [main], so [serve_forever] ends in
    [Cancelled], which [except Exception] does not catch.  [create_pool] returns
    a pool or raises; its result is never false.

    Arguments: the hash of the model file and the booster's loader. *)

From S2P Require Import Prelude Text PyFloat PyVal Prog TradeStore Extractor Services Predictor.

Inductive resource := Pool | Nats | Subscription (subject : string) | Listener.

Definition is_pool (r : resource) : bool := match r with Pool => true | _ => false end.
Definition is_listener (r : resource) : bool := match r with Listener => true | _ => false end.
Definition of_nats (r : resource) : bool := match r with Nats | Subscription _ => true | _ => false end.

Inductive life_exn := Failure | Cancelled | UnboundLocal.

(** [lf_nc]: the local variable [nc] is bound.  [lf_streams]: the streams of the
    NATS server.  [lf_served]: the process has begun to serve. *)
Record life := mk_life { lf_open : list resource; lf_nc : bool; lf_streams : list string; lf_served : bool }.

Definition starting (streams : list string) : life := mk_life [] false streams false.

Definition acquire (r : resource) (s : life) : life :=
  mk_life (lf_open s ++ [r]) (lf_nc s) (lf_streams s) (lf_served s).

Definition release (which : resource -> bool) (s : life) : life :=
  mk_life (List.filter (fun x => negb (which x)) (lf_open s)) (lf_nc s) (lf_streams s) (lf_served s).

(** Draining the connection ends its subscriptions. *)
Definition drain : life -> life := release of_nats.

Definition bind_nc (s : life) : life := mk_life (lf_open s) true (lf_streams s) (lf_served s).

Definition on_streams (f : list string -> list string) (s : life) : life :=
  mk_life (lf_open s) (lf_nc s) (f (lf_streams s)) (lf_served s).

Definition serving (s : life) : life := mk_life (lf_open s) (lf_nc s) (lf_streams s) true.

Definition lifecycle := prog life life_exn unit.

(** [except Exception]: a cancellation passes. *)
Definition log_error (p : lifecycle) : lifecycle :=
  try_ p (fun e => match e with Cancelled => raise Cancelled | _ => ret tt end).

(** The look-up of the stream, and its creation when it is missing. *)
Definition setup_stream (name : string) (create : list string -> list string) : lifecycle :=
  found <- query Failure (fun s => bool_decide (name ∈ lf_streams s)) ;;
  if found then ret tt else exec Failure (on_streams create).

Definition subscribe_to (subject : string) : lifecycle := exec Failure (acquire (Subscription subject)).
Definition subscribe_fills : lifecycle := subscribe_to "fills.>".
Definition subscribe_signals : lifecycle := subscribe_to "signals.>".

(** [start_server], the signal handlers, and [async with server: serve_forever()];
    the block closes the listener when it is left. *)
Definition serve_http : lifecycle :=
  exec Failure (acquire Listener) ;;;
  exec Failure (fun s => s) ;;;
  finally (exec Failure serving ;;; raise Cancelled) (act (release is_listener)).

Definition connect_nats : lifecycle := exec Failure (fun s => bind_nc (acquire Nats s)).

(** [await nc.drain() if nc else None], where [nc] may be unbound. *)
Definition drain_nc : lifecycle :=
  Act (fun s => s) (fun s => if lf_nc s then exec Failure drain else raise UnboundLocal).

Definition close_pool : lifecycle := exec Failure (release is_pool).

Definition risk_main : lifecycle :=
  exec Failure (acquire Pool) ;;;
  finally
    (log_error (connect_nats ;;; setup_stream "FILLS" setup_fills_stream ;;; subscribe_fills ;;; serve_http))
    (close_pool ;;; drain_nc).

Definition extractor_main : lifecycle :=
  exec Failure (acquire Pool) ;;;
  finally
    (log_error (connect_nats ;;; setup_stream "SIGNALS" setup_signals_stream ;;; subscribe_signals ;;; serve_http))
    (close_pool ;;; drain_nc).

Definition backtester_main : lifecycle :=
  exec Failure (acquire Pool) ;;; finally (log_error serve_http) close_pool.

(** ** The portal *)

(** The globals of the portal, [None] before start-up. *)
Record portal_conns := mk_conns { pc_pool : bool; pc_nc : bool }.

Definition lifespan_start : prog life life_exn portal_conns :=
  exec Failure (acquire Pool) ;;;
  nc <- try_ (exec Failure (acquire Nats) ;;; ret true) (fun _ => ret false) ;;
  ret (mk_conns true nc).

Definition lifespan_end (c : portal_conns) : lifecycle :=
  close_pool ;;; if pc_nc c then exec Failure drain else ret tt.

(** The accessors the routes depend on; an error is the status of the answer. *)
Definition get_pool (c : portal_conns) : result Z unit := if pc_pool c then Ok tt else Err 503%Z.
Definition get_nats (c : portal_conns) : result Z unit := if pc_nc c then Ok tt else Err 503%Z.

(** The lifespan of apps/analytics and of apps/reports: a pool that cannot be
    opened is logged, and the service serves without one.  [None]/[false] is the
    global [_pool] left unset. *)
Definition analytics_start : prog life life_exn bool :=
  try_ (exec Failure (acquire Pool) ;;; ret true)
    (fun e => match e with Cancelled => raise Cancelled | _ => ret false end).
Definition analytics_end (pool : bool) : lifecycle := if pool then close_pool else ret tt.
Definition analytics_get_pool (pool : bool) : result Z unit := if pool then Ok tt else Err 503%Z.

Definition reports_start : prog life life_exn bool :=
  try_ (exec Failure (acquire Pool) ;;; ret true)
    (fun e => match e with Cancelled => raise Cancelled | _ => ret false end).
Definition reports_end (pool : bool) : lifecycle := if pool then close_pool else ret tt.
Definition reports_get_pool (pool : bool) : result Z unit := if pool then Ok tt else Err 503%Z.

(** ** The predictor *)

Section Model.
Context {F : Type} {A : Arith F} (sha256_hex : bytes -> string)
  (load_model : bytes -> option (list F -> result string F)).

Inductive load_error := NoFile | BadModel | WrongCount (n : nat).

(** [XGBPredictor.__init__]; an absent file is [None]. *)
Definition new_predictor (model order : option bytes) (lines_of_file : bytes -> list string) (threshold : F)
  : result load_error (XGBPredictor F) :=
  match model with
  | None => Err NoFile
  | Some model_bytes =>
      match load_model model_bytes with
      | None => Err BadModel
      | Some score =>
          match order with
          | None => Err NoFile
          | Some text =>
              match load_feature_order (lines_of_file text) with
              | Err n => Err (WrongCount n)
              | Ok names => Ok (mk_predictor threshold names (str_take 12 (sha256_hex model_bytes)) score)
              end
          end
      end
  end.

(** The globals of the service after [main] has loaded the model. *)
Record predictor_state := mk_pstate {
  ps_predictor : option (XGBPredictor F); ps_model_loaded : Z; ps_model_info : option string }.

Definition predictor_start (loaded : result load_error (XGBPredictor F)) : predictor_state :=
  match loaded with
  | Ok p => mk_pstate (Some p) 1 (Some (p_model_version p))
  | Err _ => mk_pstate None 0 None
  end.

End Model.

(** ** What is left when a service ends *)

(** The shape the two consumers of NATS share. *)
Definition consumer (name : string) (create : list string -> list string) (subject : string) : lifecycle :=
  exec Failure (acquire Pool) ;;;
  finally (log_error (connect_nats ;;; setup_stream name create ;;; subscribe_to subject ;;; serve_http))
    (close_pool ;;; drain_nc).

(** The end of a process: how [main] ended and what it left.  A service that was
    told to stop has released everything and its stream exists; one that gave up
    has released all but possibly the listener; one that could not connect to NATS
    ends in an exception other than the logged one. *)
Definition ends_clean (name : string) (r : result life_exn unit) (s : life) : Prop :=
  match r with
  | Err Cancelled => lf_open s = [] /\ lf_served s = true /\ name ∈ lf_streams s
  | Ok _ => lf_nc s = true /\ (lf_open s = [] \/ lf_open s = [Listener] /\ lf_served s = false)
  | Err UnboundLocal => lf_nc s = false /\ lf_open s = [] /\ lf_served s = false
  | Err Failure => True
  end.

Ltac each_fault :=
  repeat match goal with
  | |- context [match ?fs with [] => _ | _ :: _ => _ end] => is_var fs; destruct fs as [|[] ?]; cbn
  | |- context [run _ ?fs _] => is_var fs; destruct fs as [|[] ?]; cbn
  end.

Lemma consumer_ends name create subject faults streams : (forall l, name ∈ create l) ->
  let '(r, s, _) := run (consumer name create subject) faults (starting streams) in ends_clean name r s.
Proof.
  intros Hc. unfold consumer. destruct (bool_decide (name ∈ streams)) eqn:E; cbn; each_fault; rewrite ?E; cbn; each_fault;
    repeat split; auto; by apply bool_decide_eq_true in E.
Qed.

Lemma setup_creates name (l : list string) : name ∈ (if in_words name l then l else l ++ [name]).
Proof.
  unfold in_words. destruct (existsb _ l) eqn:E; [|set_solver].
  apply existsb_exists in E as (x & Hx & ->%bool_decide_eq_true). by apply list_elem_of_In.
Qed.

(** Every service releases what it opened.  Whatever fails at start-up, while
    serving or before: a service told to stop has closed its pool, its connection
    and its listener, and (for the two consumers) its stream exists; one that gave
    up after an error it logged leaves at most a listener that never served; and
    when NATS cannot be reached the consumers end in the exception of an unbound
    variable, with the pool closed.  An undisturbed service serves until it is
    stopped. *)
Theorem services_release faults streams :
  (let '(r, s, _) := run risk_main faults (starting streams) in ends_clean "FILLS" r s) /\
  (let '(r, s, _) := run extractor_main faults (starting streams) in ends_clean "SIGNALS" r s) /\
  (let '(r, s, _) := run backtester_main faults (starting streams) in
     r = Err Cancelled -> lf_open s = [] /\ lf_served s = true) /\
  (forall main, main = risk_main \/ main = extractor_main ->
     run_result main [] (starting streams) = Err Cancelled /\
     run_result main [false; true] (starting streams) = Err UnboundLocal).
Proof.
  split_and!.
  - apply consumer_ends. intros l. apply (setup_creates "FILLS").
  - apply consumer_ends. intros l. apply (setup_creates "SIGNALS").
  - unfold backtester_main. cbn. each_fault; done.
  - intros main [-> | ->]; unfold run_result; cbn; destruct (bool_decide _); done.
Qed.

(** The portal serves without NATS but never without its database: once start-up
    has ended [get_pool] succeeds, [get_nats] answers 503 exactly when the
    connection could not be made, and an undisturbed shutdown closes what was
    opened. *)
Theorem portal_lifespan faults streams c s fs
  (H : run lifespan_start faults (starting streams) = (Ok c, s, fs)) :
  get_pool c = Ok tt /\ (get_nats c = Err 503%Z <-> lf_open s = [Pool]) /\
  lf_open (run_state (lifespan_end c) [] s) = [].
Proof.
  revert H. unfold lifespan_start. cbn.
  destruct faults as [|[] [|[] faults]]; cbn; intros [= <- <- <-]; done.
Qed.

(** Analytics and reports always start.  Whatever fails, start-up ends normally;
    the routes answer 503 exactly when the database could not be reached then, for
    as long as the process lives; and the end closes the pool if there is one. *)
Theorem query_services_start faults streams :
  (exists pool s fs, run analytics_start faults (starting streams) = (Ok pool, s, fs) /\
     (analytics_get_pool pool = Err 503%Z <-> lf_open s = []) /\ lf_open (run_state (analytics_end pool) [] s) = []) /\
  (exists pool s fs, run reports_start faults (starting streams) = (Ok pool, s, fs) /\
     (reports_get_pool pool = Err 503%Z <-> lf_open s = []) /\ lf_open (run_state (reports_end pool) [] s) = []).
Proof. destruct faults as [|[] faults]; split; do 3 eexists; cbn; repeat split; done. Qed.

(** The predictor stays up without its model and says so: the gauge is 1 exactly
    when the model loaded, [/health] and [/readyz] answer 200 then and 503
    otherwise, [/healthz] always 200; a loaded model has the expected number of
    features and the version of its file. *)
Theorem predictor_reports_its_model {F} {A : Arith F} sha256_hex load_model model order lines (thr : F)
    json_loads text m :
  let loaded := new_predictor sha256_hex load_model model order lines thr in
  let st := predictor_start loaded in
  let up := match loaded with Ok _ => true | Err _ => false end in
  let ask path := status_code <$> (http_handler json_loads (ps_predictor st) text ["GET"; path]%string [] [] m).2 in
  ps_model_loaded st = (if up then 1 else 0)%Z /\
  ask "/health"%string = Some (if up then 200 else 503)%Z /\
  ask "/readyz"%string = Some (if up then 200 else 503)%Z /\
  ask "/healthz"%string = Some 200%Z /\
  (forall p, loaded = Ok p -> length (p_feature_order p) = EXPECTED_FEATURE_COUNT /\
     exists file, model = Some file /\ ps_model_info st = Some (str_take 12 (sha256_hex file))).
Proof.
  intros loaded st up ask. subst st up ask. unfold loaded, new_predictor.
  destruct model as [file|]; [|by split_and!].
  destruct (load_model file) as [score|]; [|by split_and!].
  destruct order as [o|]; [|by split_and!].
  destruct (load_feature_order (lines o)) as [names|n] eqn:E; [|by split_and!].
  split_and!; try done. intros p [= <-]. split; [|by exists file].
  revert E. unfold load_feature_order. cbn zeta. destruct (Nat.eqb _ _) eqn:Hn; [|done].
  intros [= <-]. by apply Nat.eqb_eq.
Qed.

Lemma portal_lifespan_witness : exists c s, get_nats c = Err 503%Z /\ lf_open (run_state (lifespan_end c) [] s) = [].
Proof.
  exists (mk_conns true false), (acquire Pool (starting [])).
  destruct (portal_lifespan [false; true] [] (mk_conns true false) (acquire Pool (starting [])) []) as (_ & H2 & H3);
    [reflexivity|]. split; [apply H2; reflexivity|exact H3].
Defined.
