(* ===== verification/Scripts.v ===== *)
(** * Scripts: the operational scripts

    scripts/generate-dev-certs.py: which subject alternative names the certificate
    gets, on each of the two ways it can be made, and how the command ends.
    scripts/e2e_demo_matrix.py: the requests of the demo matrix and how it judges
    what the terminal holds afterwards.

    [ipaddress.ip_address] is written out.  Arguments: whether the [cryptography]
    package and the [openssl] binary are there, the HTTP answers, the terminal.
    Host names and addresses are ASCII text. *)

From Stdlib Require Import ZArith QArith Ascii.
From S2P Require Import Prelude Text PyFloat PyVal Json Db EaShim Predictor.
Open Scope Z_scope.

(** ** [ipaddress.ip_address] *)

Definition is_digit_char (c : ascii) : bool := match digit_of c with Some _ => true | None => false end.

Definition is_hex_char (c : ascii) : bool :=
  let n := nat_of_ascii c in is_digit_char c || (Nat.leb 65 n && Nat.leb n 70) || (Nat.leb 97 n && Nat.leb n 102).

(** [_parse_octet]: one to three digits, no leading zero, at most 255. *)
Definition octet_ok (l : chars) : bool :=
  match l with
  | [] => false
  | c :: rest =>
      forallb is_digit_char l && Nat.leb (length l) 3 &&
      negb (bool_decide (c = "0"%char) && negb (bool_decide (rest = []))) &&
      match parse_int (string_of_chars l) with Some z => z <=? 255 | None => false end
  end.

Definition ipv4_ok (l : chars) : bool :=
  let octets := split_chars "."%char l [] in
  Nat.eqb (length octets) 4 && forallb octet_ok octets.

(** [_parse_hextet]: one to four hexadecimal digits. *)
Definition hextet_ok (l : chars) : bool :=
  negb (bool_decide (l = [])) && forallb is_hex_char l && Nat.leb (length l) 4.

(** The places, the first and the last aside, where a part is empty ([::]). *)
Definition empty_inside (parts : list chars) : list nat :=
  List.filter (fun i => bool_decide (parts !! i = Some [])) (seq 1 (length parts - 2)).

(** A trailing dotted quad stands for two hextets. *)
Definition expand_tail (parts : list chars) : option (list chars) :=
  match rev parts with
  | l :: before =>
      if existsb (fun c => bool_decide (c = "."%char)) l
      then if ipv4_ok l then Some (rev before ++ [["0"%char]; ["0"%char]]) else None
      else Some parts
  | [] => Some parts
  end.

Definition first_empty (parts : list chars) : bool := match parts with [] :: _ => true | _ => false end.
Definition last_empty (parts : list chars) : bool := first_empty (rev parts).

(** [_ip_int_from_string] of the part before a scope id. *)
Definition ipv6_parts_ok (parts : list chars) : bool :=
  Nat.leb (length parts) 9 &&
  match empty_inside parts with
  | [] => Nat.eqb (length parts) 8 && negb (first_empty parts) && negb (last_empty parts) && forallb hextet_ok parts
  | [skip] =>
      let hi := if first_empty parts then (skip - 1)%nat else skip in
      let lo := if last_empty parts then (length parts - skip - 2)%nat else (length parts - skip - 1)%nat in
      negb (first_empty parts && negb (Nat.eqb hi 0)) && negb (last_empty parts && negb (Nat.eqb lo 0)) &&
      Nat.ltb (hi + lo) 8 && forallb hextet_ok (take hi parts) && forallb hextet_ok (drop (length parts - lo) parts)
  | _ => false
  end.

Definition ipv6_ok (l : chars) : bool :=
  let addr := split_chars "%"%char l [] in
  match addr with
  | a :: scope =>
      negb (existsb (fun c => bool_decide (c = "/"%char)) l) &&
      match scope with [] => true | [s] => negb (bool_decide (s = [])) | _ => false end &&
      negb (bool_decide (a = [])) &&
      let parts := split_chars ":"%char a [] in
      Nat.leb 3 (length parts) &&
      match expand_tail parts with Some parts => ipv6_parts_ok parts | None => false end
  | [] => false
  end.

Definition ip_address (s : string) : bool := ipv4_ok (chars_of s) || ipv6_ok (chars_of s).

(** ** generate-dev-certs.py *)

Inductive general_name := IPAddress (s : string) | DNSName (s : string).

(** What is put into the certificate. *)
Record certificate := mk_cert {
  ct_common_name : string; ct_sans : list general_name; ct_not_before : Z; ct_not_after : Z; ct_ca : bool }.

Definition day_secs : Z := 86400.

Definition san_entry (s : string) : general_name := if ip_address s then IPAddress s else DNSName s.

Definition cryptography_certificate (now : Z) (common_name : string) (sans : list string) (days : Z) : certificate :=
  mk_cert common_name (map san_entry sans) (now - day_secs) (now + days * day_secs) false.

(** [s.replace(".", "").isdigit() or ":" in s]. *)
Definition openssl_ip (s : string) : bool :=
  let digits := List.filter (fun c => negb (bool_decide (c = "."%char))) (chars_of s) in
  negb (bool_decide (digits = [])) && forallb is_digit_char digits ||
  existsb (fun c => bool_decide (c = ":"%char)) (chars_of s).

Definition openssl_name (s : string) : string := ((if openssl_ip s then "IP:" else "DNS:") +:+ s)%string.

Definition openssl_command (out_dir common_name : string) (sans : list string) (days : Z) : list string :=
  let san_str := join "," (map openssl_name sans) in
  ["openssl"; "req"; "-x509"; "-newkey"; "rsa:2048"; "-nodes"; "-keyout"; out_dir +:+ "/dev-key.pem"; "-out";
   out_dir +:+ "/dev-cert.pem"; "-days"; pretty days; "-subj"; "/CN=" +:+ common_name]%string ++
  if bool_decide (san_str = ""%string) then [] else ["-addext"; "subjectAltName=" +:+ san_str]%string.

Definition default_sans : list string := ["localhost"; "127.0.0.1"; "::1"]%string.

(** What making the certificate did: the files written, in order, or the command
    run. *)
Inductive made := Wrote (c : certificate) (files : list string) | Ran (command : list string) | Nothing.

Inductive ending := Exit (code : Z) | CalledProcessError.

(** [main]: [openssl] is [None] when the binary is missing, otherwise whether it
    succeeds on a command. *)
Definition certs_main (cryptography : bool) (openssl : option (list string -> bool)) (now : Z) (out cn : string)
    (san : option (list string)) (days : Z) : made * ending :=
  let sans := match san with Some (s :: l) => s :: l | _ => default_sans end in
  if cryptography
  then (Wrote (cryptography_certificate now cn sans days) [out +:+ "/dev-key.pem"; out +:+ "/dev-cert.pem"]%string, Exit 0)
  else match openssl with
       | None => (Nothing, Exit 1)
       | Some runs =>
           let command := openssl_command out cn sans days in
           (Ran command, if runs command then Exit 0 else CalledProcessError)
       end.

(** ** e2e_demo_matrix.py *)

Section Matrix.
Context {F : Type} {A : Arith F} {T : Type} (B : Broker F T).
Context (LICENSE SECRET SYMBOL INGRESS : string) (MAGIC : Z) (FEATURES : pyval F) (volume : F).

(** The answer to a request: the status and the document, or an exception ([None],
    for the ML request also on an HTTP error). *)
Context (post_ml : string -> pydict F -> option (Z * pydict F)) (post_flat : string -> string -> option (Z * pydict F)).

Definition ml_body (action : string) (current_position : option string) : pydict F :=
  [("license_id", PStr LICENSE); ("secret", PStr SECRET); ("action", PStr action); ("symbol", PStr SYMBOL);
   ("volume", PFloat volume); ("sl", PInt 0); ("tp", PInt 0); ("comment", PStr ("matrix-" +:+ action));
   ("features", FEATURES)]%string ++
  match current_position with
  | Some p => if bool_decide (p = ""%string) then [] else [("current_position", PStr p)]%string
  | None => []
  end.

Definition ml_request (action : string) (current_position : option string) : option (Z * pydict F) :=
  post_ml (INGRESS +:+ "/webhook/ml")%string (ml_body action current_position).

Definition flat_request (command : string) : option (Z * pydict F) :=
  post_flat (INGRESS +:+ "/webhook")%string
    (LICENSE +:+ "," +:+ command +:+ "," +:+ SYMBOL +:+ ",vol_lots=0.01,secret=" +:+ SECRET)%string.

Definition kind_of (s : side) : string := match s with Buy => "BUY" | Sell => "SELL" end.

(** The shim's own positions of the symbol. *)
Definition positions (t : T) : list (Z * string * F) :=
  map (fun p => (p_ticket p, kind_of (p_type p), p_volume p))
    (List.filter (fun p => p_magic p =? MAGIC) (fst (positions_get B (Some SYMBOL) t))).

Definition sorted (l : list string) : list string := sort_by (fun a b => String.ltb a b) l.

(** [None]: the answer has no status. *)
Definition check (expect_status : string) (resp : pydict F) (want : list string) (t : T) : option bool :=
  match dict_get resp "status" with
  | None => None
  | Some v =>
      let kinds := sorted (map (fun p => p.1.2) (positions t)) in
      Some (match v with PStr s => bool_decide (s = expect_status) | _ => false end && bool_decide (kinds = sorted want))
  end.

Record case := mk_case {
  cs_request : option (Z * pydict F); cs_status : string; cs_positions : list string }.

Definition case_of (name : string) : option case :=
  if bool_decide (name = "case1"%string) then Some (mk_case (ml_request "buy" None) "accepted" ["BUY"%string])
  else if bool_decide (name = "case2"%string) then
    Some (mk_case (ml_request "buy" (Some "LONG"%string)) "skipped" ["BUY"%string])
  else if bool_decide (name = "case3"%string) then
    Some (mk_case (ml_request "sell" (Some "LONG"%string)) "accepted" ["SELL"%string])
  else if bool_decide (name = "case4"%string) then Some (mk_case (ml_request "buy" (Some "SHORT"%string)) "accepted" [])
  else if bool_decide (name = "case5"%string) then Some (mk_case (ml_request "buy" None) "skipped" [])
  else if bool_decide (name = "case6"%string) then Some (mk_case (ml_request "buy" None) "accepted" ["BUY"%string])
  else if bool_decide (name = "case7"%string) then Some (mk_case (flat_request "closelong") "accepted" [])
  else None.

(** [run]; the terminal is read some seconds after the answer, in the state [t]. *)
Definition run_case (name : string) (t : T) : option bool :=
  match case_of name with
  | None => Some false
  | Some c => '(_, resp) ← cs_request c; check (cs_status c) resp (cs_positions c) t
  end.

(** The exit status; an exception ends with 1 as well. *)
Definition matrix_main (name : string) (t : T) : Z := match run_case name t with Some true => 0 | _ => 1 end.

End Matrix.

(** ** The two ways to make a certificate ask for the same names *)

Lemma split_no_sep sep l cur : sep ∉ l -> split_chars sep l cur = [rev cur ++ l].
Proof.
  revert cur. induction l as [|c l IH]; intros cur Hn; cbn; [by rewrite app_nil_r|].
  apply not_elem_of_cons in Hn as [Hc Hn]. rewrite bool_decide_false by congruence. rewrite IH by done. cbn. by rewrite <- app_assoc.
Qed.

Lemma split_pieces (P : ascii -> Prop) sep l cur :
  Forall (Forall P) (split_chars sep l cur) -> Forall P cur /\ Forall (fun c => c = sep \/ P c) l.
Proof.
  revert cur. induction l as [|c l IH]; intros cur; cbn.
  - intros [H _]%Forall_cons_1. split; [|constructor]. rewrite <- (rev_involutive cur). by apply Forall_rev.
  - destruct (decide (c = sep)) as [->|Hc].
    + rewrite bool_decide_true by done. intros [H Hr]%Forall_cons_1. destruct (IH _ Hr) as [_ Hl].
      split; [rewrite <- (rev_involutive cur); by apply Forall_rev|]. constructor; [by left|done].
    + rewrite bool_decide_false by done. intros H. destruct (IH _ H) as [[Hp Hcur]%Forall_cons_1 Hl].
      split; [done|]. constructor; [by right|done].
Qed.

Lemma octet_digits l : octet_ok l = true -> Forall (fun c => is_digit_char c = true) l /\ l <> [].
Proof.
  destruct l as [|c l]; [done|]. unfold octet_ok. intros H. rewrite !andb_true_iff in H. destruct H as [[[H _] _] _].
  split; [|done]. apply Forall_forall. intros x Hx. rewrite forallb_forall in H. by apply H.
Qed.


Definition dot : ascii := "."%char.
Definition colon : ascii := ":"%char.

Lemma ipv4_digits l : ipv4_ok l = true ->
  Forall (fun c => c = dot \/ is_digit_char c = true) l /\ Exists (fun c => is_digit_char c = true) l.
Proof.
  unfold ipv4_ok. intros [Hn Ho]%andb_true_iff. rewrite forallb_forall in Ho.
  assert (Forall (Forall (fun c => is_digit_char c = true)) (split_chars dot l [])) as Hf.
  { apply List.Forall_forall. intros x Hx. by apply octet_digits, Ho. }
  destruct (split_pieces _ _ _ _ Hf) as [_ Hl]. split; [done|].
  destruct (List.Exists_dec (fun c => is_digit_char c = true) l) as [|Hno]; [intros; apply decide, _|done|].
  exfalso. apply List.Forall_Exists_neg in Hno.
  assert (Forall (fun c => c = dot) l) as Hdots.
  { clear - Hl Hno. induction Hl as [|c l [->|Hc] Hl IH]; inversion Hno; subst; constructor; auto. done. }
  destruct l as [|c l]; [by cbn in Hn|]. inversion Hdots; subst. cbn in Ho. specialize (Ho [] (or_introl eq_refl)). done.
Qed.

Lemma ipv6_colon l : ipv6_ok l = true -> colon ∈ l.
Proof.
  intros H. destruct (decide (colon ∈ l)) as [|Hn]; [done|]. exfalso. unfold ipv6_ok in H.
  destruct (split_chars "%"%char l []) as [|a scope] eqn:E; [done|]. rewrite !andb_true_iff in H.
  destruct H as [_ [Hlen _]]. assert (colon ∉ a) as Ha.
  { intros Hin. apply Hn. clear - E Hin.
    assert (forall l cur a scope, split_chars "%"%char l cur = a :: scope -> colon ∈ a -> colon ∈ cur \/ colon ∈ l) as K.
    { clear. induction l as [|c l IH]; intros cur a scope E Hin; cbn in E.
      - injection E as <- <-. left. by apply list_elem_of_In, in_rev, list_elem_of_In.
      - destruct (bool_decide (c = "%"%char)).
        + injection E as <- _. left. by apply list_elem_of_In, in_rev, list_elem_of_In.
        + destruct (IH _ _ _ E Hin) as [[->|?]%elem_of_cons|?]; [right; left|by left|right; by right]. }
    destruct (K _ _ _ _ E Hin) as [Hc|?]; [by apply not_elem_of_nil in Hc|done]. }
  rewrite split_no_sep in Hlen by done. done.
Qed.

(** A host name: no colon, and some character that is neither digit nor dot. *)
Definition host_name (s : string) : Prop :=
  (colon ∉ chars_of s) /\ Exists (fun c => c <> dot /\ is_digit_char c = false) (chars_of s).

Definition asked (n : general_name) : string :=
  match n with IPAddress s => "IP:" +:+ s | DNSName s => "DNS:" +:+ s end%string.

Lemma address_is_ip s : ip_address s = true -> openssl_ip s = true.
Proof.
  unfold ip_address, openssl_ip. intros [H|H]%orb_true_iff; apply orb_true_iff.
  - left. destruct (ipv4_digits _ H) as [Hall Hex]. apply andb_true_iff. split.
    + apply negb_true_iff, bool_decide_eq_false. intros E. apply List.Exists_exists in Hex as (c & Hc & Hd).
      assert (In c []) as []. rewrite <- E. apply List.filter_In. split; [done|].
      apply negb_true_iff, bool_decide_eq_false. by intros ->.
    + apply forallb_forall. intros c [Hc Hd]%List.filter_In. rewrite List.Forall_forall in Hall.
      destruct (Hall c Hc) as [->|]; [|done]. by rewrite bool_decide_true in Hd.
  - right. apply ipv6_colon in H. apply existsb_exists. exists colon. split; [by apply list_elem_of_In|].
    by apply bool_decide_eq_true.
Qed.

Lemma host_is_dns s : host_name s -> ip_address s = false /\ openssl_ip s = false.
Proof.
  intros [Hc Hex]. assert (openssl_ip s = false) as Ho.
  { unfold openssl_ip. apply orb_false_iff. split.
    - apply andb_false_iff. right. apply not_true_iff_false. intros Hall. rewrite forallb_forall in Hall.
      apply List.Exists_exists in Hex as (c & Hin & Hd & Hn). rewrite Hall in Hn; [done|].
      apply List.filter_In. split; [done|]. by apply negb_true_iff, bool_decide_eq_false.
    - apply not_true_iff_false. intros (c & Hin & ->%bool_decide_eq_true)%existsb_exists. by apply Hc, list_elem_of_In. }
  split; [|done]. apply not_true_iff_false. intros Hi. apply address_is_ip in Hi. congruence.
Qed.

(** Both ways to make the certificate ask for the same names.  For addresses and
    host names the [openssl] command carries exactly the alternative names the
    [cryptography] path puts into the certificate, and the defaults are such; the
    command ends with status 1 exactly when neither way is available, and then
    nothing was made.  (For a text such as [1.2.3], which is neither, the two
    disagree.) *)
Theorem certs_ask_alike now out cn sans days
  (H : Forall (fun s => ip_address s = true \/ host_name s) sans) :
  map openssl_name sans = map asked (ct_sans (cryptography_certificate now cn sans days)) /\
  (forall cryptography openssl san,
     snd (certs_main cryptography openssl now out cn san days) = Exit 1 <-> cryptography = false /\ openssl = None) /\
  (forall openssl san, openssl = None -> fst (certs_main false openssl now out cn san days) = Nothing).
Proof.
  split_and!.
  - cbn. rewrite map_map. induction H as [|s sans Hs _ IH]; [done|]. cbn. rewrite IH. f_equal.
    unfold openssl_name, san_entry. destruct Hs as [Hs|Hs].
    + by rewrite (address_is_ip s Hs), Hs.
    + by destruct (host_is_dns s Hs) as [-> ->].
  - intros [] [runs|] san; cbn; [split; [done|by intros []]..| |done].
    destruct (runs _); split; try done; by intros [].
  - by intros openssl san ->.
Qed.

Example partial_address_differs : openssl_ip "1.2.3" = true /\ ip_address "1.2.3" = false.
Proof. split; reflexivity. Qed.

Example addresses : map ip_address ["127.0.0.1"; "::1"; "fe80::1%eth0"; "::ffff:1.2.3.4"; "2001:db8:0:0:0:0:0:1";
    "256.1.1.1"; "01.2.3.4"; "1::2::3"; ":1"; "localhost"]%string =
  [true; true; true; true; true; false; false; false; false; false].
Proof. reflexivity. Qed.

Lemma certs_ask_alike_witness :
  map openssl_name default_sans = ["DNS:localhost"; "IP:127.0.0.1"; "IP:::1"]%string /\
  map openssl_name default_sans = map asked (ct_sans (cryptography_certificate 0 "localhost" default_sans 825)).
Proof.
  split; [reflexivity|]. apply (certs_ask_alike 0 "certs" "localhost" default_sans 825).
  repeat apply Forall_cons_2; [right|left; reflexivity|left; reflexivity|constructor].
  split; [apply (bool_decide_unpack _); vm_compute; exact I|]. apply List.Exists_exists. exists "l"%char.
  split; [left; reflexivity|split; [discriminate|reflexivity]].
Defined.

(** ** The demo matrix *)

Definition two_sided (l : list string) : Prop := Forall (fun k => k = "BUY" \/ k = "SELL")%string l.

Definition sides_of (l : list string) : list string :=
  replicate (length (List.filter (fun k => bool_decide (k = "BUY"%string)) l)) "BUY"%string ++
  replicate (length (List.filter (fun k => negb (bool_decide (k = "BUY"%string))) l)) "SELL"%string.

Lemma sorted_sides l : two_sided l -> sorted l = sides_of l.
Proof.
  unfold sorted, sides_of. induction 1 as [|k l Hk Hl IH]; [done|]. cbn [sort_by fold_right]. fold (sort_by (fun a b => String.ltb a b) l).
  rewrite IH. clear IH. destruct Hk as [-> | ->]; cbn [List.filter bool_decide negb length].
  - change (bool_decide ("BUY" = "BUY")%string) with true. cbn [negb length replicate app].
    destruct (length (List.filter (fun k => bool_decide (k = "BUY"%string)) l)) as [|n]; cbn [replicate app insert_sorted].
    + destruct (length _) as [|m]; [done|]. reflexivity.
    + reflexivity.
  - change (bool_decide ("SELL" = "BUY")%string) with false. cbn [negb length].
    induction (length (List.filter (fun k => bool_decide (k = "BUY"%string)) l)) as [|n IHn].
    + cbn [replicate app]. induction (length (List.filter _ l)) as [|m IHm]; [reflexivity|]. reflexivity.
    + cbn [replicate app insert_sorted]. change (String.ltb "BUY" "SELL") with true. cbn iota. by rewrite IHn.
Qed.

Lemma sorted_perm l l' : two_sided l -> two_sided l' -> sorted l = sorted l' <-> l ≡ₚ l'.
Proof.
  intros Hl Hl'. split.
  - intros E. rewrite <- (sort_by_perm (fun a b => String.ltb a b) l), <- (sort_by_perm (fun a b => String.ltb a b) l').
    unfold sorted in E. by rewrite E.
  - intros Hp. rewrite !sorted_sides by done. unfold sides_of.
    assert (forall p : string -> bool, length (List.filter p l) = length (List.filter p l')) as E.
    { intros p. apply Nat.le_antisymm; apply filter_submseteq_length; by rewrite Hp. }
    by rewrite !E.
Qed.

Section MatrixFacts.
Context {F : Type} {A : Arith F} {T : Type} (B : Broker F T).
Context (LICENSE SECRET SYMBOL INGRESS : string) (MAGIC : Z) (FEATURES : pyval F) (volume : F).
Context (post_ml : string -> pydict F -> option (Z * pydict F)) (post_flat : string -> string -> option (Z * pydict F)).

Abbreviation the_case := (case_of LICENSE SECRET SYMBOL INGRESS FEATURES volume post_ml post_flat).
Abbreviation main := (matrix_main B LICENSE SECRET SYMBOL INGRESS MAGIC FEATURES volume post_ml post_flat).
Abbreviation kinds t := (map (fun p : Z * string * F => p.1.2) (positions B SYMBOL MAGIC t)).

Lemma case_two_sided name c : the_case name = Some c -> two_sided (cs_positions c).
Proof.
  unfold case_of. repeat (destruct (bool_decide _); [intros [= <-]; unfold two_sided; cbn; repeat (apply Forall_cons_2; [auto|]); constructor|]). done.
Qed.

(** A case passes exactly when it should.  The command ends with status 0 if and
    only if the case exists, its request was answered with the expected status, and
    the positions of the shim in the symbol, by their magic number, are on exactly
    the expected sides, in whatever order the terminal lists them; every other
    outcome, an exception included, ends with status 1. *)
Theorem matrix_verdict name t :
  (main name t = 0 <-> exists c st resp, the_case name = Some c /\ cs_request c = Some (st, resp) /\
     dict_get resp "status" = Some (PStr (cs_status c)) /\ kinds t ≡ₚ cs_positions c) /\
  (main name t = 0 \/ main name t = 1).
Proof.
  unfold matrix_main, run_case. split; [|by destruct (the_case name) as [c|]; [destruct (cs_request c ≫= _) as [[]|]|]; auto].
  destruct (the_case name) as [c|] eqn:Ec; [|split; [done|by intros (c & ? & ? & ? & _)]].
  assert (two_sided (kinds t)) as Hk.
  { unfold positions. rewrite map_map. apply List.Forall_forall. intros k (p & <- & _)%List.in_map_iff. cbn.
    destruct (p_type p); auto. }
  pose proof (sorted_perm _ _ Hk (case_two_sided name c Ec)) as Hs.
  assert ((exists st resp, cs_request c = Some (st, resp) /\ dict_get resp "status" = Some (PStr (cs_status c)) /\
             kinds t ≡ₚ cs_positions c) <->
          ('(_, resp) ← cs_request c; check B SYMBOL MAGIC (cs_status c) resp (cs_positions c) t) = Some true) as E.
  { destruct (cs_request c) as [[st resp]|]; cbn; [|split; [by intros (? & ? & ? & _)|done]]. unfold check.
    split.
    - intros (st' & resp' & [= <- <-] & -> & Hp). f_equal. apply andb_true_iff. split; apply bool_decide_eq_true; [done|by apply Hs].
    - destruct (dict_get resp "status") as [[]|] eqn:Ed; try done. intros [= [E1%bool_decide_eq_true E2%bool_decide_eq_true]%andb_true_iff].
      exists st, resp. split_and!; [done|congruence|by apply Hs]. }
  split.
  - intros H. destruct (_ ≫= _) as [[]|]; try done.
    destruct (proj2 E eq_refl) as (st & resp & ? & ? & ?). by exists c, st, resp.
  - intros (c' & st & resp & [= <-] & ? & ? & ?). rewrite (proj1 E); [done|by exists st, resp].
Qed.

(** What following a decision leaves of the positions of one account: the tracked
    side is closed, a new one opened. *)
Definition follow (d : decision F) (held : list string) : list string :=
  (if should_close d then [] else held) ++
  match open_direction d with Some "LONG"%string => ["BUY"%string] | Some _ => ["SELL"%string] | None => [] end.

Definition held_for (position : option string) : list string :=
  match position with Some "LONG"%string => ["BUY"%string] | Some _ => ["SELL"%string] | None => [] end.

(** The enforce-mode cases 2 to 5 of the matrix: name, direction, tracked position
    and whether the probability passes the threshold of the case. *)
Definition enforced : list (string * string * option string * bool) :=
  [("case2", "LONG", Some "LONG", true); ("case2", "LONG", Some "LONG", false); ("case3", "SHORT", Some "LONG", true);
   ("case4", "LONG", Some "SHORT", false); ("case5", "LONG", None, false)]%string.

(** The matrix expects what the predictor decides.  In each enforced case, carrying
    out the Option-1 decision of the predictor on the tracked position gives the
    positions the case expects, and the case expects the signal to be skipped
    exactly when the decision is to do nothing. *)
Theorem matrix_matches_option1 (p : XGBPredictor F) prob name dir pos pass
  (Hin : (name, dir, pos, pass) ∈ enforced) (Hpass : f_ltb (p_threshold p) prob = pass) :
  exists c, the_case name = Some c /\ follow (option1 p dir pos prob) (held_for pos) = cs_positions c /\
    (cs_status c = "skipped"%string <-> action_summary (option1 p dir pos prob) = "NOTHING"%string).
Proof.
  unfold enforced in Hin. rewrite !elem_of_cons in Hin.
  destruct Hin as [[= -> -> -> ->]|[[= -> -> -> ->]|[[= -> -> -> ->]|[[= -> -> -> ->]|[[= -> -> -> ->]|[]%not_elem_of_nil]]]]];
    (eexists; split; [reflexivity|]); unfold option1; rewrite Hpass; cbn; (split; [reflexivity|]); split; done.
Qed.

End MatrixFacts.

Module MatrixDemo.
Definition model : XGBPredictor Q := mk_predictor (1 # 2)%Q [] "v" (fun _ => Ok 0%Q).
Definition no_post (_ : string) (_ : pydict Q) : option (Z * pydict Q) := None.
Definition no_flat (_ _ : string) : option (Z * pydict Q) := None.
End MatrixDemo.

Lemma matrix_matches_option1_witness :
  exists c, case_of "1" "s" "BTCUSD" "http://x" PNone 0%Q MatrixDemo.no_post MatrixDemo.no_flat "case3" = Some c /\
    follow (option1 MatrixDemo.model "SHORT" (Some "LONG"%string) (3 # 4)%Q) ["BUY"%string] = cs_positions c.
Proof.
  destruct (matrix_matches_option1 "1" "s" "BTCUSD" "http://x" PNone 0%Q MatrixDemo.no_post MatrixDemo.no_flat
    MatrixDemo.model (3 # 4)%Q "case3" "SHORT" (Some "LONG"%string) true) as (c & H1 & H2 & _).
  - right; right; left.
  - vm_compute. reflexivity.
  - exists c. split; [exact H1|exact H2].
Defined.
