(* ===== verification/Risk.v ===== *)
(** * Risk: exposure limits from fills

    apps/risk/app.py: [update_position], [check_exposure_limits],
    [record_drawdown] and the message handler [on_fill].  Amounts follow the
    schema of migration 000003: sizes and prices are DECIMAL(12,8), kept here in
    units of 10^-8, limits DECIMAL(12,2) in cents; products and sums of Python
    [Decimal]s at these widths are exact.  How asyncpg turns a JSON number into a
    numeric parameter is an argument ([numeric8]); [None] is a refused value. *)

From Stdlib Require Import ZArith SpecFloat Ascii.
From S2P Require Import Prelude Text PyFloat PyVal Prog Db Persist.
Open Scope Z_scope.

Record position_row := mk_pos {
  pos_license : nat; pos_account : string; pos_symbol : string;
  pos_size : Z; pos_entry : option Z; pos_price : option Z }.

Record limit_row := mk_limit {
  lim_license : nat; lim_account : string; lim_max : option Z;
  lim_size_pct : option Z; lim_loss_pct : option Z; lim_created : Z }.

Record drawdown_row := mk_drawdown {
  dd_license : nat; dd_account : string; dd_peak : Z; dd_current : Z; dd_pct : Z * Z }.

Record breach_row := mk_breach {
  br_license : nat; br_account : string; br_type : string; br_value : Z; br_limit : Z; br_created : Z }.

(** The tables of this service beside the shared ones, and its published
    messages (subject and body). *)
Record risk_state := mk_risk {
  r_db : Db;
  r_positions : list position_row;
  r_limits : list limit_row;
  r_drawdowns : list drawdown_row;
  r_breaches : list breach_row;
  r_alerts : list (string * bytes);
  r_acks : list nat }.

Definition on_positions f s :=
  mk_risk (r_db s) (f (r_positions s)) (r_limits s) (r_drawdowns s) (r_breaches s) (r_alerts s) (r_acks s).
Definition on_drawdowns f s :=
  mk_risk (r_db s) (r_positions s) (r_limits s) (f (r_drawdowns s)) (r_breaches s) (r_alerts s) (r_acks s).
Definition on_breaches f s :=
  mk_risk (r_db s) (r_positions s) (r_limits s) (r_drawdowns s) (f (r_breaches s)) (r_alerts s) (r_acks s).
Definition on_alerts f s :=
  mk_risk (r_db s) (r_positions s) (r_limits s) (r_drawdowns s) (r_breaches s) (f (r_alerts s)) (r_acks s).
Definition on_racks f s :=
  mk_risk (r_db s) (r_positions s) (r_limits s) (r_drawdowns s) (r_breaches s) (r_alerts s) (f (r_acks s)).

(** ** Positions *)

Definition same_position (lid : nat) (account symbol : string) (r : position_row) : bool :=
  bool_decide (pos_license r = lid) && bool_decide (pos_account r = account) &&
  bool_decide (pos_symbol r = symbol).

(** [INSERT ... ON CONFLICT (license_id, account_id, symbol) DO UPDATE]. *)
Definition upsert_position (row : position_row) (l : list position_row) : list position_row :=
  let same := same_position (pos_license row) (pos_account row) (pos_symbol row) in
  if existsb same l then map (fun r => if same r then row else r) l else l ++ [row].

Definition racquire : prog risk_state exn unit := query DbError (fun _ => tt).

Definition update_position (row : position_row) : prog risk_state exn unit :=
  racquire ;;; exec DbError (on_positions (upsert_position row)).

(** ** Exposure *)

(** [(p["position_size"] or 0) * (p["current_price"] or 0)], in 10^-16. *)
Definition notional_of (r : position_row) : Z := pos_size r * default 0 (pos_price r).

Definition account_positions_of (lid : nat) (account : string) (s : risk_state) : list position_row :=
  List.filter (fun r => bool_decide (pos_license r = lid) && bool_decide (pos_account r = account) &&
                        negb (pos_size r =? 0)) (r_positions s).

Definition total_notional (ps : list position_row) : Z := fold_right Z.add 0 (map notional_of ps).

Definition limit_of (lid : nat) (account : string) (s : risk_state) : option limit_row :=
  first_where (fun l => bool_decide (lim_license l = lid) && bool_decide (lim_account l = account))
              (r_limits s).

(** Cents against 10^-16. *)
Definition cents : Z := 10 ^ 14.

Record exposure := mk_exposure { ex_total : Z; ex_limit : option Z; ex_breached : bool }.

Definition check_exposure_limits (lid : nat) (account : string) : prog risk_state exn exposure :=
  racquire ;;;
  ps <- query DbError (account_positions_of lid account) ;;
  lim <- query DbError (limit_of lid account) ;;
  let total := total_notional ps in
  let max := lim ≫= lim_max in
  let breached := match max with
    | Some m => negb (m =? 0) && (m * cents <? total)
    | None => false
    end in
  ret (mk_exposure total max breached).

(** ** Drawdown *)

Definition same_account (lid : nat) (account : string) (r : drawdown_row) : bool :=
  bool_decide (dd_license r = lid) && bool_decide (dd_account r = account).

Definition upsert_drawdown (row : drawdown_row) (l : list drawdown_row) : list drawdown_row :=
  let same := same_account (dd_license row) (dd_account row) in
  if existsb same l then map (fun r => if same r then row else r) l else l ++ [row].

(** The percentage, as a fraction. *)
Definition drawdown_pct (peak current : Z) : Z * Z :=
  if 0 <? peak then ((peak - current) * 100, peak) else (0, 1).

Definition record_drawdown (lid : nat) (account : string) (peak current : Z) : prog risk_state exn unit :=
  racquire ;;;
  exec DbError (on_drawdowns (upsert_drawdown (mk_drawdown lid account peak current (drawdown_pct peak current)))).

(** ** Alerts *)

(** The Python values of the alert dict, by type. *)
Inductive alert_value := AUuid (id : nat) | ADecimal (v : Z) | AText (s : string).

(** [json.dumps] knows text but neither [UUID] nor [Decimal]: [TypeError]. *)
Definition serializable (v : alert_value) : bool := match v with AText _ => true | _ => false end.

Definition dumps_alert (render : list (string * alert_value) -> bytes) (a : list (string * alert_value))
  : prog risk_state exn bytes :=
  if forallb (fun kv => serializable kv.2) a then ret (render a) else raise ValueError.

Definition alert_of (lid : nat) (account : string) (e : exposure) (now : string)
  : list (string * alert_value) :=
  [("license_id"%string, AUuid lid); ("account_id"%string, AText account);
   ("breach_type"%string, AText "notional_exposure"); ("current_value"%string, ADecimal (ex_total e));
   ("limit_value"%string, ADecimal (default 0 (ex_limit e))); ("timestamp"%string, AText now)].

Section OnFill.
Context (json_loads : bytes -> result string json).
Context (numeric8 : json -> option Z).
Context (render : list (string * alert_value) -> bytes) (now_text : string).

(** A numeric parameter; [None] binds NULL. *)
Definition as_numeric (v : json) : prog risk_state exn Z :=
  match numeric8 v with Some z => ret z | None => raise DataError end.
Definition as_numeric_or_null (v : json) : prog risk_state exn (option Z) :=
  match v with PNone => ret None | _ => z <- as_numeric v ;; ret (Some z) end.

Definition rack (msg : message) : prog risk_state exn unit := exec AckError (on_racks (fun l => l ++ [msg_id msg])).

Definition log_breach (lid : nat) (account : string) (e : exposure) : prog risk_state exn unit :=
  racquire ;;;
  exec DbError (fun s => on_breaches (fun l => l ++
    [mk_breach lid account "notional_exposure" (ex_total e) (default 0 (ex_limit e)) (db_now (r_db s))]) s).

(** The alert is serialized inside the [try] that guards the publication. *)
Definition publish_alert (lid : nat) (account : string) (e : exposure) : prog risk_state exn unit :=
  try_ (body <- dumps_alert render (alert_of lid account e now_text) ;;
        exec DbError (on_alerts (fun l => l ++ [(("events.risk.breach." +:+ account)%string, body)])))
       (fun _ => ret tt).

Definition apply_fill (instance account : string) (fill : json) : prog risk_state exn bool :=
  racquire ;;;
  row <- query DbError (fun s => join_active instance (db_licenses (r_db s)) (db_instances (r_db s))) ;;
  match row with
  | None => ret true
  | Some (l, _) =>
      match fill with
      | PDict f =>
          let symbol := get_or f "symbol" (PStr "") in
          if truthy symbol && negb (bool_decide (account = ""%string)) then
            sym <- as_text symbol ;;
            size <- as_numeric (get_or f "position_size" (PInt 0)) ;;
            entry <- as_numeric_or_null (get f "entry_price") ;;
            price <- as_numeric_or_null (get f "current_price") ;;
            update_position (mk_pos (lic_id l) account sym size entry price) ;;;
            e <- check_exposure_limits (lic_id l) account ;;
            (if ex_breached e then
               log_breach (lic_id l) account e ;;; publish_alert (lic_id l) account e
             else ret tt) ;;;
            ret true
          else ret true
      | _ => raise ValueError
      end
  end.

Definition risk_on_fill (pool js : bool) (msg : message) : prog risk_state exn unit :=
  let parts := split "."%char (msg_subject msg) in
  let instance := default ""%string (parts !! 1%nat) in
  let account := default ""%string (parts !! 2%nat) in
  match json_loads (msg_data msg) with
  | Err _ => rack msg
  | Ok fill =>
      if negb pool || negb js then rack msg
      else try_ (apply_fill instance account fill ;;; ret tt) (fun _ => ret tt) ;;; rack msg
  end.

End OnFill.

(** ** Properties *)

(** Frames of the handler's steps. *)
Definition same_out (s s' : risk_state) : Prop := r_acks s' = r_acks s /\ r_alerts s' = r_alerts s.

Lemma same_out_refl : reflexive risk_state same_out.
Proof. by split. Qed.
Lemma same_out_trans : transitive risk_state same_out.
Proof. intros s1 s2 s3 [] []. split; congruence. Qed.

(** The alert dict always holds a UUID. *)
Lemma publish_alert_out rd now lid account e : steps_in same_out (publish_alert rd now lid account e).
Proof. done. Qed.

#[local] Opaque publish_alert.

Lemma apply_fill_out n8 rd now instance account fill :
  steps_in same_out (apply_fill n8 rd now instance account fill).
Proof.
  unfold apply_fill, racquire, as_text, as_numeric_or_null, as_numeric, update_position,
    check_exposure_limits, log_breach, racquire. steps_in_auto; apply publish_alert_out.
Qed.

(** The risk handler acks once and never alerts.  Under every schedule of
    failures the handler acks its message exactly once and completes, unless the
    ack itself is refused, and then it ends in that exception without one; and
    whatever the fills and limits, no alert is ever published, because the alert
    dict holds a UUID and Decimals that [json.dumps] refuses inside the guarded
    publication. *)
Theorem risk_acks_once_and_never_alerts jl n8 rd now pool js msg faults s :
  let p := risk_on_fill jl n8 rd now pool js msg in
  r_alerts (run_state p faults s) = r_alerts s /\
  ((run_result p faults s = Ok tt /\ r_acks (run_state p faults s) = r_acks s ++ [msg_id msg]) \/
   (run_result p faults s = Err AckError /\ r_acks (run_state p faults s) = r_acks s)).
Proof.
  assert (forall fs s', let '(r, s2, _) := run (rack msg) fs s' in r_alerts s2 = r_alerts s' /\
    ((r = Ok tt /\ r_acks s2 = r_acks s' ++ [msg_id msg]) \/ (r = Err AckError /\ r_acks s2 = r_acks s'))) as K
    by (intros [|[] fs] s'; simpl; auto).
  assert (forall fs s', r_acks s' = r_acks s -> r_alerts s' = r_alerts s -> let '(r, s2, _) := run (rack msg) fs s' in
    r_alerts s2 = r_alerts s /\
    ((r = Ok tt /\ r_acks s2 = r_acks s ++ [msg_id msg]) \/ (r = Err AckError /\ r_acks s2 = r_acks s))) as K'
    by (intros fs s' <- <-; apply K).
  cbn zeta. unfold risk_on_fill, run_result, run_state. destruct (jl (msg_data msg)) as [fill|].
  2: { specialize (K' faults s eq_refl eq_refl). by destruct (run (rack msg) faults s) as [[r s2] fs2]. }
  destruct (_ || _).
  { specialize (K' faults s eq_refl eq_refl). by destruct (run (rack msg) faults s) as [[r s2] fs2]. }
  rewrite run_bind, run_try.
  match goal with |- context [run ?q faults s] =>
    assert (steps_in same_out q) as Hq by (apply steps_in_bind; [apply apply_fill_out|done]);
    pose proof (run_steps_in same_out q faults s same_out_refl same_out_trans Hq) as [E1 E2];
    unfold run_state in E1, E2; destruct (run q faults s) as [[[[]|] s'] fs'] end; simpl in E1, E2; cbn [run ret];
    specialize (K' fs' s' E1 E2); by destruct (run (rack msg) fs' s') as [[r s2] fs2].
Qed.

(** The key of a position is unique. *)
Definition position_key (r : position_row) : nat * string * string :=
  (pos_license r, pos_account r, pos_symbol r).

Lemma same_position_key lid account symbol r :
  same_position lid account symbol r = true <-> position_key r = (lid, account, symbol).
Proof.
  unfold same_position, position_key. rewrite !andb_true_iff, !bool_decide_eq_true.
  split; [by intros [[-> ->] ->]|by intros [= -> -> ->]].
Qed.

Lemma upsert_keys row l :
  map position_key (upsert_position row l) =
  if bool_decide (position_key row ∈ map position_key l) then map position_key l
  else map position_key l ++ [position_key row].
Proof.
  unfold upsert_position.
  destruct (existsb _ l) eqn:E.
  - apply existsb_exists in E as (r & Hin & Hr). apply same_position_key in Hr.
    rewrite bool_decide_true.
    2: { apply list_elem_of_In, in_map_iff. exists r. split; [|done]. by rewrite Hr. }
    rewrite map_map. apply map_ext. intros a.
    destruct (same_position _ _ _ a) eqn:Ea; [|done]. by apply same_position_key in Ea as ->.
  - rewrite bool_decide_false.
    2: { intros Hin. apply list_elem_of_In, in_map_iff in Hin as (r & Hr & Hin).
         assert (existsb (same_position (pos_license row) (pos_account row) (pos_symbol row)) l = true) as K.
         { apply existsb_exists. exists r. split; [done|]. by apply same_position_key. }
         congruence. }
    by rewrite map_app.
Qed.

(** The position upsert.  It keeps the key (license, account, symbol) unique,
    leaves every other row untouched, and afterwards the key's row is the new
    one. *)
Theorem upsert_position_spec row l
  (H : NoDup (map position_key l)) :
  NoDup (map position_key (upsert_position row l)) /\
  row ∈ upsert_position row l /\
  forall r, position_key r <> position_key row -> (r ∈ upsert_position row l <-> r ∈ l).
Proof.
  split_and!.
  - rewrite upsert_keys. case_bool_decide as Hin; [done|].
    apply list.NoDup_app. split_and!; [done| |apply list.NoDup_singleton].
    intros k Hk Hk'. apply list_elem_of_singleton in Hk' as ->. done.
  - unfold upsert_position. destruct (existsb _ l) eqn:E.
    + apply existsb_exists in E as (r & Hin & Hr). apply list_elem_of_In, in_map_iff.
      exists r. by rewrite Hr.
    + apply elem_of_app. right. by apply list_elem_of_singleton.
  - intros r Hne. unfold upsert_position. destruct (existsb _ l).
    + rewrite !list_elem_of_In, in_map_iff. split.
      * intros (a & Ha & Hin). destruct (same_position _ _ _ a); [by subst|by subst].
      * intros Hin. exists r. split; [|done].
        destruct (same_position _ _ _ r) eqn:Er; [|done]. apply same_position_key in Er. done.
    + rewrite elem_of_app, list_elem_of_singleton. split; [|by left]. intros [?| ->]; done.
Qed.

(** Short exposure is never a breach.  The notional is the signed sum of size
    times price, so when every position of the account is short (and prices are
    not negative) the check passes whatever the limit and however large the
    exposure. *)
Theorem short_exposure_never_breaches lid account s faults e
  (H : run_result (check_exposure_limits lid account) faults s = Ok e)
  (Hshort : Forall (fun r => pos_size r <= 0) (account_positions_of lid account s))
  (Hprice : Forall (fun r => 0 <= default 0 (pos_price r)) (account_positions_of lid account s))
  (Hlim : Forall (fun l => 0 <= default 0 (lim_max l)) (r_limits s)) :
  ex_breached e = false.
Proof.
  assert (total_notional (account_positions_of lid account s) <= 0) as Ht.
  { unfold total_notional. clear H Hlim. induction (account_positions_of lid account s) as [|r l IH]; simpl; [lia|].
    inversion_clear Hshort. inversion_clear Hprice. unfold notional_of at 1. specialize (IH ltac:(done) ltac:(done)). nia. }
  assert (e = mk_exposure (total_notional (account_positions_of lid account s)) (limit_of lid account s ≫= lim_max)
    (match limit_of lid account s ≫= lim_max with
     | Some m => negb (m =? 0) && (m * cents <? total_notional (account_positions_of lid account s))
     | None => false end)) as ->.
  { unfold run_result, check_exposure_limits in H.
    destruct faults as [|[] [|[] [|[] fs]]]; cbn in H; by simplify_eq. }
  simpl. destruct (limit_of lid account s) as [l|] eqn:El; [|done]. simpl.
  destruct (lim_max l) as [m|] eqn:Em; [|done].
  apply first_where_Some in El as [Hin _].
  rewrite List.Forall_forall in Hlim. apply list_elem_of_In in Hin.
  specialize (Hlim l Hin). rewrite Em in Hlim. simpl in Hlim.
  assert ((m * cents <? total_notional (account_positions_of lid account s)) = false) as ->.
  { apply Z.ltb_ge. unfold cents. nia. }
  by rewrite andb_false_r.
Qed.

(** ** Witnesses *)

Definition short_account : risk_state :=
  mk_risk PersistDemo.db [mk_pos 1 "acc" "XAUUSD" (-100000000000) None (Some 200000000000)]
    [mk_limit 1 "acc" (Some 100) None None 0] [] [] [] [].

Lemma short_exposure_never_breaches_witness :
  exists e, run_result (check_exposure_limits 1 "acc") [] short_account = Ok e /\ ex_breached e = false /\
    ex_total e = -20000000000000000000000.
Proof.
  eexists. split; [reflexivity|]. split; [|vm_compute; reflexivity].
  apply (short_exposure_never_breaches 1 "acc" short_account []).
  - reflexivity.
  - vm_compute. repeat constructor; discriminate.
  - vm_compute. repeat constructor; discriminate.
  - vm_compute. repeat constructor; discriminate.
Defined.

Lemma upsert_position_spec_witness :
  NoDup (map position_key (upsert_position (mk_pos 1 "acc" "XAUUSD" 5 None None) (r_positions short_account))) /\
  length (upsert_position (mk_pos 1 "acc" "XAUUSD" 5 None None) (r_positions short_account)) = 1%nat.
Proof.
  split; [|vm_compute; reflexivity].
  apply (upsert_position_spec (mk_pos 1 "acc" "XAUUSD" 5 None None) (r_positions short_account)).
  apply list.NoDup_singleton.
Defined.
