(* ===== verification/Portal.v ===== *)
(** * Portal: the customer API

    apps/portal-api/app.py: authentication, licenses, instances, HMAC rotation,
    signal and fill listings, request and trace lookups, replay, and start-up
    checks.  A route is a [prog] over the shared database that returns its payload
    or raises ([HTTPException] with its status, any other exception being a 500).
    Token verification, password hashing, identifiers and secrets come from
    libraries: they are arguments.  A path parameter is parsed with [uuid_of];
    [None] is the [ValueError] of [uuid.UUID]. *)

From Stdlib Require Import ZArith Ascii.
From S2P Require Import Prelude Text PyFloat PyVal Wire Prog Db Persist.
Open Scope Z_scope.

(** ** Start-up *)

Definition portal_config_errors (is_prod : bool) (dsn dev_dsn nats dev_nats jwt dev_jwt : string)
    (origins : list string) : list string :=
  if negb is_prod then []
  else
    (if bool_decide (dsn = dev_dsn) then ["DATABASE_URL is required in prod (refusing dev default)"%string] else []) ++
    (if bool_decide (nats = dev_nats) then ["NATS_URL is required in prod (refusing dev default)"%string] else []) ++
    (if bool_decide (jwt = dev_jwt) || (str_len jwt <? 32)%nat then ["JWT_SECRET must be set and >=32 chars in prod"%string] else []) ++
    (if bool_decide (origins = []) || existsb (fun o => bool_decide (o = "*"%string)) origins
     then ["PORTAL_ALLOWED_ORIGINS must be an explicit comma-separated list in prod (wildcard '*' is rejected)"%string]
     else []).

(** [[o.strip() for o in raw.split(",") if o.strip()]]. *)
Definition allowed_origins (raw : string) : list string :=
  List.filter (fun o => negb (bool_decide (o = ""%string))) (map strip (split ","%char raw)).

(** Readiness: the probe of the pool and the state of the NATS connection. *)
Definition readyz (pool : option (result string unit)) (nats : option bool) : Z :=
  let db_ok := match pool with Some (Ok _) => true | _ => false end in
  let nats_ok := match nats with Some true => true | _ => false end in
  if db_ok && nats_ok then 200 else 503.

Definition not_found {A} (what : string) : prog Db exn A := raise (HTTPException 404 what).

(** [max(1, min(limit, 500))]. *)
Definition clamp_limit (limit : Z) : nat := Z.to_nat (Z.max 1 (Z.min limit 500)).

Section Routes.
Context (uuid_of : string -> option nat) (uuid_text : nat -> string).

(** ** Authentication *)

Definition BLOCKED_REGISTRATION_COUNTRIES : list string := ["CU"; "IR"; "KP"; "SY"]%string.

(** [verify] is [jwt.decode], giving the subject or the error text. *)
Definition current_user (verify : string -> result string string) (token : string) : prog Db exn user :=
  match verify token with
  | Err e => raise (HTTPException 401 e)
  | Ok sub =>
      match uuid_of sub with
      | None => raise ValueError
      | Some uid =>
          row <- query DbError (fun d => first_where (fun u => bool_decide (user_id u = uid)) (db_users d)) ;;
          match row with None => raise (HTTPException 401 "user not found") | Some u => ret u end
      end
  end.

Definition register (make_token : nat -> string) (hash_password : string -> string)
    (email password country : string) : prog Db exn string :=
  if (str_len password <? 12)%nat then raise (HTTPException 422 "password must be at least 12 characters")
  else if negb (bool_decide (country = ""%string)) &&
          existsb (fun c => bool_decide (c = upper (strip country))) BLOCKED_REGISTRATION_COUNTRIES
  then raise (HTTPException 451 "registration is not available in your jurisdiction")
  else
    existing <- query DbError (fun d => first_where (fun u => bool_decide (user_email u = email)) (db_users d)) ;;
    match existing with
    | Some _ => raise (HTTPException 409 "email already registered")
    | None =>
        uid <- stmt_r DbError (fun d =>
          if existsb (fun u => bool_decide (user_email u = email)) (db_users d) then (Err UniqueViolation, d)
          else (Ok (db_next d),
                take_id (on_users (fun l => l ++ [mk_user (db_next d) email (hash_password password) false (db_now d)]) d))) ;;
        exec DbError (on_users (map (fun u =>
          if bool_decide (user_id u = uid) then mk_user uid (user_email u) (user_hash u) true (user_created u) else u))) ;;;
        ret (make_token uid)
    end.

Definition login (make_token : nat -> string) (check_password : string -> string -> bool)
    (email password : string) : prog Db exn string :=
  row <- query DbError (fun d => first_where (fun u => bool_decide (user_email u = email)) (db_users d)) ;;
  match row with
  | Some u => if check_password password (user_hash u) then ret (make_token (user_id u))
              else raise (HTTPException 401 "invalid credentials")
  | None => raise (HTTPException 401 "invalid credentials")
  end.

(** ** Audit *)

(** A failure is logged and swallowed. *)
Definition _audit (actor : nat) (action reason : string) (before after : option json) : prog Db exn unit :=
  try_ (exec DbError (fun d => take_id (on_audit (fun l =>
          l ++ [mk_audit (db_next d) actor action reason before after (db_now d)]) d)))
       (fun _ => ret tt).

(** ** Licenses *)

Definition owned_license (lid uid : nat) (d : Db) : option license :=
  first_where (fun l => bool_decide (lic_id l = lid) && bool_decide (lic_user l = uid)) (db_licenses d).

Definition _own_license (license_id : string) (uid : nat) : prog Db exn license :=
  match uuid_of license_id with
  | None => not_found "license not found"
  | Some lid =>
      row <- query DbError (owned_license lid uid) ;;
      match row with None => not_found "license not found" | Some l => ret l end
  end.

Definition list_licenses (u : user) : prog Db exn (list license) :=
  query DbError (fun d => sort_by (fun a b => lic_created b <? lic_created a)
    (List.filter (fun l => bool_decide (lic_user l = user_id u)) (db_licenses d))).

(** [key] is the 11-digit number, [secret] the token; both random. *)
Definition create_license (u : user) (key secret : string) : prog Db exn license :=
  row <- stmt_r DbError (fun d =>
    if existsb (fun l => bool_decide (lic_key l = key)) (db_licenses d) then (Err UniqueViolation, d)
    else let row := mk_license (db_next d) (user_id u) key secret None true (db_now d) in
         (Ok row, take_id (on_licenses (fun l => l ++ [row]) d))) ;;
  _audit (user_id u) "create_license" "" None (Some (PDict [("license_key"%string, PStr key)])) ;;;
  ret row.

Definition set_active (b : bool) (l : license) : license :=
  mk_license (lic_id l) (lic_user l) (lic_key l) (lic_hmac l) (lic_pending l) b (lic_created l).

Definition active_json (b : bool) : json := PDict [("active"%string, PBool b)].

Definition patch_license (u : user) (license_id : string) (active : bool) : prog Db exn license :=
  match uuid_of license_id with
  | None => raise ValueError
  | Some lid =>
      row <- stmt DbError (fun d =>
        (set_active active <$> owned_license lid (user_id u) d,
         on_licenses (map (fun l =>
           if bool_decide (lic_id l = lid) && bool_decide (lic_user l = user_id u)
           then set_active active l else l)) d)) ;;
      match row with
      | None => not_found "license not found"
      | Some l =>
          _audit (user_id u) "patch_license" ("license_id=" +:+ license_id)%string
            (Some (active_json (negb active))) (Some (active_json active)) ;;;
          ret l
      end
  end.

(** ** Instances *)

Definition key_char (c : ascii) : bool :=
  let n := nat_of_ascii c in
  ((65 <=? n) && (n <=? 90) || (97 <=? n) && (n <=? 122) || (48 <=? n) && (n <=? 57) ||
   (n =? 95) || (n =? 45))%nat.

(** [^[A-Za-z0-9_-]+$]: [$] also matches before a final newline. *)
Definition instance_key_ok (s : string) : bool :=
  let l := chars_of s in
  let body := match List.rev l with c :: r => if (nat_of_ascii c =? 10)%nat then List.rev r else l | [] => l end in
  match body with [] => false | _ => forallb key_char body end.

Definition platform_ok (p : string) : bool :=
  bool_decide (p = "mt4"%string) || bool_decide (p = "mt5"%string) || bool_decide (p = "dxtrade"%string).

Definition list_instances (u : user) (license_id : string) : prog Db exn (list instance) :=
  lic <- _own_license license_id (user_id u) ;;
  query DbError (fun d => sort_by (fun a b => inst_created b <? inst_created a)
    (List.filter (fun i => bool_decide (inst_license i = lic_id lic)) (db_instances d))).

Definition create_instance (u : user) (license_id key platform : string) : prog Db exn instance :=
  if negb (platform_ok platform) then raise (HTTPException 422 "platform must be mt4, mt5, or dxtrade")
  else if negb (instance_key_ok key) then
    raise (HTTPException 422 "instance_key must contain only letters, digits, _ or -")
  else
    lic <- _own_license license_id (user_id u) ;;
    row <- try_
      (stmt_r DbError (fun d =>
        if existsb (fun i => bool_decide (inst_license i = lic_id lic) && bool_decide (inst_key i = key)) (db_instances d)
        then (Err UniqueViolation, d)
        else let row := mk_instance (db_next d) (lic_id lic) key platform true (db_now d) in
             (Ok row, take_id (on_instances (fun l => l ++ [row]) d))))
      (fun e => match e with
                | UniqueViolation => raise (HTTPException 409 "instance_key already exists for this license")
                | e => raise e
                end) ;;
    _audit (user_id u) "create_instance" "" None
      (Some (PDict [("instance_key"%string, PStr key); ("platform"%string, PStr platform);
                    ("license_id"%string, PStr license_id)])) ;;;
    ret row.

Definition set_inst_active (b : bool) (i : instance) : instance :=
  mk_instance (inst_id i) (inst_license i) (inst_key i) (inst_platform i) b (inst_created i).

Definition is_instance (iid lid : nat) (i : instance) : bool :=
  bool_decide (inst_id i = iid) && bool_decide (inst_license i = lid).

Definition patch_instance (u : user) (license_id instance_id : string) (active : bool)
  : prog Db exn instance :=
  lic <- _own_license license_id (user_id u) ;;
  match uuid_of instance_id with
  | None => raise ValueError
  | Some iid =>
      row <- stmt DbError (fun d =>
        (set_inst_active active <$> first_where (is_instance iid (lic_id lic)) (db_instances d),
         on_instances (map (fun i =>
           if is_instance iid (lic_id lic) i then set_inst_active active i else i)) d)) ;;
      match row with
      | None => not_found "instance not found"
      | Some i =>
          _audit (user_id u) "patch_instance" ("instance_id=" +:+ instance_id)%string
            (Some (active_json (negb active))) (Some (active_json active)) ;;;
          ret i
      end
  end.

Definition export_config (u : user) (license_id : string) : prog Db exn string :=
  lic <- _own_license license_id (user_id u) ;;
  rows <- query DbError (fun d => List.filter (fun i =>
    bool_decide (inst_license i = lic_id lic) && inst_active i) (db_instances d)) ;;
  let pending := default ""%string (lic_pending lic) in
  ret (join ";" (map (fun i => (lic_key lic +:+ "::" +:+ lic_hmac lic +:+ ":" +:+ inst_key i +:+ ":" +:+
                                inst_platform i +:+ ":" +:+ pending)%string) rows)).

(** ** Listings *)

Definition list_signals (u : user) (license_id : string) (limit : Z) : prog Db exn (list accepted) :=
  lic <- _own_license license_id (user_id u) ;;
  query DbError (fun d => take (clamp_limit limit)
    (sort_by (fun a b => (acc_received b <? acc_received a)%N)
      (List.filter (fun r => bool_decide (acc_license r = lic_id lic)) (db_accepted d)))).

Definition fills_of_instance (iid : nat) (limit : Z) (d : Db) : list fill :=
  take (clamp_limit limit)
    (sort_by (fun a b => fill_created b <? fill_created a)
      (List.filter (fun f => bool_decide (fill_instance f = Some iid)) (db_fills d))).

Definition list_fills (u : user) (license_id instance_id : string) (limit : Z) : prog Db exn (list fill) :=
  lic <- _own_license license_id (user_id u) ;;
  match uuid_of instance_id with
  | None => raise ValueError
  | Some iid =>
      inst <- query DbError (fun d => first_where (is_instance iid (lic_id lic)) (db_instances d)) ;;
      match inst with
      | None => not_found "instance not found"
      | Some i => query DbError (fills_of_instance (inst_id i) limit)
      end
  end.

(** ** HMAC rotation *)

Definition set_pending (s : option string) (l : license) : license :=
  mk_license (lic_id l) (lic_user l) (lic_key l) (lic_hmac l) s (lic_active l) (lic_created l).

(** [SET hmac_secret = pending_hmac_secret, pending_hmac_secret = NULL]; the
    column is NOT NULL, so a NULL pending secret is refused. *)
Definition promote (l : license) : license :=
  mk_license (lic_id l) (lic_user l) (lic_key l) (default (lic_hmac l) (lic_pending l)) None
             (lic_active l) (lic_created l).

Definition by_id (lid : nat) (f : license -> license) (l : license) : license :=
  if bool_decide (lic_id l = lid) then f l else l.

Definition rotate_hmac (u : user) (license_id new_secret : string) : prog Db exn string :=
  lic <- _own_license license_id (user_id u) ;;
  exec DbError (on_licenses (map (by_id (lic_id lic) (set_pending (Some new_secret))))) ;;;
  _audit (user_id u) "rotate_hmac_start" ("license_id=" +:+ license_id)%string None None ;;;
  ret new_secret.

Definition confirm_rotation (u : user) (license_id : string) : prog Db exn unit :=
  lic <- _own_license license_id (user_id u) ;;
  if bool_decide (default ""%string (lic_pending lic) = ""%string) then
    raise (HTTPException 400 "no pending rotation in progress")
  else
    stmt_r DbError (fun d =>
      if existsb (fun l => bool_decide (lic_id l = lic_id lic) && bool_decide (lic_pending l = None)) (db_licenses d)
      then (Err DbError, d)
      else (Ok tt, on_licenses (map (by_id (lic_id lic) promote)) d)) ;;;
    _audit (user_id u) "rotate_hmac_confirm" ("license_id=" +:+ license_id)%string None None ;;;
    ret tt.

(** ** Requests and traces *)

(** [license_key IS NULL OR license_key IN (SELECT ... WHERE user_id = $2)]. *)
Definition visible_request (uid : nat) (d : Db) (r : request_row) : bool :=
  match req_license r with
  | None => true
  | Some k => existsb (fun l => bool_decide (lic_user l = uid) && bool_decide (lic_key l = k)) (db_licenses d)
  end.

Record trace_payload := mk_trace {
  tr_id : string; tr_signal : option accepted; tr_fills : list fill; tr_events : list system_event }.

(** Only the signal is joined with the user's licenses. *)
Definition _trace_payload (trace_id : string) (uid : nat) : prog Db exn trace_payload :=
  sig <- query DbError (fun d => first_where (fun s => bool_decide (acc_trace s = trace_id) &&
    existsb (fun l => bool_decide (lic_id l = acc_license s) && bool_decide (lic_user l = uid)) (db_licenses d))
    (db_accepted d)) ;;
  fills <- query DbError (fun d => sort_by (fun a b => fill_created a <? fill_created b)
    (List.filter (fun f => bool_decide (fill_trace f = trace_id)) (db_fills d))) ;;
  events <- query DbError (fun d => List.filter (fun e => bool_decide (ev_trace e = trace_id)) (db_events d)) ;;
  ret (mk_trace trace_id sig fills events).

(** Rows are kept in arrival order. *)
Definition get_request (u : user) (request_id : string)
  : prog Db exn (list request_row * option trace_payload) :=
  rows <- query DbError (fun d => List.filter (fun r =>
    bool_decide (req_id r = request_id) && visible_request (user_id u) d r) (db_requests d)) ;;
  match rows with
  | [] => not_found "request not found"
  | _ =>
      let trace_id := default ""%string
        (first_where (fun t => negb (bool_decide (t = ""%string))) (map req_trace rows)) in
      if bool_decide (trace_id = ""%string) then ret (rows, None)
      else t <- _trace_payload trace_id (user_id u) ;; ret (rows, Some t)
  end.

Definition get_trace (u : user) (trace_id : string) : prog Db exn (trace_payload * list request_row) :=
  t <- _trace_payload trace_id (user_id u) ;;
  rows <- query DbError (fun d => List.filter (fun r =>
    bool_decide (req_trace r = trace_id) && visible_request (user_id u) d r) (db_requests d)) ;;
  ret (t, rows).

(** ** Replay *)

Definition owned_signal (sid uid : nat) (d : Db) : option (accepted * license * option instance) :=
  match first_where (fun s => bool_decide (acc_id s = sid) &&
          existsb (fun l => bool_decide (lic_id l = acc_license s) && bool_decide (lic_user l = uid)) (db_licenses d))
          (db_accepted d) with
  | None => None
  | Some s =>
      match owned_license (acc_license s) uid d with
      | None => None
      | Some l => Some (s, l, acc_instance s ≫= fun iid =>
                         first_where (fun i => bool_decide (inst_id i = iid)) (db_instances d))
      end
  end.

(** The message republished for a stored signal. *)
Definition replayed (original : signal) (now_ns : N) : signal :=
  mk_signal (Some (default "" (trace_id original) +:+ "-r")%string) (license_id original)
    (instance_id original) (command original) (raw_command original) (symbol original)
    (ingress_region original) (Some now_ns) (body_sha256 original) (params original).

Definition replay_subject (l : license) (i : option instance) : string :=
  ("signals." +:+ match i with Some i => inst_platform i | None => "mt5" end +:+ "." +:+ lic_key l +:+ "." +:+
   match i with Some i => inst_key i | None => "None" end)%string.

Definition replay_signal (u : user) (nats : bool) (signal_id : string) (now_ns : N)
  : prog Db exn (string * string) :=
  match uuid_of signal_id with
  | None => not_found "signal not found"
  | Some sid =>
      row <- query DbError (owned_signal sid (user_id u)) ;;
      match row with
      | None => not_found "signal not found"
      | Some (s, l, i) =>
          match acc_raw s with
          | None => raise (HTTPException 422 "signal predates replay support (no raw_payload stored)")
          | Some raw =>
              if negb nats then raise (HTTPException 503 "nats unavailable")
              else match decode_signal_proto raw with
              | Err _ => raise ValueError
              | Ok original =>
                  let new := replayed original now_ns in
                  exec DbError (on_published (fun l' => l' ++ [(replay_subject l i, encode_signal_proto new)])) ;;;
                  _audit (user_id u) "replay_signal"
                    ("original_trace_id=" +:+ acc_trace s +:+ " new_trace_id=" +:+ default "" (trace_id new))%string
                    None None ;;;
                  ret (default ""%string (trace_id new), replay_subject l i)
              end
          end
      end
  end.

End Routes.

(** ** Tenants do not reach each other *)

Section Isolation.
Context (uuid_of : string -> option nat).

(** An instance that hangs off no license of the user. *)
Definition foreign_instance (uid : nat) (d : Db) (i : instance) : bool :=
  negb (existsb (fun l => bool_decide (lic_id l = inst_license i) && bool_decide (lic_user l = uid))
                (db_licenses d)).

Definition foreign_license (uid : nat) (l : license) : bool := negb (bool_decide (lic_user l = uid)).

(** The licenses and instances of every other user are as they were in [d]. *)
Definition others_kept (uid : nat) (d d' : Db) : Prop :=
  List.filter (foreign_license uid) (db_licenses d') = List.filter (foreign_license uid) (db_licenses d) /\
  List.filter (foreign_instance uid d) (db_instances d') =
  List.filter (foreign_instance uid d) (db_instances d).

Definition same_tables (d d' : Db) : Prop :=
  db_licenses d' = db_licenses d /\ db_instances d' = db_instances d.

Lemma same_tables_refl : reflexive Db same_tables.
Proof. by split. Qed.
Lemma same_tables_trans : transitive Db same_tables.
Proof. intros d1 d2 d3 [] []. split; congruence. Qed.

Lemma others_kept_refl uid d : others_kept uid d d.
Proof. by split. Qed.

Lemma others_kept_tables uid d d1 d2 : others_kept uid d d1 -> same_tables d1 d2 -> others_kept uid d d2.
Proof. intros [H1 H2] [E1 E2]. split; by rewrite ?E1, ?E2. Qed.

Lemma audit_tables actor action reason before after :
  steps_in same_tables (_audit actor action reason before after).
Proof. unfold _audit. steps_in_auto. Qed.

(** One statement that keeps the others, then bookkeeping. *)
Lemma stmt_then_kept {A B} uid e (f : Db -> result exn A * Db) (k : A -> prog Db exn B) fs d :
  others_kept uid d (f d).2 -> (forall a, steps_in same_tables (k a)) ->
  others_kept uid d (run_state (bind (stmt_r e f) k) fs d).
Proof.
  intros Hf Hk. unfold run_state. rewrite run_bind. cbn [stmt_r run].
  assert (forall fs', others_kept uid d
    (match (f d).1 with Ok a => run (k a) fs' (f d).2 | Err e' => (Err e', (f d).2, fs') end).1.2) as K.
  { intros fs'. destruct (f d).1 as [a|e']; [|done].
    eapply others_kept_tables; [exact Hf|].
    apply (run_steps_in same_tables (k a) fs' (f d).2 same_tables_refl same_tables_trans), Hk. }
  destruct fs as [|[] fs]; cbn; [apply (K [])|by apply others_kept_refl|apply (K fs)].
Qed.

Lemma plain_then_kept {A B} uid e (f : Db -> A * Db) (k : A -> prog Db exn B) fs d :
  others_kept uid d (f d).2 -> (forall a, steps_in same_tables (k a)) ->
  others_kept uid d (run_state (bind (stmt e f) k) fs d).
Proof. exact (stmt_then_kept uid e (fun d => (Ok (f d).1, (f d).2)) k fs d). Qed.

(** The same under an [except] clause that raises again. *)
Lemma try_then_kept {A B} uid e (f : Db -> result exn A * Db) h (k : A -> prog Db exn B) fs d :
  others_kept uid d (f d).2 -> (forall e, exists e', h e = raise e') ->
  (forall a, steps_in same_tables (k a)) ->
  others_kept uid d (run_state (bind (try_ (stmt_r e f) h) k) fs d).
Proof.
  intros Hf Hh Hk.
  replace (run_state (bind (try_ (stmt_r e f) h) k) fs d) with (run_state (bind (stmt_r e f) k) fs d);
    [by apply stmt_then_kept|].
  unfold run_state. rewrite !run_bind, run_try.
  destruct (run (stmt_r e f) fs d) as [[[a|e1] d1] fs1]; [done|]. by destruct (Hh e1) as [e' ->].
Qed.

(** The ownership check reads and returns a license of the user. *)
Lemma own_run license_id uid fs d :
  exists r fs', run (_own_license uuid_of license_id uid) fs d = (r, d, fs') /\
    forall l, r = Ok l -> l ∈ db_licenses d /\ lic_user l = uid.
Proof.
  unfold _own_license. destruct (uuid_of license_id) as [lid|]; [|by eexists _, _].
  destruct (owned_license lid uid d) as [l|] eqn:E.
  - assert (l ∈ db_licenses d /\ lic_user l = uid) as Hl.
    { apply first_where_Some in E as [Hin Hb]. split; [done|].
      apply andb_true_iff in Hb as [_ Hb]. by apply bool_decide_eq_true in Hb. }
    destruct fs as [|[] fs]; cbn; rewrite ?E; eexists _, _; (split; [reflexivity|]); by intros ? [= <-].
  - destruct fs as [|[] fs]; cbn; rewrite ?E; eexists _, _; (split; [reflexivity|]); by intros ? [= <-].
Qed.

Lemma own_then_kept {B} license_id uid (k : license -> prog Db exn B) fs d :
  (forall l fs', l ∈ db_licenses d -> lic_user l = uid -> others_kept uid d (run_state (k l) fs' d)) ->
  others_kept uid d (run_state (bind (_own_license uuid_of license_id uid) k) fs d).
Proof.
  intros Hk. unfold run_state. rewrite run_bind.
  destruct (own_run license_id uid fs d) as (r & fs' & -> & Hr).
  destruct r as [l|e]; [|apply others_kept_refl]. destruct (Hr l eq_refl). by apply Hk.
Qed.

Lemma filter_map_keep {A} (p : A -> bool) (f : A -> A) (l : list A) :
  (forall x, x ∈ l -> p (f x) = p x /\ (p x = true -> f x = x)) ->
  List.filter p (map f l) = List.filter p l.
Proof.
  induction l as [|x l IH]; intros H; [done|]. simpl.
  destruct (H x) as [H1 H2]; [left|]. rewrite H1.
  rewrite IH by (intros y Hy; apply H; by right).
  destruct (p x); [|done]. by rewrite H2.
Qed.

Lemma own_instance_not_foreign uid d l i :
  l ∈ db_licenses d -> lic_user l = uid -> inst_license i = lic_id l -> foreign_instance uid d i = false.
Proof.
  intros Hin Hu Hi. unfold foreign_instance. apply negb_false_iff, existsb_exists.
  exists l. split; [by apply list_elem_of_In|]. by rewrite Hi, !bool_decide_true.
Qed.

Lemma license_id_unique (ls : list license) l l' :
  NoDup (map lic_id ls) -> l ∈ ls -> l' ∈ ls -> lic_id l' = lic_id l -> l' = l.
Proof. intros. by apply (unique_key lic_id ls). Qed.

(** With unique ids, updating a license of the user by id leaves the others. *)
Lemma by_id_kept uid d l f :
  NoDup (map lic_id (db_licenses d)) -> l ∈ db_licenses d -> lic_user l = uid ->
  (forall l', lic_user (f l') = lic_user l') ->
  others_kept uid d (on_licenses (map (by_id (lic_id l) f)) d).
Proof.
  intros Hnd Hin Hu Hf. split; [|done]. apply filter_map_keep. intros l' Hl'. unfold by_id.
  case_bool_decide as E; [|done]. assert (l' = l) as -> by by eapply license_id_unique.
  unfold foreign_license. rewrite Hf, Hu, bool_decide_true by done. done.
Qed.

Ltac bookkeeping := intros; steps_in_auto; apply audit_tables.

Lemma create_license_kept u key secret fs d :
  others_kept (user_id u) d (run_state (create_license u key secret) fs d).
Proof.
  apply stmt_then_kept; [|bookkeeping]. destruct (existsb _ _); [apply others_kept_refl|].
  split; [|done]. simpl. rewrite List.filter_app. simpl. unfold foreign_license at 2. simpl.
  rewrite bool_decide_true by done. by rewrite app_nil_r.
Qed.

Lemma patch_license_kept u lid b fs d :
  others_kept (user_id u) d (run_state (patch_license uuid_of u lid b) fs d).
Proof.
  unfold patch_license. destruct (uuid_of lid) as [n|]; [|apply others_kept_refl].
  apply plain_then_kept; [|bookkeeping].
  split; [|done]. apply filter_map_keep. intros l _. unfold foreign_license.
  destruct (bool_decide (lic_id l = n)); [|done]. by destruct (bool_decide (lic_user l = user_id u)) eqn:E; simpl; rewrite ?E.
Qed.

Lemma create_instance_kept u lid key platform fs d :
  others_kept (user_id u) d (run_state (create_instance uuid_of u lid key platform) fs d).
Proof.
  unfold create_instance. destruct (negb _); [apply others_kept_refl|].
  destruct (negb _); [apply others_kept_refl|].
  apply own_then_kept. intros l fs' Hin Hu. apply try_then_kept; [|intros []; by eexists|bookkeeping].
  destruct (existsb _ _); [apply others_kept_refl|]. split; [done|]. simpl.
  rewrite List.filter_app. simpl. rewrite (own_instance_not_foreign (user_id u) d l) by done.
  by rewrite app_nil_r.
Qed.

Lemma patch_instance_kept u lid iid b fs d :
  others_kept (user_id u) d (run_state (patch_instance uuid_of u lid iid b) fs d).
Proof.
  apply own_then_kept. intros l fs' Hin Hu. destruct (uuid_of iid) as [n|]; [|apply others_kept_refl].
  apply plain_then_kept; [|bookkeeping]. split; [done|]. apply filter_map_keep. intros i _.
  destruct (is_instance n (lic_id l) i) eqn:E; [|done].
  apply andb_true_iff in E as [_ E]. apply bool_decide_eq_true in E.
  rewrite !(own_instance_not_foreign (user_id u) d l) by done. done.
Qed.

Lemma rotate_kept u lid s fs d : NoDup (map lic_id (db_licenses d)) ->
  others_kept (user_id u) d (run_state (rotate_hmac uuid_of u lid s) fs d).
Proof.
  intros Hnd. apply own_then_kept. intros l fs' Hin Hu.
  apply plain_then_kept; [|bookkeeping]. by apply by_id_kept.
Qed.

Lemma confirm_kept u lid fs d : NoDup (map lic_id (db_licenses d)) ->
  others_kept (user_id u) d (run_state (confirm_rotation uuid_of u lid) fs d).
Proof.
  intros Hnd. apply own_then_kept. intros l fs' Hin Hu. case_bool_decide; [apply others_kept_refl|].
  apply stmt_then_kept; [|bookkeeping].
  destruct (existsb _ _); [apply others_kept_refl|]. by apply by_id_kept.
Qed.

Lemma replay_kept u nats sid now fs d :
  others_kept (user_id u) d (run_state (replay_signal uuid_of u nats sid now) fs d).
Proof.
  eapply others_kept_tables; [apply others_kept_refl|].
  apply run_steps_in; [apply same_tables_refl|apply same_tables_trans|].
  unfold replay_signal. steps_in_auto; apply audit_tables.
Qed.

(** The routes of a user that write. *)
Inductive user_route (u : user) : forall A, prog Db exn A -> Prop :=
| r_create_license key secret : user_route u license (create_license u key secret)
| r_patch_license lid b : user_route u license (patch_license uuid_of u lid b)
| r_create_instance lid key platform : user_route u instance (create_instance uuid_of u lid key platform)
| r_patch_instance lid iid b : user_route u instance (patch_instance uuid_of u lid iid b)
| r_rotate lid s : user_route u string (rotate_hmac uuid_of u lid s)
| r_confirm lid : user_route u unit (confirm_rotation uuid_of u lid)
| r_replay nats sid now : user_route u (string * string) (replay_signal uuid_of u nats sid now).

(** C4: tenant isolation.  With unique license ids, no writing route of the API
    changes a license of another user or an instance under one, whatever the path
    parameters and bodies and whichever statements fail. *)
Theorem tenant_isolation u A (p : prog Db exn A) faults d
  (Hp : user_route u A p) (Hnd : NoDup (map lic_id (db_licenses d))) :
  others_kept (user_id u) d (run_state p faults d).
Proof.
  destruct Hp; eauto using create_license_kept, patch_license_kept, create_instance_kept,
    patch_instance_kept, rotate_kept, confirm_kept, replay_kept.
Qed.

End Isolation.

(** ** HMAC rotation *)

Section Rotation.
Context (uuid_of : string -> option nat).

(** A license of the user, found by its path parameter. *)
Definition resolves (license_id : string) (u : user) (d : Db) (l : license) : Prop :=
  exists lid, uuid_of license_id = Some lid /\ owned_license lid (user_id u) d = Some l.

Lemma own_run_ok license_id u d l :
  resolves license_id u d l -> run (_own_license uuid_of license_id (user_id u)) [] d = (Ok l, d, []).
Proof. intros (lid & Hu & Ho). unfold _own_license. rewrite Hu. cbn. by rewrite Ho. Qed.

Lemma audit_run actor action reason before after d :
  exists a, run (_audit actor action reason before after) [] d = (Ok tt, take_id (on_audit (fun l => l ++ [a]) d), []).
Proof. by eexists. Qed.

Lemma owned_license_id lid uid d l : owned_license lid uid d = Some l -> lic_id l = lid /\ lic_user l = uid.
Proof.
  intros H. apply first_where_Some in H as [_ H]. apply andb_true_iff in H as [H1 H2].
  by apply bool_decide_eq_true in H1, H2.
Qed.

(** Updating by id updates what the lookup finds. *)
Lemma owned_by_id lid uid d l f :
  owned_license lid uid d = Some l ->
  (forall l', lic_id (f l') = lic_id l' /\ lic_user (f l') = lic_user l') ->
  owned_license lid uid (on_licenses (map (by_id lid f)) d) = Some (f l).
Proof.
  unfold owned_license, first_where. simpl. intros H Hf. induction (db_licenses d) as [|l' ls IH]; [done|].
  simpl in *.
  assert (lic_id (by_id lid f l') = lic_id l' /\ lic_user (by_id lid f l') = lic_user l') as [-> ->]
    by (unfold by_id; destruct (Hf l'); by case_bool_decide).
  destruct (bool_decide (lic_id l' = lid)) eqn:E; simpl in *; [|by apply IH].
  destruct (bool_decide (lic_user l' = uid)); [|by apply IH].
  injection H as <-. unfold by_id. by rewrite E.
Qed.

Lemma rotate_run u license_id s d l :
  resolves license_id u d l ->
  exists a, run (rotate_hmac uuid_of u license_id s) [] d =
    (Ok s, take_id (on_audit (fun x => x ++ [a]) (on_licenses (map (by_id (lic_id l) (set_pending (Some s)))) d)), []).
Proof.
  intros Hl. unfold rotate_hmac. rewrite run_bind, (own_run_ok _ _ _ _ Hl). by eexists.
Qed.

Lemma no_null_pending lid d uid l (s : string) :
  NoDup (map lic_id (db_licenses d)) -> owned_license lid uid d = Some l -> lic_pending l = Some s ->
  existsb (fun l' => bool_decide (lic_id l' = lic_id l) && bool_decide (lic_pending l' = None)) (db_licenses d) = false.
Proof.
  intros Hnd Ho Hp. apply first_where_Some in Ho as [Hin _].
  destruct (existsb _ _) eqn:E; [|done]. exfalso.
  apply existsb_exists in E as (l' & Hin' & Hb). apply andb_true_iff in Hb as [H1 H2].
  apply bool_decide_eq_true in H1, H2. apply list_elem_of_In in Hin'.
  assert (l' = l) as -> by by eapply license_id_unique. congruence.
Qed.

Lemma by_id_ids lid f ls : (forall l, lic_id (f l) = lic_id l) ->
  map lic_id (map (by_id lid f) ls) = map lic_id ls.
Proof. intros Hf. rewrite map_map. apply map_ext. intros l. unfold by_id. by case_bool_decide. Qed.

(** The dual-secret window.  Starting a rotation keeps the active secret and
    records the new one as pending; confirming makes it the active secret and
    clears the window, everything else of the license unchanged; confirming with
    no pending secret is a 400 that changes nothing. *)
Theorem rotation_protocol u license_id s d l
  (Hnd : NoDup (map lic_id (db_licenses d)))
  (Hl : resolves license_id u d l) (Hs : s <> ""%string) :
  let d1 := run_state (rotate_hmac uuid_of u license_id s) [] d in
  let d2 := run_state (confirm_rotation uuid_of u license_id) [] d1 in
  resolves license_id u d1 (set_pending (Some s) l) /\
  run_result (confirm_rotation uuid_of u license_id) [] d1 = Ok tt /\
  resolves license_id u d2
    (mk_license (lic_id l) (lic_user l) (lic_key l) s None (lic_active l) (lic_created l)) /\
  (default ""%string (lic_pending l) = ""%string ->
   run_result (confirm_rotation uuid_of u license_id) [] d =
     Err (HTTPException 400 "no pending rotation in progress") /\
   run_state (confirm_rotation uuid_of u license_id) [] d = d).
Proof.
  pose proof Hl as (lid & Hu & Ho). pose proof (owned_license_id _ _ _ _ Ho) as [Hid _].
  cbn zeta. unfold run_state, run_result.
  destruct (rotate_run u license_id s d l Hl) as [a ->]. cbn [fst snd].
  set (d1 := take_id (on_audit _ _)).
  assert (owned_license lid (user_id u) d1 = Some (set_pending (Some s) l)) as H1.
  { unfold d1. rewrite Hid. by apply (owned_by_id lid (user_id u) d l (set_pending (Some s)) Ho). }
  assert (NoDup (map lic_id (db_licenses d1))) as Hnd1 by (unfold d1; simpl; by rewrite by_id_ids).
  assert (resolves license_id u d1 (set_pending (Some s) l)) as Hl1 by by exists lid.
  split; [done|]. unfold confirm_rotation. rewrite !run_bind, (own_run_ok _ _ _ _ Hl1).
  rewrite (bool_decide_false (default _ _ = _)) by done. cbn [stmt_r run bind].
  rewrite (no_null_pending lid d1 (user_id u) _ s Hnd1 H1) by done. cbn.
  split; [done|]. split.
  - exists lid. split; [done|]. subst lid.
    exact (owned_by_id _ (user_id u) d1 _ promote H1 (fun l' => conj eq_refl eq_refl)).
  - intros He. rewrite (own_run_ok _ _ _ _ Hl). by rewrite bool_decide_true.
Qed.

End Rotation.

(** ** Replay and the persist worker *)

Section Replay.
Context (uuid_of : string -> option nat).

Lemma replayed_wf sig now : wf_signal sig = true -> wf_signal (replayed sig now) = true.
Proof.
  unfold wf_signal, replayed. cbn [trace_id license_id instance_id command raw_command symbol
    ingress_region received_unix_nano body_sha256 params].
  destruct (trace_id sig) as [t|]; cbn [wf_ostr default]; intros H; bool_hyps;
    repeat (apply andb_true_iff; split); try done. apply wf_str_app; [done|by vm_compute].
Qed.

Lemma replayed_required sig now :
  missing_fields sig = [] -> missing_fields (replayed sig now) = [].
Proof.
  unfold missing_fields, replayed. cbn [trace_id license_id command symbol]. intros H.
  apply app_eq_nil in H as [_ H]. rewrite H, app_nil_r.
  by destruct (trace_id sig) as [[|a t]|].
Qed.

(** The strict parser reads the replayed message back. *)
Lemma parse_replayed raw sig now :
  parse_signal raw = Ok sig ->
  parse_signal (encode_signal_proto (replayed sig now)) = Ok (norm_signal (replayed sig now)).
Proof.
  intros H. apply parse_signal_inv in H as (_ & Hl & Hm).
  assert (wf_signal sig = true) as Hw by (eapply parse_loop_wf; [|exact Hl]; by vm_compute).
  apply parse_of_loop; [by apply parse_loop_encode, replayed_wf|].
  rewrite missing_norm. by apply replayed_required.
Qed.

Lemma norm_replayed sig now :
  get_str (body_sha256 (norm_signal (replayed sig now))) = get_str (body_sha256 sig) /\
  get_str (license_id (norm_signal (replayed sig now))) = get_str (license_id sig).
Proof.
  unfold norm_signal, replayed. simpl.
  split; [destruct (body_sha256 sig) as [[|]|]|destruct (license_id sig) as [[|]|]]; done.
Qed.

Lemma replay_run u sid_text sid now d s l i raw sig :
  uuid_of sid_text = Some sid -> owned_signal sid (user_id u) d = Some (s, l, i) ->
  acc_raw s = Some raw -> decode_signal_proto raw = Ok sig ->
  exists a, run (replay_signal uuid_of u true sid_text now) [] d =
    (Ok (default ""%string (trace_id (replayed sig now)), replay_subject l i),
     take_id (on_audit (fun x => x ++ [a])
       (on_published (fun x => x ++ [(replay_subject l i, encode_signal_proto (replayed sig now))]) d)), []).
Proof.
  intros Hu Ho Hr Hd. unfold replay_signal. rewrite Hu. rewrite run_bind. cbn [query stmt run fst snd].
  cbn. rewrite Ho. rewrite Hr. cbn [negb]. rewrite Hd. by eexists.
Qed.

(** A replay reaches NATS but never the database.  Replaying a stored signal
    publishes one message on the instance's subject, which the persist worker
    parses; its body fingerprint is the original's, which is still recorded, so
    delivering it stores nothing, whatever fails. *)
Theorem replay_is_deduplicated u sid_text sid now d s l i raw sig lic n faults
  (Hu : uuid_of sid_text = Some sid)
  (Ho : owned_signal sid (user_id u) d = Some (s, l, i))
  (Hr : acc_raw s = Some raw) (Hp : parse_signal raw = Ok sig)
  (Hlic : find_active_license (get_str (license_id sig)) d = Some lic)
  (Hsha : get_str (body_sha256 sig) <> ""%string)
  (Hfp : (lic_id lic, get_str (body_sha256 sig)) ∈ db_fingerprints d) :
  let d1 := run_state (replay_signal uuid_of u true sid_text now) [] d in
  let msg := mk_message n (replay_subject l i) (encode_signal_proto (replayed sig now)) in
  db_published d1 = db_published d ++ [(msg_subject msg, msg_data msg)] /\
  parse_signal (msg_data msg) = Ok (norm_signal (replayed sig now)) /\
  db_accepted (run_state (on_signal true msg) faults d1) = db_accepted d.
Proof.
  assert (decode_signal_proto raw = Ok sig) as Hd
    by (apply parse_signal_inv in Hp as (_ & Hl & _); by apply parse_loop_lenient).
  destruct (replay_run u sid_text sid now d s l i raw sig Hu Ho Hr Hd) as [a Hrun].
  cbn zeta. unfold run_state at 1. rewrite Hrun. split; [done|]. split; [by eapply parse_replayed|].
  unfold on_signal. cbn [msg_data]. rewrite (parse_replayed raw sig now Hp), persist_then_ack_accepted.
  destruct (norm_replayed sig now) as [E1 E2].
  unfold run_state at 2. rewrite Hrun. cbn [fst snd].
  rewrite (claimed_never_stored _ _ lic); rewrite ?E1, ?E2; done.
Qed.

End Replay.

(** ** Fills written by the worker are not listed *)

Definition same_listed (iid : nat) (d d' : Db) : Prop :=
  List.filter (fun f => bool_decide (fill_instance f = Some iid)) (db_fills d') =
  List.filter (fun f => bool_decide (fill_instance f = Some iid)) (db_fills d).

Lemma persist_fill_listed iid f : steps_in (same_listed iid) (persist_fill f).
Proof.
  unfold persist_fill, acquire, as_text, as_text_or_null. steps_in_auto.
  apply steps_in_exec. intros d. unfold same_listed, insert_fill. simpl.
  rewrite List.filter_app. simpl. by rewrite app_nil_r.
Qed.

(** Fills recorded by the worker never appear in the fill listing.  Whatever
    fill messages are delivered, the listing of every instance stays as it was,
    because the rows are stored without their instance. *)
Theorem persisted_fills_not_listed jl pool msg faults d iid limit :
  fills_of_instance iid limit (run_state (on_fill jl pool msg) faults d) = fills_of_instance iid limit d.
Proof.
  assert (same_listed iid d (run_state (on_fill jl pool msg) faults d)) as H;
    [|unfold fills_of_instance; by rewrite H].
  apply run_steps_in; [done|intros d1 d2 d3 H1 H2; unfold same_listed in *; congruence|].
  unfold on_fill, persist_then_ack, deadletter, acquire, ack.
  destruct (load_object _ _ _).
  - apply steps_in_bind; [|by repeat split]. destruct pool; [|done].
    apply steps_in_try; [apply persist_fill_listed|done].
  - apply steps_in_bind; [|by repeat split]. destruct pool; [|done].
    apply steps_in_try; [|done]. by repeat split.
Qed.

(** ** A trace lookup shows fills of any tenant *)

Module PortalDemo.
Definition alice : user := mk_user 101 "a@x" "" true 0.
Definition bob : user := mk_user 102 "b@x" "" true 0.
Definition parse_id (s : string) : option nat := Z.to_nat <$> parse_int s.
(** Bob's fill carries the trace id [t-9]. *)
Definition db : Db := on_fills (fun _ =>
  [mk_fill 50 None 2 None "t-9" "filled" (Some "secret-order") None None PNone 5]) PersistDemo.db.
(** Alice's stored signal, fingerprint recorded. *)
Definition stored : Db := run_state (on_signal true (PersistDemo.msg 1)) [] PersistDemo.db.
End PortalDemo.

Lemma trace_shows_foreign_fills :
  match run_result (get_trace PortalDemo.alice "t-9") [] PortalDemo.db with
  | Ok (t, _) => map fill_order (tr_fills t) = [Some "secret-order"%string] /\ map fill_license (tr_fills t) = [2%nat]
  | Err _ => False
  end.
Proof. vm_compute. done. Qed.

(** ** Witnesses *)

Lemma tenant_isolation_witness :
  NoDup (map lic_id (db_licenses PersistDemo.db)) /\
  others_kept 101 PersistDemo.db
    (run_state (patch_license PortalDemo.parse_id PortalDemo.alice "1" false) [] PersistDemo.db).
Proof.
  assert (NoDup (map lic_id (db_licenses PersistDemo.db))) as H
    by (apply (bool_decide_unpack _); vm_compute; exact I).
  split; [exact H|].
  apply (tenant_isolation PortalDemo.parse_id PortalDemo.alice license
    (patch_license PortalDemo.parse_id PortalDemo.alice "1" false) [] PersistDemo.db); [constructor|exact H].
Defined.

Lemma rotation_protocol_witness :
  run_result (confirm_rotation PortalDemo.parse_id PortalDemo.alice "1") []
    (run_state (rotate_hmac PortalDemo.parse_id PortalDemo.alice "1" "new") [] PersistDemo.db) = Ok tt.
Proof.
  apply (rotation_protocol PortalDemo.parse_id PortalDemo.alice "1" "new" PersistDemo.db
    (mk_license 1 101 "L-100" "h1" None true 0)).
  - apply (bool_decide_unpack _). vm_compute. exact I.
  - exists 1%nat. split; vm_compute; reflexivity.
  - discriminate.
Defined.

Lemma replay_is_deduplicated_witness :
  exists l i, db_accepted (run_state (on_signal true
      (mk_message 9 (replay_subject l i) (encode_signal_proto (replayed (norm_signal sample_signal) 5)))) []
      (run_state (replay_signal PortalDemo.parse_id PortalDemo.alice true "1" 5) [] PortalDemo.stored)) =
    db_accepted PortalDemo.stored /\ length (db_accepted PortalDemo.stored) = 1%nat.
Proof.
  eexists (mk_license 1 101 "L-100" "h1" None true 0), (Some (mk_instance 11 1 "I-1" "mt5" true 0)).
  split; [|vm_compute; reflexivity].
  refine (proj2 (proj2 (replay_is_deduplicated PortalDemo.parse_id PortalDemo.alice "1" 1 5 PortalDemo.stored
    _ _ _ PersistDemo.data (norm_signal sample_signal) (mk_license 1 101 "L-100" "h1" None true 0) 9 []
    _ _ _ _ _ _ _))).
  - vm_compute. reflexivity.
  - vm_compute. reflexivity.
  - vm_compute. reflexivity.
  - vm_compute. reflexivity.
  - vm_compute. reflexivity.
  - vm_compute. discriminate.
  - vm_compute. left.
Defined.
