(* ===== verification/Relay.v ===== *)
(** * Relay: the services together over one database

    The persist worker, the tasks service, the reports service and the portal run
    at the same time against the same tables.  This file puts their programs side
    by side.

    First part: an abstract ledger of signals (a fingerprint is unseen, claimed,
    stored or lapsed) and the theorem that the services, retention included,
    interleaved statement by statement and failing anywhere, implement it.  Second
    part: the story of one signal from its delivery to what the portal shows of it. *)

From Stdlib Require Import ZArith SpecFloat Ascii.
From stdpp Require Import relations gmap strings.
From S2P Require Import Prelude Text PyFloat PyVal Wire Prog Db Persist Tasks Analytics Reports Portal.
Open Scope Z_scope.

(** ** The abstract ledger *)

(** What is known of a fingerprint of a license: its signal was claimed by a
    delivery, is stored as the row [r], or retention has touched its records, after
    which the ledger promises nothing of it. *)
Inductive stage := Claimed | Stored (r : accepted) | Lapsed.

Abbreviation ledger := (gmap (nat * string) stage).





(** ** The programs that run at the same time *)

Section Services.
Context (json_loads : bytes -> result string json) (str_other : json -> string).
Context (FILL_TIMEOUT_SECS : Z) (iso : N -> string) (uuid_text : nat -> string).
Context (plan : list accepted -> list accepted) (uuid_of : string -> option nat).
Context (date_iso datetime_iso : Z -> string) (float_repr : spec_float -> bytes) (sha256_hex : string -> string).
Context (RETENTION_DAYS : Z) (drop_chunks : Z -> list accepted -> list accepted).
(** [drop_chunks] only removes rows, and none at or past the cutoff. *)
Context (drop_sub : forall c l, sublist (drop_chunks c l) l).
Context (drop_old : forall c l s, s ∈ l -> c <= Z.of_N (acc_received s) -> s ∈ drop_chunks c l).


Abbreviation check := (fill_timeout_check FILL_TIMEOUT_SECS iso uuid_text plan).
Abbreviation generate := (generate_report uuid_of uuid_text date_iso datetime_iso float_repr sha256_hex).


(** ** What one statement may do to the ledger *)













(** ** What retention may forget *)










(** ** Tokens of the programs *)




(** ** The simulation *)















End Services.

(** ** The story of one signal *)

Definition fills_with (t : string) (d : Db) : list fill :=
  List.filter (fun f => bool_decide (fill_trace f = t)) (db_fills d).
Definition events_with (t : string) (d : Db) : list system_event :=
  List.filter (fun e => bool_decide (ev_trace e = t)) (db_events d).
Definition signals_with (t : string) (d : Db) : list accepted :=
  List.filter (fun s => bool_decide (acc_trace s = t)) (db_accepted d).

(** Nothing in the database carries the trace id. *)
Definition unused (t : string) (d : Db) : Prop :=
  fills_with t d = [] /\ events_with t d = [] /\ signals_with t d = [].

Section Story.
Context (FILL_TIMEOUT_SECS : Z) (iso : N -> string) (uuid_text : nat -> string).
Context (plan : list accepted -> list accepted) (plan_perm : forall l, plan l ≡ₚ l).

Abbreviation check := (fill_timeout_check FILL_TIMEOUT_SECS iso uuid_text plan).
Abbreviation inserts := (insert_timeouts FILL_TIMEOUT_SECS iso uuid_text).
Abbreviation t_fill := (timeout_fill FILL_TIMEOUT_SECS iso uuid_text).
Abbreviation t_event := (timeout_event FILL_TIMEOUT_SECS iso uuid_text).

(** What the check writes for one signal. *)
Definition time_out (s : accepted) (d : Db) : Db :=
  on_events (fun l => l ++ [t_event s]) (insert_fill (t_fill s) d).

Lemma inserts_cons s rows d : run_state (inserts (s :: rows)) [] d = run_state (inserts rows) [] (time_out s d).
Proof. unfold run_state. cbn [insert_timeouts]. rewrite run_bind. cbn [run exec stmt fst snd ret]. by rewrite run_bind. Qed.

Lemma time_out_fills t s d : fills_with t (time_out s d) =
  fills_with t d ++ if bool_decide (acc_trace s = t) then [t_fill s (db_next d) (db_now d)] else [].
Proof. unfold fills_with. cbn. rewrite List.filter_app. cbn. by destruct (bool_decide _). Qed.

Lemma time_out_events t s d : events_with t (time_out s d) =
  events_with t d ++ if bool_decide (acc_trace s = t) then [t_event s] else [].
Proof. unfold events_with. cbn. rewrite List.filter_app. cbn. by destruct (bool_decide _). Qed.

(** Signals, licenses and requests are as they were. *)
Definition same_view (d d' : Db) : Prop :=
  db_accepted d' = db_accepted d /\ db_licenses d' = db_licenses d /\ db_requests d' = db_requests d.

(** Rows of other traces leave this one alone. *)
Lemma inserts_other t rows d : t ∉ map acc_trace rows ->
  let d' := run_state (inserts rows) [] d in
  fills_with t d' = fills_with t d /\ events_with t d' = events_with t d /\ same_view d d'.
Proof.
  revert d. induction rows as [|s rows IH]; intros d Ht; [done|]. cbn [map] in Ht. apply not_elem_of_cons in Ht as [Hs Ht].
  cbn zeta. rewrite inserts_cons. destruct (IH (time_out s d) Ht) as (-> & -> & Hv).
  rewrite time_out_fills, time_out_events, !bool_decide_false, !app_nil_r by congruence. done.
Qed.

(** The one row with the trace gets one fill and one event. *)
Lemma inserts_one s l1 l2 d : acc_trace s ∉ map acc_trace (l1 ++ l2) ->
  let t := acc_trace s in let d' := run_state (inserts (l1 ++ s :: l2)) [] d in
  (exists id, fills_with t d' = fills_with t d ++ [t_fill s id (db_now d)]) /\
  events_with t d' = events_with t d ++ [t_event s] /\ same_view d d'.
Proof.
  cbn zeta. revert d. induction l1 as [|x l1 IH]; intros d Ht; cbn [app map] in *; rewrite inserts_cons.
  - destruct (inserts_other _ _ (time_out s d) Ht) as (-> & -> & Hv).
    rewrite time_out_fills, time_out_events, !bool_decide_true by done. split; [by eexists|done].
  - apply not_elem_of_cons in Ht as [Hx Ht]. destruct (IH (time_out x d) Ht) as ((id & ->) & -> & Hv).
    rewrite time_out_fills, time_out_events, !bool_decide_false, !app_nil_r by congruence. split; [by eexists|done].
Qed.

(** *** One turn of the check *)

Lemma signals_with_selected t d s l1 l2 : signals_with t d = [s] ->
  l1 ++ s :: l2 ≡ₚ List.filter (overdue FILL_TIMEOUT_SECS d) (db_accepted d) -> t ∉ map acc_trace (l1 ++ l2).
Proof.
  intros Ht Hp Hin. apply list_elem_of_fmap in Hin as (x & Ex & Hx).
  assert (length (List.filter (fun s => bool_decide (acc_trace s = t)) (x :: s :: [])) <=
          length (signals_with t d))%nat as H.
  { unfold signals_with. apply filter_submseteq_length. etrans; [|apply (filter_submseteq (overdue FILL_TIMEOUT_SECS d))].
    rewrite <- Hp. apply elem_of_app in Hx as [Hx|Hx]; apply list_elem_of_split in Hx as (a & b & ->).
    - rewrite <- app_assoc. apply submseteq_inserts_l. cbn. apply submseteq_skip.
      apply submseteq_inserts_l. apply (submseteq_inserts_r _ [s] [s]). done.
    - apply submseteq_inserts_l. rewrite Permutation_swap. apply submseteq_skip, submseteq_inserts_l.
      by apply (submseteq_inserts_r _ [x] [x]). }
  assert (acc_trace s = t) as Es.
  { assert (s ∈ signals_with t d) as Hs by (rewrite Ht; by left).
    apply list_elem_of_In, List.filter_In in Hs as [_ Hs]. by apply bool_decide_eq_true in Hs. }
  rewrite Ht in H. cbn in H. rewrite !bool_decide_true in H by done. cbn in H. lia.
Qed.

Lemma check_times_out t s d : signals_with t d = [s] -> overdue FILL_TIMEOUT_SECS d s = true ->
  (length (List.filter (overdue FILL_TIMEOUT_SECS d) (db_accepted d)) <= 100)%nat ->
  let d' := run_state (turn check) [] d in
  (exists id, fills_with t d' = fills_with t d ++ [t_fill s id (db_now d)]) /\
  events_with t d' = events_with t d ++ [t_event s] /\ same_view d d'.
Proof.
  intros Ht Ho Hl. cbn zeta. rewrite clean_turn by done. unfold select_overdue.
  rewrite take_ge by (by rewrite plan_perm).
  assert (s ∈ signals_with t d) as Hs by (rewrite Ht; by left).
  apply list_elem_of_In, List.filter_In in Hs as [Hs Et]. apply bool_decide_eq_true in Et as <-.
  assert (s ∈ plan (List.filter (overdue FILL_TIMEOUT_SECS d) (db_accepted d))) as Hin
    by (rewrite plan_perm; by apply list_elem_of_In, List.filter_In).
  apply list_elem_of_split in Hin as (l1 & l2 & E). rewrite E.
  apply inserts_one. eapply signals_with_selected; [exact Ht|]. by rewrite <- E, plan_perm.
Qed.

Lemma no_fills t d : existsb (fun f => bool_decide (fill_trace f = t)) (db_fills d) = false <-> fills_with t d = [].
Proof using Type.
  unfold fills_with. induction (db_fills d) as [|f l IH]; [done|]. cbn. by destruct (bool_decide _).
Qed.

Lemma check_leaves_answered t d : fills_with t d <> [] ->
  let d' := run_state (turn check) [] d in
  fills_with t d' = fills_with t d /\ events_with t d' = events_with t d /\ same_view d d'.
Proof.
  intros Hf. cbn zeta. rewrite clean_turn by done. apply inserts_other. intros Hin.
  apply list_elem_of_fmap in Hin as (s & -> & Hs). unfold select_overdue in Hs.
  apply elem_of_take in Hs as (i & Hs & _). apply list_elem_of_lookup_2 in Hs. rewrite plan_perm in Hs.
  apply list_elem_of_In, List.filter_In in Hs as [_ Hs]. apply andb_true_iff in Hs as [_ Hs].
  apply Hf, no_fills. by apply negb_true_iff in Hs.
Qed.

(** *** Deliveries *)

(** Everything a trace shows but the signals. *)
Definition same_answers (d d' : Db) : Prop :=
  db_fills d' = db_fills d /\ db_events d' = db_events d /\ db_licenses d' = db_licenses d /\
  db_requests d' = db_requests d.

Lemma on_signal_answers msg d : same_answers d (run_state (on_signal true msg) [] d).
Proof.
  apply run_steps_in; [intros d0; by unfold same_answers|intros d1 d2 d3 (?&?&?&?) (?&?&?&?); unfold same_answers; split_and!; congruence|].
  assert (forall m, steps_in same_answers (ack m)) as Ha by (by repeat split).
  unfold on_signal, persist_then_ack. destruct (parse_signal _) as [sig|e].
  - apply steps_in_bind; [|done]. apply steps_in_try; [|done].
    unfold persist_signal, acquire, claim_fingerprint, store_accepted, bigint. steps_in_auto.
    apply steps_in_stmt. intros d0. unfold insert_fingerprint. by destruct (existsb _ _).
  - apply steps_in_bind; [|done]. unfold deadletter, acquire. steps_in_auto.
Qed.

(** The fill a report becomes, when it is stored. *)
Lemma persist_fill_stores jl (fmsg : message) f l i d :
  load_object jl "fill" (msg_data fmsg) = Ok f ->
  let key := default ""%string (split "."%char (msg_subject fmsg) !! 1%nat) in
  let f1 := dict_set f "instance_id" (PStr key) in
  join_active key (db_licenses d) (db_instances d) = Some (l, i) ->
  run_result (persist_fill f1) [] d = Ok tt ->
  exists fl, db_fills (run_state (on_fill jl true fmsg) [] d) = db_fills d ++ [fl] /\
    get_or f "trace_id" (PStr "") = PStr (fill_trace fl) /\ get_or f "status" (PStr "") = PStr (fill_status fl) /\
    let d' := run_state (on_fill jl true fmsg) [] d in same_view d d' /\ db_events d' = db_events d.
Proof.
  intros Hf key f1 Hj. unfold on_fill. rewrite Hf, persist_then_ack_state. fold key. fold f1.
  assert (get_or f1 "instance_id" (PStr "") = PStr key) as Hk by (unfold get_or, f1; by rewrite dict_get_set_eq).
  assert (forall k v, k <> "instance_id"%string -> get_or f1 k v = get_or f k v) as Hn
    by (intros k v Hne; unfold get_or, f1; by rewrite dict_get_set_ne).
  unfold persist_fill, run_result, run_state. rewrite Hk. cbn. rewrite Hj. cbn.
  rewrite !Hn by discriminate.
  destruct (get_or f "trace_id" (PStr "")) as [| | | |t| |]; cbn; try discriminate.
  destruct (get_or f "status" (PStr "")) as [| | | |st| |]; cbn; try discriminate.
  destruct (py_or (get f1 "broker_order_id") PNone) as [| | | |o| |]; cbn; try discriminate;
    destruct (py_or (get f1 "error_code") PNone) as [| | | |c| |]; cbn; try discriminate;
    destruct (py_or (get f1 "error_message") PNone) as [| | | |e| |]; cbn; try discriminate;
    intros _; eexists; (split; [reflexivity|]); by split_and!.
Qed.

(** *** What the portal shows *)

Lemma trace_shown u t s l d : signals_with t d = [s] -> l ∈ db_licenses d -> lic_id l = acc_license s ->
  lic_user l = user_id u ->
  exists rows, run_result (get_trace u t) [] d =
    Ok (mk_trace t (Some s) (sort_by (fun a b => fill_created a <? fill_created b) (fills_with t d)) (events_with t d), rows).
Proof.
  intros Hs Hl Hid Hu. eexists. unfold get_trace, _trace_payload, run_result. cbn.
  assert (first_where (fun s0 => bool_decide (acc_trace s0 = t) &&
    existsb (fun l => bool_decide (lic_id l = acc_license s0) && bool_decide (lic_user l = user_id u)) (db_licenses d))
    (db_accepted d) = Some s) as ->; [|done].
  revert Hs. unfold signals_with, first_where. induction (db_accepted d) as [|x xs IH]; cbn; [done|].
  destruct (bool_decide (acc_trace x = t)); cbn; [|exact IH]. intros [= -> _].
  assert (existsb (fun l => bool_decide (lic_id l = acc_license s) && bool_decide (lic_user l = user_id u))
    (db_licenses d) = true) as ->; [|done].
  apply existsb_exists. exists l. split; [by apply list_elem_of_In|]. by rewrite Hid, Hu, !bool_decide_true.
Qed.

(** A fresh signal of a license of [u], whose trace id is new. *)
Record fresh (u : user) (msg : message) (sig : signal) (l : license) (d : Db) : Prop := mk_fresh {
  fr_parsed : parse_signal (msg_data msg) = Ok sig;
  fr_license : find_active_license (get_str (license_id sig)) d = Some l;
  fr_owner : lic_user l = user_id u;
  fr_sha : (lic_id l, get_str (body_sha256 sig)) ∉ db_fingerprints d;
  fr_time : (default 0%N (received_unix_nano sig) < 2 ^ 63)%N;
  fr_trace : unused (get_str (trace_id sig)) d }.

Definition row_of (msg : message) (sig : signal) (l : license) (d : Db) : accepted :=
  accepted_row sig (msg_data msg) (lic_id l) (find_instance (lic_id l) (get_str (instance_id sig)) d) (db_next d).

Lemma fresh_delivered u msg sig l d : fresh u msg sig l d ->
  let t := get_str (trace_id sig) in let d1 := run_state (on_signal true msg) [] d in
  signals_with t d1 = [row_of msg sig l d] /\ fills_with t d1 = [] /\ events_with t d1 = [] /\ l ∈ db_licenses d1.
Proof using Type.
  intros [Hp Hl Hu Hs Hn (Hf & He & Ha)]. cbn zeta.
  destruct (on_signal_answers msg d) as (E1 & E2 & E3 & _).
  assert (db_accepted (run_state (on_signal true msg) [] d) = db_accepted d ++ [row_of msg sig l d]) as E4.
  { unfold on_signal. rewrite Hp, persist_then_ack_state. cbn [db_accepted on_acks].
    destruct (persist_signal_run sig (msg_data msg) d Hp) as [-> _]. unfold new_rows. rewrite Hp, Hl.
    rewrite (bool_decide_false _ Hs), andb_false_r. apply N.ltb_lt in Hn. by rewrite Hn. }
  unfold signals_with, fills_with, events_with in *. rewrite E1, E2, E3, E4, List.filter_app, Hf, He, Ha. cbn.
  rewrite bool_decide_true by done. split_and!; try done.
  by apply first_where_Some in Hl as [? _].
Qed.

Section Delivered.
Context (u : user) (msg : message) (sig : signal) (l : license) (d : Db) (Hfresh : fresh u msg sig l d).

Abbreviation t := (get_str (trace_id sig)).
Abbreviation row := (row_of msg sig l d).
Abbreviation d1 := (run_state (on_signal true msg) [] d).

(** What the owner is shown of a state in which the signal is still the only one
    of its trace. *)
Lemma delivered_shown d2 : db_accepted d2 = db_accepted d1 -> db_licenses d2 = db_licenses d1 ->
  exists reqs, run_result (get_trace u t) [] d2 =
    Ok (mk_trace t (Some row) (sort_by (fun a b => fill_created a <? fill_created b) (fills_with t d2)) (events_with t d2), reqs).
Proof using Hfresh.
  intros E1 E2. destruct (fresh_delivered _ _ _ _ _ Hfresh) as (Hs & _ & _ & Hl).
  apply (trace_shown u t row l); [unfold signals_with in *; by rewrite E1|by rewrite E2|done|apply Hfresh].
Qed.

Lemma unfilled_story now :
  (length (List.filter (overdue FILL_TIMEOUT_SECS (on_now (fun _ => now) d1)) (db_accepted d1)) <= 100)%nat ->
  Z.of_N (acc_received row) < now - FILL_TIMEOUT_SECS * seconds ->
  exists id reqs, run_result (get_trace u t) [] (run_state (turn check) [] (on_now (fun _ => now) d1)) =
    Ok (mk_trace t (Some row) [t_fill row id now] [t_event row], reqs).
Proof using Hfresh plan_perm.
  intros Hlen Hnow. destruct (fresh_delivered _ _ _ _ _ Hfresh) as (Hs & Hf & He & _).
  set (dn := on_now (fun _ => now) d1) in *.
  change (fills_with t dn = []) in Hf. change (events_with t dn = []) in He.
  destruct (check_times_out t row dn Hs) as ((id & E1) & E2 & V1 & V2 & V3); [|exact Hlen|].
  - apply andb_true_iff. split; [by apply Z.ltb_lt|]. apply negb_true_iff. by apply no_fills in Hf.
  - destruct (delivered_shown (run_state (turn check) [] dn) V1 V2) as (reqs & E).
    exists id, reqs. by rewrite E, E1, E2, Hf, He.
Qed.

Lemma filled_story json_loads fmsg f l' i now :
  load_object json_loads "fill" (msg_data fmsg) = Ok f -> get_or f "trace_id" (PStr "") = PStr t ->
  let key := default ""%string (split "."%char (msg_subject fmsg) !! 1%nat) in
  join_active key (db_licenses d1) (db_instances d1) = Some (l', i) ->
  run_result (persist_fill (dict_set f "instance_id" (PStr key))) [] d1 = Ok tt ->
  let d2 := run_state (on_fill json_loads true fmsg) [] d1 in
  exists fl reqs, run_result (get_trace u t) [] (run_state (turn check) [] (on_now (fun _ => now) d2)) =
      Ok (mk_trace t (Some row) [fl] [], reqs) /\ get_or f "status" (PStr "") = PStr (fill_status fl).
Proof using Hfresh plan_perm.
  intros Hobj Ht key Hj Hok d2. destruct (fresh_delivered _ _ _ _ _ Hfresh) as (_ & Hf & He & _).
  destruct (persist_fill_stores json_loads fmsg f l' i d1 Hobj Hj Hok) as (fl & E1 & E2 & E3 & (V1 & V2 & V3) & E4).
  fold d2 in E1, V1, V2, E4. set (dn := on_now (fun _ => now) d2).
  assert (fills_with t dn = [fl]) as F2.
  { change (fills_with t d2 = [fl]). unfold fills_with in *. rewrite E1, List.filter_app, Hf. cbn.
    rewrite bool_decide_true; [done|congruence]. }
  assert (events_with t dn = []) as G2 by (unfold events_with in *; cbn; by rewrite E4, He).
  destruct (check_leaves_answered t dn) as (C1 & C2 & W1 & W2 & W3); [by rewrite F2|].
  destruct (delivered_shown (run_state (turn check) [] dn)) as (reqs & E); [by rewrite W1|by rewrite W2|].
  exists fl, reqs. split; [|done]. by rewrite E, C1, C2, F2, G2.
Qed.

End Delivered.

(** C15: the story of a signal, across the persist worker, the tasks service and the
    portal.  Deliver a fresh signal of an active license without failures.  If no
    fill arrives, then once the timeout has passed one turn of the timeout check
    (with no more than a hundred signals overdue) leaves its owner a trace with the
    stored signal, exactly one fill, the timeout, and its one event.  If a fill
    report with its trace id is stored first, then however late the check runs the
    trace shows the signal and exactly that fill, with the status reported, and no
    timeout. *)
Theorem signal_story json_loads u msg sig l d (H : fresh u msg sig l d) :
  let t := get_str (trace_id sig) in
  let row := row_of msg sig l d in
  let d1 := run_state (on_signal true msg) [] d in
  let shown d := run_result (get_trace u t) [] d in
  (forall now, (length (List.filter (overdue FILL_TIMEOUT_SECS (on_now (fun _ => now) d1)) (db_accepted d1)) <= 100)%nat ->
     Z.of_N (acc_received row) < now - FILL_TIMEOUT_SECS * seconds ->
     exists id reqs, shown (run_state (turn check) [] (on_now (fun _ => now) d1)) =
       Ok (mk_trace t (Some row) [t_fill row id now] [t_event row], reqs)) /\
  (forall fmsg f l' i now,
     load_object json_loads "fill" (msg_data fmsg) = Ok f -> get_or f "trace_id" (PStr "") = PStr t ->
     let key := default ""%string (split "."%char (msg_subject fmsg) !! 1%nat) in
     join_active key (db_licenses d1) (db_instances d1) = Some (l', i) ->
     run_result (persist_fill (dict_set f "instance_id" (PStr key))) [] d1 = Ok tt ->
     let d2 := run_state (on_fill json_loads true fmsg) [] d1 in
     exists fl reqs, shown (run_state (turn check) [] (on_now (fun _ => now) d2)) = Ok (mk_trace t (Some row) [fl] [], reqs) /\
       get_or f "status" (PStr "") = PStr (fill_status fl)).
Proof.
  cbn zeta. split; intros; [by apply unfilled_story|by eapply filled_story].
Qed.

End Story.

(** ** Witnesses *)

Module RelayDemo.
Import PersistDemo.
Definition owner : user := mk_user 101 "a@x" "" true 0.
Definition sig : signal := norm_signal sample_signal.
Definition lic : license := mk_license 1 101 "L-100" "h1" None true 0.
Definition report : json := PDict [("trace_id"%string, PStr (get_str (trace_id sig))); ("status"%string, PStr "filled")].
Definition later : Z := Z.of_N (default 0%N (received_unix_nano sig)) + 10 ^ 12.
Definition after_delivery : Db := run_state (on_signal true (msg 1)) [] db.
End RelayDemo.


Lemma relay_fresh : fresh RelayDemo.owner (PersistDemo.msg 1) RelayDemo.sig RelayDemo.lic PersistDemo.db.
Proof.
  constructor; [vm_compute; reflexivity..| | | ].
  - apply not_elem_of_nil.
  - vm_compute. reflexivity.
  - repeat split.
Qed.

Lemma signal_story_witness :
  (exists fl ev reqs, run_result (get_trace RelayDemo.owner (get_str (trace_id RelayDemo.sig))) []
     (run_state (turn (fill_timeout_check 30 TasksDemo.iso TasksDemo.uuid_text TasksDemo.plan)) []
       (on_now (fun _ => RelayDemo.later) RelayDemo.after_delivery)) =
     Ok (mk_trace (get_str (trace_id RelayDemo.sig)) (Some (row_of (PersistDemo.msg 1) RelayDemo.sig RelayDemo.lic PersistDemo.db))
           [fl] [ev], reqs)) /\
  (exists fl reqs, run_result (get_trace RelayDemo.owner (get_str (trace_id RelayDemo.sig))) []
     (run_state (turn (fill_timeout_check 30 TasksDemo.iso TasksDemo.uuid_text TasksDemo.plan)) []
       (on_now (fun _ => RelayDemo.later)
         (run_state (on_fill (fun _ => Ok RelayDemo.report) true PersistDemo.fill_msg) [] RelayDemo.after_delivery))) =
     Ok (mk_trace (get_str (trace_id RelayDemo.sig)) (Some (row_of (PersistDemo.msg 1) RelayDemo.sig RelayDemo.lic PersistDemo.db))
           [fl] [], reqs) /\ fill_status fl = "filled"%string).
Proof.
  destruct (signal_story 30 TasksDemo.iso TasksDemo.uuid_text TasksDemo.plan TasksDemo.plan_perm
    (fun _ => Ok RelayDemo.report) RelayDemo.owner (PersistDemo.msg 1) RelayDemo.sig RelayDemo.lic PersistDemo.db relay_fresh)
    as [H1 H2]. split.
  - destruct (H1 RelayDemo.later) as (id & reqs & E); [vm_compute; lia|vm_compute; reflexivity|].
    eexists _, _, reqs. exact E.
  - destruct (H2 PersistDemo.fill_msg [("trace_id"%string, PStr (get_str (trace_id RelayDemo.sig))); ("status"%string, PStr "filled")]
      RelayDemo.lic (mk_instance 11 1 "I-1" "mt5" true 0) RelayDemo.later) as (fl & reqs & E & Es);
      [vm_compute; reflexivity..|].
    exists fl, reqs. split; [exact E|]. injection Es as <-. reflexivity.
Defined.
