(* ===== verification/Portfolio.v ===== *)
(** * Portfolio: the remaining routes of the portal

    apps/portal-api/app.py: [correlate_signals], [create_signal_group],
    [portfolio_exposure], [risk_metrics], [backtest], [test_signal],
    [export_user_data] and the request-log middleware.

    The state is that of the risk service, which owns the positions, limits and
    drawdowns, with the tables only these routes use.  [pf_entry_price] says
    whether [accepted_signals] has the column [entry_price] that
    [correlate_signals] selects; the migrations do not create it.  Amounts are
    scaled integers as in [Risk]; [float(d)] of a decimal is [f_dec]. *)

From Stdlib Require Import ZArith QArith SpecFloat Lqa.
From S2P Require Import Prelude Text PyFloat PyVal Prog Db Persist Risk Portal.
Open Scope Z_scope.

Record symbol_correlation := mk_symcorr {
  sc_license : nat; sc_a : string; sc_b : string; sc_coefficient : spec_float }.
Record signal_group := mk_group { gr_id : nat; gr_license : nat; gr_name : option string; gr_metadata : option string }.
Record group_member := mk_member { gm_group : nat; gm_signal : nat; gm_reason : option string }.
Record subscription := mk_subscription {
  sub_id : nat; sub_user : nat; sub_type : string; sub_schedule : string; sub_active : bool; sub_created : Z }.

Record pf_state := mk_pf {
  pf_risk : risk_state;
  pf_entry_price : bool;
  pf_correlations : list symbol_correlation;
  pf_groups : list signal_group;
  pf_members : list group_member;
  pf_subscriptions : list subscription }.

Definition pf_db (s : pf_state) : Db := r_db (pf_risk s).

Definition put_db (d : Db) (s : pf_state) : pf_state :=
  let r := pf_risk s in
  mk_pf (mk_risk d (r_positions r) (r_limits r) (r_drawdowns r) (r_breaches r) (r_alerts r) (r_acks r))
    (pf_entry_price s) (pf_correlations s) (pf_groups s) (pf_members s) (pf_subscriptions s).

Definition add_group (g : signal_group) (s : pf_state) : pf_state :=
  mk_pf (pf_risk s) (pf_entry_price s) (pf_correlations s) (pf_groups s ++ [g]) (pf_members s) (pf_subscriptions s).
Definition add_member (m : group_member) (s : pf_state) : pf_state :=
  mk_pf (pf_risk s) (pf_entry_price s) (pf_correlations s) (pf_groups s) (pf_members s ++ [m]) (pf_subscriptions s).

(** A route of [Portal] inside the larger state. *)
Abbreviation on_db := (zoom pf_db put_db).

(** Keys in order of first appearance ([SELECT DISTINCT], a dict's keys). *)
Fixpoint distinct_from (seen l : list string) : list string :=
  match l with
  | [] => []
  | x :: l' => if bool_decide (x ∈ seen) then distinct_from seen l' else x :: distinct_from (x :: seen) l'
  end.
Definition distinct (l : list string) : list string := distinct_from [] l.

Section Routes.
Context (uuid_of : string -> option nat) (uuid_text : nat -> string).

Definition own (license_id : string) (u : user) : prog pf_state exn license :=
  on_db (_own_license uuid_of license_id (user_id u)).

Definition uuid_value (v : json) : option nat := match v with PStr s => uuid_of s | _ => None end.

(** ** Correlation *)

Record correlation_report := mk_correlation_report {
  cr_signals : list (nat * string * string);
  cr_matrix : list (string * spec_float);
  cr_groups : list (string * nat);
  cr_conflicts : list string }.

Definition with_symbol (sym : string) (l : list accepted) : list accepted :=
  List.filter (fun s => bool_decide (acc_symbol s = sym)) l.

(** [symbol_groups]. *)
Definition group_by_symbol (l : list accepted) : list (string * list accepted) :=
  map (fun sym => (sym, with_symbol sym l)) (distinct (map acc_symbol l)).

(** The pairs [i < j]. *)
Fixpoint pairs (l : list string) : list (string * string) :=
  match l with [] => [] | a :: l' => map (fun b => (a, b)) l' ++ pairs l' end.

Fixpoint assign {A} (k : string) (v : A) (l : list (string * A)) : list (string * A) :=
  match l with
  | [] => [(k, v)]
  | (k', v') :: l' => if bool_decide (k' = k) then (k, v) :: l' else (k', v') :: assign k v l'
  end.

Definition find_correlation (lid : nat) (a b : string) (s : pf_state) : option spec_float :=
  sc_coefficient <$> first_where (fun c => bool_decide (sc_license c = lid) && bool_decide (sc_a c = a) &&
                                           bool_decide (sc_b c = b)) (pf_correlations s).

Fixpoint fetch_correlations (lid : nat) (ps : list (string * string)) (acc : list (string * spec_float))
  : prog pf_state exn (list (string * spec_float)) :=
  match ps with
  | [] => ret acc
  | (a, b) :: ps' =>
      corr <- query DbError (find_correlation lid a b) ;;
      fetch_correlations lid ps' (match corr with Some c => assign (a +:+ "-" +:+ b)%string c acc | None => acc end)
  end.

Definition conflicting (g : string * list accepted) : bool :=
  existsb (fun s => bool_decide (acc_command s = "buy"%string)) g.2 &&
  existsb (fun s => bool_decide (acc_command s = "sell"%string)) g.2.

Definition conflict_text (g : string * list accepted) : string :=
  (g.1 +:+ ": conflicting buy/sell signals")%string.

(** [WHERE id = ANY($1) AND license_id = $2]; the ids must be UUIDs, and the column
    list must exist. *)
Definition select_signals (ids : list json) (lid : nat) (s : pf_state) : result exn (list accepted) :=
  if pf_entry_price s then
    if forallb (fun v => match uuid_value v with Some _ => true | None => false end) ids
    then Ok (List.filter (fun a => bool_decide (acc_license a = lid) &&
           existsb (fun v => bool_decide (uuid_value v = Some (acc_id a))) ids) (db_accepted (pf_db s)))
    else Err DataError
  else Err DbError.

Definition correlate_signals (u : user) (license_id : string) (body : pydict spec_float)
  : prog pf_state exn correlation_report :=
  lic <- own license_id u ;;
  let signal_ids := default (PList []) (dict_get body "signal_ids") in
  ids <- match signal_ids with
    | PList ids => if (length ids <? 2)%nat then raise (HTTPException 400 "at least 2 signals required") else ret ids
    | PStr t => if (length (chars_of t) <? 2)%nat then raise (HTTPException 400 "at least 2 signals required")
                else raise DataError
    | PDict l => if (length l <? 2)%nat then raise (HTTPException 400 "at least 2 signals required")
                 else raise DataError
    | v => if truthy v then raise TypeError else raise (HTTPException 400 "at least 2 signals required")
    end ;;
  signals <- stmt_r DbError (fun s => (select_signals ids (lic_id lic) s, s)) ;;
  match signals with
  | [] => raise (HTTPException 404 "signals not found")
  | _ =>
      let groups := group_by_symbol signals in
      matrix <- fetch_correlations (lic_id lic) (pairs (map fst groups)) [] ;;
      ret (mk_correlation_report (map (fun s => (acc_id s, acc_symbol s, acc_command s)) signals) matrix
             (map (fun g => (g.1, length g.2)) groups)
             (map conflict_text (List.filter conflicting groups)))
  end.

(** ** Groups *)

(** [for x in v]: the elements, characters or keys; a number is not iterable. *)
Definition iterate (v : json) : option (list json) :=
  match v with
  | PList l => Some l
  | PStr s => Some (map (fun c => PStr (string_of_chars [c])) (chars_of s))
  | PDict d => Some (map (fun kv => PStr kv.1) d)
  | _ => None
  end.

(** A nullable text or jsonb parameter: the driver takes [str] only. *)
Definition text_param (v : json) : option (option string) :=
  match v with PNone => Some None | PStr s => Some (Some s) | _ => None end.

Definition insert_group (lid : nat) (name metadata : json) (s : pf_state) : result exn nat * pf_state :=
  match text_param name, text_param metadata with
  | Some n, Some m =>
      let id := length (pf_groups s) in
      (Ok id, add_group (mk_group id lid n m) s)
  | _, _ => (Err DataError, s)
  end.

Definition insert_member (gid : nat) (sig reason : json) (s : pf_state) : result exn unit * pf_state :=
  match uuid_value sig, text_param reason with
  | Some sid, Some r => (Ok tt, add_member (mk_member gid sid r) s)
  | _, _ => (Err DataError, s)
  end.

Fixpoint insert_members (gid : nat) (reason : json) (sigs : list json) : prog pf_state exn unit :=
  match sigs with
  | [] => ret tt
  | v :: sigs' => stmt_r DbError (insert_member gid v reason) ;;; insert_members gid reason sigs'
  end.

Definition create_signal_group (u : user) (license_id : string) (body : pydict spec_float)
  : prog pf_state exn (nat * nat) :=
  lic <- own license_id u ;;
  let signal_ids := default (PList []) (dict_get body "signal_ids") in
  let group_name := default (PStr "") (dict_get body "group_name") in
  if negb (truthy signal_ids) then raise (HTTPException 400 "signal_ids required")
  else
    gid <- stmt_r DbError (insert_group (lic_id lic) group_name (default (PDict []) (dict_get body "metadata"))) ;;
    match iterate signal_ids with
    | None => raise TypeError
    | Some sigs =>
        insert_members gid (default (PStr "user_grouped") (dict_get body "reason")) sigs ;;;
        ret (gid, length sigs)
    end.

(** ** Exposure *)

Section Floats.
Context {F : Type} {A : Arith F}.
Open Scope pyf_scope.

(** [float(d)] of a [DECIMAL(12,8)] and of a [DECIMAL(12,2)]. *)
Definition dec8 (z : Z) : F := f_dec z (-8).
Definition dec2 (z : Z) : F := f_dec z (-2).

Definition nonzero (o : option Z) : option Z := match o with Some 0%Z => None | _ => o end.

(** [float(p["current_price"] or p["entry_price"] or 1.0)]. *)
Definition valued_price (r : position_row) : F :=
  match nonzero (pos_price r), nonzero (pos_entry r) with
  | Some p, _ => dec8 p
  | None, Some p => dec8 p
  | None, None => f_dec 10 (-1)
  end.

Definition all_positions_of (lid : nat) (account : string) (s : pf_state) : list position_row :=
  List.filter (fun r => bool_decide (pos_license r = lid) && bool_decide (pos_account r = account))
              (r_positions (pf_risk s)).

Definition exposure_notional (ps : list position_row) : F :=
  py_sum (map (fun r => dec8 (pos_size r) * valued_price r) ps).

(** [float(limit["max_notional_usd"] or 200000) if limit else 200000]. *)
Definition exposure_limit (l : option limit_row) : F :=
  match l ≫= (fun l => nonzero (lim_max l)) with Some m => dec2 m | None => f_int 200000 end.

Record exposure_row := mk_exposure_row {
  xr_account : string; xr_notional : F; xr_limit : F; xr_utilization : F; xr_positions : list (string * F) }.

Definition utilization (notional limit : F) : option F :=
  q ← f_div notional limit; Some (f_round 2 (q * f_int 100)).

Fixpoint exposure_rows (lid : nat) (accounts : list string) : prog pf_state exn (list exposure_row) :=
  match accounts with
  | [] => ret []
  | account :: accounts' =>
      positions <- query DbError (all_positions_of lid account) ;;
      limit <- query DbError (fun s => limit_of lid account (pf_risk s)) ;;
      let notional := exposure_notional positions in
      let limit_usd := exposure_limit limit in
      match utilization notional limit_usd with
      | None => raise ValueError
      | Some pct =>
          rest <- exposure_rows lid accounts' ;;
          ret (mk_exposure_row account notional limit_usd pct
                 (map (fun r => (pos_symbol r, dec8 (pos_size r))) positions) :: rest)
      end
  end.

Definition accounts_with_positions (lid : nat) (s : pf_state) : list string :=
  distinct (map pos_account (List.filter (fun r => bool_decide (pos_license r = lid)) (r_positions (pf_risk s)))).

Definition portfolio_exposure (u : user) (license_id : string) : prog pf_state exn (string * list exposure_row) :=
  lic <- own license_id u ;;
  accounts <- query DbError (accounts_with_positions (lic_id lic)) ;;
  rows <- exposure_rows (lic_id lic) accounts ;;
  ret (uuid_text (lic_id lic), rows).

(** ** Risk metrics *)

(** [float(p["position_size"]) * float(p["current_price"] or 0)]. *)
Definition position_value (r : position_row) : F :=
  dec8 (pos_size r) * match nonzero (pos_price r) with Some p => dec8 p | None => f_zero end.

(** [max(..., key=lambda x: abs(x[2]), default=None)]: the first of the largest. *)
Fixpoint largest_from (best : position_row) (l : list position_row) : position_row :=
  match l with
  | [] => best
  | r :: l' => largest_from (if f_abs (position_value best) <? f_abs (position_value r) then r else best) l'
  end.

Definition largest_position (l : list position_row) : option position_row :=
  match l with [] => None | r :: l' => Some (largest_from r l') end.

Record metrics_row := mk_metrics_row {
  mr_account : string; mr_notional : F; mr_limit : F; mr_ratio : F;
  mr_peak : F; mr_current : F; mr_drawdown : F; mr_largest : option (string * F * F) }.

Definition drawdown_of_account (lid : nat) (account : string) (s : pf_state) : option drawdown_row :=
  first_where (fun r => bool_decide (dd_license r = lid) && bool_decide (dd_account r = account))
              (r_drawdowns (pf_risk s)).

(** [float(limit["max_notional_usd"]) if limit else 0]: a NULL raises. *)
Definition metrics_limit (l : option limit_row) : result exn F :=
  match l with
  | None => Ok f_zero
  | Some l => match lim_max l with Some m => Ok (dec2 m) | None => Err TypeError end
  end.

(** The stored percentage is a fraction here, see [Risk.drawdown_pct]. *)
Definition drawdown_float (p : Z * Z) : F := f_quot (f_int p.1) (f_int p.2).

Definition metrics_of (account : string) (drawdown : option drawdown_row) (positions : list position_row)
  (limit_usd : F) : metrics_row :=
  let notional := py_sum (map position_value positions) in
  mk_metrics_row account notional limit_usd
    (if f_truthy limit_usd then f_round 2 (f_quot notional limit_usd * f_int 100) else f_zero)
    (match drawdown with Some r => dec2 (dd_peak r) | None => f_zero end)
    (match drawdown with Some r => dec2 (dd_current r) | None => f_zero end)
    (match drawdown with Some r => drawdown_float (dd_pct r) | None => f_zero end)
    ((fun r => (pos_symbol r, dec8 (pos_size r), position_value r)) <$> largest_position positions).

Fixpoint metrics_rows (lid : nat) (accounts : list string) : prog pf_state exn (list metrics_row) :=
  match accounts with
  | [] => ret []
  | account :: accounts' =>
      drawdown <- query DbError (drawdown_of_account lid account) ;;
      positions <- query DbError (fun s => account_positions_of lid account (pf_risk s)) ;;
      limit <- query DbError (fun s => limit_of lid account (pf_risk s)) ;;
      limit_usd <- Done (metrics_limit limit) ;;
      rest <- metrics_rows lid accounts' ;;
      ret (metrics_of account drawdown positions limit_usd :: rest)
  end.

Record risk_report := mk_risk_report {
  rr_license : string; rr_accounts : list metrics_row; rr_exposure : F; rr_limit : F; rr_breaches : list breach_row }.

Definition accounts_with_drawdowns (lid : nat) (s : pf_state) : list string :=
  distinct (map dd_account (List.filter (fun r => bool_decide (dd_license r = lid)) (r_drawdowns (pf_risk s)))).

Definition risk_metrics (u : user) (license_id : string) : prog pf_state exn risk_report :=
  lic <- own license_id u ;;
  accounts <- query DbError (accounts_with_drawdowns (lic_id lic)) ;;
  rows <- metrics_rows (lic_id lic) accounts ;;
  breaches <- query DbError (fun s => take 20 (sort_by (fun a b => (br_created b <? br_created a)%Z)
    (List.filter (fun b => bool_decide (br_license b = lic_id lic)) (r_breaches (pf_risk s))))) ;;
  ret (mk_risk_report (uuid_text (lic_id lic)) rows
         (fold_left (fun t r => t + mr_notional r) rows f_zero)
         (fold_left (fun t r => t + mr_limit r) rows f_zero) breaches).

End Floats.

(** ** Proxied requests *)

(** What a call over HTTP gives: no answer ([httpx.HTTPError] with its text), or a
    status, the text of the body and its JSON, if it is JSON. *)
Record http_response := mk_response { hr_status : Z; hr_text : string; hr_json : option json }.
Abbreviation http := (result string http_response).

(** Statuses from 400 on make [raise_for_status] raise.  There is no
    authentication on this route. *)
Definition backtest (post : json -> http) (status_error : http_response -> string) (body : pydict spec_float)
  : prog pf_state exn json :=
  let get k := default PNone (dict_get body k) in
  if negb (truthy (get "license_id"%string) && truthy (get "date_start"%string) && truthy (get "date_end"%string))
  then raise (HTTPException 400 "license_id, date_start, date_end required")
  else
    let failed e := raise (HTTPException 502 ("backtester service error: " +:+ str_take 200 e)%string) in
    match post (PDict [("license_id"%string, get "license_id"%string); ("date_start"%string, get "date_start"%string);
                       ("date_end"%string, get "date_end"%string)]) with
    | Err e => failed e
    | Ok r =>
        if (400 <=? hr_status r)%Z then failed (status_error r)
        else match hr_json r with Some v => ret v | None => raise ValueError end
    end.

(** The signed body, the timestamp and the signature header. *)
Definition test_body (lic : license) (inst : instance) : string :=
  (lic_key lic +:+ ":buy:" +:+ inst_key inst +:+ ":symbol=EURUSD")%string.

Definition test_signal (hmac_sha256 : string -> string -> string) (post : string -> list (string * string) -> http)
  (now : Z) (u : user) (license_id : string) : prog pf_state exn (json * string) :=
  lic <- own license_id u ;;
  inst <- query DbError (fun s => first_where (fun i => bool_decide (inst_license i = lic_id lic) && inst_active i)
                                              (db_instances (pf_db s))) ;;
  match inst with
  | None => raise (HTTPException 422 "no active instances — add one first")
  | Some inst =>
      let body := test_body lic inst in
      match post body [("Content-Type"%string, "text/plain"%string);
                       ("X-ExecRelay-Timestamp"%string, (pretty now : string));
                       ("X-ExecRelay-Signature"%string, ("sha256=" +:+ hmac_sha256 (lic_hmac lic) body)%string)] with
      | Err _ => raise ValueError
      | Ok r =>
          if negb ((hr_status r =? 200)%Z || (hr_status r =? 202)%Z)
          then raise (HTTPException 502 ("ingress returned " +:+ pretty (hr_status r) +:+ ": " +:+
                                         str_take 200 (hr_text r))%string)
          else match hr_json r with
            | Some (PDict o) =>
                let trace_id := default (PStr "") (dict_get o "trace_id") in
                on_db (_audit (user_id u) "test_signal" "" None
                  (Some (PDict [("trace_id"%string, trace_id); ("license_id"%string, PStr license_id)]))) ;;;
                ret (trace_id, "accepted"%string)
            | _ => raise ValueError
            end
      end
  end.

(** ** Export of a user's data *)

Record user_export := mk_export {
  ex_profile : nat * string * Z; ex_roles : list string; ex_licenses : list license;
  ex_instances : list instance; ex_audit : list audit_row; ex_subscriptions : list subscription;
  ex_limits : list limit_row }.

Definition own_licenses (uid : nat) (s : pf_state) : list license :=
  List.filter (fun l => bool_decide (lic_user l = uid)) (db_licenses (pf_db s)).

(** [instances i JOIN licenses l ON l.id = i.license_id WHERE l.user_id = $1]. *)
Definition own_instances (uid : nat) (s : pf_state) : list instance :=
  flat_map (fun i => map (fun _ => i)
    (List.filter (fun l => bool_decide (lic_id l = inst_license i)) (own_licenses uid s))) (db_instances (pf_db s)).

(** The licenses come without their secrets; JSON columns come as text and are
    parsed.  A user deleted meanwhile makes [user_row["id"]] raise. *)
Definition export_user_data (u : user) : prog pf_state exn user_export :=
  row <- query DbError (fun s => first_where (fun x => bool_decide (user_id x = user_id u)) (db_users (pf_db s))) ;;
  match row with
  | None => raise TypeError
  | Some x =>
      roles <- query DbError (fun s => flat_map (fun y =>
        if bool_decide (user_id y = user_id u) && user_role y then ["user"%string] else []) (db_users (pf_db s))) ;;
      licenses <- query DbError (own_licenses (user_id u)) ;;
      instances <- query DbError (own_instances (user_id u)) ;;
      audit <- query DbError (fun s =>
        List.filter (fun a => bool_decide (audit_actor a = user_id u)) (db_audit (pf_db s))) ;;
      subs <- query DbError (fun s =>
        List.filter (fun b => bool_decide (sub_user b = user_id u)) (pf_subscriptions s)) ;;
      limits <- query DbError (fun s =>
        List.filter (fun l => existsb (fun c => bool_decide (lic_id c = lim_license l)) (own_licenses (user_id u) s))
                    (r_limits (pf_risk s))) ;;
      ret (mk_export (user_id x, user_email x, user_created x) roles
             (map (fun l => mk_license (lic_id l) (lic_user l) (lic_key l) "" None (lic_active l) (lic_created l)) licenses)
             instances audit subs limits)
  end.

End Routes.

(** ** The request-log middleware *)

Record mw_response := mk_mw { mw_status : Z; mw_headers : list (string * string); mw_body : option json }.

Definition header (hs : list (string * string)) (k : string) : option string :=
  snd <$> first_where (fun h => bool_decide (lower h.1 = k)) hs.

(** [a or b] on header values. *)
Definition or_else (a : option string) (b : string) : string :=
  match a with Some s => if bool_decide (s = ""%string) then b else s | None => b end.

(** [call_next] returns a response or raises.  Header lookups ignore case, so the
    second spelling adds nothing. *)
Definition dispatch (fresh : string) (headers : list (string * string)) (outcome : result string mw_response)
  : mw_response :=
  let rid := or_else (header headers "x-request-id") fresh in
  let tid := or_else (header headers "x-execrelay-trace-id") "" in
  match outcome with
  | Ok r =>
      let hs := assign "x-request-id" rid (mw_headers r) in
      mk_mw (mw_status r) (if bool_decide (tid = ""%string) then hs else assign "x-execrelay-trace-id" tid hs) (mw_body r)
  | Err _ =>
      mk_mw 500 [("x-request-id"%string, rid)]
        (Some (PDict [("error"%string, PStr "internal_error"); ("request_id"%string, PStr rid)]))
  end.

(** ** Three views of one exposure *)

Lemma dec8_q z : (dec8 (F:=Q) z == inject_Z z / 100000000)%Q.
Proof. unfold dec8. cbn -[Z.pow]. change (Z.to_pos (10 ^ 8)) with 100000000%positive. field. Qed.

Lemma position_value_q r :
  (position_value (F:=Q) r == inject_Z (notional_of r) / inject_Z (10 ^ 16))%Q.
Proof.
  unfold position_value, notional_of, nonzero. change (10 ^ 16) with 10000000000000000.
  destruct (pos_price r) as [[|p|p]|]; cbn [f_mul ArithQ default from_option id]; rewrite ?dec8_q, ?f_zero_q, inject_Z_mult;
    change (inject_Z 0) with 0%Q; field.
Qed.

Lemma py_sum_positions (value : position_row -> Q) ps :
  (forall r, r ∈ ps -> value r == inject_Z (notional_of r) / inject_Z (10 ^ 16))%Q ->
  (py_sum (map value ps) == inject_Z (total_notional ps) / inject_Z (10 ^ 16))%Q.
Proof.
  rewrite py_sum_q. unfold total_notional. induction ps as [|r ps IH]; intros H.
  - reflexivity.
  - cbn [map q_sum fold_right]. fold (q_sum (map value ps)). rewrite IH by (intros x Hx; apply H; by right).
    rewrite (H r) by left. rewrite inject_Z_plus. change (inject_Z (10 ^ 16)) with (10000000000000000 # 1)%Q. field.
Qed.

(** Rows of size zero add nothing. *)
Lemma total_all_positions lid account s :
  total_notional (all_positions_of lid account s) = total_notional (account_positions_of lid account (pf_risk s)).
Proof.
  unfold total_notional, all_positions_of, account_positions_of.
  induction (r_positions (pf_risk s)) as [|r l IH]; [done|]. simpl.
  destruct (bool_decide (pos_license r = lid) && bool_decide (pos_account r = account)); simpl; [|done].
  destruct (Z.eqb_spec (pos_size r) 0) as [E|]; simpl; rewrite IH; [|done].
  unfold notional_of at 1. rewrite E. lia.
Qed.

Lemma valued_position_q r : nonzero (pos_price r) <> None ->
  (dec8 (F:=Q) (pos_size r) * valued_price r == inject_Z (notional_of r) / inject_Z (10 ^ 16))%Q.
Proof.
  intros H. rewrite <- position_value_q. unfold position_value, valued_price.
  destruct (nonzero (pos_price r)); [reflexivity|done].
Qed.

Section Views.
Context (uuid_of : string -> option nat) (uuid_text : nat -> string).

(** The path parameter names a license of the user. *)
Definition names_license (license_id : string) (u : user) (s : pf_state) (lic : license) : Prop :=
  exists lid, uuid_of license_id = Some lid /\ owned_license lid (user_id u) (pf_db s) = Some lic.

Lemma put_db_get s : put_db (pf_db s) s = s.
Proof. by destruct s as [[] ? ? ? ? ?]. Qed.

Lemma own_ok license_id u s lic : names_license license_id u s lic -> run (own uuid_of license_id u) [] s = (Ok lic, s, []).
Proof.
  intros H. unfold own. rewrite run_zoom; [|done|apply put_db_get|done].
  rewrite (own_run_ok uuid_of license_id u (pf_db s) lic H). by rewrite put_db_get.
Qed.

Lemma check_exposure_run lid account r :
  run_result (check_exposure_limits lid account) [] r =
  Ok (mk_exposure (total_notional (account_positions_of lid account r)) (limit_of lid account r ≫= lim_max)
    (match limit_of lid account r ≫= lim_max with
     | Some m => negb (m =? 0) && (m * cents <? total_notional (account_positions_of lid account r))
     | None => false end)).
Proof. done. Qed.

(** Each row of the metrics is the one of its account. *)
Lemma metrics_rows_run lid accounts s rows s' fs :
  run (metrics_rows (F:=Q) lid accounts) [] s = (Ok rows, s', fs) ->
  s' = s /\ fs = [] /\ Forall (fun m => mr_notional m =
    py_sum (map position_value (account_positions_of lid (mr_account m) (pf_risk s)))) rows.
Proof.
  revert rows s' fs. induction accounts as [|a accounts IH]; intros rows s' fs H.
  - simpl in H. injection H as <- <- <-. split_and!; [done..|constructor].
  - cbn [metrics_rows] in H. rewrite !run_bind_query, run_bind in H. cbn [run] in H. destruct (metrics_limit _) as [m|e]; [|done].
    rewrite run_bind in H. destruct (run (metrics_rows lid accounts) [] s) as [[[rest|e] s1] fs1] eqn:E; [|done].
    destruct (IH _ _ _ eq_refl) as (-> & -> & HF). injection H as <- <- <-. split_and!; [done..|].
    by constructor.
Qed.

Lemma exposure_rows_run lid accounts s rows s' fs :
  run (exposure_rows (F:=Q) lid accounts) [] s = (Ok rows, s', fs) ->
  s' = s /\ fs = [] /\ Forall (fun x => xr_notional x = exposure_notional (all_positions_of lid (xr_account x) s)) rows.
Proof.
  revert rows s' fs. induction accounts as [|a accounts IH]; intros rows s' fs H.
  - simpl in H. injection H as <- <- <-. split_and!; [done..|constructor].
  - cbn [exposure_rows] in H. rewrite !run_bind_query in H. destruct (utilization _ _) as [p|]; [|done].
    rewrite run_bind in H. destruct (run (exposure_rows lid accounts) [] s) as [[[rest|e] s1] fs1] eqn:E; [|done].
    destruct (IH _ _ _ eq_refl) as (-> & -> & HF). injection H as <- <- <-. split_and!; [done..|].
    by constructor.
Qed.

(** The portal and the risk service compute the same exposure.  In exact
    arithmetic, the notional of every account in an answer of [risk_metrics] is
    the total the risk service checks against the limit, and so is the one of
    [portfolio_exposure] for every account whose positions all carry a price;
    without a price that route values a position at its entry price, or at 1. *)
Theorem exposure_views_agree u license_id s lic r t rows
  (Hl : names_license license_id u s lic)
  (Hr : run_result (risk_metrics uuid_of uuid_text (F:=Q) u license_id) [] s = Ok r)
  (Hx : run_result (portfolio_exposure uuid_of uuid_text (F:=Q) u license_id) [] s = Ok (t, rows)) :
  (forall m, m ∈ rr_accounts r -> exists e,
     run_result (check_exposure_limits (lic_id lic) (mr_account m)) [] (pf_risk s) = Ok e /\
     (mr_notional m == inject_Z (ex_total e) / inject_Z (10 ^ 16))%Q) /\
  (forall x, x ∈ rows ->
     (forall p, p ∈ all_positions_of (lic_id lic) (xr_account x) s -> nonzero (pos_price p) <> None) ->
     exists e, run_result (check_exposure_limits (lic_id lic) (xr_account x)) [] (pf_risk s) = Ok e /\
       (xr_notional x == inject_Z (ex_total e) / inject_Z (10 ^ 16))%Q).
Proof.
  split.
  - unfold run_result, risk_metrics in Hr. rewrite run_bind, (own_ok _ _ _ _ Hl) in Hr. cbn zeta iota in Hr.
    rewrite run_bind_query, run_bind in Hr.
    destruct (run (metrics_rows _ _) [] s) as [[[ms|e] s1] fs1] eqn:E; [|done].
    apply metrics_rows_run in E as (-> & -> & HF). injection Hr as <-. cbn [rr_accounts].
    intros m Hm. eexists. split; [apply check_exposure_run|]. cbn [ex_total].
    rewrite (proj1 (list.Forall_forall _ _) HF m Hm). apply py_sum_positions. intros p _. apply position_value_q.
  - unfold run_result, portfolio_exposure in Hx. rewrite run_bind, (own_ok _ _ _ _ Hl) in Hx. cbn zeta iota in Hx.
    rewrite run_bind_query, run_bind in Hx.
    destruct (run (exposure_rows _ _) [] s) as [[[xs|e] s1] fs1] eqn:E; [|done].
    apply exposure_rows_run in E as (-> & -> & HF). injection Hx as _ <-.
    intros x Hin Hp. eexists. split; [apply check_exposure_run|]. cbn [ex_total].
    rewrite (proj1 (list.Forall_forall _ _) HF x Hin), <- total_all_positions.
    apply py_sum_positions. intros p Hpin. by apply valued_position_q, Hp.
Qed.

(** One unset limit takes the endpoint down.  When any account with a
    recorded drawdown has a limit row whose maximum is NULL, [risk_metrics] raises
    for the whole license: [float(None)]. *)
Theorem null_limit_fails_metrics {F} `{Arith F} u license_id s lic account l
  (Hl : names_license license_id u s lic)
  (Hacc : account ∈ accounts_with_drawdowns (lic_id lic) s)
  (Hlim : limit_of (lic_id lic) account (pf_risk s) = Some l) (Hnull : lim_max l = None) :
  run_result (risk_metrics uuid_of uuid_text (F:=F) u license_id) [] s = Err TypeError.
Proof.
  unfold run_result, risk_metrics. rewrite run_bind, (own_ok _ _ _ _ Hl). cbn zeta iota.
  rewrite run_bind_query, run_bind.
  assert (forall accounts, account ∈ accounts -> exists s' fs,
    run (metrics_rows (F:=F) (lic_id lic) accounts) [] s = (Err TypeError, s', fs)) as Hrows.
  { intros accounts. induction accounts as [|a accounts IH]; intros Hin; [by apply not_elem_of_nil in Hin|].
    cbn [metrics_rows]. rewrite !run_bind_query, run_bind. cbn [run].
    destruct (decide (a = account)) as [-> |Hne].
    - rewrite Hlim. unfold metrics_limit. rewrite Hnull. by do 2 eexists.
    - apply elem_of_cons in Hin as [->|Hin]; [done|]. destruct (metrics_limit _) as [m|e] eqn:Em.
      + rewrite run_bind. destruct (IH Hin) as (s' & fs & ->). by do 2 eexists.
      + unfold metrics_limit in Em. repeat case_scrutinee_in Em; try done. injection Em as <-. by do 2 eexists. }
  destruct (Hrows _ Hacc) as (s' & fs & ->). done.
Qed.

End Views.

(** ** Correlation and groups *)

Section Grouping.
Context (uuid_of : string -> option nat).

Lemma run_Err_bind {D E A B} (p : prog D E A) (k : A -> prog D E B) fs d b :
  run_result (bind p k) fs d = Ok b -> exists a d' fs', run p fs d = (Ok a, d', fs') /\ run_result (k a) fs' d' = Ok b.
Proof.
  unfold run_result. rewrite run_bind. destruct (run p fs d) as [[[a|e] d'] fs'] eqn:E0; [|done]. eauto 6.
Qed.

Lemma own_entry_price license_id u fs s lic s' fs' :
  run (own uuid_of license_id u) fs s = (Ok lic, s', fs') -> pf_entry_price s' = pf_entry_price s.
Proof.
  unfold own. rewrite run_zoom; [|done|apply put_db_get|done].
  destruct (run _ fs (pf_db s)) as [[r d] f]. by intros [= _ <- _].
Qed.

(** Two routes cannot succeed as deployed.  Over the migrated schema, where
    [accepted_signals] has no [entry_price], [correlate_signals] never answers; and
    [create_signal_group] never succeeds, nor stores anything, unless the client
    sends the metadata as text or null: the default is a dict, which the driver
    refuses for a [jsonb] parameter. *)
Theorem correlate_and_group_fail u license_id body faults s :
  (pf_entry_price s = false -> forall r,
     run_result (correlate_signals uuid_of u license_id body) faults s <> Ok r) /\
  (text_param (default (PDict []) (dict_get body "metadata")) = None ->
     (forall r, run_result (create_signal_group uuid_of u license_id body) faults s <> Ok r) /\
     pf_groups (run_state (create_signal_group uuid_of u license_id body) faults s) = pf_groups s /\
     pf_members (run_state (create_signal_group uuid_of u license_id body) faults s) = pf_members s).
Proof.
  split.
  - intros Hcol r H. apply run_Err_bind in H as (lic & s1 & fs1 & Hown & H). apply own_entry_price in Hown.
    apply run_Err_bind in H as (ids & s2 & fs2 & Hids & H).
    assert (s2 = s1) as ->.
    { destruct (default _ _) as [| | | | | l | l]; repeat case_scrutinee_in Hids; by injection Hids. }
    apply run_Err_bind in H as (sigs & s3 & fs3 & Hsel & _).
    destruct fs2 as [|[] fs2]; cbn in Hsel; unfold select_signals in Hsel; rewrite ?Hown, ?Hcol in Hsel; done.
  - intros Hm. unfold run_result, run_state, create_signal_group. rewrite run_bind.
    unfold own at 1 2 3. rewrite run_zoom; [|done|apply put_db_get|done].
    destruct (run (_own_license _ _ _) faults (pf_db s)) as [[[lic|e] d] fs]; [|done].
    assert (pf_groups (put_db d s) = pf_groups s /\ pf_members (put_db d s) = pf_members s) as [E1 E2] by done.
    destruct (negb _); [done|]. rewrite run_bind.
    remember (default (PDict []) (dict_get body "metadata")) as md eqn:Emd. clear Emd.
    destruct fs as [|[] fs]; cbn; unfold insert_group; rewrite ?Hm;
      try destruct (text_param (default (PStr "") _)); done.
Qed.

Lemma append_inj_r (s1 s2 t : string) : (s1 +:+ t = s2 +:+ t)%string -> s1 = s2.
Proof.
  intros H%(f_equal chars_of). rewrite !chars_of_app in H. apply app_inv_tail in H.
  by rewrite <- (string_of_chars_of s1), <- (string_of_chars_of s2), H.
Qed.

Lemma elem_distinct_from seen l x : x ∈ distinct_from seen l <-> x ∈ l /\ x ∉ seen.
Proof.
  revert seen. induction l as [|y l IH]; intros seen; simpl; [rewrite elem_of_nil; tauto|].
  case_bool_decide as Hy; rewrite !elem_of_cons, IH.
  - split; [tauto|]. intros [[->|?] ?]; tauto.
  - rewrite not_elem_of_cons. destruct (decide (x = y)) as [->|]; tauto.
Qed.

(** A conflict is reported for exactly the symbols with both sides. *)
Lemma conflict_iff sigs sym :
  (sym +:+ ": conflicting buy/sell signals")%string ∈
    map conflict_text (List.filter conflicting (group_by_symbol sigs)) <->
  exists a b, a ∈ sigs /\ b ∈ sigs /\ acc_symbol a = sym /\ acc_symbol b = sym /\
    acc_command a = "buy"%string /\ acc_command b = "sell"%string.
Proof.
  assert (forall c g, existsb (fun s => bool_decide (acc_command s = c)) g = true <->
    exists a, a ∈ g /\ acc_command a = c) as Hex.
  { intros c g. rewrite existsb_exists. split; intros (a & H1 & H2); exists a.
    - by apply bool_decide_eq_true in H2; apply list_elem_of_In in H1.
    - by split; [apply list_elem_of_In|apply bool_decide_eq_true]. }
  rewrite list_elem_of_fmap. unfold group_by_symbol. split.
  - intros (g & Eg & Hg). apply list_elem_of_In, filter_In in Hg as [Hg Hc].
    apply in_map_iff in Hg as (sy & <- & _). unfold conflict_text in Eg. cbn [fst] in Eg.
    apply append_inj_r in Eg as ->.
    apply andb_true_iff in Hc as [Hb Hs]. apply Hex in Hb as (a & Ha & Ea). apply Hex in Hs as (b & Hb' & Eb).
    unfold with_symbol in *. apply list_elem_of_In, filter_In in Ha as [Ha Sa], Hb' as [Hb' Sb].
    apply bool_decide_eq_true in Sa, Sb. apply list_elem_of_In in Ha, Hb'. by exists a, b.
  - intros (a & b & Ha & Hb & Sa & Sb & Ca & Cb). exists (sym, with_symbol sym sigs). split; [done|].
    assert (forall x, x ∈ sigs -> acc_symbol x = sym -> x ∈ with_symbol sym sigs) as Hw.
    { intros x Hx Sx. apply list_elem_of_In, filter_In. split; [by apply list_elem_of_In|by apply bool_decide_eq_true]. }
    apply list_elem_of_In, filter_In. split.
    + apply in_map_iff. exists sym. split; [done|]. apply list_elem_of_In, elem_distinct_from.
      split; [|apply not_elem_of_nil]. apply list_elem_of_fmap. by exists a.
    + apply andb_true_iff. split; apply Hex; [exists a|exists b]; auto.
Qed.

(** What a correlation reports.  With the column present, an undisturbed
    request over at least two UUIDs, some found, answers: the signals found, with a
    conflict for exactly the symbols that have both a buy and a sell among them. *)
Theorem correlate_reports_conflicts u license_id body ids s lic
  (Hl : names_license uuid_of license_id u s lic) (Hcol : pf_entry_price s = true)
  (Hids : dict_get body "signal_ids" = Some (PList ids)) (Hlen : (2 <= length ids)%nat)
  (Huuid : forallb (fun v => match uuid_value uuid_of v with Some _ => true | None => false end) ids = true)
  (Hsome : exists a, a ∈ db_accepted (pf_db s) /\ acc_license a = lic_id lic /\
     exists v, v ∈ ids /\ uuid_value uuid_of v = Some (acc_id a)) :
  exists sigs r, select_signals uuid_of ids (lic_id lic) s = Ok sigs /\
    run_result (correlate_signals uuid_of u license_id body) [] s = Ok r /\
    cr_signals r = map (fun a => (acc_id a, acc_symbol a, acc_command a)) sigs /\
    forall sym, (sym +:+ ": conflicting buy/sell signals")%string ∈ cr_conflicts r <->
      exists a b, a ∈ sigs /\ b ∈ sigs /\ acc_symbol a = sym /\ acc_symbol b = sym /\
        acc_command a = "buy"%string /\ acc_command b = "sell"%string.
Proof.
  unfold select_signals at 1. rewrite Hcol, Huuid. set (sigs := List.filter _ _).
  assert (forall lid ps acc s0, exists m, run (fetch_correlations lid ps acc) [] s0 = (Ok m, s0, [])) as Hfetch.
  { intros lid ps. induction ps as [|[a b] ps IH]; intros acc s0; [by eexists|]. cbn [fetch_correlations].
    rewrite run_bind_query. apply IH. }
  destruct (Hfetch (lic_id lic) (pairs (map fst (group_by_symbol sigs))) [] s) as (m & Hm).
  eexists sigs, _. split; [done|]. split.
  { unfold run_result, correlate_signals. rewrite run_bind, (own_ok _ _ _ _ _ Hl). cbn zeta iota.
    rewrite Hids. cbn [default from_option id]. destruct (Nat.ltb_spec (length ids) 2); [lia|].
    rewrite run_bind. cbn [ret run]. rewrite run_bind. cbn [stmt_r run fst snd]. unfold select_signals.
    rewrite Hcol, Huuid. fold sigs. cbn [run].
    destruct sigs as [|a sigs'] eqn:Es.
    { exfalso. destruct Hsome as (a & Ha & El & v & Hv & Ev). assert (List.In a []) as []. rewrite <- Es.
      apply filter_In. split; [by apply list_elem_of_In|]. apply andb_true_iff. split; [by apply bool_decide_eq_true|].
      apply existsb_exists. exists v. split; [by apply list_elem_of_In|by apply bool_decide_eq_true]. }
    rewrite <- Es in *. rewrite run_bind, Hm. reflexivity. }
  cbn [cr_signals cr_conflicts]. split; [done|]. intros sym. apply conflict_iff.
Qed.

(** ** Export *)

(** C30: an export holds the user's own data, all of it.  An undisturbed export of
    an existing user answers; a license, instance, audit entry or limit is in it
    exactly when it is the user's, and no secret leaves. *)
Theorem export_is_own_and_complete u s x
  (Hu : first_where (fun y => bool_decide (user_id y = user_id u)) (db_users (pf_db s)) = Some x) :
  exists e, run_result (export_user_data u) [] s = Ok e /\
    (forall l, l ∈ ex_licenses e -> lic_hmac l = ""%string /\ lic_pending l = None) /\
    (forall id, id ∈ map lic_id (ex_licenses e) <->
       exists l, l ∈ db_licenses (pf_db s) /\ lic_id l = id /\ lic_user l = user_id u) /\
    (forall i, i ∈ ex_instances e <-> i ∈ db_instances (pf_db s) /\
       exists l, l ∈ db_licenses (pf_db s) /\ lic_id l = inst_license i /\ lic_user l = user_id u) /\
    (forall a, a ∈ ex_audit e <-> a ∈ db_audit (pf_db s) /\ audit_actor a = user_id u) /\
    (forall l, l ∈ ex_limits e <-> l ∈ r_limits (pf_risk s) /\
       exists c, c ∈ db_licenses (pf_db s) /\ lic_id c = lim_license l /\ lic_user c = user_id u).
Proof.
  assert (forall l, l ∈ own_licenses (user_id u) s <-> l ∈ db_licenses (pf_db s) /\ lic_user l = user_id u) as Hown.
  { intros l. unfold own_licenses. rewrite list_elem_of_In, filter_In, <- list_elem_of_In. by rewrite bool_decide_eq_true. }
  unfold run_result, export_user_data. rewrite run_bind_query, Hu. rewrite !run_bind_query.
  eexists. split; [reflexivity|]. cbn [ex_licenses ex_instances ex_audit ex_limits]. split_and!.
  - intros l (l' & -> & _)%list_elem_of_fmap. done.
  - intros id. rewrite map_map, list_elem_of_fmap. cbn [lic_id]. setoid_rewrite Hown.
    split; [intros (l & -> & ? & ?)|intros (l & ? & <- & ?)]; by exists l.
  - intros i. unfold own_instances. rewrite list_elem_of_In, in_flat_map. split.
    + intros (i' & Hi & Hin). apply in_map_iff in Hin as (l & <- & Hl). apply filter_In in Hl as [Hl E].
      apply bool_decide_eq_true in E. apply list_elem_of_In, Hown in Hl as [Hl Eu]. apply list_elem_of_In in Hi. eauto 6.
    + intros (Hi & l & Hl & E & Eu). exists i. split; [by apply list_elem_of_In|]. apply in_map_iff. exists l.
      split; [done|]. apply filter_In. split; [by apply list_elem_of_In, Hown|by apply bool_decide_eq_true].
  - intros a. rewrite list_elem_of_In, filter_In, <- list_elem_of_In. by rewrite bool_decide_eq_true.
  - intros l. rewrite list_elem_of_In, filter_In, <- list_elem_of_In, existsb_exists. split.
    + intros (Hl & c & Hc & E). apply bool_decide_eq_true in E. apply list_elem_of_In, Hown in Hc as [Hc Eu]. eauto 6.
    + intros (Hl & c & Hc & E & Eu). split; [done|]. exists c.
      split; [by apply list_elem_of_In, Hown|by apply bool_decide_eq_true].
Qed.

End Grouping.

(** ** A concrete portfolio *)

Module PortfolioDemo.

Definition uuid_of (s : string) : option nat :=
  if bool_decide (s = "l1"%string) then Some 1%nat else
  if bool_decide (s = "a"%string) then Some 21%nat else if bool_decide (s = "b"%string) then Some 22%nat else None.
Definition uuid_text (n : nat) : string := pretty n.
Definition alice : user := mk_user 9 "a@x" "" true 0.
Definition lic1 : license := mk_license 1 9 "12345678901" "secret" None true 0.
Definition sig (id : nat) (command : string) : accepted :=
  mk_accepted id 0 1 None "t" "eu" command "EURUSD" PNone None.

Definition db : Db := mk_db 100 50 [alice] [lic1] [] [] [sig 21 "buy"; sig 22 "sell"] [] [] [] [] [] [] [] [] [] [] [].

Definition risk (max : option Z) : risk_state :=
  mk_risk db [mk_pos 1 "acc" "EURUSD" 200000000 None (Some 150000000)] [mk_limit 1 "acc" max None None 0]
    [mk_drawdown 1 "acc" 10000 9000 (1000, 100)] [] [] [].

Definition state (column : bool) (max : option Z) : pf_state := mk_pf (risk max) column [] [] [] [].

Lemma alice_owns column max : names_license uuid_of "l1" alice (state column max) lic1.
Proof. by exists 1%nat. Qed.

Lemma exposure_views_agree_witness :
  exists r t rows,
    run_result (risk_metrics uuid_of uuid_text (F:=Q) alice "l1") [] (state false (Some 100000)) = Ok r /\
    run_result (portfolio_exposure uuid_of uuid_text (F:=Q) alice "l1") [] (state false (Some 100000)) = Ok (t, rows) /\
    forall m, m ∈ rr_accounts r -> exists e,
      run_result (check_exposure_limits 1 (mr_account m)) [] (risk (Some 100000)) = Ok e /\
      (mr_notional m == inject_Z (ex_total e) / inject_Z (10 ^ 16))%Q.
Proof.
  do 3 eexists. split; [reflexivity|]. split; [reflexivity|].
  apply (exposure_views_agree uuid_of uuid_text alice "l1" (state false (Some 100000)) lic1 _ _ _
    (alice_owns _ _) eq_refl eq_refl).
Defined.

Lemma null_limit_fails_metrics_witness :
  run_result (risk_metrics uuid_of uuid_text (F:=Q) alice "l1") [] (state false None) = Err TypeError.
Proof.
  apply (null_limit_fails_metrics uuid_of uuid_text alice "l1" (state false None) lic1 "acc"
    (mk_limit 1 "acc" None None None 0) (alice_owns _ _)); [|reflexivity|reflexivity].
  apply (bool_decide_unpack _). by vm_compute.
Defined.

Definition body : pydict spec_float := [("signal_ids"%string, PList [PStr "a"; PStr "b"])].

Lemma correlate_and_group_fail_witness :
  is_ok (run_result (correlate_signals uuid_of alice "l1" body) [] (state false None)) = false /\
  pf_groups (run_state (create_signal_group uuid_of alice "l1" body) [] (state false None)) = [].
Proof.
  destruct (correlate_and_group_fail uuid_of alice "l1" body [] (state false None)) as [H1 H2]. split.
  - specialize (H1 eq_refl). by destruct (run_result _ _ _) as [r|e]; [destruct (H1 r)|].
  - apply (H2 eq_refl).
Defined.

Lemma correlate_reports_conflicts_witness :
  exists r, run_result (correlate_signals uuid_of alice "l1" body) [] (state true None) = Ok r /\
    ("EURUSD" +:+ ": conflicting buy/sell signals")%string ∈ cr_conflicts r.
Proof.
  destruct (correlate_reports_conflicts uuid_of alice "l1" body [PStr "a"; PStr "b"] (state true None) lic1
    (alice_owns _ _)) as (sigs & r & Hs & Hr & _ & Hc); [done|done|simpl; lia|reflexivity| |].
  - exists (sig 21 "buy"). split; [left|]. split; [done|]. exists (PStr "a"). split; [left|reflexivity].
  - exists r. split; [done|]. apply Hc. injection Hs as <-. exists (sig 21 "buy"), (sig 22 "sell").
    vm_compute. split_and!; try done; [left|right; left].
Defined.

Lemma export_is_own_and_complete_witness :
  exists e, run_result (export_user_data alice) [] (state true None) = Ok e /\
    forall l, l ∈ ex_licenses e -> lic_hmac l = ""%string /\ lic_pending l = None.
Proof.
  destruct (export_is_own_and_complete alice (state true None) alice) as (e & H1 & H2 & _); [reflexivity|].
  by exists e.
Defined.

End PortfolioDemo.
