(* ===== verification/Journal.v ===== *)
(** * Journal: the trade journal export of the portal

    apps/portal-api/app.py, [journal_export] and its streams: the user's fills in
    a time range, as CSV or JSON chunks.  Times are UTC microseconds; ISO parsing
    and printing and [json.dumps] are arguments.  [csv_read] is a reader of CSV
    records with double-quote quoting, against which the writer is proved. *)

From Stdlib Require Import ZArith Ascii.
From S2P Require Import Prelude Text PyFloat PyVal Prog Db Persist Portal.
Open Scope Z_scope.

Definition JOURNAL_MAX_ROWS : nat := Z.to_nat 200000.

(** ** CSV *)

Definition comma : ascii := ",".
Definition dquote : ascii := ascii_of_nat 34.
Definition newline : ascii := ascii_of_nat 10.
Definition carriage : ascii := ascii_of_nat 13.

Definition special (c : ascii) : bool :=
  bool_decide (c = comma) || bool_decide (c = dquote) || bool_decide (c = newline) || bool_decide (c = carriage).

(** [str.replace] of a double quote by two. *)
Fixpoint double_quotes (l : chars) : chars :=
  match l with
  | [] => []
  | c :: l' => if bool_decide (c = dquote) then dquote :: dquote :: double_quotes l' else c :: double_quotes l'
  end.

Definition escape_chars (l : chars) : chars :=
  if existsb special l then dquote :: double_quotes l ++ [dquote] else l.

Definition _csv_escape (s : string) : string := string_of_chars (escape_chars (chars_of s)).

(** The escaped fields joined by commas, then a newline. *)
Definition csv_line (fields : list string) : string :=
  (join "," (map _csv_escape fields) +:+ string_of_chars [newline])%string.

(** ** Rows *)

Section JournalExport.
Context (iso : Z -> string) (dumps : json -> string) (uuid_text : nat -> string).
(** The text in which the driver hands a JSONB value over: no codec is set on the
    pool, so the payload of a row is a [str]. *)
Context (jsonb_text : json -> string).

(** A row of the query: a fill of the user with its license and instance. *)
Record journal_row := mk_journal { j_fill : fill; j_license : license; j_instance : option instance }.

Definition join_row (uid : nat) (d : Db) (f : fill) : option journal_row :=
  match first_where (fun l => bool_decide (lic_id l = fill_license f) && bool_decide (lic_user l = uid))
                    (db_licenses d) with
  | None => None
  | Some l => Some (mk_journal f l (fill_instance f ≫= fun iid =>
                      first_where (fun i => bool_decide (inst_id i = iid)) (db_instances d)))
  end.

Definition journal_rows (uid : nat) (start_ts end_ts : Z) (d : Db) : list journal_row :=
  take JOURNAL_MAX_ROWS
    (sort_by (fun a b => fill_created (j_fill a) <? fill_created (j_fill b))
      (List.filter (fun r => (start_ts <=? fill_created (j_fill r)) && (fill_created (j_fill r) <? end_ts))
        (omap (join_row uid d) (db_fills d)))).

Definition text_or_empty (o : option string) : string := default ""%string o.

Definition row_fields (r : journal_row) : list string :=
  [uuid_text (fill_id (j_fill r)); fill_trace (j_fill r); text_or_empty (fill_order (j_fill r));
   fill_status (j_fill r); text_or_empty (fill_error_code (j_fill r)); text_or_empty (fill_error (j_fill r));
   lic_key (j_license r); text_or_empty (inst_key <$> j_instance r); iso (fill_created (j_fill r));
   dumps (PStr (jsonb_text (fill_payload (j_fill r))))].

Definition _csv_row (r : journal_row) : string := csv_line (row_fields r).

Definition csv_header : string :=
  "fill_id,trace_id,broker_order_id,status,error_code,error_message,license_key,instance_key,created_at,payload_json" +:+
  string_of_chars [newline].

Definition _stream_csv (rows : list journal_row) : list string := csv_header :: map _csv_row rows.

Definition opt_text (o : option string) : json := match o with Some s => PStr s | None => PNone end.

Definition _json_row (r : journal_row) : string :=
  dumps (PDict [("fill_id"%string, PStr (uuid_text (fill_id (j_fill r))));
    ("trace_id"%string, PStr (fill_trace (j_fill r))); ("broker_order_id"%string, opt_text (fill_order (j_fill r)));
    ("status"%string, PStr (fill_status (j_fill r))); ("error_code"%string, opt_text (fill_error_code (j_fill r)));
    ("error_message"%string, opt_text (fill_error (j_fill r))); ("license_key"%string, PStr (lic_key (j_license r)));
    ("instance_key"%string, opt_text (inst_key <$> j_instance r));
    ("created_at"%string, PStr (iso (fill_created (j_fill r)))); ("payload"%string, PStr (jsonb_text (fill_payload (j_fill r))))]).

(** A comma before every row but the first. *)
Fixpoint json_chunks (first : bool) (rows : list journal_row) : list string :=
  match rows with
  | [] => []
  | r :: rows' => (if first then [] else [","%string]) ++ _json_row r :: json_chunks false rows'
  end.

Definition _stream_json (rows : list journal_row) : list string :=
  string_of_chars (chars_of "{" ++ dquote :: chars_of "fills" ++ dquote :: chars_of ":[") ::
  json_chunks true rows ++ ["]}"%string].

(** [parse_date] is [datetime.fromisoformat(...).replace(tzinfo=utc)]; [inl e] is
    its [ValueError] with text [e]. *)
Definition journal_export (parse_date : string -> string + Z) (u : user) (from_ to_ : option string)
    (format : string) (now : Z) : prog Db exn (list string) :=
  let fmt := strip (lower format) in
  if negb (bool_decide (fmt = "csv"%string) || bool_decide (fmt = "json"%string)) then
    raise (HTTPException 400 "format must be csv or json")
  else
    let given o := match o with Some s => negb (bool_decide (s = ""%string)) | None => false end in
    let end_ts := if given to_ then parse_date (default ""%string to_) else inr now in
    match end_ts with
    | inl e => raise (HTTPException 400 ("invalid date: " +:+ e))
    | inr end_ts =>
        let start_ts := if given from_ then parse_date (default ""%string from_)
                        else inr (end_ts - 30 * 86400 * 1000000) in
        match start_ts with
        | inl e => raise (HTTPException 400 ("invalid date: " +:+ e))
        | inr start_ts =>
            if end_ts <=? start_ts then raise (HTTPException 400 "from must be before to")
            else
              rows <- query DbError (journal_rows (user_id u) start_ts end_ts) ;;
              ret (if bool_decide (fmt = "csv"%string) then _stream_csv rows else _stream_json rows)
        end
    end.

(** Only the user's own fills, in the half-open range, are exported. *)
Lemma journal_rows_scoped uid start_ts end_ts d r :
  r ∈ journal_rows uid start_ts end_ts d ->
  j_fill r ∈ db_fills d /\ lic_user (j_license r) = uid /\ lic_id (j_license r) = fill_license (j_fill r) /\
  start_ts <= fill_created (j_fill r) < end_ts.
Proof.
  unfold journal_rows. intros H.
  assert (r ∈ List.filter (fun r => (start_ts <=? fill_created (j_fill r)) && (fill_created (j_fill r) <? end_ts))
    (omap (join_row uid d) (db_fills d))) as H1.
  { eapply (elem_sort_by (fun a b => fill_created (j_fill a) <? fill_created (j_fill b))).
    eapply elem_of_take in H as (i & Hi & _). by eapply list_elem_of_lookup_2. }
  apply list_elem_of_In, List.filter_In in H1 as [H1 H2]. apply list_elem_of_In in H1.
  apply list_elem_of_omap in H1 as (f & Hf & Hj). unfold join_row in Hj.
  destruct (first_where _ _) as [l|] eqn:E; [|done]. injection Hj as <-. simpl in *.
  apply first_where_Some in E as [_ E]. bool_hyps.
  repeat match goal with E : bool_decide _ = true |- _ => apply bool_decide_eq_true in E end.
  split_and!; try done; lia.
Qed.

End JournalExport.

(** ** Reading CSV back *)

Inductive csv_mode := AtStart | Plain | Quoted | QuoteSeen.

Fixpoint csv_read (m : csv_mode) (cur : chars) (acc : list string) (l : chars)
  : option (list string * chars) :=
  match l with
  | [] => None
  | c :: l' =>
      let finish := acc ++ [string_of_chars cur] in
      match m with
      | Quoted => if bool_decide (c = dquote) then csv_read QuoteSeen cur acc l'
                  else csv_read Quoted (cur ++ [c]) acc l'
      | QuoteSeen =>
          if bool_decide (c = dquote) then csv_read Quoted (cur ++ [c]) acc l'
          else if bool_decide (c = comma) then csv_read AtStart [] finish l'
          else if bool_decide (c = newline) then Some (finish, l')
          else None
      | AtStart | Plain =>
          if match m with AtStart => bool_decide (c = dquote) | _ => false end
          then csv_read Quoted [] acc l'
          else if bool_decide (c = comma) then csv_read AtStart [] finish l'
          else if bool_decide (c = newline) then Some (finish, l')
          else csv_read Plain (cur ++ [c]) acc l'
      end
  end.

(** What follows a field: another one, or the end of the record. *)
Definition after_field (t : ascii) (acc : list string) (rest : chars) : option (list string * chars) :=
  if bool_decide (t = comma) then csv_read AtStart [] acc rest else Some (acc, rest).

Definition terminator (t : ascii) : Prop := t = comma \/ t = newline.

Lemma read_quoted l : forall cur acc t rest, terminator t ->
  csv_read Quoted cur acc (double_quotes l ++ dquote :: t :: rest) =
  after_field t (acc ++ [string_of_chars (cur ++ l)]) rest.
Proof.
  induction l as [|c l IH]; intros cur acc t rest Ht.
  - rewrite app_nil_r. simpl. unfold after_field. destruct Ht as [-> | ->]; done.
  - simpl. case_bool_decide as E.
    + subst c. cbn. rewrite IH by done. by rewrite <-app_assoc.
    + cbn. rewrite bool_decide_false by done. rewrite IH by done. by rewrite <-app_assoc.
Qed.

Lemma not_special c : special c = false -> c <> comma /\ c <> dquote /\ c <> newline.
Proof. unfold special. intros H. bool_hyps. by repeat match goal with E : bool_decide _ = false |- _ => apply bool_decide_eq_false in E end. Qed.

Lemma read_plain l : forall cur acc t rest, terminator t -> existsb special l = false ->
  csv_read Plain cur acc (l ++ t :: rest) = after_field t (acc ++ [string_of_chars (cur ++ l)]) rest.
Proof.
  induction l as [|c l IH]; intros cur acc t rest Ht H.
  - rewrite app_nil_r. simpl. unfold after_field. destruct Ht as [-> | ->]; done.
  - simpl in H. apply orb_false_iff in H as [Hc Hl]. apply not_special in Hc as (H1 & H2 & H3).
    cbn. rewrite !bool_decide_false by done. rewrite IH by done. by rewrite <-app_assoc.
Qed.

Lemma read_field l acc t rest : terminator t ->
  csv_read AtStart [] acc (escape_chars l ++ t :: rest) = after_field t (acc ++ [string_of_chars l]) rest.
Proof.
  intros Ht. unfold escape_chars. destruct (existsb special l) eqn:E.
  - cbn. rewrite <-app_assoc. cbn. by rewrite read_quoted.
  - destruct l as [|c l].
    + simpl. unfold after_field. destruct Ht as [-> | ->]; done.
    + pose proof (read_plain (c :: l) [] acc t rest Ht E) as H.
      simpl in E. apply orb_false_iff in E as [Hc _]. apply not_special in Hc as (H1 & H2 & H3).
      etrans; [|exact H]. cbn. by rewrite !bool_decide_false.
Qed.

Lemma join_cons s t ts : join "," (s :: t :: ts) = (s +:+ "," +:+ join "," (t :: ts))%string.
Proof. done. Qed.


Lemma read_line fs : forall acc rest, fs <> [] ->
  csv_read AtStart [] acc (chars_of (csv_line fs) ++ rest) = Some (acc ++ fs, rest).
Proof.
  unfold csv_line. intros acc rest. rewrite chars_of_app, chars_of_string_of, <-app_assoc. cbn [app].
  revert acc. induction fs as [|f fs IH]; intros acc Hne; [done|].
  destruct fs as [|g fs].
  - change (join "," (map _csv_escape [f])) with (_csv_escape f). unfold _csv_escape. rewrite chars_of_string_of, read_field by (by right).
    by rewrite string_of_chars_of.
  - cbn [map]. rewrite join_cons, !chars_of_app. unfold _csv_escape at 1.
    rewrite chars_of_string_of, <-!app_assoc. change (chars_of ",") with [comma]. cbn [app].
    rewrite read_field by (by left). unfold after_field. rewrite bool_decide_true by done.
    rewrite string_of_chars_of.
    change (_csv_escape g :: map _csv_escape fs) with (map _csv_escape (g :: fs)).
    rewrite IH by done. by rewrite <-app_assoc.
Qed.

(** The records of a file, one at a time; [fuel] bounds their number. *)
Fixpoint csv_file (fuel : nat) (l : chars) : option (list (list string)) :=
  match fuel, l with
  | _, [] => Some []
  | O, _ => None
  | S fuel', _ =>
      match csv_read AtStart [] [] l with
      | Some (fields, rest) => cons fields <$> csv_file fuel' rest
      | None => None
      end
  end.

Definition header_fields : list string :=
  ["fill_id"; "trace_id"; "broker_order_id"; "status"; "error_code"; "error_message"; "license_key";
   "instance_key"; "created_at"; "payload_json"]%string.

Lemma csv_header_line : csv_header = csv_line header_fields.
Proof. by vm_compute. Qed.

Lemma csv_line_not_empty fs : exists c l, chars_of (csv_line fs) = c :: l.
Proof.
  unfold csv_line. rewrite chars_of_app, chars_of_string_of.
  destruct (chars_of (join "," _)) as [|c l]; by eexists _, _.
Qed.

Lemma csv_file_lines lines : Forall (fun fs => fs <> []) lines ->
  csv_file (length lines) (concat (map (fun fs => chars_of (csv_line fs)) lines)) = Some lines.
Proof.
  induction 1 as [|fs lines Hfs _ IH]; [done|]. cbn [length map concat csv_file].
  destruct (csv_line_not_empty fs) as (c & l & E). pose proof (read_line fs [] (concat (map (fun fs => chars_of (csv_line fs)) lines)) Hfs) as R.
  rewrite E in R |- *. cbn [app] in R |- *. rewrite R. cbn [app]. by rewrite IH.
Qed.

Lemma stream_csv_reads iso dumps uuid_text jsonb_text (rows : list journal_row) :
  csv_file (S (length rows)) (concat (map chars_of (_stream_csv iso dumps uuid_text jsonb_text rows))) =
  Some (header_fields :: map (row_fields iso dumps uuid_text jsonb_text) rows).
Proof.
  assert (concat (map chars_of (_stream_csv iso dumps uuid_text jsonb_text rows)) =
    concat (map (fun fs => chars_of (csv_line fs)) (header_fields :: map (row_fields iso dumps uuid_text jsonb_text) rows))) as ->.
  { unfold _stream_csv. rewrite csv_header_line. cbn [map concat]. f_equal. by rewrite !map_map. }
  replace (S (length rows)) with (length (header_fields :: map (row_fields iso dumps uuid_text jsonb_text) rows))
    by (cbn; by rewrite length_map).
  apply csv_file_lines. constructor; [done|]. apply Forall_forall. intros fs H.
  apply in_map_iff in H as (r & <- & _). done.
Qed.

Lemma journal_rows_at_most uid start_ts end_ts d :
  (length (journal_rows uid start_ts end_ts d) <= JOURNAL_MAX_ROWS)%nat.
Proof. unfold journal_rows. rewrite length_take. lia. Qed.

(** The rows an export may hold: fills of the user, in the requested range. *)
Definition exported (u : user) (start_ts end_ts : Z) (d : Db) (r : journal_row) : Prop :=
  j_fill r ∈ db_fills d /\ lic_user (j_license r) = user_id u /\
  lic_id (j_license r) = fill_license (j_fill r) /\ start_ts <= fill_created (j_fill r) < end_ts.

Lemma journal_export_inv iso dumps uuid_text jsonb_text parse_date u from_ to_ format now faults d chunks :
  run_result (journal_export iso dumps uuid_text jsonb_text parse_date u from_ to_ format now) faults d = Ok chunks ->
  exists start_ts end_ts, start_ts < end_ts /\
    let rows := journal_rows (user_id u) start_ts end_ts d in
    chunks = if bool_decide (strip (lower format) = "csv"%string)
             then _stream_csv iso dumps uuid_text jsonb_text rows
             else _stream_json iso dumps uuid_text jsonb_text rows.
Proof.
  unfold journal_export, run_result. destruct (negb _); [done|].
  cbn zeta. match goal with |- context [match ?x with inl _ => _ | inr _ => _ end] => destruct x as [|e_]; [done|] end.
  match goal with |- context [match ?x with inl _ => _ | inr _ => _ end] => destruct x as [|s_]; [done|] end.
  destruct (e_ <=? s_) eqn:Hes; [done|].
  destruct faults as [|[] fs]; cbn [query stmt bind run fst]; try done; intros E;
    injection E as <-; eexists _, _; (split; [|done]); by apply Z.leb_gt.
Qed.

(** The CSV journal.  A successful CSV export, read back as one file, is the
    header record followed by one ten-field record per exported fill, in order,
    whatever separators, quotes or line breaks the fields hold; every exported
    fill belongs to a license of the requesting user and lies in a half-open,
    non-empty range, and there are at most 200000 of them. *)
Theorem csv_journal_export iso dumps uuid_text jsonb_text parse_date u from_ to_ format now faults d chunks
  (Hf : strip (lower format) = "csv"%string)
  (Hr : run_result (journal_export iso dumps uuid_text jsonb_text parse_date u from_ to_ format now) faults d = Ok chunks) :
  exists start_ts end_ts rows,
    csv_file (length chunks) (concat (map chars_of chunks)) =
      Some (header_fields :: map (row_fields iso dumps uuid_text jsonb_text) rows) /\
    start_ts < end_ts /\ Forall (exported u start_ts end_ts d) rows /\
    (length rows <= JOURNAL_MAX_ROWS)%nat.
Proof.
  apply journal_export_inv in Hr as (s & e & Hlt & ->). rewrite bool_decide_true by done.
  exists s, e, (journal_rows (user_id u) s e d). split_and!; [|done| |apply journal_rows_at_most].
  - rewrite <-stream_csv_reads. unfold _stream_csv. cbn [length]. by rewrite length_map.
  - apply Forall_forall. intros r Hr. apply journal_rows_scoped, list_elem_of_In, Hr.
Qed.

Module JournalDemo.
(** Alice's fill carries a status with a comma, a quote and a line break. *)
Definition messy : string := string_of_chars (chars_of "a,b" ++ [dquote; newline]).
Definition db : Db := on_fills (fun _ =>
  [mk_fill 50 None 1 None "t-9" messy (Some "o-1") None None PNone 5;
   mk_fill 51 None 2 None "t-9" "filled" (Some "o-2") None None PNone 6]) PersistDemo.db.
Definition export : prog Db exn (list string) :=
  journal_export (fun _ => "2025-01-01T00:00:00+00:00"%string) (fun _ => "{}"%string) (fun _ => "id"%string)
    (fun _ => "{}"%string) (fun _ => inl "bad"%string) PortalDemo.alice None None " CSV " 1000.
Definition chunks : list string :=
  Eval vm_compute in match run_result export [] db with Ok c => c | Err _ => [] end.
End JournalDemo.

Lemma csv_journal_export_witness :
  exists start_ts end_ts rows,
    csv_file (length JournalDemo.chunks) (concat (map chars_of JournalDemo.chunks)) =
      Some (header_fields :: map (row_fields (fun _ => "2025-01-01T00:00:00+00:00"%string) (fun _ => "{}"%string)
        (fun _ => "id"%string) (fun _ => "{}"%string)) rows) /\
    start_ts < end_ts /\ Forall (exported PortalDemo.alice start_ts end_ts JournalDemo.db) rows /\
    (length rows <= JOURNAL_MAX_ROWS)%nat.
Proof.
  refine (csv_journal_export _ _ _ _ (fun _ => inl "bad"%string) PortalDemo.alice None None " CSV " 1000 []
    JournalDemo.db JournalDemo.chunks _ _); vm_compute; reflexivity.
Defined.
